(* ===== verification/_CoqProject ===== *)
-Q . S2P
Prelude.v
GoRuntime.v
GoStrings.v
Contracts.v
MemoryStore.v
MemoryConcurrent.v
Encoding.v
Access.v
Sql.v
Atomic.v
HostStore.v
HostStoreProps.v
HostAtomic.v
Registry.v
Operations.v
ShareStore.v
ShareStoreProps.v
MetricValidation.v
MetricWindow.v
EventBus.v
Interfaces.v
FloatFacts.v
GoText.v
NetText.v
Wire.v
Sampler.v
Collect.v
Calendar.v
Ingest.v
IngestTransport.v
HttpJson.v
Agent.v
AgentProps.v
AgentConfig.v
AuthStore.v
RowTransactions.v
Isolation.v
MasterService.v
AuthProps.v
MasterProps.v
Pipeline.v
MasterConfig.v
ServerConfig.v
AuthGuard.v
HttpServer.v
HttpProps.v
HostStream.v
Lifecycle.v
WebHandler.v
ServerApp.v
EventSource.v
LiveView.v
Logging.v
LocalConfig.v
LocalDocker.v
LocalClean.v
TestFixture.v
