(* ===== verification/Prelude.v ===== *)
(** * Gaoming: a verification development of the monitoring system

    Gaoming watches hosts.  An agent on every host samples the operating system
    and streams metric batches to the server over gRPC.  The server is one
    process: the ingest module accepts batches, keeps the current state of hosts
    in PostgreSQL and short metric windows in Redis and publishes changes on a
    Redis channel; the master module serves the browser interface over HTTP, with
    accounts, sessions, shares of hosts by link, maintenance windows and a stream
    of host events; a probe and an offline scan run beside them.  A command-line
    tool manages the databases of a development machine.

    The development is a shallow embedding: every function of the source that
    carries logic is a Rocq function of the same name where that is possible,
    every type a record or an inductive type, and the theorems are about those
    definitions.

    ** How the code is modelled

    - Fallible functions return [result]; the errors are those of the source, with
      their fixed text where it has one.
    - Code over PostgreSQL runs in the state monad [Sql.M], statement by statement
      and transaction by transaction, over the tables of
      [deployments/sql/init.sql].  The parameter [Env] may refuse any statement,
      may carry out a [COMMIT] and lose its acknowledgement, and chooses clock and
      randomness; theorems hold for every [Env].  [Sql.WP] is the
      weakest-precondition calculus the proofs use, [Sql.keeps] its form for
      invariants, [Atomic.atomic] the one for errors that leave all or nothing.
      Programs are total, so the rules are of total correctness.
    - Code over Redis passes a [Redis] state; [RedisEnv] fails round trips and
      pipelines at any point.
    - Services are written against the classes of [Interfaces]; [Ingest] and
      [HttpServer] instantiate them with the database and Redis together.
    - Concurrency is explicit: a critical section is a step, and channels,
      watchers, goroutines, [select], row locks and commits are step relations
      ([MemoryConcurrent], [RowTransactions], [EventBus], [HostStream], [AuthGuard],
      [Lifecycle], [LiveView], [LocalDocker]); what the rest of the
      system does between two steps is any change that keeps the invariants.
    - Machine integers are [Z] with the wrap-around written out, [float64] is IEEE
      754 binary64, strings are byte strings, times are nanoseconds.
    - Libraries are parameters with the law the code relies on: bcrypt (a password
      matches its own hash), JSON and YAML codecs (round trips), [url.Parse],
      [timestamppb], collation, Unicode tables, map iteration order.  SHA-256,
      base64url, hexadecimal, UTF-8, trimming, paths and IP addresses are defined.
    - Recursion is structural.  Only the block loop of SHA-256 takes fuel, the
      length of the padded message, of which it needs a sixty-fourth.  Loops that
      run for the life of the process are functions of the list of their inputs.

    ** The files

    - Language and libraries: [Prelude], [GoRuntime], [GoStrings], [GoText],
      [NetText], [FloatFacts], [Encoding], [Calendar] (dates and RFC 3339).
    - Shared data: [Contracts] (pkg/state, pkg/contracts, pkg/hostruntime
      repository.go), [Access] (pkg/access), [Wire] (monitor.proto).
    - Host stores: [MemoryStore], [MemoryConcurrent] (repository/memory, calls one
      after the other and side by side), [Sql], [Atomic], [HostStore],
      [HostStoreProps] and [HostAtomic] (repository/postgres/store.go), [Registry]
      (the contract of both),
      [Operations] (operations.go), [MetricWindow] and [EventBus]
      (repository/redis), [Interfaces].
    - Transactions side by side: [RowTransactions], [Isolation] (the host store and
      the account store under READ COMMITTED).
    - Shares: [ShareStore], [ShareStoreProps] (pkg/access/postgres).
    - Ingest: [MetricValidation], [Ingest] (ingest/service), [IngestTransport]
      (ingest/transport).
    - Agent: [Sampler], [Collect], [Agent], [AgentProps] (agent/internal/service),
      [AgentConfig] (agent/internal/config, identity, app), [HttpJson] (its earlier
      HTTP client, with pkg/httpx).
    - Master: [AuthStore], [AuthProps] (master/auth), [MasterService],
      [MasterProps] (master/service), [AuthGuard], [HttpServer], [HttpProps],
      [HostStream], [EventSource] (master/transport/http), [LiveView] (writers,
      bus, stream and the page of web/src that shows the hosts, together),
      [Pipeline] (agent, ingest, stores and master reads, together).
    - Process: [MasterConfig], [ServerConfig] (the two config packages),
      [Lifecycle], [WebHandler], [ServerApp] (server/internal/app, probe, the
      start-up administrator, the reconciler, server/main.go), [Logging]
      (pkg/logx).
    - Local development tool: [LocalConfig], [LocalDocker], [LocalClean]
      (internal/localdeps, cmd/localdeps).  Test fixture: [TestFixture]
      (internal/testutil).

    ** What the theorems show

    - Host tables stay well formed under any operations and failures, a failed
      operation leaves no trace, or its whole effect when only the acknowledgement
      of its [COMMIT] was lost, and both stores refine one abstract registry in
      which hosts are never lost ([HostStoreProps], [HostAtomic], [Registry],
      [MemoryStore]).
      Overlapping calls keep the in-memory store sound and serve every watcher
      ([MemoryConcurrent]); overlapping transactions of one agent of a host
      serialise, and no transactions of a host deadlock ([Isolation]).
    - Registration, heartbeats, reports, listings and the offline scan do exactly
      what they promise to the host concerned and nothing to others; the scan's
      events reach the bus in order, or are lost when the bus fails.
    - Nobody gets in without a stored credential, and a refusal does not tell why;
      a session lasts through whatever is done, until a logout, its expiry or the
      user being disabled; there is one setup, and none at all on a server
      that came up ([AuthProps], [ServerApp]).
    - A share, a demo or a session shows the granted hosts and fields and nothing
      else, on every route and on every frame of a stream, and never after its
      revocation ([ShareStoreProps], [MasterProps], [HttpProps], [HostStream]).
    - What a known agent reports in a successful cycle is what every viewer of its
      host reads afterwards ([Pipeline]); the stream acknowledges what was
      accepted, in order; the agent's batches survive the wire, and the
      server computes from them the digest the agent made of its samples, the
      processor usage apart ([Ingest], [IngestTransport], [AgentProps], [Collect], [Sampler]).
    - The server comes down whatever its clients keep open, by the deadline of its
      shutdown, returns the error of the component that ended first exactly when
      it was not asked to stop, leaks no connection, and serves no file outside its web
      directory ([Lifecycle], [ServerApp], [WebHandler]).
    - What a stream writes is what a browser reads, event by event; a new
      connection shows the granted hosts as the tables have them, and an open page
      comes to show every host like that but those of which an event was lost,
      provided each host has one writer at a time ([EventSource], [LiveView]).
    - The processes of the local tool exclude each other and never start the
      databases with other credentials than those on record; a configuration is
      never overwritten, no password reaches the Compose manifest or ends its
      line, and cleaning keeps the data directory ([LocalConfig], [LocalDocker],
      [LocalClean]).
    - Configurations survive being saved and loaded; what is loaded is valid
      ([AgentConfig], [MasterConfig], [ServerConfig]).

    Some theorems prove that the code does something it hardly means to do: the
    offline scan overwrites a heartbeat, a registration of a second agent of a
    host undoes reports of the first, a change of a user's name undoes that the
    user was disabled, overlapping changes leave a watcher of the
    in-memory store with the older list, a failed test leaves its schema behind, a registration re-activates a disabled
    tenant, a report moves a host between tenants or splits a batch over two
    hosts, the usage of a host is that of its last processor, an IPv6 gateway is
    reached in plaintext, a long session lifetime or probe interval overflows,
    the page can miss a change, one whose publication failed too, or take an older
    one for the newer, a peer makes up to 39 login attempts in a minute, a log entry
    with a dangling key keeps one, a half-written configuration is accepted, and
    cleaning through a linked working directory removes the data directory.

    ** What is not modelled

    - The calls that log and the encoding of the log, the text of wrapped errors,
      HTTP status texts and JSON field names outside projected views; they carry
      no logic.
    - The routing of paths to handlers and the registration of gRPC services,
      which are the libraries' work; cookies and JSON bodies arrive decoded.
    - Data races as such: the in-memory store reads a map outside its mutex, which is
      modelled as a step of its own.
    - Isolation between transactions: in [HostStore] and everything above it a
      transaction is one step.  [Isolation] shows for the status row of a host and
      for the row of a user when that is right; shares lock what they read, and the
      set-up takes an advisory lock.  The scan that reads
      outside its transaction is two steps in both.
    - Generated protobuf code; of the web client all but the map of hosts. *)

From stdpp Require Import gmap strings list sorting pretty.

(** ** Results of fallible Go functions

    A Go function returning [(T, error)] is modelled by a [result]: the value
    when [error] is nil, the error otherwise. *)

Declare Scope go_scope.
Delimit Scope go_scope with go.

Inductive result (E A : Type) : Type :=
| Ok (a : A)
| Err (e : E).
Arguments Ok {E A} a.
Arguments Err {E A} e.

#[export] Instance result_ret E : MRet (result E) := λ A a, Ok a.
#[export] Instance result_bind E : MBind (result E) := λ A B f r,
  match r with
  | Ok a => f a
  | Err e => Err e
  end.
#[export] Instance result_fmap E : FMap (result E) := λ A B f r,
  match r with
  | Ok a => Ok (f a)
  | Err e => Err e
  end.

(** [is_ok r]: the Go call returned a nil error. *)
Definition is_ok {E A} (r : result E A) : bool :=
  match r with Ok _ => true | Err _ => false end.

(** ** Tactics *)

(** Split every conditional of the goal and of the hypotheses on its guard. *)
Ltac split_ifs :=
  repeat match goal with
    | |- context [if ?b then _ else _] => destruct b eqn:?
    | H : context [if ?b then _ else _] |- _ => destruct b eqn:?
    end.

(** Turn boolean guards into the propositions they decide. *)
Ltac bool_to_prop :=
  repeat match goal with
    | H : bool_decide _ = true |- _ => apply bool_decide_eq_true in H
    | H : bool_decide _ = false |- _ => apply bool_decide_eq_false in H
    | H : negb _ = true |- _ => apply negb_true_iff in H
    | H : negb _ = false |- _ => apply negb_false_iff in H
    | H : _ && _ = true |- _ => apply andb_true_iff in H as [? ?]
    | H : _ || _ = false |- _ => apply orb_false_iff in H as [? ?]
    | H : _ && _ = false |- _ => apply andb_false_iff in H
    | H : _ || _ = true |- _ => apply orb_true_iff in H
    | H : (_ =? _)%Z = true |- _ => apply Z.eqb_eq in H
    | H : (_ =? _)%Z = false |- _ => apply Z.eqb_neq in H
    | H : (_ <? _)%Z = true |- _ => apply Z.ltb_lt in H
    | H : (_ <? _)%Z = false |- _ => apply Z.ltb_ge in H
    | H : (_ <=? _)%Z = true |- _ => apply Z.leb_le in H
    | H : (_ <=? _)%Z = false |- _ => apply Z.leb_gt in H
    end.

Create HintDb gaoming.
Create Rewrite HintDb gaoming.

(** ** Lists *)

Section lists.
Context {A : Type}.
Implicit Types (l k : list A) (P : A → Prop).

(** [find_first p l]: the first element satisfying the boolean test. *)
Fixpoint find_first (p : A → bool) (l : list A) : option A :=
  match l with
  | [] => None
  | x :: l => if p x then Some x else find_first p l
  end.

Lemma find_first_Some p l x :
  find_first p l = Some x → x ∈ l ∧ p x = true.
Proof.
  induction l as [|y l IH]; simpl; [done|].
  destruct (p y) eqn:Hy; intros; simplify_eq; [set_solver|].
  destruct IH; set_solver.
Qed.

Lemma find_first_None p l :
  find_first p l = None ↔ ∀ x, x ∈ l → p x = false.
Proof.
  induction l as [|y l IH]; simpl; [set_solver|].
  destruct (p y) eqn:Hy.
  - split; [done|]. intros H. rewrite (H y) in Hy; [done|set_solver].
  - rewrite IH. split; intros H x; [|set_solver].
    intros [->|?]%elem_of_cons; auto.
Qed.

(** When the test selects at most one element, [find_first] finds it wherever
    it is in the list. *)
Lemma find_first_unique p l x :
  x ∈ l → p x = true →
  (∀ y, y ∈ l → p y = true → y = x) →
  find_first p l = Some x.
Proof.
  intros Hx Hp Hu. destruct (find_first p l) as [y|] eqn:E.
  - apply find_first_Some in E as [??]. f_equal. auto.
  - rewrite find_first_None in E. by rewrite E in Hp.
Qed.

Lemma find_first_ext p q l :
  (∀ x, x ∈ l → p x = q x) → find_first p l = find_first q l.
Proof.
  induction l as [|y l IH]; simpl; intros H; [done|].
  rewrite H by set_solver. rewrite IH; [done|]. set_solver.
Qed.

(** Boolean filter, as the relational selections and the loops of the code use
    it. *)
Definition select (p : A → bool) (l : list A) : list A := filter (λ x, p x = true) l.

Lemma elem_of_select p l x : x ∈ select p l ↔ p x = true ∧ x ∈ l.
Proof. unfold select. by rewrite list_elem_of_filter. Qed.

Lemma select_cons p x l :
  select p (x :: l) = if p x then x :: select p l else select p l.
Proof.
  unfold select. rewrite filter_cons. destruct (p x); by case_decide.
Qed.

Lemma select_ext p q l :
  (∀ x, x ∈ l → p x = q x) → select p l = select q l.
Proof.
  induction l as [|y l IH]; intros H; [done|].
  rewrite !select_cons, H, IH; [done|set_solver..].
Qed.

Lemma select_all p l : (∀ x, x ∈ l → p x = true) → select p l = l.
Proof.
  unfold select. induction l as [|y l IH]; intros H; [done|].
  rewrite filter_cons_True by (apply H; set_solver). f_equal. apply IH. set_solver.
Qed.

Lemma select_none p l : (∀ x, x ∈ l → p x = false) → select p l = [].
Proof.
  unfold select. induction l as [|y l IH]; intros H; [done|].
  rewrite filter_cons_False by (rewrite H; set_solver). apply IH. set_solver.
Qed.

Lemma select_app p l k : select p (l ++ k) = select p l ++ select p k.
Proof. apply filter_app. Qed.

Lemma length_select_le p l : length (select p l) ≤ length l.
Proof. apply length_filter. Qed.

Lemma select_Permutation p l k : l ≡ₚ k → select p l ≡ₚ select p k.
Proof. intros H. unfold select. by rewrite H. Qed.

Lemma length_select_fmap p (f : A → A) l :
  (∀ x, p (f x) = p x) → length (select p (f <$> l)) = length (select p l).
Proof.
  intros Hf. induction l as [|x l IH]; [done|]. rewrite fmap_cons, !select_cons, Hf.
  destruct (p x); simpl; by rewrite IH.
Qed.

Lemma select_select p q l : select p (select q l) = select (λ x, q x && p x) l.
Proof.
  induction l as [|y l IH]; [done|].
  rewrite !select_cons. destruct (q y); simpl; [rewrite select_cons; destruct (p y)|]; by rewrite IH.
Qed.

End lists.

(** ** Sorting by a string key

    [sort.Slice] with a [<] on one string field, [sort.Strings], and a query's
    [ORDER BY] of a text column all order by the bytes of the key. *)

Section sort_by.
Context {A : Type} (key : A → string).

Definition key_le (x y : A) : Prop := String.le (key x) (key y).

#[local] Instance key_le_dec : RelDecision key_le.
Proof. intros x y. unfold key_le. apply _. Defined.
#[local] Instance key_le_trans : Transitive key_le.
Proof. intros x y z. unfold key_le. apply transitivity. Qed.
#[local] Instance key_le_total : Total key_le.
Proof. intros x y. unfold key_le. apply String.le_total. Qed.

Definition sort_by (l : list A) : list A := merge_sort key_le l.

Lemma sort_by_Permutation l : sort_by l ≡ₚ l.
Proof. apply merge_sort_Permutation. Qed.

Lemma sort_by_sorted l : StronglySorted key_le (sort_by l).
Proof. apply (StronglySorted_merge_sort key_le). Qed.

Lemma elem_of_sort_by x l : x ∈ sort_by l ↔ x ∈ l.
Proof. by rewrite sort_by_Permutation. Qed.

Lemma length_sort_by l : length (sort_by l) = length l.
Proof. by rewrite sort_by_Permutation. Qed.

(** Two sorted permutations agree as soon as the key identifies the elements:
    the result of an unstable sort is then determined by the set of elements. *)
Lemma sorted_by_key_unique l1 l2 :
  StronglySorted key_le l1 → StronglySorted key_le l2 → l1 ≡ₚ l2 →
  (∀ x y, x ∈ l1 → y ∈ l1 → key x = key y → x = y) →
  l1 = l2.
Proof.
  intros Hs1. revert l2. induction Hs1 as [|x1 l1 Hs1 IH Hx1]; intros l2 Hs2 Hp Hinj.
  { by rewrite Permutation_nil_l in Hp. }
  destruct Hs2 as [|x2 l2 Hs2 Hx2].
  { by rewrite Permutation_nil_r in Hp. }
  rewrite list.Forall_forall in Hx1, Hx2.
  assert (x1 = x2) as ->.
  { assert (x1 ∈ x2 :: l2) as H1 by (rewrite <-Hp; set_solver).
    assert (x2 ∈ x1 :: l1) as H2 by (rewrite Hp; set_solver).
    apply elem_of_cons in H1 as [->|H1]; [done|].
    apply elem_of_cons in H2 as [->|H2]; [done|].
    apply Hinj; [set_solver..|]. apply (anti_symm String.le).
    - by apply Hx1.
    - by apply Hx2. }
  f_equal. apply (inj (cons x2)) in Hp. apply IH; [done..|].
  intros; apply Hinj; set_solver.
Qed.

Lemma sort_by_unique l1 l2 :
  l1 ≡ₚ l2 → (∀ x y, x ∈ l1 → y ∈ l1 → key x = key y → x = y) →
  sort_by l1 = sort_by l2.
Proof.
  intros Hp Hinj. apply sorted_by_key_unique; try apply sort_by_sorted.
  - by rewrite !sort_by_Permutation.
  - intros x y Hx Hy. apply Hinj; by rewrite sort_by_Permutation in *.
Qed.

End sort_by.

#[export] Hint Resolve sort_by_sorted : gaoming.
