(* ===== verification/GoRuntime.v ===== *)
(** * The Go language and standard library, as far as the code uses them

    Machine integers keep their width; [float64] is IEEE 754 binary64; strings
    are byte strings; [time.Time] counts nanoseconds.  Unicode character
    classes and the out-of-range float-to-integer conversion are parameters:
    the first are tables of the [unicode] package, the second is left to the
    implementation by the language. *)

From stdpp Require Import gmap strings list sorting pretty.
From Stdlib Require Import SpecFloat.
From S2P Require Import Prelude.
Local Open Scope Z_scope.

(** ** Integers *)

Definition int64_min : Z := - 2 ^ 63.
Definition int64_max : Z := 2 ^ 63 - 1.
Definition uint64_max : Z := 2 ^ 64 - 1.

(** Two's complement reduction to [int64] and [uint64]. *)
Definition to_int64 (z : Z) : Z := (z + 2 ^ 63) mod 2 ^ 64 - 2 ^ 63.
Definition to_uint64 (z : Z) : Z := z mod 2 ^ 64.

Definition in_int64 (z : Z) : bool := (int64_min <=? z) && (z <=? int64_max).
Definition in_uint64 (z : Z) : bool := (0 <=? z) && (z <=? uint64_max).

Lemma to_int64_id z : int64_min ≤ z ≤ int64_max → to_int64 z = z.
Proof.
  unfold int64_min, int64_max, to_int64. intros H.
  rewrite Z.mod_small; lia.
Qed.

Lemma to_int64_range z : int64_min ≤ to_int64 z ≤ int64_max.
Proof.
  unfold int64_min, int64_max, to_int64.
  pose proof (Z.mod_pos_bound (z + 2 ^ 63) (2 ^ 64)). lia.
Qed.

Lemma to_uint64_id z : 0 ≤ z ≤ uint64_max → to_uint64 z = z.
Proof. unfold uint64_max, to_uint64. intros H. apply Z.mod_small. lia. Qed.

Lemma to_uint64_range z : 0 ≤ to_uint64 z ≤ uint64_max.
Proof.
  unfold uint64_max, to_uint64. pose proof (Z.mod_pos_bound z (2 ^ 64)). lia.
Qed.

Lemma in_int64_spec z : in_int64 z = true ↔ int64_min ≤ z ≤ int64_max.
Proof. unfold in_int64. rewrite andb_true_iff, !Z.leb_le. done. Qed.

Lemma in_uint64_spec z : in_uint64 z = true ↔ 0 ≤ z ≤ uint64_max.
Proof. unfold in_uint64. rewrite andb_true_iff, !Z.leb_le. done. Qed.

(** [x++] on an [int64]. *)
Definition int64_incr (z : Z) : Z := to_int64 (z + 1).

Lemma int64_incr_small z : int64_min ≤ z < int64_max → int64_incr z = z + 1.
Proof. intros H. apply to_int64_id. lia. Qed.

#[export] Hint Rewrite to_int64_id to_uint64_id int64_incr_small using lia : gaoming.

(** ** Floating point *)

(** [float64] is binary64 with 53 bits of precision. *)
Abbreviation float64 := spec_float.

Definition f64_zero : float64 := S754_zero false.
Definition f64_of_int (z : Z) : float64 := binary_normalize 53 1024 z 0 false.
Definition f64_div (x y : float64) : float64 := SFdiv 53 1024 x y.
Definition f64_add (x y : float64) : float64 := SFadd 53 1024 x y.
Definition f64_lt (x y : float64) : bool := SFltb x y.
Definition f64_le (x y : float64) : bool := SFleb x y.

Definition is_nan (x : float64) : bool :=
  match x with S754_nan => true | _ => false end.
(** [math.IsInf(x, 0)]. *)
Definition is_inf (x : float64) : bool :=
  match x with S754_infinity _ => true | _ => false end.
Definition is_finite (x : float64) : bool := negb (is_nan x) && negb (is_inf x).

(** The integer part of a finite value, discarding the fraction. *)
Definition f64_trunc (x : float64) : option Z :=
  match x with
  | S754_zero _ => Some 0
  | S754_finite s m e =>
      let a := match e with
               | Z0 => Z.pos m
               | Z.pos p => Z.pos m * 2 ^ Z.pos p
               | Z.neg p => Z.pos m / 2 ^ Z.pos p
               end in
      Some (if s then - a else a)
  | _ => None
  end.

(** Conversion of a [float64] whose integer part is no [int64] is
    implementation specific; an architecture fixes it. *)
Class GoArch := {
  f64_to_int64_out_of_range : float64 → Z;
  f64_to_int64_out_of_range_in : ∀ x,
    int64_min ≤ f64_to_int64_out_of_range x ≤ int64_max
}.

(** [int64(x)] for a [float64]. *)
Definition f64_to_int64 `{GoArch} (x : float64) : Z :=
  match f64_trunc x with
  | Some z => if in_int64 z then z else f64_to_int64_out_of_range x
  | None => f64_to_int64_out_of_range x
  end.

(** The amd64 instruction yields the smallest [int64]. *)
#[global] Program Instance GoArch_amd64 : GoArch := {|
  f64_to_int64_out_of_range := λ _, int64_min
|}.
Next Obligation. unfold int64_min, int64_max; simpl; lia. Qed.

Lemma f64_to_int64_range `{GoArch} x : int64_min ≤ f64_to_int64 x ≤ int64_max.
Proof.
  unfold f64_to_int64. destruct (f64_trunc x) as [z|].
  - destruct (in_int64 z) eqn:E; [by apply in_int64_spec|].
    apply f64_to_int64_out_of_range_in.
  - apply f64_to_int64_out_of_range_in.
Qed.

(** The comparison is antisymmetric and total on numbers. *)
Lemma SFcompare_antisym x y : SFcompare y x = CompOpp <$> SFcompare x y.
Proof.
  destruct x as [[]|[]| |[] mx ex], y as [[]|[]| |[] my ey]; simpl; try done.
  all: rewrite (Z.compare_antisym ex ey); destruct (ex ?= ey); simpl; try done.
  all: f_equal; fold (Pos.compare mx my); fold (Pos.compare my mx).
  all: rewrite (Pos.compare_antisym mx my); by destruct (mx ?= my)%positive.
Qed.

Lemma f64_not_lt_le x y :
  is_nan x = false → is_nan y = false → f64_lt x y = false → f64_le y x = true.
Proof.
  unfold f64_lt, f64_le, SFltb, SFleb. rewrite (SFcompare_antisym x y).
  intros Hx Hy. destruct (SFcompare x y) as [[]|] eqn:E; simpl; try done.
  intros _. destruct x as [[]|[]| |[]], y as [[]|[]| |[]]; simpl in *; done.
Qed.

(** ** Time

    An instant is its distance in nanoseconds from the zero [time.Time]; the
    code reads instants in UTC and never compares locations. *)

Abbreviation Time := Z.
Abbreviation Duration := Z.

Definition time_zero : Time := 0.
Definition time_IsZero (t : Time) : bool := t =? 0.
Definition time_Before (t u : Time) : bool := t <? u.
Definition time_After (t u : Time) : bool := u <? t.
Definition time_Add (t : Time) (d : Duration) : Time := t + d.

(** [t.Sub(u)] saturates at the bounds of [Duration], an [int64]. *)
Definition time_Sub (t u : Time) : Duration :=
  Z.max int64_min (Z.min int64_max (t - u)).

Definition Nanosecond : Duration := 1.
Definition Millisecond : Duration := 1000000.
Definition Second : Duration := 1000000000.
Definition Minute : Duration := 60 * Second.
Definition Hour : Duration := 60 * Minute.

(** A threshold within [Duration] is exceeded by [t.Sub(u)] exactly when the
    exact difference exceeds it: saturation never changes the answer. *)
Lemma time_Sub_le t u d :
  int64_min ≤ d < int64_max → time_Sub t u ≤ d ↔ t - u ≤ d.
Proof. unfold time_Sub. lia. Qed.

Lemma time_Sub_ge t u d :
  int64_min < d ≤ int64_max → d ≤ time_Sub t u ↔ d ≤ t - u.
Proof. unfold time_Sub. lia. Qed.

#[global] Arguments to_int64 : simpl never.
#[global] Arguments to_uint64 : simpl never.
#[global] Arguments int64_incr : simpl never.
#[global] Arguments f64_of_int : simpl never.
#[global] Arguments f64_div : simpl never.
#[global] Arguments f64_add : simpl never.
#[global] Arguments time_Sub : simpl never.
#[global] Arguments Second : simpl never.
#[global] Arguments Hour : simpl never.
#[global] Arguments Minute : simpl never.
