(* ===== verification/GoStrings.v ===== *)
(** * Go strings: byte strings, UTF-8, trimming, hexadecimal and identifiers

    A Go [string] is a sequence of bytes, here [string] with one [ascii] per
    byte; [len] counts bytes and [<] compares them.  The file models what the
    code uses of packages [strings], [unicode/utf8], [encoding/hex], [strconv]
    and of [pkg/ids]. *)

From Stdlib Require Import Ascii.
From stdpp Require Import gmap strings list sorting pretty.
From S2P Require Import Prelude GoRuntime.
Local Open Scope Z_scope.

Definition bytes (s : string) : list ascii := String.list_ascii_of_string s.
Definition of_bytes (l : list ascii) : string := String.string_of_list_ascii l.
Definition byte_val (c : ascii) : Z := Z.of_N (N_of_ascii c).
(** [len(s)]. *)
Definition len (s : string) : Z := Z.of_nat (String.length s).
(** [len] of a slice or a map. *)
Definition llen {A} (l : list A) : Z := Z.of_nat (length l).

Lemma bytes_of_bytes l : bytes (of_bytes l) = l.
Proof. apply String.list_ascii_of_string_of_list_ascii. Qed.
Lemma of_bytes_bytes s : of_bytes (bytes s) = s.
Proof. apply String.string_of_list_ascii_of_string. Qed.

Lemma bytes_inj s t : bytes s = bytes t → s = t.
Proof. intros E. rewrite <-(of_bytes_bytes s), <-(of_bytes_bytes t). by rewrite E. Qed.

Lemma byte_val_range c : 0 ≤ byte_val c < 256.
Proof. unfold byte_val. pose proof (N_ascii_bounded c). lia. Qed.

Lemma bytes_app s t : bytes (s +:+ t) = bytes s ++ bytes t.
Proof. induction s as [|c s IH]; simpl; [done|]. unfold bytes in *. simpl. by rewrite IH. Qed.

(** [s == ""]. *)
Definition str_empty (s : string) : bool := bool_decide (s = ""%string).
(** [s == t]. *)
Definition str_eqb (s t : string) : bool := bool_decide (s = t).

Lemma str_eqb_true s t : str_eqb s t = true ↔ s = t.
Proof. apply bool_decide_eq_true. Qed.
Lemma str_eqb_false s t : str_eqb s t = false ↔ s ≠ t.
Proof. apply bool_decide_eq_false. Qed.
Lemma str_eqb_refl s : str_eqb s s = true.
Proof. by apply str_eqb_true. Qed.
Lemma str_eqb_neq s t : s ≠ t → str_eqb s t = false.
Proof. apply str_eqb_false. Qed.
Lemma str_empty_true s : str_empty s = true ↔ s = ""%string.
Proof. apply bool_decide_eq_true. Qed.
Lemma str_empty_false s : str_empty s = false ↔ s ≠ ""%string.
Proof. apply bool_decide_eq_false. Qed.

(** ** [strings.TrimSpace]

    White space is Unicode's [White_Space] property: six ASCII characters, two
    characters encoded on two bytes and the ones encoded on three. *)

Definition space1 (a : ascii) : bool :=
  let x := byte_val a in ((9 <=? x) && (x <=? 13)) || (x =? 32).
Definition space2 (a b : ascii) : bool :=
  (byte_val a =? 194) && ((byte_val b =? 133) || (byte_val b =? 160)).
Definition space3 (a b c : ascii) : bool :=
  let x := byte_val a in let y := byte_val b in let z := byte_val c in
  ((x =? 225) && (y =? 154) && (z =? 128)) ||
  ((x =? 226) && (y =? 128) && (((128 <=? z) && (z <=? 138)) || (z =? 168) || (z =? 169) || (z =? 175))) ||
  ((x =? 226) && (y =? 129) && (z =? 159)) ||
  ((x =? 227) && (y =? 128) && (z =? 128)).

Fixpoint trim_start (s1 : ascii → bool) (s2 : ascii → ascii → bool)
    (s3 : ascii → ascii → ascii → bool) (l : list ascii) : list ascii :=
  match l with
  | [] => []
  | a :: l1 =>
      if s1 a then trim_start s1 s2 s3 l1 else
      match l1 with
      | [] => l
      | b :: l2 =>
          if s2 a b then trim_start s1 s2 s3 l2 else
          match l2 with
          | [] => l
          | c :: l3 => if s3 a b c then trim_start s1 s2 s3 l3 else l
          end
      end
  end.

Definition trim_left (l : list ascii) : list ascii := trim_start space1 space2 space3 l.
Definition trim_right (l : list ascii) : list ascii :=
  reverse (trim_start space1 (λ b a, space2 a b) (λ c b a, space3 a b c) (reverse l)).

Definition TrimSpace (s : string) : string :=
  of_bytes (trim_right (trim_left (bytes s))).

(** A list that starts with no white space is left alone. *)
Definition no_space_start (s1 : ascii → bool) (s2 : ascii → ascii → bool)
    (s3 : ascii → ascii → ascii → bool) (l : list ascii) : bool :=
  match l with
  | [] => true
  | [a] => negb (s1 a)
  | [a; b] => negb (s1 a) && negb (s2 a b)
  | a :: b :: c :: _ => negb (s1 a) && negb (s2 a b) && negb (s3 a b c)
  end.

Lemma trim_start_id s1 s2 s3 l :
  no_space_start s1 s2 s3 l = true → trim_start s1 s2 s3 l = l.
Proof.
  destruct l as [|a [|b [|c l]]]; simpl; intros H; bool_to_prop;
    repeat match goal with E : _ = false |- _ => rewrite E; clear E end; done.
Qed.

Lemma trim_start_no_space s1 s2 s3 l :
  no_space_start s1 s2 s3 (trim_start s1 s2 s3 l) = true.
Proof.
  remember (length l) as n eqn:Hn. assert (length l ≤ n)%nat as Hl by lia. clear Hn.
  revert l Hl. induction n as [|n IH]; intros [|a l1] Hl; simpl in *; try done; [lia|].
  destruct (s1 a) eqn:E1; [apply IH; lia|].
  destruct l1 as [|b l2]; simpl; [by rewrite E1|].
  destruct (s2 a b) eqn:E2; [apply IH; simpl in *; lia|].
  destruct l2 as [|c l3]; simpl; [by rewrite E1, E2|].
  destruct (s3 a b c) eqn:E3; [apply IH; simpl in *; lia|].
  simpl. by rewrite E1, E2, E3.
Qed.

(** Trimming removes a prefix. *)
Lemma trim_start_suffix s1 s2 s3 l : ∃ k, l = k ++ trim_start s1 s2 s3 l.
Proof.
  remember (length l) as n eqn:Hn. assert (length l ≤ n)%nat as Hl by lia. clear Hn.
  revert l Hl. induction n as [|n IH]; intros [|a l1] Hl; simpl in *;
    try (by exists []); [lia|].
  destruct (s1 a); [destruct (IH l1) as [k Hk]; [lia|]; exists (a :: k); by rewrite Hk at 1|].
  destruct l1 as [|b l2]; [by exists []|].
  destruct (s2 a b).
  { destruct (IH l2) as [k Hk]; [simpl in *; lia|]. exists (a :: b :: k). by rewrite Hk at 1. }
  destruct l2 as [|c l3]; [by exists []|].
  destruct (s3 a b c); [|by exists []].
  destruct (IH l3) as [k Hk]; [simpl in *; lia|]. exists (a :: b :: c :: k). by rewrite Hk at 1.
Qed.

(** Cutting the end of a list whose start is no space does not make its start a
    space. *)
Lemma no_space_start_prefix s1 s2 s3 l k :
  no_space_start s1 s2 s3 (l ++ k) = true → no_space_start s1 s2 s3 l = true.
Proof.
  destruct l as [|a [|b [|c l]]]; simpl; [done| | |done].
  - destruct k as [|b [|c k]]; simpl; intros; bool_to_prop; by apply negb_true_iff.
  - destruct k as [|c k]; simpl; [done|]. intros. by bool_to_prop; simplify_eq; apply andb_true_iff; split; apply negb_true_iff.
Qed.

Lemma TrimSpace_idemp s : TrimSpace (TrimSpace s) = TrimSpace s.
Proof.
  unfold TrimSpace. rewrite bytes_of_bytes. f_equal.
  set (l := trim_left (bytes s)).
  assert (no_space_start space1 space2 space3 (trim_right l) = true) as Hs.
  { unfold trim_right.
    destruct (trim_start_suffix space1 (λ b a, space2 a b) (λ c b a, space3 a b c) (reverse l)) as [k Hk].
    apply (f_equal reverse) in Hk. rewrite reverse_involutive, reverse_app in Hk.
    eapply no_space_start_prefix. rewrite <-Hk. apply trim_start_no_space. }
  unfold trim_left at 1. rewrite trim_start_id by done.
  unfold trim_right. rewrite reverse_involutive. f_equal.
  apply trim_start_id, trim_start_no_space.
Qed.

Lemma TrimSpace_length s : len (TrimSpace s) ≤ len s.
Proof.
  unfold len, TrimSpace.
  assert (∀ l, String.length (of_bytes l) = length l) as Hlen.
  { intros l. unfold of_bytes. induction l; simpl; congruence. }
  rewrite Hlen. rewrite <-(of_bytes_bytes s) at 2. rewrite Hlen.
  unfold trim_right, trim_left. rewrite length_reverse.
  destruct (trim_start_suffix space1 (λ b a, space2 a b) (λ c b a, space3 a b c)
    (reverse (trim_start space1 space2 space3 (bytes s)))) as [k Hk].
  apply (f_equal length) in Hk. rewrite length_reverse, length_app in Hk.
  destruct (trim_start_suffix space1 space2 space3 (bytes s)) as [k' Hk'].
  apply (f_equal length) in Hk'. rewrite length_app in Hk'. lia.
Qed.

(** ** UTF-8 *)

Definition utf8_cont (b : Z) : bool := (128 <=? b) && (b <=? 191).

(** Decode a valid UTF-8 byte sequence into its runes; [None] when
    [utf8.ValidString] is false. *)
Fixpoint utf8_runes (l : list Z) : option (list Z) :=
  match l with
  | [] => Some []
  | a :: l1 =>
      if a <? 128 then cons a <$> utf8_runes l1 else
      match l1 with
      | [] => None
      | b :: l2 =>
          if (194 <=? a) && (a <=? 223) && utf8_cont b
          then cons ((a - 192) * 64 + (b - 128)) <$> utf8_runes l2 else
          match l2 with
          | [] => None
          | c :: l3 =>
              if (224 <=? a) && (a <=? 239) && utf8_cont b && utf8_cont c
                 && (if a =? 224 then 160 <=? b else true)
                 && (if a =? 237 then b <=? 159 else true)
              then cons ((a - 224) * 4096 + (b - 128) * 64 + (c - 128)) <$> utf8_runes l3 else
              match l3 with
              | [] => None
              | d :: l4 =>
                  if (240 <=? a) && (a <=? 244) && utf8_cont b && utf8_cont c && utf8_cont d
                     && (if a =? 240 then 144 <=? b else true)
                     && (if a =? 244 then b <=? 143 else true)
                  then cons ((a - 240) * 262144 + (b - 128) * 4096 + (c - 128) * 64 + (d - 128))
                         <$> utf8_runes l4
                  else None
              end
          end
      end
  end.

(** The runes of a string that is valid UTF-8. *)
Definition runes (s : string) : option (list Z) := utf8_runes (byte_val <$> bytes s).

Lemma utf8_runes_ascii l : Forall (λ b, 0 ≤ b < 128) l → utf8_runes l = Some l.
Proof.
  induction 1 as [|b l Hb Hl IH]; simpl; [done|].
  rewrite IH. by replace (b <? 128) with true by (symmetry; apply Z.ltb_lt; lia).
Qed.

(** Unicode character classes used by the code, as tables of the Go
    distribution: only their ASCII part is fixed here. *)
Class UnicodeTables := {
  IsLetter : Z → bool;
  IsDigit : Z → bool;
  IsLetter_ascii : ∀ r, 0 ≤ r < 128 →
    IsLetter r = ((65 <=? r) && (r <=? 90)) || ((97 <=? r) && (r <=? 122));
  IsDigit_ascii : ∀ r, 0 ≤ r < 128 → IsDigit r = (48 <=? r) && (r <=? 57)
}.

(** [unicode.IsControl]: category Cc, the two ranges of control codes. *)
Definition IsControl (r : Z) : bool :=
  ((0 <=? r) && (r <=? 31)) || ((127 <=? r) && (r <=? 159)).

(** [strings.ToLower]: on ASCII the upper-case letters, elsewhere Unicode's tables. *)
Class StringsLower := {
  ToLower : string → string;
  ToLower_ascii : ∀ s, Forall (λ c, byte_val c < 128) (bytes s) →
    ToLower s = of_bytes ((λ c, let x := byte_val c in if (65 <=? x) && (x <=? 90) then ascii_of_N (Z.to_N (x + 32)) else c) <$> bytes s)
}.
(** A table restricted to ASCII. *)
#[global] Program Instance UnicodeTables_ascii : UnicodeTables := {|
  IsLetter r := ((65 <=? r) && (r <=? 90)) || ((97 <=? r) && (r <=? 122));
  IsDigit r := (48 <=? r) && (r <=? 57)
|}.
Next Obligation. done. Qed.
Next Obligation. done. Qed.

(** ** Hexadecimal and [pkg/ids] *)

Definition hex_digit (n : Z) : ascii :=
  ascii_of_N (Z.to_N (if n <? 10 then 48 + n else 87 + n)).

(** [hex.EncodeToString]. *)
Fixpoint hex_encode (l : list ascii) : string :=
  match l with
  | [] => ""%string
  | b :: l =>
      String (hex_digit (byte_val b / 16)) (String (hex_digit (byte_val b mod 16)) (hex_encode l))
  end.

Lemma hex_encode_length l : String.length (hex_encode l) = (2 * length l)%nat.
Proof. induction l as [|b l IH]; simpl; [done|]. rewrite IH. lia. Qed.

(** [strconv.FormatInt(n, 10)]. *)
Definition FormatInt (n : Z) : string := pretty n.

(** [ids.New(prefix)], given the clock reading and the four random bytes, absent
    when the random source failed. *)
Definition ids_New (nano : Z) (buf : option (list ascii)) (prefix : string) : string :=
  match buf with
  | None => prefix +:+ "-" +:+ FormatInt nano
  | Some b => prefix +:+ "-" +:+ FormatInt nano +:+ "-" +:+ hex_encode b
  end.

Lemma str_app_nil_inv s t : (s +:+ t)%string = ""%string → s = ""%string ∧ t = ""%string.
Proof. destruct s; simpl; [done|]. intros H. discriminate H. Qed.

Lemma ids_New_nonempty nano buf prefix : ids_New nano buf prefix ≠ ""%string.
Proof.
  destruct buf; simpl; intros H; apply str_app_nil_inv in H as [_ H];
    apply str_app_nil_inv in H as [H _]; discriminate H.
Qed.

(** [strconv.ParseInt(s, 10, 64)]: an optional sign and at least one decimal
    digit, within the range of [int64]; [None] is any error. *)
Fixpoint parse_digits (acc : Z) (l : list ascii) : option Z :=
  match l with
  | [] => Some acc
  | c :: l =>
      let x := byte_val c in
      if (48 <=? x) && (x <=? 57) then parse_digits (10 * acc + (x - 48)) l else None
  end.

Definition parse_nat (l : list ascii) : option Z :=
  match l with [] => None | _ :: _ => parse_digits 0 l end.

Definition ParseInt (s : string) : option Z :=
  let n :=
    match bytes s with
    | c :: l => if byte_val c =? 45 then Z.opp <$> parse_nat l
                else if byte_val c =? 43 then parse_nat l
                else parse_nat (c :: l)
    | [] => None
    end in
  match n with
  | Some z => if in_int64 z then Some z else None
  | None => None
  end.

Example ParseInt_max : ParseInt "9223372036854775807" = Some int64_max.
Proof. vm_compute. reflexivity. Qed.
Example ParseInt_over : ParseInt "9223372036854775808" = None.
Proof. vm_compute. reflexivity. Qed.
Example ParseInt_neg : ParseInt "-12" = Some (-12).
Proof. vm_compute. reflexivity. Qed.
