(* ===== verification/Contracts.v ===== *)
(** * Shared data: host state, wire contracts, repository types and errors

    Models [pkg/state/state.go], [pkg/contracts/api.go] and the data and helper
    functions of [pkg/hostruntime/repository/repository.go].  Go maps are [gmap]s
    (a nil map and an empty one are the same here), slices are lists, pointers
    that may be nil are options. *)

From stdpp Require Import gmap strings list sorting pretty.
From Stdlib Require Import SpecFloat.
From S2P Require Import Prelude GoRuntime GoStrings.
Local Open Scope Z_scope.

(** ** Errors

    The sentinel errors of the packages, errors built from a message, and the
    errors reported by the database driver, by [gorm] and by Redis. *)

Inductive error :=
| ErrHostNotFound            (* repository.ErrHostNotFound *)
| ErrTenantNotFound          (* repository.ErrTenantNotFound *)
| ErrForbidden               (* access.ErrForbidden *)
| ErrUnauthorized            (* access.ErrUnauthorized *)
| ErrNotFound                (* access.ErrNotFound *)
| ErrQuota                   (* access.ErrQuota *)
| ErrServiceUnauthorized     (* master service.ErrUnauthorized *)
| ErrServiceForbidden        (* master service.ErrForbidden *)
| ErrAuthNotConfigured       (* master service.ErrAuthNotConfigured *)
| ErrSetupUnavailable        (* auth.ErrSetupUnavailable *)
| ErrInvalidMetricBatch (reason : string)
| ErrRecordNotFound          (* gorm.ErrRecordNotFound *)
| ErrDatabase (code : nat)   (* an error of the PostgreSQL driver *)
| ErrRedis (code : nat)
| ErrJSON
| ErrMsg (msg : string).

#[global] Instance error_eq_dec : EqDecision error.
Proof. solve_decision. Defined.

Abbreviation res := (result error).

(** ** [pkg/state] *)

(** [type Code uint8]. *)
Abbreviation Code := Z.
Definition Unknown : Code := 0.
Definition Up : Code := 1.
Definition Warning : Code := 2.
Definition Critical : Code := 3.
Definition Offline : Code := 4.
Definition Maintenance : Code := 5.
Definition Disabled : Code := 6.

(** Conversion of an [int] to [Code], a [uint8]. *)
Definition to_Code (n : Z) : Code := n mod 256.

Definition Code_String (c : Code) : string :=
  if c =? Up then "UP"
  else if c =? Warning then "WARNING"
  else if c =? Critical then "CRITICAL"
  else if c =? Offline then "OFFLINE"
  else if c =? Maintenance then "MAINTENANCE"
  else if c =? Disabled then "DISABLED"
  else "UNKNOWN".

Abbreviation labels := (gmap string string).

Record HostSnapshot := mkHostSnapshot {
  hs_HostUID : string;
  hs_TenantCode : string;
  hs_Hostname : string;
  hs_PrimaryIP : string;
  hs_GroupID : string;
  hs_AgentState : Code;
  hs_ReachabilityState : Code;
  hs_ServiceState : Code;
  hs_OverallState : Code;
  hs_CPUUsagePct : float64;
  hs_MemUsedPct : float64;
  hs_MemAvailableBytes : Z;
  hs_SwapUsedPct : float64;
  hs_DiskUsedPct : float64;
  hs_DiskFreeBytes : Z;
  hs_DiskInodesUsedPct : float64;
  hs_DiskReadBPS : Z;
  hs_DiskWriteBPS : Z;
  hs_DiskReadIOPS : Z;
  hs_DiskWriteIOPS : Z;
  hs_Load1 : float64;
  hs_NetRxBPS : Z;
  hs_NetTxBPS : Z;
  hs_NetRxPacketsPS : Z;
  hs_NetTxPacketsPS : Z;
  hs_LastAgentSeenAt : Time;
  hs_LastMetricAt : Time;
  hs_LastProbeAt : Time;
  hs_OpenAlertCount : Z;
  hs_Labels : labels;
  hs_Version : Z
}.

(** The zero value [state.HostSnapshot{}]. *)
Definition zero_HostSnapshot : HostSnapshot :=
  mkHostSnapshot "" "" "" "" "" Unknown Unknown Unknown Unknown
    f64_zero f64_zero 0 f64_zero f64_zero 0 f64_zero 0 0 0 0 f64_zero 0 0 0 0
    time_zero time_zero time_zero 0 ∅ 0.

Abbreviation MetricKey := string.
Definition MetricCPUUsagePct : MetricKey := "cpu_usage_pct".
Definition MetricMemUsedPct : MetricKey := "mem_used_pct".
Definition MetricMemAvailableBytes : MetricKey := "mem_available_bytes".
Definition MetricSwapUsedPct : MetricKey := "swap_used_pct".
Definition MetricDiskUsedPct : MetricKey := "disk_used_pct".
Definition MetricDiskFreeBytes : MetricKey := "disk_free_bytes".
Definition MetricDiskInodesUsedPct : MetricKey := "disk_inodes_used_pct".
Definition MetricDiskReadBPS : MetricKey := "disk_read_bps".
Definition MetricDiskWriteBPS : MetricKey := "disk_write_bps".
Definition MetricDiskReadIOPS : MetricKey := "disk_read_iops".
Definition MetricDiskWriteIOPS : MetricKey := "disk_write_iops".
Definition MetricLoad1 : MetricKey := "load1".
Definition MetricNetRxBPS : MetricKey := "net_rx_bps".
Definition MetricNetTxBPS : MetricKey := "net_tx_bps".
Definition MetricNetRxPacketsPS : MetricKey := "net_rx_packets_ps".
Definition MetricNetTxPacketsPS : MetricKey := "net_tx_packets_ps".

(** [state.MetricPoint]. *)
Record StatePoint := mkStatePoint { sp_TS : Time; sp_Value : float64 }.

(** ** [pkg/contracts] *)

Record AgentConfig := mkAgentConfig {
  ac_ConfigVersion : Z;
  ac_HeartbeatIntervalSec : Z;
  ac_MetricIntervalSec : Z;
  ac_StaticLabels : labels
}.

Definition zero_AgentConfig : AgentConfig := mkAgentConfig 0 0 0 ∅.

Record HostIdentity := mkHostIdentity {
  hi_HostUID : string;
  hi_TenantCode : string;
  hi_Hostname : string;
  hi_PrimaryIP : string;
  hi_IPs : list string;
  hi_OSType : string;
  hi_Arch : string;
  hi_Region : string;
  hi_AZ : string;
  hi_Env : string;
  hi_Role : string;
  hi_Labels : labels
}.

Record AgentMetadata := mkAgentMetadata {
  am_AgentID : string;
  am_Version : string;
  am_Capabilities : list string;
  am_BootTime : Time
}.

Record AgentDigest := mkAgentDigest {
  dg_CPUUsagePct : float64;
  dg_MemUsedPct : float64;
  dg_MemAvailableBytes : Z;
  dg_SwapUsedPct : float64;
  dg_DiskUsedPct : float64;
  dg_DiskFreeBytes : Z;
  dg_DiskInodesUsedPct : float64;
  dg_DiskReadBPS : Z;
  dg_DiskWriteBPS : Z;
  dg_DiskReadIOPS : Z;
  dg_DiskWriteIOPS : Z;
  dg_Load1 : float64;
  dg_NetRxBPS : Z;
  dg_NetTxBPS : Z;
  dg_NetRxPacketsPS : Z;
  dg_NetTxPacketsPS : Z;
  dg_QueueDepth : Z;
  dg_LastMetricBatchSeq : Z
}.

Definition zero_AgentDigest : AgentDigest :=
  mkAgentDigest f64_zero f64_zero 0 f64_zero f64_zero 0 f64_zero 0 0 0 0 f64_zero 0 0 0 0 0 0.

Record RegisterAgentRequest := mkRegisterAgentRequest {
  ra_Host : HostIdentity;
  ra_Agent : AgentMetadata
}.

Record RegisterAgentResponse := mkRegisterAgentResponse {
  rr_RequestID : string;
  rr_Message : string;
  rr_HostUID : string;
  rr_TenantCode : string;
  rr_Config : AgentConfig
}.

Record AllocateInstallTenantResponse := mkAllocateInstallTenantResponse {
  at_RequestID : string;
  at_Message : string;
  at_TenantCode : string
}.

Record HeartbeatRequest := mkHeartbeatRequest {
  hb_HostUID : string;
  hb_AgentID : string;
  hb_Seq : Z;
  hb_TS : Time;
  hb_Digest : AgentDigest
}.

(** [contracts.MetricPoint]. *)
Record MetricPoint := mkMetricPoint {
  mp_Name : string;
  mp_Value : float64;
  mp_TS : Time;
  mp_Labels : labels
}.

(** [type CollectorState int32]. *)
Abbreviation CollectorState := Z.
Definition CollectorStateUnspecified : CollectorState := 0.
Definition CollectorStateAvailable : CollectorState := 1.
Definition CollectorStateUnavailable : CollectorState := 2.
Definition CollectorStateDegraded : CollectorState := 3.

Record CollectorStatus := mkCollectorStatus {
  cs_Name : string;
  cs_State : CollectorState;
  cs_MetricNames : list string;
  cs_DurationMicros : Z;
  cs_TimedOut : bool
}.

Record MetricSnapshot := mkMetricSnapshot {
  ms_CollectedAt : Time;
  ms_Points : list MetricPoint;
  ms_Collectors : list CollectorStatus
}.

Record EventRecord := mkEventRecord {
  ev_Type : string;
  ev_Severity : string;
  ev_Message : string;
  ev_TS : Time;
  ev_Attrs : labels
}.

Record PushMetricBatchRequest := mkPushMetricBatchRequest {
  pm_HostUID : string;
  pm_AgentID : string;
  pm_BatchSeq : Z;
  pm_CollectedAt : Time;
  pm_Host : HostIdentity;
  pm_Agent : AgentMetadata;
  pm_Points : list MetricPoint;
  pm_Collectors : list CollectorStatus;
  pm_Digest : AgentDigest
}.

Record PushEventBatchRequest := mkPushEventBatchRequest {
  pe_HostUID : string;
  pe_AgentID : string;
  pe_BatchSeq : Z;
  pe_Events : list EventRecord
}.

Record ProbeResult := mkProbeResult {
  pr_JobID : Z;
  pr_TargetID : Z;
  pr_WorkerID : string;
  pr_Region : string;
  pr_TS : Time;
  pr_Success : bool;
  pr_LatencyMS : Z;
  pr_StatusCode : Z;
  pr_ErrorCode : string;
  pr_ErrorMsg : string;
  pr_Observation : labels
}.

Record ReportProbeResultsRequest := mkReportProbeResultsRequest {
  rp_WorkerID : string;
  rp_Results : list ProbeResult
}.

Record AckResponse := mkAckResponse {
  ack_RequestID : string;
  ack_Code : Z;
  ack_Message : string;
  ack_ServerTime : Time
}.

Record CreateMaintenanceWindowRequest := mkCreateMaintenanceWindowRequest {
  cm_Title : string;
  cm_ScopeType : string;
  cm_ScopeRef : string;
  cm_StartAt : Time;
  cm_EndAt : Time;
  cm_CreatedBy : string;
  cm_Reason : string
}.

(** ** [pkg/hostruntime/repository] *)

Record MaintenanceWindow := mkMaintenanceWindow {
  mw_ID : string;
  mw_Title : string;
  mw_ScopeType : string;
  mw_ScopeRef : string;
  mw_StartAt : Time;
  mw_EndAt : Time;
  mw_CreatedBy : string;
  mw_Reason : string
}.

(** [type HostEventType string]: a decoded event may carry any type. *)
Abbreviation HostEventType := string.
Definition HostEventUpsert : HostEventType := "host_upsert".
Definition HostEventDelete : HostEventType := "host_delete".

Record HostEvent := mkHostEvent {
  he_Type : HostEventType;
  he_HostUID : string;
  he_Snapshot : option HostSnapshot
}.

(** The entries of the map literal of [DigestMetricValues], in source order. *)
Definition digest_metric_entries (d : AgentDigest) : list (MetricKey * float64) :=
  [(MetricCPUUsagePct, dg_CPUUsagePct d);
   (MetricMemUsedPct, dg_MemUsedPct d);
   (MetricMemAvailableBytes, f64_of_int (dg_MemAvailableBytes d));
   (MetricSwapUsedPct, dg_SwapUsedPct d);
   (MetricDiskUsedPct, dg_DiskUsedPct d);
   (MetricDiskFreeBytes, f64_of_int (dg_DiskFreeBytes d));
   (MetricDiskInodesUsedPct, dg_DiskInodesUsedPct d);
   (MetricDiskReadBPS, f64_of_int (dg_DiskReadBPS d));
   (MetricDiskWriteBPS, f64_of_int (dg_DiskWriteBPS d));
   (MetricDiskReadIOPS, f64_of_int (dg_DiskReadIOPS d));
   (MetricDiskWriteIOPS, f64_of_int (dg_DiskWriteIOPS d));
   (MetricLoad1, dg_Load1 d);
   (MetricNetRxBPS, f64_of_int (dg_NetRxBPS d));
   (MetricNetTxBPS, f64_of_int (dg_NetTxBPS d));
   (MetricNetRxPacketsPS, f64_of_int (dg_NetRxPacketsPS d));
   (MetricNetTxPacketsPS, f64_of_int (dg_NetTxPacketsPS d))].

Definition DigestMetricValues (d : AgentDigest) : gmap MetricKey float64 :=
  list_to_map (digest_metric_entries d).

Definition MetricKeys : list MetricKey :=
  [MetricCPUUsagePct; MetricMemUsedPct; MetricMemAvailableBytes; MetricSwapUsedPct;
   MetricDiskUsedPct; MetricDiskFreeBytes; MetricDiskInodesUsedPct; MetricDiskReadBPS;
   MetricDiskWriteBPS; MetricDiskReadIOPS; MetricDiskWriteIOPS; MetricLoad1;
   MetricNetRxBPS; MetricNetTxBPS; MetricNetRxPacketsPS; MetricNetTxPacketsPS].

Lemma MetricKeys_NoDup : NoDup MetricKeys.
Proof. apply (bool_decide_unpack _). vm_compute. exact I. Qed.

Lemma digest_metric_entries_keys d : (digest_metric_entries d).*1 = MetricKeys.
Proof. reflexivity. Qed.

(** The map has exactly the sixteen keys of [MetricKeys]. *)
Lemma DigestMetricValues_dom d : dom (DigestMetricValues d) = list_to_set MetricKeys.
Proof.
  unfold DigestMetricValues. by rewrite dom_list_to_map_L, digest_metric_entries_keys.
Qed.

Lemma DigestMetricValues_lookup d k v :
  DigestMetricValues d !! k = Some v ↔ (k, v) ∈ digest_metric_entries d.
Proof.
  unfold DigestMetricValues. symmetry. apply elem_of_list_to_map.
  rewrite digest_metric_entries_keys. apply MetricKeys_NoDup.
Qed.
