(* ===== verification/MemoryStore.v ===== *)
(** * The in-memory host store

    Models [pkg/hostruntime/repository/memory/store.go].  The mutex makes the
    part of every method between [Lock] and [Unlock] one step; a watcher's
    channel is shared with its subscriber, so channels live in a table of their
    own and the watcher table holds their names. *)

From Stdlib Require Import Ascii.
From stdpp Require Import gmap strings list sorting pretty.
From Stdlib Require Import SpecFloat.
From S2P Require Import Prelude GoRuntime GoStrings Contracts.
Local Open Scope Z_scope.

(** ** State *)

Definition loadHistoryRetention : Duration := Hour.
Definition heartbeatOfflineThreshold : Duration := 15 * Second.

Abbreviation History := (gmap MetricKey (list StatePoint)).
(** The buffered values of a [chan []state.HostSnapshot] of capacity 1. *)
Abbreviation Chan := (list (list HostSnapshot)).

Record Store := mkStore {
  st_hosts : gmap string HostSnapshot;
  st_hostTenants : gmap string string;
  st_histories : gmap string History;
  st_configs : gmap string AgentConfig;
  st_maintenance : list MaintenanceWindow;
  st_alertAcks : gmap string string;
  st_watchers : gset string;
  st_chans : gmap string Chan;
  st_allowCustomTenantCode : bool
}.

(** [NewStore(cfgs...)]; the optional configuration defaults to allowing tenant
    codes chosen by the agent. *)
Definition NewStore (cfg : option bool) : Store :=
  mkStore ∅ ∅ ∅ ∅ [] ∅ ∅ ∅ (default true cfg).

(** The randomness one [ids.New] call consumes. *)
Record Entropy := mkEntropy { en_nano : Z; en_buf : option (list ascii) }.
Definition new_id (e : Entropy) (prefix : string) : string :=
  ids_New (en_nano e) (en_buf e) prefix.

(** ** Channels *)

Definition chan_cap : nat := 1.

(** [select { case c <- v: default: }]. *)
Definition try_send (c : Chan) (v : list HostSnapshot) : option Chan :=
  if bool_decide (length c < chan_cap)%nat then Some (c ++ [v]) else None.
(** [select { case <-c: default: }]. *)
Definition try_recv (c : Chan) : Chan := tail c.

Definition broadcast_one (items : list HostSnapshot) (c : Chan) : Chan :=
  match try_send c items with
  | Some c' => c'
  | None =>
      let c1 := try_recv c in
      match try_send c1 items with
      | Some c2 => c2
      | None => c1
      end
  end.

Definition broadcast (watchers : list string) (items : list HostSnapshot)
    (chans : gmap string Chan) : gmap string Chan :=
  fold_left (λ cs w, alter (broadcast_one items) w cs) watchers chans.

(** ** Reads *)

Definition listHosts (hosts : gmap string HostSnapshot) : list HostSnapshot :=
  sort_by hs_HostUID ((map_to_list hosts).*2).

Definition listHostsLocked (s : Store) : list HostSnapshot := listHosts (st_hosts s).

Definition snapshotWatchersLocked (s : Store) : list string * list HostSnapshot :=
  (elements (st_watchers s), listHostsLocked s).

(** The Go zero value of a missing map entry. *)
Definition tenant_of (s : Store) (uid : string) : string := default ""%string (st_hostTenants s !! uid).

(** The loop and the sort of [ListHosts], for one order in which the runtime may
    deliver the entries of [s.hosts]. *)
Definition listing (s : Store) (tenantCode : string) (order : list (string * HostSnapshot))
    : list HostSnapshot :=
  sort_by hs_HostUID
    (select (λ kv, negb (negb (str_empty tenantCode) && negb (str_eqb (tenant_of s kv.1) tenantCode)))
       order).*2.

Definition ListHosts (s : Store) (tenantCode : string) : list HostSnapshot :=
  listing s tenantCode (map_to_list (st_hosts s)).

Definition GetHost (s : Store) (hostUID tenantCode : string) : HostSnapshot * bool :=
  match st_hosts s !! hostUID with
  | Some host =>
      if negb (str_empty tenantCode) && negb (str_eqb (tenant_of s hostUID) tenantCode)
      then (zero_HostSnapshot, false)
      else (host, true)
  | None => (zero_HostSnapshot, false)
  end.

Definition cloneMetricPoints (points : list StatePoint) : list StatePoint := points.
Definition cloneMetricHistory (h : History) : History := cloneMetricPoints <$> h.

Definition GetMetricHistory (s : Store) (hostUID : string) : History :=
  cloneMetricHistory (default ∅ (st_histories s !! hostUID)).

Definition GetAllMetricHistory (s : Store) : gmap string History :=
  cloneMetricHistory <$> st_histories s.

(** ** Metric histories *)

Fixpoint dropBefore (cutoff : Time) (points : list StatePoint) : list StatePoint :=
  match points with
  | [] => []
  | p :: ps => if time_Before (sp_TS p) cutoff then dropBefore cutoff ps else points
  end.

Definition pruneMetricHistory (points : list StatePoint) (now : Time) : list StatePoint :=
  dropBefore (time_Add now (- loadHistoryRetention)) points.

Definition recordMetricLocked (hs : gmap string History) (hostUID : string) (key : MetricKey)
    (now : Time) (value : float64) : gmap string History :=
  let h := default ∅ (hs !! hostUID) in
  <[hostUID := <[key := pruneMetricHistory (default [] (h !! key) ++ [mkStatePoint now value]) now]> h]> hs.

(** ** Mutating operations *)

Definition with_chans (s : Store) (chans : gmap string Chan) : Store :=
  mkStore (st_hosts s) (st_hostTenants s) (st_histories s) (st_configs s) (st_maintenance s)
    (st_alertAcks s) (st_watchers s) chans (st_allowCustomTenantCode s).

(** The store after an undisturbed [s.broadcast(watchers, items)]. *)
Definition broadcasted (s : Store) (b : list string * list HostSnapshot) : Store :=
  with_chans s (broadcast b.1 b.2 (st_chans s)).

Definition cloneLabels (src : labels) : labels := src.

(** The snapshot [RegisterAgent] stores for a host. *)
Definition registerSnapshot (snapshot : HostSnapshot) (hostUID tenantCode : string)
    (host : HostIdentity) (now : Time) : HostSnapshot :=
  {| hs_HostUID := hostUID;
     hs_TenantCode := tenantCode;
     hs_Hostname := hi_Hostname host;
     hs_PrimaryIP := hi_PrimaryIP host;
     hs_GroupID := hs_GroupID snapshot;
     hs_AgentState := Up;
     hs_ReachabilityState := Unknown;
     hs_ServiceState := Unknown;
     hs_OverallState := Up;
     hs_CPUUsagePct := hs_CPUUsagePct snapshot;
     hs_MemUsedPct := hs_MemUsedPct snapshot;
     hs_MemAvailableBytes := hs_MemAvailableBytes snapshot;
     hs_SwapUsedPct := hs_SwapUsedPct snapshot;
     hs_DiskUsedPct := hs_DiskUsedPct snapshot;
     hs_DiskFreeBytes := hs_DiskFreeBytes snapshot;
     hs_DiskInodesUsedPct := hs_DiskInodesUsedPct snapshot;
     hs_DiskReadBPS := hs_DiskReadBPS snapshot;
     hs_DiskWriteBPS := hs_DiskWriteBPS snapshot;
     hs_DiskReadIOPS := hs_DiskReadIOPS snapshot;
     hs_DiskWriteIOPS := hs_DiskWriteIOPS snapshot;
     hs_Load1 := hs_Load1 snapshot;
     hs_NetRxBPS := hs_NetRxBPS snapshot;
     hs_NetTxBPS := hs_NetTxBPS snapshot;
     hs_NetRxPacketsPS := hs_NetRxPacketsPS snapshot;
     hs_NetTxPacketsPS := hs_NetTxPacketsPS snapshot;
     hs_LastAgentSeenAt := now;
     hs_LastMetricAt := hs_LastMetricAt snapshot;
     hs_LastProbeAt := hs_LastProbeAt snapshot;
     hs_OpenAlertCount := hs_OpenAlertCount snapshot;
     hs_Labels := cloneLabels (hi_Labels host);
     hs_Version := int64_incr (hs_Version snapshot) |}.

(** What a critical section leaves for the time after [Unlock]: the watchers and
    the list of hosts they are to get. *)
Abbreviation Broadcast := (list string * list HostSnapshot)%type.

(** [RegisterAgent] from [Lock] to [Unlock]. *)
Definition registerLocked (s : Store) (eh et : Entropy) (req : RegisterAgentRequest) (now : Time)
    : Store * Broadcast * (HostSnapshot * AgentConfig * string) :=
  let host := ra_Host req in
  let hostUID := if str_empty (hi_HostUID host) then new_id eh "host" else hi_HostUID host in
  let tenant0 := tenant_of s hostUID in
  let tenant1 := if str_empty tenant0 && st_allowCustomTenantCode s then hi_TenantCode host else tenant0 in
  let tenantCode := if str_empty tenant1 then new_id et "tenant" else tenant1 in
  let config := mkAgentConfig 1 1 1 (hi_Labels host) in
  let snapshot := registerSnapshot (default zero_HostSnapshot (st_hosts s !! hostUID))
                    hostUID tenantCode host now in
  let s1 := mkStore (<[hostUID := snapshot]> (st_hosts s))
              (<[hostUID := tenantCode]> (st_hostTenants s))
              (match st_histories s !! hostUID with
               | Some _ => st_histories s
               | None => <[hostUID := ∅]> (st_histories s)
               end)
              (<[hostUID := config]> (st_configs s))
              (st_maintenance s) (st_alertAcks s) (st_watchers s) (st_chans s)
              (st_allowCustomTenantCode s) in
  (s1, snapshotWatchersLocked s1, (snapshot, config, tenantCode)).

Definition RegisterAgent (s : Store) (eh et : Entropy) (req : RegisterAgentRequest) (now : Time)
    : Store * (HostSnapshot * AgentConfig * string) :=
  let '(s1, b, result) := registerLocked s eh et req now in (broadcasted s1 b, result).

(** The snapshot a heartbeat writes. *)
Definition heartbeatSnapshot (snapshot : HostSnapshot) (d : AgentDigest) (now : Time) : HostSnapshot :=
  {| hs_HostUID := hs_HostUID snapshot;
     hs_TenantCode := hs_TenantCode snapshot;
     hs_Hostname := hs_Hostname snapshot;
     hs_PrimaryIP := hs_PrimaryIP snapshot;
     hs_GroupID := hs_GroupID snapshot;
     hs_AgentState := Up;
     hs_ReachabilityState := hs_ReachabilityState snapshot;
     hs_ServiceState := hs_ServiceState snapshot;
     hs_OverallState := Up;
     hs_CPUUsagePct := dg_CPUUsagePct d;
     hs_MemUsedPct := dg_MemUsedPct d;
     hs_MemAvailableBytes := dg_MemAvailableBytes d;
     hs_SwapUsedPct := dg_SwapUsedPct d;
     hs_DiskUsedPct := dg_DiskUsedPct d;
     hs_DiskFreeBytes := dg_DiskFreeBytes d;
     hs_DiskInodesUsedPct := dg_DiskInodesUsedPct d;
     hs_DiskReadBPS := dg_DiskReadBPS d;
     hs_DiskWriteBPS := dg_DiskWriteBPS d;
     hs_DiskReadIOPS := dg_DiskReadIOPS d;
     hs_DiskWriteIOPS := dg_DiskWriteIOPS d;
     hs_Load1 := dg_Load1 d;
     hs_NetRxBPS := dg_NetRxBPS d;
     hs_NetTxBPS := dg_NetTxBPS d;
     hs_NetRxPacketsPS := dg_NetRxPacketsPS d;
     hs_NetTxPacketsPS := dg_NetTxPacketsPS d;
     hs_LastAgentSeenAt := now;
     hs_LastMetricAt := now;
     hs_LastProbeAt := hs_LastProbeAt snapshot;
     hs_OpenAlertCount := hs_OpenAlertCount snapshot;
     hs_Labels := hs_Labels snapshot;
     hs_Version := int64_incr (hs_Version snapshot) |}.

(** The sixteen values a heartbeat records, in the order of the calls. *)
Definition heartbeat_points (h : HostSnapshot) : list (MetricKey * float64) :=
  [(MetricCPUUsagePct, hs_CPUUsagePct h);
   (MetricMemUsedPct, hs_MemUsedPct h);
   (MetricMemAvailableBytes, f64_of_int (hs_MemAvailableBytes h));
   (MetricSwapUsedPct, hs_SwapUsedPct h);
   (MetricDiskUsedPct, hs_DiskUsedPct h);
   (MetricDiskFreeBytes, f64_of_int (hs_DiskFreeBytes h));
   (MetricDiskInodesUsedPct, hs_DiskInodesUsedPct h);
   (MetricDiskReadBPS, f64_of_int (hs_DiskReadBPS h));
   (MetricDiskWriteBPS, f64_of_int (hs_DiskWriteBPS h));
   (MetricDiskReadIOPS, f64_of_int (hs_DiskReadIOPS h));
   (MetricDiskWriteIOPS, f64_of_int (hs_DiskWriteIOPS h));
   (MetricLoad1, hs_Load1 h);
   (MetricNetRxBPS, f64_of_int (hs_NetRxBPS h));
   (MetricNetTxBPS, f64_of_int (hs_NetTxBPS h));
   (MetricNetRxPacketsPS, f64_of_int (hs_NetRxPacketsPS h));
   (MetricNetTxPacketsPS, f64_of_int (hs_NetTxPacketsPS h))].

Definition record_all (hs : gmap string History) (uid : string) (now : Time)
    (points : list (MetricKey * float64)) : gmap string History :=
  fold_left (λ hs kv, recordMetricLocked hs uid kv.1 now kv.2) points hs.

(** [Heartbeat] from [Lock] to [Unlock]. *)
Definition heartbeatLocked (s : Store) (req : HeartbeatRequest) (now : Time)
    : res (Store * Broadcast * HostSnapshot) :=
  let uid := hb_HostUID req in
  match st_hosts s !! uid with
  | None => Err ErrHostNotFound
  | Some old =>
      let snapshot := heartbeatSnapshot old (hb_Digest req) now in
      let s1 := mkStore (<[uid := snapshot]> (st_hosts s)) (st_hostTenants s)
                  (record_all (st_histories s) uid now (heartbeat_points snapshot))
                  (st_configs s) (st_maintenance s) (st_alertAcks s) (st_watchers s)
                  (st_chans s) (st_allowCustomTenantCode s) in
      Ok (s1, snapshotWatchersLocked s1, snapshot)
  end.

(** The configuration a heartbeat returns, read after [Unlock]. *)
Definition config_of (s : Store) (uid : string) : AgentConfig := default zero_AgentConfig (st_configs s !! uid).

Definition Heartbeat (s : Store) (req : HeartbeatRequest) (now : Time)
    : Store * res (HostSnapshot * AgentConfig) :=
  match heartbeatLocked s req now with
  | Err e => (s, Err e)
  | Ok (s1, b, snapshot) => let s2 := broadcasted s1 b in (s2, Ok (snapshot, config_of s2 (hb_HostUID req)))
  end.

Definition CreateMaintenance (s : Store) (e : Entropy) (req : CreateMaintenanceWindowRequest)
    : Store * MaintenanceWindow :=
  let window := mkMaintenanceWindow (new_id e "maint") (cm_Title req) (cm_ScopeType req)
                  (cm_ScopeRef req) (cm_StartAt req) (cm_EndAt req) (cm_CreatedBy req)
                  (cm_Reason req) in
  (mkStore (st_hosts s) (st_hostTenants s) (st_histories s) (st_configs s)
     (st_maintenance s ++ [window]) (st_alertAcks s) (st_watchers s) (st_chans s)
     (st_allowCustomTenantCode s), window).

Definition AckAlert (s : Store) (alertID ackedBy : string) : Store :=
  mkStore (st_hosts s) (st_hostTenants s) (st_histories s) (st_configs s) (st_maintenance s)
    (<[alertID := ackedBy]> (st_alertAcks s)) (st_watchers s) (st_chans s)
    (st_allowCustomTenantCode s).

(** The snapshot a reconciliation leaves for a silent host. *)
Definition offlineSnapshot (h : HostSnapshot) : HostSnapshot :=
  {| hs_HostUID := hs_HostUID h;
     hs_TenantCode := hs_TenantCode h;
     hs_Hostname := hs_Hostname h;
     hs_PrimaryIP := hs_PrimaryIP h;
     hs_GroupID := hs_GroupID h;
     hs_AgentState := Offline;
     hs_ReachabilityState := Offline;
     hs_ServiceState := hs_ServiceState h;
     hs_OverallState := Offline;
     hs_CPUUsagePct := hs_CPUUsagePct h;
     hs_MemUsedPct := hs_MemUsedPct h;
     hs_MemAvailableBytes := hs_MemAvailableBytes h;
     hs_SwapUsedPct := hs_SwapUsedPct h;
     hs_DiskUsedPct := hs_DiskUsedPct h;
     hs_DiskFreeBytes := hs_DiskFreeBytes h;
     hs_DiskInodesUsedPct := hs_DiskInodesUsedPct h;
     hs_DiskReadBPS := hs_DiskReadBPS h;
     hs_DiskWriteBPS := hs_DiskWriteBPS h;
     hs_DiskReadIOPS := hs_DiskReadIOPS h;
     hs_DiskWriteIOPS := hs_DiskWriteIOPS h;
     hs_Load1 := hs_Load1 h;
     hs_NetRxBPS := hs_NetRxBPS h;
     hs_NetTxBPS := hs_NetTxBPS h;
     hs_NetRxPacketsPS := hs_NetRxPacketsPS h;
     hs_NetTxPacketsPS := hs_NetTxPacketsPS h;
     hs_LastAgentSeenAt := hs_LastAgentSeenAt h;
     hs_LastMetricAt := hs_LastMetricAt h;
     hs_LastProbeAt := hs_LastProbeAt h;
     hs_OpenAlertCount := hs_OpenAlertCount h;
     hs_Labels := hs_Labels h;
     hs_Version := int64_incr (hs_Version h) |}.

(** One iteration of the loop over [s.hosts]. *)
Definition reconcileStep (now : Time) (acc : gmap string HostSnapshot * Z)
    (kv : string * HostSnapshot) : gmap string HostSnapshot * Z :=
  let '(uid, h) := kv in
  if time_IsZero (hs_LastAgentSeenAt h) then acc
  else if time_Sub now (hs_LastAgentSeenAt h) <=? heartbeatOfflineThreshold then acc
  else if (hs_AgentState h =? Offline) && (hs_OverallState h =? Offline) then acc
  else (<[uid := offlineSnapshot h]> acc.1, acc.2 + 1).

(** [ReconcileOffline] from [Lock] to [Unlock]. *)
Definition reconcileLocked (s : Store) (now : Time) : Store * option Broadcast * Z :=
  let '(hosts, changed) := fold_left (reconcileStep now) (map_to_list (st_hosts s)) (st_hosts s, 0) in
  let s1 := mkStore hosts (st_hostTenants s) (st_histories s) (st_configs s) (st_maintenance s)
              (st_alertAcks s) (st_watchers s) (st_chans s) (st_allowCustomTenantCode s) in
  if changed =? 0 then (s1, None, 0) else (s1, Some (snapshotWatchersLocked s1), changed).

Definition ReconcileOffline (s : Store) (now : Time) : Store * Z :=
  match reconcileLocked s now with
  | (s1, Some b, changed) => (broadcasted s1 b, changed)
  | (s1, None, changed) => (s1, changed)
  end.

Definition Subscribe (s : Store) (e : Entropy) : Store * string :=
  let id := new_id e "watch" in
  (mkStore (st_hosts s) (st_hostTenants s) (st_histories s) (st_configs s) (st_maintenance s)
     (st_alertAcks s) ({[id]} ∪ st_watchers s) (<[id := [listHostsLocked s]]> (st_chans s))
     (st_allowCustomTenantCode s), id).

(** The cancel function [Subscribe] returns. *)
Definition cancel (s : Store) (id : string) : Store :=
  if bool_decide (id ∈ st_watchers s) then
    mkStore (st_hosts s) (st_hostTenants s) (st_histories s) (st_configs s) (st_maintenance s)
      (st_alertAcks s) (st_watchers s ∖ {[id]}) (st_chans s) (st_allowCustomTenantCode s)
  else s.

(** The subscriber receives from its channel. *)
Definition receive (s : Store) (id : string) : Store := with_chans s (alter try_recv id (st_chans s)).

#[global] Arguments record_all : simpl never.
#[global] Arguments heartbeat_points : simpl never.
#[global] Arguments broadcast : simpl never.
#[global] Arguments listHosts : simpl never.

(** ** Steps and reachable stores *)

Inductive step : Store → Store → Prop :=
| step_RegisterAgent s eh et req now : step s (RegisterAgent s eh et req now).1
| step_Heartbeat s req now : step s (Heartbeat s req now).1
| step_CreateMaintenance s e req : step s (CreateMaintenance s e req).1
| step_AckAlert s a b : step s (AckAlert s a b)
| step_ReconcileOffline s now : step s (ReconcileOffline s now).1
| step_Subscribe s e : step s (Subscribe s e).1
| step_cancel s id : step s (cancel s id)
| step_receive s id : step s (receive s id).

(** Well-formed stores. *)
Record store_wf (s : Store) : Prop := {
  wf_uid : map_Forall (λ k h, hs_HostUID h = k) (st_hosts s);
  wf_tenant : map_Forall (λ k h, st_hostTenants s !! k = Some (hs_TenantCode h)) (st_hosts s);
  wf_nonempty : map_Forall (λ k h, k ≠ ""%string ∧ hs_TenantCode h ≠ ""%string) (st_hosts s);
  wf_offline : map_Forall (λ k h, hs_AgentState h = Offline ↔ hs_OverallState h = Offline) (st_hosts s);
  wf_dom_tenants : dom (st_hostTenants s) = dom (st_hosts s);
  wf_dom_configs : dom (st_configs s) = dom (st_hosts s);
  wf_dom_histories : dom (st_histories s) = dom (st_hosts s);
  wf_chans : map_Forall (λ _ c, length c ≤ 1)%nat (st_chans s);
  wf_watchers : st_watchers s ⊆ dom (st_chans s)
}.

(** ** Channels *)

Lemma broadcast_one_latest items c :
  (length c ≤ 1)%nat → broadcast_one items c = [items].
Proof. intros H. destruct c as [|x [|y c]]; [done|done|]. simpl in H. lia. Qed.

Lemma broadcast_dom ws items cs : dom (broadcast ws items cs) = dom cs.
Proof.
  unfold broadcast. revert cs. induction ws as [|w ws IH]; intros cs; simpl; [done|].
  by rewrite IH, dom_alter_L.
Qed.

Lemma broadcast_lookup_ne ws items cs id :
  id ∉ ws → broadcast ws items cs !! id = cs !! id.
Proof.
  unfold broadcast. revert cs. induction ws as [|w ws IH]; intros cs Hid; simpl; [done|].
  rewrite IH, lookup_alter_ne by set_solver. done.
Qed.

Lemma broadcast_lookup ws items cs id c :
  id ∈ ws → cs !! id = Some c → (length c ≤ 1)%nat →
  broadcast ws items cs !! id = Some [items].
Proof.
  unfold broadcast. revert cs c. induction ws as [|w ws IH]; intros cs c Hid Hc Hl; simpl; [set_solver|].
  destruct (decide (id = w)) as [->|Hne].
  - assert (alter (broadcast_one items) w cs !! w = Some [items]) as Hw.
    { rewrite lookup_alter_eq, Hc. simpl. by rewrite broadcast_one_latest. }
    destruct (decide (w ∈ ws)); [by eapply (IH _ [items])|].
    fold (broadcast ws items (alter (broadcast_one items) w cs)).
    by rewrite broadcast_lookup_ne.
  - apply (IH _ c); [set_solver| |done]. by rewrite lookup_alter_ne.
Qed.

Lemma broadcast_chans_wf ws items cs :
  map_Forall (λ _ c, length c ≤ 1)%nat cs →
  map_Forall (λ _ c, length c ≤ 1)%nat (broadcast ws items cs).
Proof.
  intros Hcs id c Hc. destruct (decide (id ∈ ws)) as [Hin|Hout].
  - destruct (cs !! id) as [c0|] eqn:E.
    + rewrite (broadcast_lookup _ _ _ _ c0) in Hc by eauto. by simplify_eq/=.
    + assert (id ∈ dom (broadcast ws items cs)) as Hd by (apply elem_of_dom; eauto).
      rewrite broadcast_dom in Hd. apply elem_of_dom in Hd as [? ?]; congruence.
  - rewrite broadcast_lookup_ne in Hc by done. eauto.
Qed.

(** ** Histories *)

Lemma recordMetricLocked_dom hs uid k now v :
  dom (recordMetricLocked hs uid k now v) = {[uid]} ∪ dom hs.
Proof. unfold recordMetricLocked. by rewrite dom_insert_L. Qed.

Lemma record_all_dom hs uid now pts :
  uid ∈ dom hs → dom (record_all hs uid now pts) = dom hs.
Proof.
  unfold record_all. revert hs. induction pts as [|p pts IH]; intros hs Hu; simpl; [done|].
  rewrite IH; rewrite recordMetricLocked_dom; set_solver.
Qed.

Lemma record_all_other hs uid now pts uid' :
  uid' ≠ uid → record_all hs uid now pts !! uid' = hs !! uid'.
Proof.
  intros Hne. unfold record_all. revert hs. induction pts as [|p pts IH]; intros hs; simpl; [done|].
  rewrite IH. unfold recordMetricLocked. by rewrite lookup_insert_ne.
Qed.

(** The stored series of a host, empty when there is none. *)
Definition series (hs : gmap string History) (uid : string) (k : MetricKey) : list StatePoint :=
  default [] (default ∅ (hs !! uid) !! k).

Lemma series_record hs uid k now v k' :
  series (recordMetricLocked hs uid k now v) uid k' =
    if decide (k = k') then pruneMetricHistory (series hs uid k ++ [mkStatePoint now v]) now
    else series hs uid k'.
Proof.
  unfold series, recordMetricLocked. rewrite lookup_insert_eq. simpl. rewrite lookup_insert.
  by case_decide.
Qed.

Lemma series_record_all_notin hs uid now pts k :
  k ∉ pts.*1 → series (record_all hs uid now pts) uid k = series hs uid k.
Proof.
  unfold record_all. revert hs. induction pts as [|[k0 v0] pts IH]; intros hs Hk; simpl; [done|].
  rewrite IH by set_solver. rewrite series_record, decide_False; [done|set_solver].
Qed.

Lemma series_record_all hs uid now pts k v :
  NoDup pts.*1 → (k, v) ∈ pts →
  series (record_all hs uid now pts) uid k =
    pruneMetricHistory (series hs uid k ++ [mkStatePoint now v]) now.
Proof.
  unfold record_all. revert hs. induction pts as [|[k0 v0] pts IH]; intros hs Hnd Hin; simpl; [set_solver|].
  apply NoDup_cons in Hnd as [Hk0 Hnd]. apply elem_of_cons in Hin as [Heq|Hin].
  - simplify_eq. fold (record_all (recordMetricLocked hs uid k0 now v0) uid now pts).
    rewrite series_record_all_notin by done. by rewrite series_record, decide_True.
  - rewrite IH by done. rewrite series_record, decide_False; [done|].
    intros ->. apply Hk0. apply list_elem_of_fmap. by exists (k, v).
Qed.

Lemma dropBefore_suffix cutoff pts : ∃ k, pts = k ++ dropBefore cutoff pts.
Proof.
  induction pts as [|p pts [k Hk]]; simpl; [by exists []|].
  destruct (time_Before _ _); [|by exists []]. exists (p :: k). simpl. by rewrite Hk at 1.
Qed.

Lemma dropBefore_app_last cutoff pts p :
  time_Before (sp_TS p) cutoff = false →
  dropBefore cutoff (pts ++ [p]) = dropBefore cutoff pts ++ [p].
Proof.
  intros Hp. induction pts as [|q pts IH]; simpl; [by rewrite Hp|].
  by destruct (time_Before (sp_TS q) cutoff).
Qed.

(** Points in chronological order. *)
Definition chronological (pts : list StatePoint) : Prop :=
  StronglySorted (λ p q, sp_TS p ≤ sp_TS q) pts.

Lemma dropBefore_chronological cutoff pts :
  chronological pts → Forall (λ p, cutoff ≤ sp_TS p) (dropBefore cutoff pts).
Proof.
  induction 1 as [|p pts Hs IH Hp]; simpl; [done|].
  unfold time_Before. destruct (Z.ltb_spec (sp_TS p) cutoff) as [|Hge]; [done|].
  constructor; [done|]. eapply Forall_impl; [done|]. simpl; lia.
Qed.

Lemma chronological_app_last pts p :
  chronological pts → Forall (λ q, sp_TS q ≤ sp_TS p) pts → chronological (pts ++ [p]).
Proof.
  induction 1 as [|q pts Hs IH Hq]; simpl; intros Hf.
  - constructor; [constructor|done].
  - apply Forall_cons in Hf as [? Hf]. constructor; [by apply IH|].
    apply Forall_app; split; [done|]. by apply Forall_singleton.
Qed.

(** ** Listing *)

Lemma elem_of_values (m : gmap string HostSnapshot) h :
  h ∈ (map_to_list m).*2 ↔ ∃ k, m !! k = Some h.
Proof.
  rewrite list_elem_of_fmap. split.
  - intros ([k h'] & -> & Hin). exists k. by apply elem_of_map_to_list.
  - intros [k Hk]. exists (k, h). split; [done|]. by apply elem_of_map_to_list.
Qed.

(** ** Reconciliation *)

(** The hosts a reconciliation at [now] turns off. *)
Definition stale (now : Time) (h : HostSnapshot) : bool :=
  negb (time_IsZero (hs_LastAgentSeenAt h)) &&
  (heartbeatOfflineThreshold <? now - hs_LastAgentSeenAt h) &&
  negb ((hs_AgentState h =? Offline) && (hs_OverallState h =? Offline)).

Lemma reconcileStep_stale now acc k h :
  reconcileStep now acc (k, h) =
    if stale now h then (<[k := offlineSnapshot h]> acc.1, acc.2 + 1) else acc.
Proof.
  unfold reconcileStep, stale.
  assert ((time_Sub now (hs_LastAgentSeenAt h) <=? heartbeatOfflineThreshold) =
          negb (heartbeatOfflineThreshold <? now - hs_LastAgentSeenAt h)) as ->.
  { rewrite Z.leb_antisym. f_equal. apply eq_true_iff_eq. rewrite !Z.ltb_lt.
    pose proof (time_Sub_le now (hs_LastAgentSeenAt h) heartbeatOfflineThreshold) as H.
    unfold heartbeatOfflineThreshold, Second, int64_min, int64_max in *. lia. }
  destruct (time_IsZero _); simpl; [done|].
  destruct (_ <? _); simpl; [|done]. by destruct (_ && _).
Qed.

#[local] Arguments reconcileStep : simpl never.

Lemma reconcile_fold now (l : list (string * HostSnapshot)) m c :
  NoDup l.*1 →
  let r := fold_left (reconcileStep now) l (m, c) in
  r.2 = c + llen (select (λ kv, stale now kv.2) l) ∧
  ∀ k, (r.1 : gmap string HostSnapshot) !! k =
    match (list_to_map l : gmap string HostSnapshot) !! k with
    | Some h => if stale now h then Some (offlineSnapshot h) else m !! k
    | None => m !! k
    end.
Proof.
  revert m c. induction l as [|[k0 h0] l IH]; intros m c Hnd; simpl.
  { split; [unfold llen; simpl; lia|done]. }
  apply NoDup_cons in Hnd as [Hk0 Hnd]. rewrite reconcileStep_stale, select_cons. simpl.
  assert ((list_to_map l : gmap string HostSnapshot) !! k0 = None) as Hl.
  { by apply not_elem_of_list_to_map. }
  destruct (stale now h0) eqn:Hst.
  - destruct (IH (<[k0 := offlineSnapshot h0]> m) (c + 1) Hnd) as [Hc Hk]. split.
    { rewrite Hc. unfold llen. simpl. lia. }
    intros k. rewrite Hk. destruct (decide (k0 = k)) as [->|Hne].
    + rewrite lookup_insert_eq, Hl, lookup_insert_eq, Hst. done.
    + rewrite !lookup_insert_ne by done. done.
  - destruct (IH m c Hnd) as [Hc Hk]. split; [by rewrite Hc|].
    intros k. rewrite Hk. destruct (decide (k0 = k)) as [->|Hne].
    + by rewrite lookup_insert_eq, Hl, Hst.
    + by rewrite lookup_insert_ne.
Qed.

Lemma reconcile_hosts now (m : gmap string HostSnapshot) :
  fold_left (reconcileStep now) (map_to_list m) (m, 0) =
    ((λ h, if stale now h then offlineSnapshot h else h) <$> m,
     llen (select (λ kv, stale now kv.2) (map_to_list m))).
Proof.
  pose proof (reconcile_fold now (map_to_list m) m 0 (NoDup_fst_map_to_list m)) as [Hc Hk].
  apply injective_projections; simpl; [|by rewrite Hc].
  apply map_eq. intros k. rewrite Hk, list_to_map_to_list, lookup_fmap.
  destruct (m !! k) as [h|] eqn:E; simpl; [|done]. by destruct (stale now h).
Qed.

Lemma stale_offlineSnapshot now h : stale now (offlineSnapshot h) = false.
Proof. unfold stale. simpl. by rewrite andb_false_r. Qed.

(** ** Preservation of well-formedness *)

Lemma new_id_nonempty e p : new_id e p ≠ ""%string.
Proof. apply ids_New_nonempty. Qed.

(** The identifier and the tenant a registration settles on. *)
Definition registered_uid (eh : Entropy) (req : RegisterAgentRequest) : string :=
  if str_empty (hi_HostUID (ra_Host req)) then new_id eh "host" else hi_HostUID (ra_Host req).
Definition registered_tenant (s : Store) (eh et : Entropy) (req : RegisterAgentRequest) : string :=
  (RegisterAgent s eh et req 0).2.2.

Lemma registered_uid_nonempty eh req : registered_uid eh req ≠ ""%string.
Proof.
  unfold registered_uid. destruct (str_empty _) eqn:E; [apply new_id_nonempty|].
  by apply str_empty_false.
Qed.

Lemma registered_tenant_nonempty s eh et req : registered_tenant s eh et req ≠ ""%string.
Proof.
  unfold registered_tenant, RegisterAgent, registerLocked. simpl.
  match goal with |- (if ?b then _ else _) ≠ _ => destruct b eqn:E end; [apply new_id_nonempty|].
  by apply str_empty_false.
Qed.

(** A host that has a tenant keeps it, whatever the request asks for. *)
Lemma registered_tenant_existing s eh et req t :
  st_hostTenants s !! registered_uid eh req = Some t → t ≠ ""%string →
  registered_tenant s eh et req = t.
Proof.
  unfold registered_tenant, RegisterAgent, registerLocked, tenant_of, registered_uid. simpl. intros -> Ht. simpl.
  by rewrite (proj2 (str_empty_false t) Ht); simpl; rewrite (proj2 (str_empty_false t) Ht).
Qed.

Lemma RegisterAgent_hosts s eh et req now :
  st_hosts (RegisterAgent s eh et req now).1 =
    <[registered_uid eh req :=
      registerSnapshot (default zero_HostSnapshot (st_hosts s !! registered_uid eh req))
        (registered_uid eh req) (registered_tenant s eh et req) (ra_Host req) now]> (st_hosts s).
Proof. reflexivity. Qed.

Lemma RegisterAgent_tenants s eh et req now :
  st_hostTenants (RegisterAgent s eh et req now).1 =
    <[registered_uid eh req := registered_tenant s eh et req]> (st_hostTenants s).
Proof. reflexivity. Qed.

Lemma map_Forall_fmap_same {A} (P Q : string → A → Prop) (f : A → A) (m : gmap string A) :
  map_Forall P m → (∀ k x, m !! k = Some x → P k x → Q k (f x)) → map_Forall Q (f <$> m).
Proof.
  intros Hm Hf k y Hy. rewrite lookup_fmap in Hy.
  destruct (m !! k) as [x|] eqn:E; simplify_eq/=. eauto.
Qed.

Lemma RegisterAgent_wf s eh et req now :
  store_wf s → store_wf (RegisterAgent s eh et req now).1.
Proof.
  intros []. pose proof (registered_uid_nonempty eh req) as Hu.
  pose proof (registered_tenant_nonempty s eh et req) as Ht.
  split; rewrite ?RegisterAgent_hosts, ?RegisterAgent_tenants.
  1-4: apply map_Forall_insert_2; simpl; [by rewrite ?lookup_insert_eq|].
  - done.
  - intros k h Hk. rewrite lookup_insert. case_decide; subst; [|by apply wf_tenant0].
    simpl. rewrite (registered_tenant_existing _ _ _ _ (hs_TenantCode h)); [done|by apply wf_tenant0|].
    by apply (wf_nonempty0 _ _ Hk).
  - done.
  - done.
  - by rewrite !dom_insert_L, wf_dom_tenants0.
  - simpl. by rewrite !dom_insert_L, wf_dom_configs0.
  - simpl. fold (registered_uid eh req).
    destruct (st_histories s !! registered_uid eh req) as [x|] eqn:E.
    + rewrite dom_insert_L, <-wf_dom_histories0.
      assert (registered_uid eh req ∈ dom (st_histories s)) by (apply elem_of_dom; eauto). set_solver.
    + by rewrite !dom_insert_L, wf_dom_histories0.
  - simpl. by apply broadcast_chans_wf.
  - simpl. by rewrite broadcast_dom.
Qed.

Lemma Heartbeat_state s req now :
  Heartbeat s req now =
    match st_hosts s !! hb_HostUID req with
    | None => (s, Err ErrHostNotFound)
    | Some old =>
        let snapshot := heartbeatSnapshot old (hb_Digest req) now in
        let hosts := <[hb_HostUID req := snapshot]> (st_hosts s) in
        (mkStore hosts (st_hostTenants s)
           (record_all (st_histories s) (hb_HostUID req) now (digest_metric_entries (hb_Digest req)))
           (st_configs s) (st_maintenance s) (st_alertAcks s) (st_watchers s)
           (broadcast (elements (st_watchers s)) (listHosts hosts) (st_chans s))
           (st_allowCustomTenantCode s),
         Ok (snapshot, default zero_AgentConfig (st_configs s !! hb_HostUID req)))
    end.
Proof. unfold Heartbeat, heartbeatLocked. by destruct (st_hosts s !! hb_HostUID req). Qed.

Lemma Heartbeat_wf s req now : store_wf s → store_wf (Heartbeat s req now).1.
Proof.
  intros Hwf. rewrite Heartbeat_state.
  destruct (st_hosts s !! hb_HostUID req) as [h|] eqn:E; [|done].
  destruct Hwf. assert (hb_HostUID req ∈ dom (st_hosts s)) as Hd by (apply elem_of_dom; eauto).
  split; cbn [fst st_hosts st_hostTenants st_histories st_configs st_chans st_watchers].
  1-4: apply map_Forall_insert_2; [|done].
  - exact (wf_uid0 _ _ E).
  - exact (wf_tenant0 _ _ E).
  - exact (wf_nonempty0 _ _ E).
  - done.
  - rewrite dom_insert_L. set_solver.
  - rewrite dom_insert_L. set_solver.
  - rewrite dom_insert_L, record_all_dom; rewrite ?wf_dom_histories0; set_solver.
  - by apply broadcast_chans_wf.
  - by rewrite broadcast_dom.
Qed.

Lemma ReconcileOffline_state s now :
  ReconcileOffline s now =
    (let hosts := (λ h, if stale now h then offlineSnapshot h else h) <$> st_hosts s in
     let changed := llen (select (λ kv, stale now kv.2) (map_to_list (st_hosts s))) in
     (mkStore hosts (st_hostTenants s) (st_histories s) (st_configs s) (st_maintenance s)
        (st_alertAcks s) (st_watchers s)
        (if changed =? 0 then st_chans s
         else broadcast (elements (st_watchers s)) (listHosts hosts) (st_chans s))
        (st_allowCustomTenantCode s), changed)).
Proof.
  unfold ReconcileOffline, reconcileLocked. rewrite reconcile_hosts. simpl.
  by destruct (Z.eqb_spec (llen (select (λ kv, stale now kv.2) (map_to_list (st_hosts s)))) 0) as [->|].
Qed.

Lemma ReconcileOffline_wf s now : store_wf s → store_wf (ReconcileOffline s now).1.
Proof.
  intros []. rewrite ReconcileOffline_state. split; simpl; rewrite ?dom_fmap_L; try done.
  - eapply map_Forall_fmap_same; [exact wf_uid0|]. intros k h _ <-. by destruct (stale now h).
  - eapply map_Forall_fmap_same; [exact wf_tenant0|]. intros k h _ ->. by destruct (stale now h).
  - eapply map_Forall_fmap_same; [exact wf_nonempty0|]. intros k h _. by destruct (stale now h).
  - eapply map_Forall_fmap_same; [exact wf_offline0|]. intros k h _. by destruct (stale now h).
  - destruct (_ =? 0); [done|]. by apply broadcast_chans_wf.
  - destruct (_ =? 0); [done|]. by rewrite broadcast_dom.
Qed.

Lemma Subscribe_wf s e : store_wf s → store_wf (Subscribe s e).1.
Proof.
  intros []. split; simpl; try done.
  - apply map_Forall_insert_2; [simpl; lia|done].
  - rewrite dom_insert_L. set_solver.
Qed.

Lemma cancel_wf s id : store_wf s → store_wf (cancel s id).
Proof.
  intros Hs. unfold cancel. case_bool_decide; [|done]. destruct Hs. split; simpl; try done. set_solver.
Qed.

Lemma receive_wf s id : store_wf s → store_wf (receive s id).
Proof.
  intros []. split; simpl; try done; [|by rewrite dom_alter_L].
  intros k c. rewrite lookup_alter. case_decide; [subst|by intros ?%wf_chans0].
  intros (c0 & Hc0%wf_chans0 & ->)%fmap_Some. destruct c0; simpl in *; lia.
Qed.

Lemma step_wf s s' : step s s' → store_wf s → store_wf s'.
Proof.
  destruct 1; intros Hwf;
    [by apply RegisterAgent_wf|by apply Heartbeat_wf| | |by apply ReconcileOffline_wf
    |by apply Subscribe_wf|by apply cancel_wf|by apply receive_wf]; by destruct Hwf; split.
Qed.

Lemma NewStore_wf cfg : store_wf (NewStore cfg).
Proof. split; simpl; try done; try apply map_Forall_empty; set_solver. Qed.

Lemma steps_wf s s' : rtc step s s' → store_wf s → store_wf s'.
Proof. induction 1; eauto using step_wf. Qed.

#[export] Hint Resolve NewStore_wf step_wf steps_wf : gaoming.

(** ** Properties *)

Lemma elem_of_mem_listing s tenant order h :
  store_wf s → order ≡ₚ map_to_list (st_hosts s) →
  h ∈ listing s tenant order ↔ ∃ uid, GetHost s uid tenant = (h, true).
Proof.
  intros Hwf Hp. unfold listing. rewrite elem_of_sort_by, list_elem_of_fmap. split.
  - intros ([k h'] & -> & [Hk Hin]%elem_of_select). simpl in *. exists k.
    rewrite Hp, elem_of_map_to_list in Hin. unfold GetHost. rewrite Hin.
    by destruct (negb (str_empty tenant) && _).
  - intros [uid Hg]. unfold GetHost in Hg.
    destruct (st_hosts s !! uid) as [h0|] eqn:E; [|done].
    destruct (negb (str_empty tenant) && _) eqn:Hc; simplify_eq.
    exists (uid, h). split; [done|]. apply elem_of_select. simpl. rewrite Hc.
    by rewrite Hp, elem_of_map_to_list.
Qed.

Lemma step_tenant s s' uid t :
  store_wf s → step s s' → st_hostTenants s !! uid = Some t → st_hostTenants s' !! uid = Some t.
Proof.
  intros Hwf Hstep Ht. destruct Hstep; try exact Ht.
  - rewrite RegisterAgent_tenants, lookup_insert. case_decide; subst; [|done].
    f_equal. apply registered_tenant_existing; [done|].
    assert (registered_uid eh req ∈ dom (st_hosts s)) as [h Hh]%elem_of_dom.
    { rewrite <-(wf_dom_tenants _ Hwf). apply elem_of_dom. eauto. }
    rewrite (wf_tenant _ Hwf _ _ Hh) in Ht. simplify_eq. apply (wf_nonempty _ Hwf _ _ Hh).
  - rewrite Heartbeat_state. by destruct (st_hosts s !! hb_HostUID req).
  - by rewrite ReconcileOffline_state.
  - unfold cancel. by case_bool_decide.
Qed.

(** Every store the in-memory backend can reach from [NewStore] by any
    sequence of registrations, heartbeats, maintenance, acknowledgements,
    reconciliations, subscriptions, cancellations and receives is well formed:
    hosts are indexed by their own non-empty identifier, carry the non-empty
    tenant recorded for them, have a configuration and a history, are offline
    in both states or in neither, and every watcher channel holds at most one
    list. *)
Theorem memory_reachable_wf cfg s : rtc step (NewStore cfg) s → store_wf s.
Proof. intros H. eapply steps_wf; [done|apply NewStore_wf]. Qed.

Definition sample_host : HostIdentity :=
  mkHostIdentity "h1" "acme" "node-1" "10.0.0.1" [] "linux" "amd64" "local" "" "dev" "node" ∅.
Definition sample_agent : AgentMetadata := mkAgentMetadata "agent-1" "v0.1.0" [] 0.
Definition sample_entropy : Entropy := mkEntropy 7 None.
Definition sample_store : Store :=
  (RegisterAgent (NewStore None) sample_entropy sample_entropy
     (mkRegisterAgentRequest sample_host sample_agent) (100 * Second)).1.

Lemma sample_store_reachable : rtc step (NewStore None) sample_store.
Proof. eapply rtc_l; [apply step_RegisterAgent|apply rtc_refl]. Qed.

Lemma memory_reachable_wf_witness : rtc step (NewStore None) sample_store ∧ store_wf sample_store.
Proof.
  split; [exact sample_store_reachable|].
  exact (memory_reachable_wf None sample_store sample_store_reachable).
Defined.

(** The tenant of a registered host never changes: whatever operations
    follow, including a new registration of the same host that asks for another
    tenant, the host stays in the store under the tenant it was first given. *)
Theorem memory_tenant_pinned s s' uid t :
  store_wf s → rtc step s s' → st_hostTenants s !! uid = Some t →
  ∃ h, st_hosts s' !! uid = Some h ∧ hs_TenantCode h = t ∧ GetHost s' uid t = (h, true).
Proof.
  intros Hwf Hsteps Ht.
  assert (st_hostTenants s' !! uid = Some t) as Ht'.
  { induction Hsteps; eauto using step_tenant, step_wf. }
  assert (store_wf s') as Hwf' by eauto with gaoming.
  assert (uid ∈ dom (st_hosts s')) as [h Hh]%elem_of_dom.
  { rewrite <-(wf_dom_tenants _ Hwf'). apply elem_of_dom. eauto. }
  exists h. rewrite (wf_tenant _ Hwf' _ _ Hh) in Ht'. simplify_eq. split; [done|]. split; [done|].
  unfold GetHost, tenant_of. rewrite Hh, (wf_tenant _ Hwf' _ _ Hh). simpl.
  unfold str_eqb. by rewrite bool_decide_true, andb_false_r.
Qed.

Lemma memory_tenant_pinned_witness :
  let s' := (RegisterAgent sample_store sample_entropy sample_entropy
               (mkRegisterAgentRequest (mkHostIdentity "h1" "other" "n" "" [] "" "" "" "" "" "" ∅)
                  sample_agent) (200 * Second)).1 in
  ∃ h, st_hosts s' !! "h1"%string = Some h ∧ hs_TenantCode h = "acme"%string ∧
       GetHost s' "h1" "acme" = (h, true).
Proof.
  intros s'. apply (memory_tenant_pinned sample_store s' "h1" "acme").
  - eapply steps_wf; [exact sample_store_reachable|apply NewStore_wf].
  - eapply rtc_l; [apply step_RegisterAgent|apply rtc_refl].
  - reflexivity.
Defined.

(** C0: [ListHosts] returns exactly the hosts [GetHost] grants for the tenant,
    ordered by identifier, and its result does not depend on the order in which
    the runtime iterates over the host map. *)
Theorem memory_ListHosts_spec s tenant order :
  store_wf s → order ≡ₚ map_to_list (st_hosts s) →
  listing s tenant order = ListHosts s tenant ∧
  StronglySorted (key_le hs_HostUID) (ListHosts s tenant) ∧
  ∀ h, h ∈ ListHosts s tenant ↔ ∃ uid, GetHost s uid tenant = (h, true).
Proof.
  intros Hwf Hp. split; [|split; [apply sort_by_sorted|]].
  - apply sort_by_unique; [by rewrite (select_Permutation _ _ _ Hp)|].
    intros x y ([k x'] & -> & [_ Hx]%elem_of_select)%list_elem_of_fmap
      ([k' y'] & -> & [_ Hy]%elem_of_select)%list_elem_of_fmap Hk.
    rewrite Hp, elem_of_map_to_list in Hx, Hy. simpl in *.
    rewrite (wf_uid _ Hwf _ _ Hx), (wf_uid _ Hwf _ _ Hy) in Hk. congruence.
  - intros h. by apply elem_of_mem_listing.
Qed.

Lemma memory_ListHosts_spec_witness :
  listing sample_store "acme" (map_to_list (st_hosts sample_store)) = ListHosts sample_store "acme" ∧
  length (ListHosts sample_store "acme") = 1%nat.
Proof.
  split; [|reflexivity].
  apply (memory_ListHosts_spec sample_store "acme" (map_to_list (st_hosts sample_store))); [|done].
  eapply steps_wf; [exact sample_store_reachable|apply NewStore_wf].
Defined.

(** A heartbeat appends to each of the sixteen series of its host the value
    the digest reports, and keeps only the last hour: every retained point lies
    between [now - 1h] and [now], in chronological order, the new one last. *)
Theorem memory_Heartbeat_window s req now old k v :
  st_hosts s !! hb_HostUID req = Some old →
  (k, v) ∈ digest_metric_entries (hb_Digest req) →
  chronological (series (st_histories s) (hb_HostUID req) k) →
  Forall (λ p, sp_TS p ≤ now) (series (st_histories s) (hb_HostUID req) k) →
  let pts := series (st_histories (Heartbeat s req now).1) (hb_HostUID req) k in
  (∃ kept dropped, pts = kept ++ [mkStatePoint now v] ∧
     series (st_histories s) (hb_HostUID req) k = dropped ++ kept) ∧
  chronological pts ∧ Forall (λ p, now - Hour ≤ sp_TS p ≤ now) pts.
Proof.
  intros Hold Hin Hchr Hle pts.
  assert (pts = dropBefore (now - Hour) (series (st_histories s) (hb_HostUID req) k) ++ [mkStatePoint now v]) as Hpts.
  { subst pts. rewrite Heartbeat_state, Hold. cbn [fst st_histories].
    rewrite (series_record_all _ _ _ _ _ v);
      [|rewrite digest_metric_entries_keys; apply MetricKeys_NoDup|done].
    unfold pruneMetricHistory. apply dropBefore_app_last. simpl.
    unfold time_Before, time_Add, loadHistoryRetention, Hour, Minute, Second. apply Z.ltb_ge. lia. }
  destruct (dropBefore_suffix (now - Hour) (series (st_histories s) (hb_HostUID req) k)) as [d Hd].
  assert (chronological (dropBefore (now - Hour) (series (st_histories s) (hb_HostUID req) k))) as Hk.
  { rewrite Hd in Hchr. by eapply StronglySorted_app_1_r. }
  rewrite Hd in Hle. apply Forall_app in Hle as [_ Hle]. rewrite Hpts. split_and!.
  - eauto.
  - by apply chronological_app_last.
  - apply Forall_app; split; [|apply Forall_singleton; simpl; unfold Hour, Minute, Second; lia].
    pose proof (dropBefore_chronological (now - Hour) _ Hchr) as Hge.
    rewrite list.Forall_forall in *. intros p Hp. specialize (Hge p Hp). specialize (Hle p Hp). lia.
Qed.

Definition sample_heartbeat : HeartbeatRequest :=
  mkHeartbeatRequest "h1" "agent-1" 1 0 zero_AgentDigest.

Lemma memory_Heartbeat_window_witness :
  let pts := series (st_histories (Heartbeat sample_store sample_heartbeat (101 * Second)).1) "h1" MetricLoad1 in
  chronological pts ∧ Forall (λ p, 101 * Second - Hour ≤ sp_TS p ≤ 101 * Second) pts ∧ length pts = 1%nat.
Proof.
  intros pts.
  assert (st_hosts sample_store !! hb_HostUID sample_heartbeat =
    Some (registerSnapshot zero_HostSnapshot "h1" "acme" sample_host (100 * Second))) as Hh by reflexivity.
  destruct (memory_Heartbeat_window sample_store sample_heartbeat (101 * Second) _ MetricLoad1 f64_zero Hh)
    as (_ & H1 & H2).
  - simpl. set_solver.
  - constructor.
  - constructor.
  - split; [exact H1|]. split; [exact H2|]. reflexivity.
Defined.

(** A reconciliation turns offline exactly the hosts that were seen at least
    once, were last seen more than 15 seconds ago and are not offline yet,
    counts them, leaves every other host untouched, and a second run at the same
    time changes nothing. *)
Theorem memory_ReconcileOffline_spec s now :
  let s' := (ReconcileOffline s now).1 in
  st_hosts s' = (λ h, if stale now h then offlineSnapshot h else h) <$> st_hosts s ∧
  (ReconcileOffline s now).2 = llen (select (λ kv, stale now kv.2) (map_to_list (st_hosts s))) ∧
  (ReconcileOffline s' now).2 = 0 ∧ st_hosts (ReconcileOffline s' now).1 = st_hosts s'.
Proof.
  intros s'.
  assert (st_hosts s' = (λ h, if stale now h then offlineSnapshot h else h) <$> st_hosts s) as Hh.
  { unfold s'. by rewrite ReconcileOffline_state. }
  assert (∀ k h, st_hosts s' !! k = Some h → stale now h = false) as Hs'.
  { intros k h. rewrite Hh, lookup_fmap. intros (h0 & _ & ->)%fmap_Some.
    destruct (stale now h0) eqn:E; [apply stale_offlineSnapshot|done]. }
  split; [done|]. split; [by rewrite ReconcileOffline_state|].
  rewrite (ReconcileOffline_state s' now). cbn [fst snd st_hosts]. split.
  - rewrite select_none; [done|]. intros [k h] Hin%elem_of_map_to_list. eauto.
  - rewrite <-(map_fmap_id (st_hosts s')) at 2. apply map_fmap_ext. intros k h Hin.
    by rewrite (Hs' k h).
Qed.

(** After a registration, a heartbeat of a known host, or a reconciliation
    that changed something, the channel of every watcher holds exactly one
    element, the list of hosts of the new state: a slow subscriber loses
    intermediate lists but never the last one, and the sender never blocks. *)
Theorem memory_watchers_latest s id eh et rreq hreq now :
  store_wf s → id ∈ st_watchers s →
  let latest s' := st_chans s' !! id = Some [listHostsLocked s'] in
  latest (RegisterAgent s eh et rreq now).1 ∧
  (is_Some (st_hosts s !! hb_HostUID hreq) → latest (Heartbeat s hreq now).1) ∧
  ((ReconcileOffline s now).2 ≠ 0 → latest (ReconcileOffline s now).1).
Proof.
  intros Hwf Hid latest.
  assert (id ∈ dom (st_chans s)) as [c Hc]%elem_of_dom by (by apply (wf_watchers _ Hwf)).
  pose proof (wf_chans _ Hwf _ _ Hc) as Hlen.
  assert (∀ items, broadcast (elements (st_watchers s)) items (st_chans s) !! id = Some [items]) as Hb.
  { intros items. apply (broadcast_lookup _ _ _ _ c); [by apply elem_of_elements|done..]. }
  split_and!.
  - apply Hb.
  - intros [h Hh]. rewrite Heartbeat_state, Hh. apply Hb.
  - rewrite ReconcileOffline_state. unfold latest. cbn [fst snd st_chans]. intros Hne%Z.eqb_neq.
    rewrite Hne. apply Hb.
Qed.

Lemma memory_watchers_latest_witness :
  let s := (Subscribe sample_store sample_entropy).1 in
  let id := new_id sample_entropy "watch" in
  let s' := (Heartbeat s sample_heartbeat (101 * Second)).1 in
  st_chans s' !! id = Some [listHostsLocked s'].
Proof.
  intros s id s'.
  apply (memory_watchers_latest s id sample_entropy sample_entropy
           (mkRegisterAgentRequest sample_host sample_agent) sample_heartbeat (101 * Second)).
  - apply Subscribe_wf. eapply steps_wf; [exact sample_store_reachable|apply NewStore_wf].
  - apply elem_of_union_l, elem_of_singleton. reflexivity.
  - eexists. reflexivity.
Defined.
