(* ===== verification/MemoryConcurrent.v ===== *)
(** * The in-memory host store under concurrent calls

    [MemoryStore] takes a call of [pkg/hostruntime/repository/memory/store.go] as
    one step.  The code holds its mutex only up to [Unlock]: the broadcast to the
    watchers, one channel operation at a time, and the read of the configuration a
    heartbeat returns come after it, while other calls and the subscribers go on.
    Here these are steps of their own. *)

From stdpp Require Import gmap strings list sorting pretty.
From S2P Require Import Prelude GoRuntime GoStrings Contracts MemoryStore.
Local Open Scope Z_scope.

(** ** Calls after their critical section *)

(** The three [select] statements of [broadcast] for one watcher. *)
Inductive phase := Offer | Discard | Retry.

(** A call that has released the mutex: the watchers it has still to serve, the
    statement it is at for the first of them, the list it sends, and the host
    whose configuration it reads at its end, when it is a heartbeat. *)
Record caller := mkCaller {
  cl_watchers : list string;
  cl_phase : phase;
  cl_items : list HostSnapshot;
  cl_config : option string
}.

(** [select { case watcher <- items: default: }] on a channel of the table. *)
Definition offer (w : string) (items : list HostSnapshot) (chans : gmap string Chan) : option (gmap string Chan) :=
  (λ c, <[w := c]> chans) <$> (chans !! w ≫= λ c, try_send c items).

(** One [select] of [broadcast]. *)
Definition advance (chans : gmap string Chan) (c : caller) : gmap string Chan * caller :=
  match cl_watchers c with
  | [] => (chans, c)
  | w :: ws =>
      let next := mkCaller ws Offer (cl_items c) (cl_config c) in
      match cl_phase c with
      | Offer =>
          match offer w (cl_items c) chans with
          | Some chans' => (chans', next)
          | None => (chans, mkCaller (w :: ws) Discard (cl_items c) (cl_config c))
          end
      | Discard => (alter try_recv w chans, mkCaller (w :: ws) Retry (cl_items c) (cl_config c))
      | Retry => (default chans (offer w (cl_items c) chans), next)
      end
  end.

(** The [select] statements a call has left. *)
Definition work (c : caller) : nat :=
  3 * length (cl_watchers c) - match cl_phase c with Offer => 0 | Discard => 1 | Retry => 2 end.

(** ** The system *)

(** The store, the calls under way, and what the subscribers have seen: the
    watchers of the last change, what each watcher received last since then, the
    lists of hosts there were, the last one first, and the configurations that
    heartbeats returned. *)
Record system := mkSystem {
  sy_store : Store;
  sy_callers : list caller;
  sy_told : gset string;
  sy_received : gmap string (list HostSnapshot);
  sy_log : list (list HostSnapshot);
  sy_returned : list (string * AgentConfig)
}.

(** The critical sections: the new store, what is left to broadcast, and the
    configuration to return. *)
Inductive commit : Store → Store → option Broadcast → option string → Prop :=
| commit_RegisterAgent s eh et req now s' b r : registerLocked s eh et req now = (s', b, r) → commit s s' (Some b) None
| commit_Heartbeat s req now s' b h : heartbeatLocked s req now = Ok (s', b, h) → commit s s' (Some b) (Some (hb_HostUID req))
| commit_ReconcileOffline s now s' b n : reconcileLocked s now = (s', b, n) → commit s s' b None
| commit_CreateMaintenance s e req : commit s (CreateMaintenance s e req).1 None None
| commit_AckAlert s a b : commit s (AckAlert s a b) None None
| commit_Subscribe s e : commit s (Subscribe s e).1 None None
| commit_cancel s id : commit s (cancel s id) None None.

(** The order in which the runtime delivers the watchers is arbitrary. *)
Inductive sys_step : system → system → Prop :=
| sys_quiet y s' : commit (sy_store y) s' None None →
    sys_step y (mkSystem s' (sy_callers y) (sy_told y) (sy_received y) (sy_log y) (sy_returned y))
| sys_change y s' b cfg ws : commit (sy_store y) s' (Some b) cfg → ws ≡ₚ b.1 →
    sys_step y (mkSystem s' (mkCaller ws Offer b.2 cfg :: sy_callers y) (st_watchers s') ∅ (b.2 :: sy_log y) (sy_returned y))
| sys_select y l c l' chans c' : sy_callers y = l ++ c :: l' → cl_watchers c ≠ [] → advance (st_chans (sy_store y)) c = (chans, c') →
    sys_step y (mkSystem (with_chans (sy_store y) chans) (l ++ c' :: l') (sy_told y) (sy_received y) (sy_log y) (sy_returned y))
| sys_return y l c l' : sy_callers y = l ++ c :: l' → cl_watchers c = [] →
    sys_step y (mkSystem (sy_store y) (l ++ l') (sy_told y) (sy_received y) (sy_log y)
      (sy_returned y ++ match cl_config c with Some uid => [(uid, config_of (sy_store y) uid)] | None => [] end))
| sys_receive y id items rest : st_chans (sy_store y) !! id = Some (items :: rest) →
    sys_step y (mkSystem (receive (sy_store y) id) (sy_callers y) (sy_told y) (<[id := items]> (sy_received y)) (sy_log y) (sy_returned y)).

Definition start (cfg : option bool) : system := mkSystem (NewStore cfg) [] ∅ ∅ [[]] [].

#[global] Arguments advance : simpl never.
#[global] Arguments receive : simpl never.

(** ** The data of the store *)

(** Two stores that differ in the channels alone. *)
Definition same_data (s t : Store) : Prop := with_chans s (st_chans t) = t.

#[export] Instance same_data_equiv : Equivalence same_data.
Proof.
  split.
  - by intros [].
  - intros [] []. unfold same_data, with_chans. simpl. congruence.
  - intros [] [] []. unfold same_data, with_chans. simpl. congruence.
Qed.

#[export] Instance same_data_hosts : Proper (same_data ==> (=)) st_hosts.
Proof. by intros s t <-. Qed.

Lemma same_data_chans s cs : same_data s (with_chans s cs).
Proof. done. Qed.

(** A critical section is a step of the atomic store, the channels apart. *)
Lemma commit_atomic s s' b cfg t :
  commit s s' b cfg → same_data s t → ∃ t', step t t' ∧ same_data s' t'.
Proof.
  intros Hc <-. set (cs := st_chans t). destruct Hc.
  - exists (RegisterAgent (with_chans s cs) eh et req now).1. split; [constructor|]. injection H as <- <- <-. done.
  - exists (Heartbeat (with_chans s cs) req now).1. split; [constructor|]. rewrite Heartbeat_state. unfold heartbeatLocked in H. simpl.
    destruct (st_hosts s !! hb_HostUID req); [|done]. injection H as <- <- <-. done.
  - exists (ReconcileOffline (with_chans s cs) now).1. split; [constructor|]. rewrite ReconcileOffline_state.
    unfold reconcileLocked in H. rewrite reconcile_hosts in H. simpl. by destruct (_ =? 0); injection H as <- <- <-.
  - exists (CreateMaintenance (with_chans s cs) e req).1. by split; [constructor|].
  - exists (AckAlert (with_chans s cs) a b). by split; [constructor|].
  - exists (Subscribe (with_chans s cs) e).1. by split; [constructor|].
  - exists (cancel (with_chans s cs) id). split; [constructor|]. unfold cancel. simpl. by case_bool_decide.
Qed.

Lemma sys_step_atomic y y' t :
  sys_step y y' → same_data (sy_store y) t → ∃ t', rtc step t t' ∧ same_data (sy_store y') t'.
Proof.
  intros Hs Ht. destruct Hs; simpl.
  - destruct (commit_atomic _ _ _ _ _ H Ht) as (t' & ? & ?). exists t'. split; [by apply rtc_once|done].
  - destruct (commit_atomic _ _ _ _ _ H Ht) as (t' & ? & ?). exists t'. split; [by apply rtc_once|done].
  - exists t. split; [done|]. etrans; [symmetry; apply same_data_chans|done].
  - by exists t.
  - exists t. split; [done|]. etrans; [symmetry; apply same_data_chans|done].
Qed.

(** Whatever the calls do to each other, the data of the store went through the
    steps of the atomic one. *)
Lemma sys_steps_atomic cfg y :
  rtc sys_step (start cfg) y → ∃ t, rtc step (NewStore cfg) t ∧ same_data (sy_store y) t.
Proof.
  intros Hr. assert (∀ x t, rtc sys_step x y → same_data (sy_store x) t → ∃ t', rtc step t t' ∧ same_data (sy_store y) t') as Hg.
  { clear. intros x t Hr. revert t. induction Hr as [|x x' y Hs _ IH]; intros t Ht; [by exists t|].
    destruct (sys_step_atomic _ _ _ Hs Ht) as (t1 & Hr1 & Ht1). destruct (IH _ Ht1) as (t2 & ? & ?). exists t2. split; [by etrans|done]. }
  by apply (Hg (start cfg)).
Qed.

(** ** One statement of a broadcast *)

Abbreviation bounded := (map_Forall (λ (_ : string) (c : Chan), length c ≤ 1)%nat).

Lemma offer_spec w items chans ch :
  bounded chans → chans !! w = Some ch →
  offer w items chans = match ch with [] => Some (<[w := [items]]> chans) | _ => None end.
Proof.
  intros Hb Hw. pose proof (Hb w ch Hw) as Hl. unfold offer. rewrite Hw. simpl. unfold try_send.
  destruct ch as [|x [|]]; simpl in *; [done|done|lia].
Qed.

(** A statement touches the channel of its watcher alone, keeps it, empties it or
    puts the list of the call there, and leaves the watcher behind only when its
    channel is not empty. *)
Lemma advance_spec chans c chans' c' :
  bounded chans → cl_watchers c ≠ [] → (∀ w, w ∈ cl_watchers c → w ∈ dom chans) → advance chans c = (chans', c') →
  ∃ w ws ch ch', cl_watchers c = w :: ws ∧ chans !! w = Some ch ∧ chans' = <[w := ch']> chans ∧
    cl_items c' = cl_items c ∧ cl_config c' = cl_config c ∧ (work c' < work c)%nat ∧
    (ch' = ch ∨ ch' = [] ∨ ch' = [cl_items c]) ∧ (cl_watchers c' = w :: ws ∨ cl_watchers c' = ws ∧ ch' ≠ []).
Proof.
  intros Hb Hne Hd. destruct c as [[|w ws] ph items cfg]; [done|]. simpl in *.
  destruct (proj1 (elem_of_dom chans w) (Hd w ltac:(set_solver))) as [ch Hw]. unfold advance. simpl.
  rewrite (offer_spec _ _ _ _ Hb Hw). pose proof (Hb w ch Hw) as Hl. simpl in Hl.
  assert (chans = <[w := ch]> chans) as Hsame by (by rewrite insert_id).
  destruct ph; [destruct ch|..|destruct ch]; intros [= <- <-]; simpl; exists w, ws.
  - exists [], [items]. split_and!; auto. unfold work; simpl; lia.
  - exists (l :: ch), (l :: ch). split_and!; auto. unfold work; simpl; lia.
  - exists ch, (try_recv ch). split_and!; auto; [|unfold work; simpl; lia|].
    + apply map_eq. intros j. rewrite lookup_alter, lookup_insert. by case_decide; [subst; rewrite Hw|].
    + destruct ch as [|x [|]]; simpl in *; [auto..|lia].
  - exists [], [items]. split_and!; auto. unfold work; simpl; lia.
  - exists (l :: ch), (l :: ch). split_and!; auto. unfold work; simpl; lia.
Qed.

(** ** The critical sections *)

Lemma commit_change s s' b cfg :
  commit s s' (Some b) cfg → b = snapshotWatchersLocked s' ∧ st_chans s' = st_chans s ∧ st_watchers s' = st_watchers s.
Proof.
  intros Hc. inversion Hc as [? ? ? ? ? ? ? r E| ? ? ? ? ? h E|? ? ? ? n E| | | |]; subst.
  - by injection E as <- <- <-.
  - unfold heartbeatLocked in E. destruct (st_hosts s !! _); [|done]. by injection E as <- <- <-.
  - unfold reconcileLocked in E. rewrite reconcile_hosts in E. by destruct (_ =? 0); [|injection E as <- <- <-].
Qed.

Lemma commit_quiet s s' cfg :
  commit s s' None cfg → listHostsLocked s' = listHostsLocked s ∧ st_watchers s' ⊆ dom (st_chans s') ∪ st_watchers s ∧
  (st_chans s' = st_chans s ∨ ∃ id, st_chans s' = <[id := [listHostsLocked s]]> (st_chans s)).
Proof.
  intros Hc. inversion Hc as [| |? ? ? ? n E| | |? e|]; subst.
  - unfold reconcileLocked in E. rewrite reconcile_hosts in E. destruct (Z.eqb_spec (llen (select (λ kv, stale now kv.2) (map_to_list (st_hosts s)))) 0) as [En|]; [|done].
    injection E as <- <-. split_and!; [|set_solver|by left]. unfold listHostsLocked. simpl. f_equal.
    rewrite <-(map_fmap_id (st_hosts s)) at 2. apply map_fmap_ext. intros k h Hk. destruct (stale now h) eqn:Es; [|done].
    assert ((k, h) ∈ select (λ kv, stale now kv.2) (map_to_list (st_hosts s))) as Hin by (apply elem_of_select; by rewrite elem_of_map_to_list).
    destruct (select _ _); [by apply not_elem_of_nil in Hin|]. unfold llen in En. simpl in En. lia.
  - split_and!; [done|set_solver|by left].
  - split_and!; [done|set_solver|by left].
  - split_and!; [done| |right; eauto]. simpl. rewrite dom_insert_L. set_solver.
  - unfold cancel. case_bool_decide; (split_and!; [done|set_solver|by left]).
Qed.

(** Hosts do not lose their configuration. *)
Lemma commit_configs s s' b cfg : commit s s' b cfg → dom (st_configs s) ⊆ dom (st_configs s').
Proof.
  intros Hc. destruct Hc as [? ? ? ? ? ? ? r E| ? ? ? ? ? h E|? ? ? ? n E| | | |?]; simpl; [..|by unfold cancel; case_bool_decide].
  - injection E as <- <- <-. simpl. set_solver.
  - unfold heartbeatLocked in E. destruct (st_hosts s !! _); [|done]. by injection E as <- <- <-.
  - unfold reconcileLocked in E. rewrite reconcile_hosts in E. by destruct (_ =? 0); injection E as <- <- <-.
  - done.
  - done.
  - done.
Qed.

Lemma commit_config_of s s' b uid : commit s s' b (Some uid) → uid ∈ dom (st_hosts s').
Proof.
  inversion 1 as [| ? ? ? ? ? h E| | | | |]; subst. unfold heartbeatLocked in E.
  destruct (st_hosts s !! _); [|done]. injection E as <- <- <-. simpl. set_solver.
Qed.

(** ** The invariant *)

(** A watcher of the last change has received something since, has something to
    receive, or a call is still going to serve it. *)
Definition notified (y : system) (id : string) : Prop :=
  id ∈ dom (sy_received y) ∨ (∃ items, st_chans (sy_store y) !! id = Some [items]) ∨
  ∃ c, c ∈ sy_callers y ∧ id ∈ cl_watchers c.

Definition caller_ok (s : Store) (log : list (list HostSnapshot)) (c : caller) : Prop :=
  (∀ w, w ∈ cl_watchers c → w ∈ dom (st_chans s)) ∧ cl_items c ∈ log ∧ ∀ uid, cl_config c = Some uid → uid ∈ dom (st_configs s).

Record sys_inv (y : system) : Prop := {
  si_wf : store_wf (sy_store y);
  si_log : head (sy_log y) = Some (listHostsLocked (sy_store y));
  si_lists : map_Forall (λ _ ch, ch ⊆ sy_log y) (st_chans (sy_store y));
  si_received : map_Forall (λ _ items, items ∈ sy_log y) (sy_received y);
  si_callers : ∀ c, c ∈ sy_callers y → caller_ok (sy_store y) (sy_log y) c;
  si_told : ∀ id, id ∈ sy_told y → notified y id
}.

Lemma same_data_wf s t :
  same_data s t → store_wf t → bounded (st_chans s) → st_watchers s ⊆ dom (st_chans s) → store_wf s.
Proof. intros <- [] Hb Hw. by split. Qed.

Lemma commit_wf s s' b cfg :
  commit s s' b cfg → store_wf s → bounded (st_chans s') → st_watchers s' ⊆ dom (st_chans s') → store_wf s'.
Proof.
  intros Hc Hwf. destruct (commit_atomic _ _ _ _ s Hc) as (t & Hs & Ht); [done|]. apply (same_data_wf _ _ Ht). by eapply step_wf.
Qed.

Lemma head_log {A} (l : list A) x : head l = Some x → x ∈ l.
Proof. destruct l; [done|]. intros [= ->]. set_solver. Qed.

Lemma start_inv cfg : sys_inv (start cfg).
Proof. split; simpl; try done; try apply map_Forall_empty; try set_solver. Qed.

Lemma sys_quiet_inv y s' :
  commit (sy_store y) s' None None → sys_inv y →
  sys_inv (mkSystem s' (sy_callers y) (sy_told y) (sy_received y) (sy_log y) (sy_returned y)).
Proof.
  intros Hc Hi. destruct (commit_quiet _ _ _ Hc) as (Hl & Hw & Hch). pose proof (commit_configs _ _ _ _ Hc) as Hd.
  pose proof (si_wf _ Hi) as Hwf.
  assert (bounded (st_chans s') ∧ dom (st_chans (sy_store y)) ⊆ dom (st_chans s') ∧ map_Forall (λ _ ch, ch ⊆ sy_log y) (st_chans s') ∧
    ∀ id, notified y id → notified (mkSystem s' (sy_callers y) (sy_told y) (sy_received y) (sy_log y) (sy_returned y)) id) as (Hb & Hdc & Hls & Hn).
  { unfold notified. simpl. destruct Hch as [->|[j ->]]; [split_and!; [apply (wf_chans _ Hwf)|done|apply (si_lists _ Hi)|done]|].
    split_and!; [apply map_Forall_insert_2; [simpl; lia|apply (wf_chans _ Hwf)]|set_solver| |].
    - apply map_Forall_insert_2; [|apply (si_lists _ Hi)]. intros x ->%list_elem_of_singleton. by apply head_log, (si_log _ Hi).
    - intros id [?|[[items Hx]|?]]; auto. right. left. rewrite lookup_insert. case_decide; eauto. }
  split; simpl; auto; [|by rewrite Hl; apply (si_log _ Hi)|apply (si_received _ Hi)| |intros id Hid; by apply Hn, (si_told _ Hi)].
  - apply (commit_wf _ _ _ _ Hc Hwf Hb). etrans; [exact Hw|]. pose proof (wf_watchers _ Hwf). set_solver.
  - intros c Hin. destruct (si_callers _ Hi _ Hin) as (H1 & H2 & H3). split_and!; eauto.
Qed.

Lemma sys_change_inv y s' b cfg ws :
  commit (sy_store y) s' (Some b) cfg → ws ≡ₚ b.1 → sys_inv y →
  sys_inv (mkSystem s' (mkCaller ws Offer b.2 cfg :: sy_callers y) (st_watchers s') ∅ (b.2 :: sy_log y) (sy_returned y)).
Proof.
  intros Hc Hp Hi. destruct (commit_change _ _ _ _ Hc) as (-> & Hch & Hw). pose proof (commit_configs _ _ _ _ Hc) as Hd.
  pose proof (si_wf _ Hi) as Hwf. simpl in *.
  assert (store_wf s') as Hwf'.
  { apply (commit_wf _ _ _ _ Hc Hwf); rewrite Hch; [apply (wf_chans _ Hwf)|]. rewrite Hw. apply (wf_watchers _ Hwf). }
  split; simpl; auto.
  - rewrite Hch. eapply map_Forall_impl; [apply (si_lists _ Hi)|]. simpl. set_solver.
  - apply map_Forall_empty.
  - intros c [->|Hin]%elem_of_cons.
    + split_and!; simpl; [|set_solver|].
      * intros w Hin. rewrite Hp, elem_of_elements in Hin. by apply (wf_watchers _ Hwf').
      * intros uid ->. rewrite (wf_dom_configs _ Hwf'). by eapply commit_config_of.
    + destruct (si_callers _ Hi _ Hin) as (H1 & H2 & H3). split_and!; [by rewrite Hch|set_solver|]. intros. apply Hd. eauto.
  - intros id Hid. right. right. eexists. split; [by apply elem_of_cons; left|]. simpl. by rewrite Hp, elem_of_elements.
Qed.

Lemma sys_select_inv y l c l' chans c' :
  sy_callers y = l ++ c :: l' → cl_watchers c ≠ [] → advance (st_chans (sy_store y)) c = (chans, c') → sys_inv y →
  sys_inv (mkSystem (with_chans (sy_store y) chans) (l ++ c' :: l') (sy_told y) (sy_received y) (sy_log y) (sy_returned y)).
Proof.
  intros Hl Hne E Hi. pose proof (si_wf _ Hi) as Hwf.
  destruct (si_callers _ Hi c) as (Hcd & Hci & Hcc); [rewrite Hl; set_solver|].
  destruct (advance_spec _ _ _ _ (wf_chans _ Hwf) Hne Hcd E) as (w & ws & ch & ch' & Hws & Hw & -> & Hi' & Hc' & _ & Hcases & Hleft).
  assert (dom (<[w := ch']> (st_chans (sy_store y))) = dom (st_chans (sy_store y))) as Hdom.
  { rewrite dom_insert_L. assert (w ∈ dom (st_chans (sy_store y))) by (apply elem_of_dom; eauto). set_solver. }
  split; simpl; auto.
  - apply (same_data_wf _ (sy_store y)); [symmetry; apply same_data_chans|done| |simpl; rewrite Hdom; apply (wf_watchers _ Hwf)].
    apply map_Forall_insert_2; [|apply (wf_chans _ Hwf)]. destruct Hcases as [->|[->| ->]]; simpl; [by apply (wf_chans _ Hwf w)|lia..].
  - apply (si_log _ Hi).
  - apply map_Forall_insert_2; [|apply (si_lists _ Hi)]. destruct Hcases as [->|[->| ->]]; [by apply (si_lists _ Hi w)|set_solver..].
  - apply (si_received _ Hi).
  - intros x Hx. unfold caller_ok. simpl. rewrite Hdom. rewrite elem_of_app, elem_of_cons in Hx.
    destruct Hx as [Hx|[->|Hx]]; [apply (si_callers _ Hi); rewrite Hl; set_solver| |apply (si_callers _ Hi); rewrite Hl; set_solver].
    rewrite Hi', Hc'. split_and!; [|done..]. intros v Hv. apply Hcd. rewrite Hws. destruct Hleft as [Hl'|[Hl' _]]; rewrite Hl' in Hv; set_solver.
  - intros id Hid. destruct (si_told _ Hi _ Hid) as [?|[[items Hx]|(x & Hx & Hin)]]; [by left| |].
    + destruct (decide (id = w)) as [->|]; [|right; left; exists items; simpl; by rewrite lookup_insert_ne].
      destruct Hleft as [Hl'|[_ Hn]]; [right; right; exists c'; split; [set_solver|by rewrite Hl'; left]|].
      right. left. simpl. rewrite lookup_insert_eq. rewrite Hw in Hx. injection Hx as ->. destruct Hcases as [->|[->| ->]]; [eauto|done|eauto].
    + rewrite Hl, elem_of_app, elem_of_cons in Hx. destruct Hx as [Hx|[->|Hx]]; [right; right; exists x; set_solver| |right; right; exists x; set_solver].
      rewrite Hws in Hin. destruct Hleft as [Hl'|[Hl' Hn]]; [right; right; exists c'; split; [set_solver|by rewrite Hl']|].
      apply elem_of_cons in Hin as [->|Hin]; [|right; right; exists c'; split; [set_solver|by rewrite Hl']].
      right. left. simpl. rewrite lookup_insert_eq. pose proof (wf_chans _ Hwf _ _ Hw) as Hlen.
      destruct Hcases as [->|[->| ->]]; [|done|eauto]. destruct ch as [|z [|]]; [done|eauto|simpl in Hlen; lia].
Qed.

Lemma sys_return_inv y l c l' :
  sy_callers y = l ++ c :: l' → cl_watchers c = [] → sys_inv y →
  sys_inv (mkSystem (sy_store y) (l ++ l') (sy_told y) (sy_received y) (sy_log y)
    (sy_returned y ++ match cl_config c with Some uid => [(uid, config_of (sy_store y) uid)] | None => [] end)).
Proof.
  intros Hl He Hi. destruct Hi. split; simpl; auto.
  - intros x Hx. apply si_callers0. rewrite Hl. set_solver.
  - intros id Hid. destruct (si_told0 _ Hid) as [?|[?|(x & Hx & Hin)]]; [by left|by right; left|]. right. right. exists x. simpl.
    split; [|done]. rewrite Hl, elem_of_app, elem_of_cons in Hx. destruct Hx as [?|[->|?]]; [set_solver| |set_solver]. rewrite He in Hin. set_solver.
Qed.

Lemma sys_receive_inv y id items rest :
  st_chans (sy_store y) !! id = Some (items :: rest) → sys_inv y →
  sys_inv (mkSystem (receive (sy_store y) id) (sy_callers y) (sy_told y) (<[id := items]> (sy_received y)) (sy_log y) (sy_returned y)).
Proof.
  intros Hid Hi. pose proof (receive_wf (sy_store y) id (si_wf _ Hi)) as Hwf. destruct Hi. split; simpl; auto.
  - intros k ch. unfold receive. simpl. rewrite lookup_alter. case_decide; [subst|apply si_lists0].
    rewrite Hid. intros [= <-]. pose proof (si_lists0 _ _ Hid). set_solver.
  - apply map_Forall_insert_2; [|done]. apply (si_lists0 _ _ Hid). set_solver.
  - intros c Hc. destruct (si_callers0 c Hc) as (H1 & H2). split; [|done]. unfold receive. simpl. by rewrite dom_alter_L.
  - intros k Hk. destruct (si_told0 _ Hk) as [?|[[x Hx]|?]]; [left; simpl; set_solver| |by right; right].
    destruct (decide (k = id)) as [->|]; [left; simpl; set_solver|]. right. left. exists x. unfold receive. simpl. by rewrite lookup_alter_ne.
Qed.

#[export] Hint Resolve start_inv sys_quiet_inv sys_change_inv sys_select_inv sys_return_inv sys_receive_inv : gaoming.

Lemma conc_step_inv y y' : sys_step y y' → sys_inv y → sys_inv y'.
Proof. destruct 1; eauto with gaoming. Qed.

Lemma sys_steps_inv y y' : rtc sys_step y y' → sys_inv y → sys_inv y'.
Proof. induction 1; eauto using conc_step_inv. Qed.

(** The call [c], wherever it is among the calls under way, can execute its next
    statement, and has then returned or less to do. *)
Definition can_go_on (y : system) (c : caller) : Prop :=
  ∀ l l', sy_callers y = l ++ c :: l' → ∃ y', sys_step y y' ∧
    (sy_callers y' = l ++ l' ∨ ∃ c', sy_callers y' = l ++ c' :: l' ∧ (work c' < work c)%nat).

Lemma sys_progress y c : sys_inv y → can_go_on y c.
Proof.
  intros Hi l l' Hl. destruct (decide (cl_watchers c = [])) as [He|Hne]; [eexists; split; [by eapply sys_return|by left]|].
  destruct (advance (st_chans (sy_store y)) c) as [chans c'] eqn:E. eexists. split; [by eapply sys_select|]. right. exists c'. split; [done|].
  destruct (si_callers _ Hi c) as (Hcd & _); [rewrite Hl; set_solver|].
  by destruct (advance_spec _ _ _ _ (wf_chans _ (si_wf _ Hi)) Hne Hcd E) as (w & ws & ch & ch' & _ & _ & _ & _ & _ & Hw & _).
Qed.

(** A step returns no configuration, or one that is stored for its host then. *)
Lemma sys_step_returned y y' :
  sys_step y y' → sys_inv y →
  sy_returned y' = sy_returned y ∨
  ∃ uid c, st_configs (sy_store y) !! uid = Some c ∧ sy_returned y' = sy_returned y ++ [(uid, c)].
Proof.
  intros Hs Hi. destruct Hs as [| | |y l c l' Hl _|]; try by left. simpl.
  destruct (si_callers _ Hi c) as (_ & _ & Hcc); [rewrite Hl; set_solver|].
  destruct (cl_config c) as [uid|]; [|left; by rewrite app_nil_r]. right.
  destruct (proj1 (elem_of_dom _ _) (Hcc uid eq_refl)) as [cfg Hcfg]. exists uid, cfg. unfold config_of. by rewrite Hcfg.
Qed.

(** A heartbeat of the host returned the configuration that was stored for it at
    that moment of the run. *)
Definition returned_stored (y0 y : system) (uid : string) (c : AgentConfig) : Prop :=
  ∃ y1 y2, rtc sys_step y0 y1 ∧ sys_step y1 y2 ∧ rtc sys_step y2 y ∧
    st_configs (sy_store y1) !! uid = Some c ∧ sy_returned y2 = sy_returned y1 ++ [(uid, c)].

Lemma sys_returned_stored cfg y :
  rtc sys_step (start cfg) y → ∀ uid c, (uid, c) ∈ sy_returned y → returned_stored (start cfg) y uid c.
Proof.
  revert y. refine (rtc_ind_r (λ y, ∀ uid c, (uid, c) ∈ sy_returned y → returned_stored (start cfg) y uid c) _ _ _); [simpl; set_solver|].
  intros y z Hr Hs IH uid c Hin.
  assert ((uid, c) ∈ sy_returned y → returned_stored (start cfg) z uid c) as Hold.
  { intros Hy. destruct (IH _ _ Hy) as (y1 & y2 & H1 & H2 & H3 & H4). exists y1, y2. split_and!; [done..| |apply H4|apply H4]. by eapply rtc_r. }
  destruct (sys_step_returned _ _ Hs (sys_steps_inv _ _ Hr (start_inv cfg))) as [E|(uid' & c' & Hc & E)]; [rewrite E in Hin; auto|].
  rewrite E in Hin. apply elem_of_app in Hin as [Hin|Hin%list_elem_of_singleton]; [auto|]. injection Hin as -> ->. by exists y, z.
Qed.

(** C37: the in-memory store under concurrent calls, whose broadcasts run after
    [Unlock], one channel operation at a time, between the operations of other
    calls and of the subscribers.  Every store it reaches from [NewStore] is well
    formed (hosts under their own identifier and non-empty tenant, with a
    configuration and a history each, and at most one list in a channel) and has
    the data of a store that calls one after the other reach.  What is in a
    channel, or was received since the last change, is a list of hosts that there
    was; a watcher of the last change has received something since or has
    something to receive, unless a call is still going to serve it; a heartbeat
    returns the configuration that is stored for its host at the moment it returns;
    and no call waits: each can always
    execute its next statement and then has less to do. *)
Theorem memory_concurrent cfg y :
  rtc sys_step (start cfg) y →
  store_wf (sy_store y) ∧ (∃ t, rtc step (NewStore cfg) t ∧ same_data (sy_store y) t) ∧
  head (sy_log y) = Some (listHostsLocked (sy_store y)) ∧
  (∀ id ch items, st_chans (sy_store y) !! id = Some ch → items ∈ ch → items ∈ sy_log y) ∧
  (∀ id items, sy_received y !! id = Some items → items ∈ sy_log y) ∧
  (∀ id, id ∈ sy_told y → notified y id) ∧
  (∀ uid c, (uid, c) ∈ sy_returned y → returned_stored (start cfg) y uid c) ∧
  (∀ c, can_go_on y c).
Proof.
  intros Hr. pose proof (sys_steps_inv _ _ Hr (start_inv cfg)) as Hi. split_and!.
  - apply (si_wf _ Hi).
  - by apply sys_steps_atomic.
  - apply (si_log _ Hi).
  - intros id ch items Hid. by apply (si_lists _ Hi id).
  - apply (si_received _ Hi).
  - apply (si_told _ Hi).
  - by apply sys_returned_stored.
  - intros c. by apply sys_progress.
Qed.

(** ** One change at a time *)

(** Runs in which a change waits for the broadcast of the change before it. *)
Inductive serial_step (y y' : system) : Prop :=
| serial_other : sys_step y y' → sy_log y' = sy_log y → serial_step y y'
| serial_change : sys_step y y' → sy_callers y = [] → serial_step y y'.

Abbreviation current y := (listHostsLocked (sy_store y)).

(** A watcher has the current list, or received it, or is going to get it. *)
Definition informed (y : system) (id : string) : Prop :=
  st_chans (sy_store y) !! id = Some [current y] ∨
  (st_chans (sy_store y) !! id = Some [] ∧ sy_received y !! id = Some (current y)) ∨
  ∃ c, c ∈ sy_callers y ∧ id ∈ cl_watchers c.

(** The call under way sends the current list, and nobody else fills the channel
    it has emptied. *)
Definition serial_caller (y : system) (c : caller) : Prop :=
  cl_items c = current y ∧
  ∀ w ws, cl_watchers c = w :: ws → cl_phase c = Retry →
    st_chans (sy_store y) !! w = Some [] ∨ st_chans (sy_store y) !! w = Some [current y].

Record serial_inv (y : system) : Prop := {
  se_sys : sys_inv y;
  se_one : (length (sy_callers y) ≤ 1)%nat;
  se_caller : ∀ c, c ∈ sy_callers y → serial_caller y c;
  se_told : ∀ id, id ∈ sy_told y → informed y id
}.

(** What a statement does when nobody else sends. *)
Lemma advance_serial chans c w ws ch chans' c' :
  bounded chans → cl_watchers c = w :: ws → chans !! w = Some ch →
  (cl_phase c = Retry → ch = [] ∨ ch = [cl_items c]) → advance chans c = (chans', c') →
  cl_items c' = cl_items c ∧
  ((cl_watchers c' = ws ∧ chans' = <[w := [cl_items c]]> chans ∧ cl_phase c' = Offer) ∨
   (cl_watchers c' = w :: ws ∧ chans' = chans ∧ cl_phase c' = Discard) ∨
   (cl_watchers c' = w :: ws ∧ chans' = <[w := []]> chans ∧ cl_phase c' = Retry)).
Proof.
  intros Hb Hws Hw Hr. destruct c as [ws0 ph items cfg]. simpl in *. subst ws0. unfold advance. simpl.
  rewrite (offer_spec _ _ _ _ Hb Hw). pose proof (Hb w ch Hw) as Hl. simpl in Hl. destruct ph.
  - destruct ch; intros [= <- <-]; (split; [done|]); [by left|by right; left].
  - intros [= <- <-]. simpl. split; [done|]. right. right. split_and!; [done| |done].
    apply map_eq. intros j. rewrite lookup_alter, lookup_insert. case_decide; [subst; rewrite Hw|done]. destruct ch as [|? [|]]; simpl in *; [done..|lia].
  - intros E. destruct (Hr eq_refl) as [->| ->]; injection E as <- <-; (split; [done|]); left; [done|]. split_and!; [done| |done]. simpl. by rewrite insert_id.
Qed.

Lemma one_caller (l l' : list caller) c : (length (l ++ c :: l') ≤ 1)%nat → l = [] ∧ l' = [].
Proof. rewrite length_app. simpl. destruct l, l'; simpl; intros; [done|lia..]. Qed.

Lemma serial_quiet_inv y s' :
  commit (sy_store y) s' None None → serial_inv y →
  serial_inv (mkSystem s' (sy_callers y) (sy_told y) (sy_received y) (sy_log y) (sy_returned y)).
Proof.
  intros Hc Hi. destruct (commit_quiet _ _ _ Hc) as (Hl & _ & Hch).
  assert (∀ id, st_chans s' !! id = st_chans (sy_store y) !! id ∨ st_chans s' !! id = Some [current y]) as Hs.
  { intros id. destruct Hch as [->|[j ->]]; [by left|]. rewrite lookup_insert. case_decide; auto. }
  split; [by apply sys_quiet_inv, (se_sys _ Hi)|apply (se_one _ Hi)|..]; simpl.
  - intros c Hin. destruct (se_caller _ Hi _ Hin) as [He Hp]. unfold serial_caller. simpl. rewrite Hl. split; [done|]. intros w ws Hw Hr.
    destruct (Hs w) as [->| ->]; eauto.
  - intros id Hid. destruct (se_told _ Hi _ Hid) as [Hx|[Hx|Hx]]; unfold informed; simpl; rewrite Hl; [..|by auto]; destruct (Hs id) as [->| ->]; auto.
Qed.

Lemma serial_change_inv y s' b cfg ws :
  commit (sy_store y) s' (Some b) cfg → ws ≡ₚ b.1 → sy_callers y = [] → serial_inv y →
  serial_inv (mkSystem s' (mkCaller ws Offer b.2 cfg :: sy_callers y) (st_watchers s') ∅ (b.2 :: sy_log y) (sy_returned y)).
Proof.
  intros Hc Hp He Hi. destruct (commit_change _ _ _ _ Hc) as (Hb & _). split; [by eapply sys_change_inv, (se_sys _ Hi)|simpl; rewrite He; simpl; lia|..]; simpl.
  - intros c. rewrite He. intros ->%list_elem_of_singleton. split; simpl; [by rewrite Hb|done].
  - intros id Hid. right. right. eexists. split; [by apply elem_of_cons; left|]. simpl. rewrite Hp, Hb. by apply elem_of_elements.
Qed.

Lemma serial_select_inv y l c l' chans c' :
  sy_callers y = l ++ c :: l' → cl_watchers c ≠ [] → advance (st_chans (sy_store y)) c = (chans, c') → serial_inv y →
  serial_inv (mkSystem (with_chans (sy_store y) chans) (l ++ c' :: l') (sy_told y) (sy_received y) (sy_log y) (sy_returned y)).
Proof.
  intros Hl Hne E Hi. pose proof (se_one _ Hi) as Ho. rewrite Hl in Ho. destruct (one_caller _ _ _ Ho) as [-> ->]. simpl in Hl.
  pose proof (sys_select_inv y [] c [] chans c' Hl Hne E (se_sys _ Hi)) as Hsys.
  assert (c ∈ sy_callers y) as Hin by (rewrite Hl; set_solver). destruct (se_caller _ Hi c Hin) as [Hit Hret].
  destruct (si_callers _ (se_sys _ Hi) c Hin) as (Hcd & _). destruct (cl_watchers c) as [|w ws] eqn:Hws; [done|].
  destruct (proj1 (elem_of_dom _ w) (Hcd w ltac:(set_solver))) as [ch Hw].
  destruct (advance_serial _ _ _ _ _ _ _ (wf_chans _ (si_wf _ (se_sys _ Hi))) Hws Hw ltac:(intros Hr; destruct (Hret w ws eq_refl Hr) as [Hx|Hx]; rewrite Hw in Hx; injection Hx as ->; rewrite ?Hit; auto) E)
    as [Hi' Hcases]. rewrite Hit in *.
  assert (∀ id, informed y id → informed (mkSystem (with_chans (sy_store y) chans) [c'] (sy_told y) (sy_received y) (sy_log y) (sy_returned y)) id) as Hinf.
  { intros id [Hx|[Hx|(x & Hx & Hxw)]]; unfold informed; simpl.
    - destruct (decide (id = w)) as [->|Hd].
      + destruct Hcases as [(_ & -> & _)|[(_ & -> & _)|(Hwc & _)]]; [left; by rewrite lookup_insert_eq|by left|].
        right. right. exists c'. rewrite Hwc. set_solver.
      + left. destruct Hcases as [(_ & -> & _)|[(_ & -> & _)|(_ & -> & _)]]; by rewrite ?lookup_insert_ne.
    - destruct (decide (id = w)) as [->|Hd].
      + destruct Hcases as [(_ & -> & _)|[(_ & -> & _)|(Hwc & _)]]; [left; by rewrite lookup_insert_eq|by right; left|].
        right. right. exists c'. rewrite Hwc. set_solver.
      + right. left. destruct Hcases as [(_ & -> & _)|[(_ & -> & _)|(_ & -> & _)]]; by rewrite ?lookup_insert_ne.
    - rewrite Hl in Hx. apply list_elem_of_singleton in Hx as ->. rewrite Hws in Hxw.
      destruct Hcases as [(Hwc & -> & _)|[(Hwc & _)|(Hwc & _)]]; [|right; right; exists c'; rewrite Hwc; set_solver..].
      apply elem_of_cons in Hxw as [->|]; [left; by rewrite lookup_insert_eq|right; right; exists c'; rewrite Hwc; set_solver]. }
  split; [exact Hsys|simpl; lia|..]; simpl; [|intros id Hid; by apply Hinf, (se_told _ Hi)].
  intros x ->%list_elem_of_singleton. split; [done|]. intros v vs Hv Hr. simpl.
  destruct Hcases as [(_ & _ & Hph)|[(_ & _ & Hph)|(Hwc & -> & _)]]; [congruence..|]. left. rewrite Hwc in Hv. injection Hv as <- _. by rewrite lookup_insert_eq.
Qed.

Lemma serial_receive_inv y id items rest :
  st_chans (sy_store y) !! id = Some (items :: rest) → serial_inv y →
  serial_inv (mkSystem (receive (sy_store y) id) (sy_callers y) (sy_told y) (<[id := items]> (sy_received y)) (sy_log y) (sy_returned y)).
Proof.
  intros Hid Hi. pose proof (wf_chans _ (si_wf _ (se_sys _ Hi)) _ _ Hid) as Hlen.
  assert (rest = []) as -> by (destruct rest; [done|simpl in Hlen; lia]).
  assert (∀ k, st_chans (receive (sy_store y) id) !! k = if decide (k = id) then Some [] else st_chans (sy_store y) !! k) as Hch.
  { intros k. unfold receive. simpl. case_decide; [subst; by rewrite lookup_alter_eq, Hid|by rewrite lookup_alter_ne]. }
  split; [by eapply sys_receive_inv, (se_sys _ Hi)|apply (se_one _ Hi)|..]; simpl.
  - intros c Hin. destruct (se_caller _ Hi _ Hin) as [He Hp]. split; [done|]. intros w ws Hw Hr. simpl. rewrite Hch. case_decide; eauto.
  - intros k Hk. unfold informed. simpl. rewrite Hch. destruct (se_told _ Hi _ Hk) as [Hx|[Hx|Hx]]; [..|by auto].
    + case_decide; [subst|by left]. right. left. rewrite lookup_insert_eq. rewrite Hid in Hx. by injection Hx as ->.
    + destruct Hx as [Hx Hr]. case_decide; [subst; congruence|]. right. left. by rewrite lookup_insert_ne.
Qed.

Lemma serial_return_inv y l c l' :
  sy_callers y = l ++ c :: l' → cl_watchers c = [] → serial_inv y →
  serial_inv (mkSystem (sy_store y) (l ++ l') (sy_told y) (sy_received y) (sy_log y)
    (sy_returned y ++ match cl_config c with Some uid => [(uid, config_of (sy_store y) uid)] | None => [] end)).
Proof.
  intros Hl He Hi. pose proof (se_one _ Hi) as Ho. rewrite Hl in Ho. destruct (one_caller _ _ _ Ho) as [-> ->]. simpl in Hl.
  split; [by apply (sys_return_inv y [] c []), (se_sys _ Hi)|simpl; lia|simpl; set_solver|]. simpl. intros id Hid.
  destruct (se_told _ Hi _ Hid) as [Hx|[Hx|(x & Hx & Hxw)]]; [by left|by right; left|].
  rewrite Hl in Hx. apply list_elem_of_singleton in Hx as ->. rewrite He in Hxw. set_solver.
Qed.

#[export] Hint Resolve serial_quiet_inv serial_change_inv serial_select_inv serial_receive_inv serial_return_inv : gaoming.

Lemma serial_step_inv y y' : serial_step y y' → serial_inv y → serial_inv y'.
Proof.
  intros [Hs Hl|Hs He]; destruct Hs; eauto with gaoming. simpl in Hl. apply (f_equal length) in Hl. simpl in Hl. lia.
Qed.

(** When a change waits for the broadcast of the one before it, a slow subscriber
    loses lists but never the last one: once the calls have returned, the channel of
    every watcher of the last change holds the current list of hosts, or is empty
    and the current list is what the subscriber received last. *)
Theorem memory_serial_latest cfg y :
  rtc serial_step (start cfg) y → sy_callers y = [] → ∀ id, id ∈ sy_told y →
  st_chans (sy_store y) !! id = Some [current y] ∨
  (st_chans (sy_store y) !! id = Some [] ∧ sy_received y !! id = Some (current y)).
Proof.
  intros Hr He id Hid. assert (serial_inv y) as Hi.
  { assert (∀ x, rtc serial_step x y → serial_inv x → serial_inv y) as Hg by (clear; induction 1; eauto using serial_step_inv).
    apply (Hg _ Hr). split; [apply start_inv|simpl; lia|simpl; set_solver..]. }
  destruct (se_told _ Hi _ Hid) as [?|[?|(c & Hc & _)]]; [by left|by right|]. rewrite He in Hc. set_solver.
Qed.

(** ** Runs of a scheduler *)

Inductive action :=
| DoRegister (eh et : Entropy) (req : RegisterAgentRequest) (now : Time)
| DoHeartbeat (req : HeartbeatRequest) (now : Time)
| DoSubscribe (e : Entropy)
| DoNext (i : nat)
| DoReceive (id : string).

Definition changed (y : system) (s' : Store) (b : Broadcast) (cfg : option string) : system :=
  mkSystem s' (mkCaller b.1 Offer b.2 cfg :: sy_callers y) (st_watchers s') ∅ (b.2 :: sy_log y) (sy_returned y).

(** The next statement of the [i]-th call under way. *)
Definition next (y : system) (i : nat) : option system :=
  c ← sy_callers y !! i;
  let l := take i (sy_callers y) in let l' := drop (S i) (sy_callers y) in
  match cl_watchers c with
  | [] => Some (mkSystem (sy_store y) (l ++ l') (sy_told y) (sy_received y) (sy_log y)
            (sy_returned y ++ match cl_config c with Some uid => [(uid, config_of (sy_store y) uid)] | None => [] end))
  | _ :: _ => let '(chans, c') := advance (st_chans (sy_store y)) c in
      Some (mkSystem (with_chans (sy_store y) chans) (l ++ c' :: l') (sy_told y) (sy_received y) (sy_log y) (sy_returned y))
  end.

Definition act (y : system) (a : action) : option system :=
  match a with
  | DoRegister eh et req now => let '(s', b, _) := registerLocked (sy_store y) eh et req now in Some (changed y s' b None)
  | DoHeartbeat req now =>
      match heartbeatLocked (sy_store y) req now with
      | Ok (s', b, _) => Some (changed y s' b (Some (hb_HostUID req)))
      | Err _ => Some y
      end
  | DoSubscribe e => Some (mkSystem (Subscribe (sy_store y) e).1 (sy_callers y) (sy_told y) (sy_received y) (sy_log y) (sy_returned y))
  | DoNext i => next y i
  | DoReceive id =>
      match st_chans (sy_store y) !! id with
      | Some (items :: _) =>
          Some (mkSystem (receive (sy_store y) id) (sy_callers y) (sy_told y) (<[id := items]> (sy_received y)) (sy_log y) (sy_returned y))
      | _ => None
      end
  end.

Definition acts (l : list action) (y : system) : option system := foldl (λ oy a, oy ≫= λ y, act y a) (Some y) l.

Lemma next_step y i y' : next y i = Some y' → sys_step y y'.
Proof.
  unfold next. destruct (sy_callers y !! i) as [c|] eqn:Ei; [|done]. simpl. pose proof (take_drop_middle _ _ _ Ei) as Hl. symmetry in Hl.
  destruct (cl_watchers c) eqn:Ew; [intros [= <-]; by eapply sys_return|].
  destruct (advance _ c) as [chans c'] eqn:Ea. intros [= <-]. eapply sys_select; [exact Hl|by rewrite Ew|done].
Qed.

Lemma act_step y a y' : act y a = Some y' → rtc sys_step y y'.
Proof.
  destruct a; simpl.
  - intros [= <-]. apply rtc_once. by eapply sys_change; [eapply commit_RegisterAgent|].
  - destruct (heartbeatLocked _ _ _) as [[[s' b] h]|e] eqn:E; intros [= <-]; [|done]. apply rtc_once. by eapply sys_change; [eapply commit_Heartbeat|].
  - intros [= <-]. apply rtc_once, sys_quiet. constructor.
  - intros Hn. by eapply rtc_once, next_step.
  - destruct (st_chans _ !! id) as [[|items rest]|] eqn:E; [done| |done]. intros [= <-]. apply rtc_once. by eapply sys_receive.
Qed.

Lemma acts_steps l y y' : acts l y = Some y' → rtc sys_step y y'.
Proof.
  unfold acts. revert y. induction l as [|a l IH]; intros y; simpl; [by intros [= <-]|].
  destruct (act y a) as [y1|] eqn:E; [|intros Hx; exfalso; revert Hx; clear; induction l; [done|exact IHl]].
  intros Hl. etrans; [by eapply act_step|by apply IH].
Qed.

(** ** Two changes at a time *)

Definition ex_watch : string := new_id sample_entropy "watch".

(** One host, a subscriber that has not received yet, and two heartbeats that
    overlap: the second one broadcasts first. *)
Definition ex_race : list action :=
  [DoRegister sample_entropy sample_entropy (mkRegisterAgentRequest sample_host sample_agent) (100 * Second); DoNext 0;
   DoSubscribe sample_entropy;
   DoHeartbeat sample_heartbeat (101 * Second); DoHeartbeat sample_heartbeat (102 * Second);
   DoNext 0; DoNext 0; DoNext 0; DoNext 1; DoNext 1; DoNext 1; DoNext 1; DoNext 0].

Definition ex_raced : system := default (start None) (acts ex_race (start None)).

Lemma ex_raced_reachable : rtc sys_step (start None) ex_raced.
Proof. apply (acts_steps ex_race). vm_compute. reflexivity. Qed.

(** Two overlapping changes can leave a watcher with the older list: every call
    has returned, the subscriber has received nothing, and the list it is going to
    receive is not the current one, which it will not see before the next change. *)
Theorem memory_stale_watcher :
  ∃ y id items, rtc sys_step (start None) y ∧ sy_callers y = [] ∧ id ∈ sy_told y ∧ sy_received y = ∅ ∧
    st_chans (sy_store y) !! id = Some [items] ∧ items ≠ current y.
Proof.
  exists ex_raced, ex_watch. eexists. split; [exact ex_raced_reachable|]. split_and!; try (vm_compute; reflexivity).
  intros E. apply (f_equal (fmap hs_LastAgentSeenAt)) in E. vm_compute in E. discriminate E.
Qed.

(** The same calls one after the other. *)
Definition ex_orderly : list action :=
  [DoRegister sample_entropy sample_entropy (mkRegisterAgentRequest sample_host sample_agent) (100 * Second); DoNext 0;
   DoSubscribe sample_entropy; DoHeartbeat sample_heartbeat (101 * Second); DoNext 0; DoReceive ex_watch].

Definition ex_served : system := default (start None) (acts ex_orderly (start None)).

Lemma ex_served_reachable : rtc sys_step (start None) ex_served.
Proof. apply (acts_steps ex_orderly). vm_compute. reflexivity. Qed.

Lemma memory_concurrent_witness : store_wf (sy_store ex_served) ∧ notified ex_served ex_watch ∧ length (sy_callers ex_served) = 1%nat.
Proof.
  destruct (memory_concurrent None ex_served ex_served_reachable) as (Hwf & _ & _ & _ & _ & Hn & _).
  split; [exact Hwf|]. split; [|vm_compute; reflexivity]. apply Hn. apply (bool_decide_unpack _). vm_compute. exact I.
Defined.
