(* ===== verification/Encoding.v ===== *)
(** * Base64url and SHA-256

    What the token code uses of [encoding/base64] (the unpadded URL alphabet)
    and of [crypto/sha256]; both are executable. *)

From Stdlib Require Import Ascii.
From stdpp Require Import gmap strings list sorting pretty.
From S2P Require Import Prelude GoRuntime GoStrings.
Local Open Scope Z_scope.

Definition byte_of (z : Z) : ascii := ascii_of_N (Z.to_N (z mod 256)).

Lemma byte_of_byte_val c : byte_of (byte_val c) = c.
Proof.
  unfold byte_of. rewrite Z.mod_small by apply byte_val_range.
  unfold byte_val. by rewrite N2Z.id, ascii_N_embedding.
Qed.

(** ** Base64 *)

Definition b64_alphabet : list ascii :=
  bytes "ABCDEFGHIJKLMNOPQRSTUVWXYZabcdefghijklmnopqrstuvwxyz0123456789-_".

Definition b64_char (n : Z) : ascii := default "A"%char (b64_alphabet !! Z.to_nat n).

(** The value of a character of the alphabet. *)
Definition b64_val (c : ascii) : option Z :=
  let x := byte_val c in
  if (65 <=? x) && (x <=? 90) then Some (x - 65)
  else if (97 <=? x) && (x <=? 122) then Some (x - 71)
  else if (48 <=? x) && (x <=? 57) then Some (x + 4)
  else if x =? 45 then Some 62
  else if x =? 95 then Some 63
  else None.

Fixpoint b64_sextets (l : list Z) : list Z :=
  match l with
  | a :: b :: c :: l =>
      a / 4 :: (a mod 4) * 16 + b / 16 :: (b mod 16) * 4 + c / 64 :: c mod 64 :: b64_sextets l
  | [a; b] => [a / 4; (a mod 4) * 16 + b / 16; (b mod 16) * 4]
  | [a] => [a / 4; (a mod 4) * 16]
  | [] => []
  end.

(** [base64.RawURLEncoding.EncodeToString]. *)
Definition b64_encode (l : list ascii) : string :=
  of_bytes (b64_char <$> b64_sextets (byte_val <$> l)).

Fixpoint b64_unsextets (l : list Z) : option (list Z) :=
  match l with
  | s0 :: s1 :: s2 :: s3 :: l =>
      app [s0 * 4 + s1 / 16; (s1 mod 16) * 16 + s2 / 4; (s2 mod 4) * 64 + s3] <$> b64_unsextets l
  | [s0; s1; s2] => Some [s0 * 4 + s1 / 16; (s1 mod 16) * 16 + s2 / 4]
  | [s0; s1] => Some [s0 * 4 + s1 / 16]
  | [_] => None
  | [] => Some []
  end.

(** [base64.RawURLEncoding.DecodeString]: line breaks are skipped, the unused
    bits of the last character are not checked. *)
Definition b64_decode (s : string) : option (list ascii) :=
  match (mapM b64_val
           (select (λ c, negb ((byte_val c =? 10) || (byte_val c =? 13))) (bytes s)) : option (list Z)) with
  | Some sextets => (λ l : list Z, byte_of <$> l) <$> b64_unsextets sextets
  | None => None
  end.

(** ** SHA-256 *)

Definition w32 (z : Z) : Z := z mod 2 ^ 32.
Definition rotr (n x : Z) : Z := Z.lor (Z.shiftr x n) (w32 (Z.shiftl x (32 - n))).

(** The constants are the first 32 bits of the fractional parts of roots of
    primes: cube roots for the rounds, square roots for the initial state. *)
Definition primes (n : nat) : list Z :=
  let prime k := forallb (λ d, negb (k mod Z.of_nat d =? 0)) (seq 2 (Z.to_nat k - 2)) in
  take n (select prime (Z.of_nat <$> seq 2 310)).
Definition cube_root (n : Z) : Z :=
  fold_left (λ x i, let y := x + 2 ^ Z.of_nat i in if y * y * y <=? n then y else x) (reverse (seq 0 40)) 0.

Definition sha_K : list Z :=
  Eval vm_compute in (λ p, w32 (cube_root (p * 2 ^ 96))) <$> primes 64.

Record sha_state := mkSha { sa : Z; sb : Z; sc : Z; sd : Z; se : Z; sf : Z; sg : Z; sh : Z }.

Definition sha_init : sha_state :=
  Eval vm_compute in
  match (λ p, w32 (Z.sqrt (p * 2 ^ 64))) <$> primes 8 with
  | [a; b; c; d; e; f; g; h] => mkSha a b c d e f g h
  | _ => mkSha 0 0 0 0 0 0 0 0
  end.

Definition sha_round (st : sha_state) (kw : Z * Z) : sha_state :=
  let '(k, w) := kw in
  let S1 := Z.lxor (Z.lxor (rotr 6 (se st)) (rotr 11 (se st))) (rotr 25 (se st)) in
  let ch := Z.lxor (Z.land (se st) (sf st)) (Z.land (2 ^ 32 - 1 - se st) (sg st)) in
  let t1 := w32 (sh st + S1 + ch + k + w) in
  let S0 := Z.lxor (Z.lxor (rotr 2 (sa st)) (rotr 13 (sa st))) (rotr 22 (sa st)) in
  let maj := Z.lxor (Z.lxor (Z.land (sa st) (sb st)) (Z.land (sa st) (sc st))) (Z.land (sb st) (sc st)) in
  let t2 := w32 (S0 + maj) in
  mkSha (w32 (t1 + t2)) (sa st) (sb st) (sc st) (w32 (sd st + t1)) (se st) (sf st) (sg st).

(** The message schedule, kept reversed: the most recent word first. *)
Fixpoint sha_extend (n : nat) (rw : list Z) : list Z :=
  match n with
  | O => rw
  | S n =>
      let w i := default 0 (rw !! i) in
      let w15 := w 14%nat in let w2 := w 1%nat in
      let s0 := Z.lxor (Z.lxor (rotr 7 w15) (rotr 18 w15)) (Z.shiftr w15 3) in
      let s1 := Z.lxor (Z.lxor (rotr 17 w2) (rotr 19 w2)) (Z.shiftr w2 10) in
      sha_extend n (w32 (w 15%nat + s0 + w 6%nat + s1) :: rw)
  end.

Fixpoint be_words (l : list Z) : list Z :=
  match l with
  | a :: b :: c :: d :: l => ((a * 256 + b) * 256 + c) * 256 + d :: be_words l
  | _ => []
  end.

Definition sha_block (st : sha_state) (block : list Z) : sha_state :=
  let ws := reverse (sha_extend 48 (reverse (be_words block))) in
  let r := fold_left sha_round (zip sha_K ws) st in
  mkSha (w32 (sa st + sa r)) (w32 (sb st + sb r)) (w32 (sc st + sc r)) (w32 (sd st + sd r))
    (w32 (se st + se r)) (w32 (sf st + sf r)) (w32 (sg st + sg r)) (w32 (sh st + sh r)).

Fixpoint sha_blocks (fuel : nat) (st : sha_state) (l : list Z) : sha_state :=
  match fuel with
  | O => st
  | S fuel => match l with
              | [] => st
              | _ => sha_blocks fuel (sha_block st (take 64 l)) (drop 64 l)
              end
  end.

Fixpoint be_bytes (n : nat) (z : Z) : list Z :=
  match n with
  | O => []
  | S n => (z / 256 ^ Z.of_nat n) mod 256 :: be_bytes n z
  end.

Definition sha_pad (l : list Z) : list Z :=
  let n := Z.of_nat (length l) in
  l ++ [128] ++ replicate (Z.to_nat ((55 - n) mod 64)) 0 ++ be_bytes 8 (8 * n).

(** [sha256.Sum256]; one block is consumed per step, so the padded length is
    fuel enough. *)
Definition sha256 (l : list ascii) : list ascii :=
  let m := sha_pad (byte_val <$> l) in
  let st := sha_blocks (length m) sha_init m in
  byte_of <$> concat (be_bytes 4 <$> [sa st; sb st; sc st; sd st; se st; sf st; sg st; sh st]).

Lemma sha256_length l : length (sha256 l) = 32%nat.
Proof. unfold sha256. rewrite length_fmap. reflexivity. Qed.

Lemma sha256_hex_length l : len (hex_encode (sha256 l)) = 64.
Proof. unfold len. by rewrite hex_encode_length, sha256_length. Qed.

Example sha256_abc :
  hex_encode (sha256 (bytes "abc")) =
    "ba7816bf8f01cfea414140de5dae2223b00361a396177a9cb410ff61f20015ad"%string.
Proof. vm_compute. reflexivity. Qed.

(** ** Base64 round trip *)

Lemma b64_val_char n : 0 ≤ n < 64 → b64_val (b64_char n) = Some n.
Proof.
  intros Hn.
  assert (Forall (λ i, b64_val (b64_char (Z.of_nat i)) = Some (Z.of_nat i)) (seq 0 64)) as H.
  { apply (bool_decide_unpack _). vm_compute. exact I. }
  rewrite list.Forall_forall in H. specialize (H (Z.to_nat n)).
  rewrite Z2Nat.id in H by lia. apply H. apply elem_of_seq. lia.
Qed.

(** Characters of the alphabet are no line breaks. *)
Lemma b64_val_not_newline c n :
  b64_val c = Some n → negb ((byte_val c =? 10) || (byte_val c =? 13)) = true.
Proof.
  unfold b64_val. intros H.
  destruct (Z.eqb_spec (byte_val c) 10) as [E|?]; [by rewrite E in H|].
  destruct (Z.eqb_spec (byte_val c) 13) as [E|?]; [by rewrite E in H|done].
Qed.

Lemma b64_sextets_range l :
  Forall (λ b, 0 ≤ b < 256) l → Forall (λ s, 0 ≤ s < 64) (b64_sextets l).
Proof.
  remember (length l) as n eqn:Hn. assert (length l ≤ n)%nat as Hl by lia. clear Hn.
  revert l Hl. induction n as [|n IH]; intros [|a [|b [|c l]]] Hl; simpl in *;
    intros Hf; try lia; try by constructor.
  all: repeat match goal with H : Forall _ (_ :: _) |- _ => apply Forall_cons in H as [??] end.
  all: repeat (apply Forall_cons; split); try by constructor.
  all: try (apply IH; [lia|done]).
  all: Z.div_mod_to_equations; lia.
Qed.

Lemma b64_unsextets_sextets l :
  Forall (λ b, 0 ≤ b < 256) l → b64_unsextets (b64_sextets l) = Some l.
Proof.
  remember (length l) as n eqn:Hn. assert (length l ≤ n)%nat as Hl by lia. clear Hn.
  revert l Hl. induction n as [|n IH]; intros [|a [|b [|c l]]] Hl; simpl in *;
    intros Hf; try lia; try done.
  all: repeat match goal with H : Forall _ (_ :: _) |- _ => apply Forall_cons in H as [??] end.
  3: rewrite (IH l) by (done || lia); simpl.
  all: repeat f_equal; Z.div_mod_to_equations; lia.
Qed.

Lemma mapM_b64 l :
  Forall (λ s, 0 ≤ s < 64) l →
  select (λ c, negb ((byte_val c =? 10) || (byte_val c =? 13))) (b64_char <$> l) = b64_char <$> l ∧
  mapM b64_val (b64_char <$> l) = Some l.
Proof.
  induction 1 as [|s l Hs Hl [IH1 IH2]]; [done|]. rewrite fmap_cons, select_cons.
  rewrite (b64_val_not_newline _ s) by (by apply b64_val_char). rewrite IH1. split; [done|].
  simpl. by rewrite b64_val_char, IH2.
Qed.

Lemma byte_vals_range l : Forall (λ b, 0 ≤ b < 256) (byte_val <$> l).
Proof. apply Forall_fmap, list.Forall_forall. intros c _. apply byte_val_range. Qed.

Lemma b64_decode_encode l : b64_decode (b64_encode l) = Some l.
Proof.
  unfold b64_decode, b64_encode. rewrite bytes_of_bytes.
  destruct (mapM_b64 (b64_sextets (byte_val <$> l))) as [H1 H2].
  { apply b64_sextets_range, byte_vals_range. }
  rewrite H1, H2. simpl. rewrite b64_unsextets_sextets by apply byte_vals_range. simpl. f_equal.
  rewrite <-list_fmap_compose. rewrite <-(list_fmap_id l) at 2.
  apply list_fmap_ext. intros ???. apply byte_of_byte_val.
Qed.

Lemma length_b64_sextets_32 l : length l = 32%nat → length (b64_sextets l) = 43%nat.
Proof. intros H. do 32 (destruct l as [|? l]; [done|]). by destruct l. Qed.

Lemma length_of_bytes l : String.length (of_bytes l) = length l.
Proof. unfold of_bytes. induction l; simpl; congruence. Qed.

Lemma b64_encode_length_32 l : length l = 32%nat → len (b64_encode l) = 43.
Proof.
  intros H. unfold len, b64_encode. rewrite length_of_bytes, length_fmap.
  by rewrite length_b64_sextets_32 by (by rewrite length_fmap).
Qed.

(** Text of printing ASCII characters carries no white space to trim. *)
Definition printing (c : ascii) : Prop := 33 ≤ byte_val c < 128.

Lemma no_space_start_printing s1 s2 s3 l :
  (∀ a, printing a → s1 a = false) → (∀ a b, printing a → printing b → s2 a b = false) →
  (∀ a b c, printing a → printing b → printing c → s3 a b c = false) →
  Forall printing l → no_space_start s1 s2 s3 l = true.
Proof.
  intros Ha Hb Hc Hl. destruct l as [|a [|b [|c l]]]; [done|..]; repeat (apply Forall_cons in Hl as [? Hl]); simpl.
  - by rewrite Ha.
  - by rewrite Ha, Hb.
  - by rewrite Ha, Hb, Hc.
Qed.

Lemma space_printing a b c : printing a → printing b → printing c →
  space1 a = false ∧ space2 a b = false ∧ space3 a b c = false.
Proof.
  unfold printing, space1, space2, space3. cbv zeta. intros Ha Hb Hc.
  rewrite !(proj2 (Z.eqb_neq (byte_val a) _)) by lia. rewrite (proj2 (Z.leb_gt (byte_val a) 13)) by lia.
  by rewrite andb_false_r.
Qed.

Lemma TrimSpace_printing s : Forall printing (bytes s) → TrimSpace s = s.
Proof.
  intros Hs. unfold TrimSpace, trim_left, trim_right. rewrite !trim_start_id.
  - by rewrite reverse_involutive, of_bytes_bytes.
  - apply no_space_start_printing; intros; [eapply (space_printing a a a)|eapply (space_printing a b b)|
      eapply (space_printing a b c)|]; done.
  - rewrite trim_start_id.
    all: apply no_space_start_printing; intros; try (by apply Forall_reverse); try done.
    all: by apply (space_printing a a a) || by apply (space_printing a b b) || by apply (space_printing b a a) ||
      by apply (space_printing a b c) || by apply (space_printing c b a).
Qed.

Lemma b64_char_printing n : 0 ≤ n < 64 → printing (b64_char n).
Proof.
  intros Hn%b64_val_char. unfold b64_val in Hn. unfold printing.
  repeat case_match; bool_to_prop; simplify_eq; lia.
Qed.

Lemma TrimSpace_b64_encode l : TrimSpace (b64_encode l) = b64_encode l.
Proof.
  apply TrimSpace_printing. unfold b64_encode. rewrite bytes_of_bytes. apply Forall_fmap.
  eapply Forall_impl; [apply b64_sextets_range, byte_vals_range|]. intros n. apply b64_char_printing.
Qed.

#[global] Arguments sha256 : simpl never.
#[global] Arguments b64_encode : simpl never.
#[global] Arguments b64_decode : simpl never.
