(* ===== verification/Access.v ===== *)
(** * Principals, share requests and tokens

    Models [pkg/access]: the identity derived from a verified credential
    ([types.go]), the validation of share requests ([shares.go]) and the token
    format ([tokens.go]). *)

From Stdlib Require Import Ascii.
From stdpp Require Import gmap strings list sorting pretty.
From S2P Require Import Prelude GoRuntime GoStrings Contracts Encoding.
Local Open Scope Z_scope.

(** ** Principals *)

Abbreviation Kind := string.
Definition User : Kind := "user".
Definition Share : Kind := "share".
Definition Demo : Kind := "demo".
Definition Agent : Kind := "agent".
Definition Worker : Kind := "worker".

Record Principal := mkPrincipal {
  p_Kind : Kind;
  p_TenantID : Z;
  p_TenantCode : string;
  p_UserID : Z;
  p_Role : string;
  p_HostUID : string;
  p_WorkerID : string;
  p_ShareID : string;
  p_AllowedHosts : list string;
  p_Fields : list string
}.

Definition zero_Principal : Principal := mkPrincipal "" 0 "" 0 "" "" "" "" [] [].

Definition IsUser (p : Principal) : bool :=
  str_eqb (p_Kind p) User && (0 <? p_UserID p) && negb (str_empty (p_TenantCode p)) &&
  (str_eqb (p_Role p) "admin" || str_eqb (p_Role p) "member").

Definition IsAdmin (p : Principal) : bool := IsUser p && str_eqb (p_Role p) "admin".

Definition Actor (p : Principal) : string :=
  if negb (IsUser p) then "" else "user:" +:+ FormatInt (p_UserID p).

(** The membership loops of [AllowsHost] and [AllowsField]. *)
Fixpoint contains (l : list string) (x : string) : bool :=
  match l with
  | [] => false
  | allowed :: l => if str_eqb x allowed then true else contains l x
  end.

Definition AllowsHost (p : Principal) (tenant uid : string) : bool :=
  if str_empty (p_TenantCode p) || negb (str_eqb tenant (p_TenantCode p)) || str_empty uid then false
  else if IsUser p then true
  else if negb (str_eqb (p_Kind p) Share) && negb (str_eqb (p_Kind p) Demo) then false
  else contains (p_AllowedHosts p) uid.

Definition AllowsField (p : Principal) (field : string) : bool :=
  if IsUser p then true else contains (p_Fields p) field.

(** ** Shares *)

Record CreateShareRequest := mkCreateShareRequest {
  cr_Title : string;
  cr_HostUIDs : list string;
  cr_Fields : list string;
  cr_TTLSeconds : Z
}.

Record ShareRecord := mkShareRecord {
  sr_ID : string;
  sr_TenantCode : string;
  sr_Title : string;
  sr_HostUIDs : list string;
  sr_Fields : list string;
  sr_ExpiresAt : Time;
  sr_CreatedAt : Time;
  sr_RevokedAt : option Time
}.

Definition zero_ShareRecord : ShareRecord := mkShareRecord "" "" "" [] [] 0 0 None.

Record ShareSession := mkShareSession {
  ss_Token : string;
  ss_ExpiresAt : Time;
  ss_Principal : Principal
}.

Definition errShareRequest : error := ErrMsg "invalid share title, hosts, fields or lifetime".
Definition errShareHost : error := ErrMsg "invalid or duplicate share host".
Definition errShareField : error := ErrMsg "invalid or duplicate share field".

(** The loop over the host identifiers, [hosts] being the ones already seen. *)
Fixpoint validateHosts (hosts : gset string) (uids : list string) : res unit :=
  match uids with
  | [] => Ok ()
  | uid :: uids =>
      if str_empty uid || (64 <? len uid) || bool_decide (uid ∈ hosts) || negb (str_eqb (TrimSpace uid) uid)
      then Err errShareHost
      else validateHosts ({[uid]} ∪ hosts) uids
  end.

Fixpoint validateFields (fields : gset string) (l : list string) : res unit :=
  match l with
  | [] => Ok ()
  | field :: l =>
      if bool_decide (field ∈ fields) ||
         (negb (str_eqb field "hostname") && negb (str_eqb field "status") && negb (str_eqb field "metrics"))
      then Err errShareField
      else validateFields ({[field]} ∪ fields) l
  end.

Definition ValidateShareRequest (req : CreateShareRequest) : res unit :=
  if str_empty (TrimSpace (cr_Title req)) || (128 <? len (cr_Title req)) ||
     (llen (cr_HostUIDs req) =? 0) || (100 <? llen (cr_HostUIDs req)) ||
     (cr_TTLSeconds req <? 60) || (7 * 24 * 3600 <? cr_TTLSeconds req) ||
     (llen (cr_Fields req) =? 0) || (3 <? llen (cr_Fields req))
  then Err errShareRequest
  else
    match validateHosts ∅ (cr_HostUIDs req) with
    | Err e => Err e
    | Ok _ => validateFields ∅ (cr_Fields req)
    end.

(** ** Tokens *)

Definition TokenHash (raw : string) : string :=
  if negb (len raw =? 43) then ""
  else match b64_decode raw with
       | None => ""
       | Some decoded =>
           if negb (llen decoded =? 32) || negb (str_eqb (b64_encode decoded) raw) then ""
           else hex_encode (sha256 (bytes raw))
       end.

(** [NewToken()] for the 32 bytes the random source delivers, or none. *)
Definition NewToken (rand : option (list ascii)) : res (string * string) :=
  match rand with
  | None => Err (ErrMsg "random source")
  | Some buf => let raw := b64_encode buf in Ok (raw, TokenHash raw)
  end.

(** ** Lemmas *)

Lemma contains_spec l x : contains l x = true ↔ x ∈ l.
Proof.
  induction l as [|y l IH]; simpl; [set_solver|].
  destruct (str_eqb x y) eqn:E.
  - apply str_eqb_true in E as ->. set_solver.
  - apply str_eqb_false in E. rewrite IH. set_solver.
Qed.

Lemma IsUser_spec p :
  IsUser p = true ↔
  p_Kind p = User ∧ 0 < p_UserID p ∧ p_TenantCode p ≠ ""%string ∧
  (p_Role p = "admin"%string ∨ p_Role p = "member"%string).
Proof.
  unfold IsUser. rewrite !andb_true_iff, orb_true_iff, !str_eqb_true, Z.ltb_lt, negb_true_iff, str_empty_false.
  tauto.
Qed.

Lemma IsAdmin_spec p : IsAdmin p = true ↔ IsUser p = true ∧ p_Role p = "admin"%string.
Proof. unfold IsAdmin. by rewrite andb_true_iff, str_eqb_true. Qed.

Lemma IsAdmin_IsUser p : IsAdmin p = true → IsUser p = true.
Proof. intros H. by apply IsAdmin_spec in H as [? _]. Qed.

#[export] Hint Resolve IsAdmin_IsUser : gaoming.

Lemma validateHosts_ok seen uids :
  validateHosts seen uids = Ok () ↔
  NoDup uids ∧ (∀ u, u ∈ uids → (u ∉ seen) ∧ u ≠ ""%string ∧ len u ≤ 64 ∧ TrimSpace u = u).
Proof.
  revert seen. induction uids as [|u uids IH]; intros seen; simpl.
  { split; [|done]. intros _. split; [constructor|set_solver]. }
  destruct (_ || _) eqn:E.
  - split; [done|]. intros [_ Hf]. exfalso.
    destruct (Hf u) as (H1 & H2 & H3 & H4); [set_solver|].
    rewrite !orb_true_iff, str_empty_true, Z.ltb_lt, bool_decide_eq_true, negb_true_iff, str_eqb_false in E.
    destruct E as [[[?|?]|?]|?]; (done || lia).
  - rewrite IH, NoDup_cons. bool_to_prop.
    repeat match goal with
      | H : str_empty _ = false |- _ => apply str_empty_false in H
      | H : str_eqb _ _ = true |- _ => apply str_eqb_true in H
      end.
    split.
    + intros [Hnd Hf]. split; [split; [intros Hin; apply Hf in Hin; set_solver|done]|].
      intros u' [->|Hin]%elem_of_cons; [done|]. destruct (Hf u' Hin) as (?&?&?&?). set_solver.
    + intros [[Hn Hnd] Hf]. split; [done|]. intros u' Hin.
      destruct (Hf u') as (?&?&?&?); [set_solver|]. split_and!; try done. set_solver.
Qed.

Lemma validateFields_ok seen l :
  validateFields seen l = Ok () ↔
  NoDup l ∧ (∀ f, f ∈ l → (f ∉ seen) ∧ f ∈ (["hostname"; "status"; "metrics"]%string)).
Proof.
  revert seen. induction l as [|f l IH]; intros seen; simpl.
  { split; [|done]. intros _. split; [constructor|set_solver]. }
  destruct (_ || _) eqn:E.
  - split; [done|]. intros [_ Hf]. exfalso.
    destruct (Hf f) as (H1 & H2); [set_solver|].
    rewrite orb_true_iff, !andb_true_iff, bool_decide_eq_true, !negb_true_iff, !str_eqb_false in E.
    destruct E as [?|[[??]?]]; set_solver.
  - rewrite IH, NoDup_cons. apply orb_false_iff in E as [E1 E2].
    apply bool_decide_eq_false in E1.
    assert (f ∈ ["hostname"; "status"; "metrics"]%string) as Hin.
    { rewrite !andb_false_iff, !negb_false_iff, !str_eqb_true in E2. set_solver. }
    set_solver.
Qed.

(** Requests the validation accepts. *)
Definition share_request_ok (req : CreateShareRequest) : Prop :=
  TrimSpace (cr_Title req) ≠ ""%string ∧ len (cr_Title req) ≤ 128 ∧
  1 ≤ llen (cr_HostUIDs req) ≤ 100 ∧ 60 ≤ cr_TTLSeconds req ≤ 604800 ∧
  1 ≤ llen (cr_Fields req) ≤ 3 ∧
  NoDup (cr_HostUIDs req) ∧
  (∀ u, u ∈ cr_HostUIDs req → u ≠ ""%string ∧ len u ≤ 64 ∧ TrimSpace u = u) ∧
  NoDup (cr_Fields req) ∧ (∀ f, f ∈ cr_Fields req → f ∈ ["hostname"; "status"; "metrics"]%string).

Lemma ValidateShareRequest_spec req : ValidateShareRequest req = Ok () ↔ share_request_ok req.
Proof.
  unfold ValidateShareRequest, share_request_ok. destruct (_ || _) eqn:E.
  - split; [done|]. intros (H1 & H2 & H3 & H4 & H5 & _). exfalso.
    rewrite !orb_true_iff, str_empty_true, !Z.ltb_lt, !Z.eqb_eq in E.
    naive_solver lia.
  - bool_to_prop. match goal with H : str_empty _ = false |- _ => apply str_empty_false in H end.
    assert (0 ≤ llen (cr_HostUIDs req) ∧ 0 ≤ llen (cr_Fields req)) as [??] by (unfold llen; lia).
    destruct (validateHosts ∅ (cr_HostUIDs req)) as [[]|e] eqn:Eh.
    + rewrite validateFields_ok. apply validateHosts_ok in Eh as [Hnd Hh].
      split.
      * intros [Hndf Hf]. split_and!; try done; try lia; [intros u Hu|intros f Hf'].
        -- by destruct (Hh u Hu).
        -- by apply Hf.
      * intros (_ & _ & _ & _ & _ & _ & _ & Hndf & Hf). split; [done|]. intros f Hin.
        split; [set_solver|auto].
    + split; [done|]. intros (_ & _ & _ & _ & _ & Hnd & Hh & _).
      assert (validateHosts ∅ (cr_HostUIDs req) = Ok ()) as E'; [|congruence].
      apply validateHosts_ok. split; [done|]. intros u Hu. split; [set_solver|auto].
Qed.

(** ** Properties *)

(** A token of 32 random bytes is 43 characters long and hashes to 64
    hexadecimal digits. *)
Lemma TokenHash_encode buf :
  length buf = 32%nat → TokenHash (b64_encode buf) = hex_encode (sha256 (bytes (b64_encode buf))).
Proof.
  intros Hl. unfold TokenHash. rewrite b64_encode_length_32 by done. simpl.
  rewrite b64_decode_encode. unfold llen. rewrite Hl. simpl.
  unfold str_eqb. by rewrite bool_decide_eq_true_2.
Qed.

(** A share request is accepted exactly when its title is not blank and at
    most 128 bytes, it names 1 to 100 distinct trimmed host uids of at most 64
    bytes, 1 to 3 distinct fields among hostname, status and metrics, and a
    lifetime of one minute to seven days. *)
Theorem access_share_request_spec req : ValidateShareRequest req = Ok () ↔ share_request_ok req.
Proof. apply ValidateShareRequest_spec. Qed.

(** A token made of 32 random bytes has 43 characters, decodes back to those
    bytes, and hashes to the 64 hexadecimal digits that are stored: what
    [NewToken] returns is accepted by [TokenHash]. *)
Theorem access_token_roundtrip buf :
  length buf = 32%nat →
  ∃ raw hash, NewToken (Some buf) = Ok (raw, hash) ∧
    len raw = 43 ∧ len hash = 64 ∧ TokenHash raw = hash ∧ b64_decode raw = Some buf.
Proof.
  intros Hl. exists (b64_encode buf), (TokenHash (b64_encode buf)).
  split_and!; [done|by apply b64_encode_length_32| |done|apply b64_decode_encode].
  rewrite TokenHash_encode by done. apply sha256_hex_length.
Qed.

Lemma access_token_roundtrip_witness :
  ∃ raw hash, NewToken (Some (replicate 32 zero)) = Ok (raw, hash) ∧ len raw = 43 ∧ TokenHash raw = hash.
Proof.
  destruct (access_token_roundtrip (replicate 32 zero) eq_refl) as (raw & hash & H1 & H2 & _ & H3 & _).
  exists raw, hash. split; [exact H1|]. split; [exact H2|exact H3].
Defined.

(** Access to a host never leaves the tenant of the principal.  A user may
    read every host of its tenant, a share or demo principal only the hosts it
    lists, any other principal none; an empty tenant or uid is never allowed. *)
Theorem access_AllowsHost_spec p tenant uid :
  AllowsHost p tenant uid = true ↔
  tenant = p_TenantCode p ∧ tenant ≠ ""%string ∧ uid ≠ ""%string ∧
  (IsUser p = true ∨ ((p_Kind p = Share ∨ p_Kind p = Demo) ∧ uid ∈ p_AllowedHosts p)).
Proof.
  unfold AllowsHost. destruct (_ || _) eqn:E.
  - split; [done|]. intros (-> & Ht & Hu & _).
    apply str_empty_false in Ht, Hu. rewrite Ht, Hu in E. simpl in E. rewrite orb_false_r in E.
    apply negb_true_iff, str_eqb_false in E. done.
  - bool_to_prop. repeat match goal with
      | Hs : str_empty _ = false |- _ => apply str_empty_false in Hs
      | Hs : str_eqb _ _ = true |- _ => apply str_eqb_true in Hs
      end.
    destruct (IsUser p) eqn:Eu; [naive_solver congruence|].
    destruct (_ && _) eqn:Ek.
    + bool_to_prop. repeat match goal with Hs : str_eqb _ _ = false |- _ => apply str_eqb_false in Hs end. naive_solver.
    + rewrite contains_spec. apply andb_false_iff in Ek. rewrite !negb_false_iff, !str_eqb_true in Ek.
      naive_solver congruence.
Qed.
