(* ===== verification/Sql.v ===== *)
(** * The database: tables, statements, transactions and failures

    Code that talks to PostgreSQL is written in the monad [M]: it passes a
    [World] that holds the tables, the [bigserial] sequences, a counter that
    numbers the interactions with the outside and the state of the open
    transaction, and it returns a Go result.

    The tables are those of [deployments/sql/init.sql] that the code reads or
    writes, keyed by their primary key.  What is outside the source is a
    parameter: [Env] decides which statement the server or the connection
    refuses, which [COMMIT] is carried out although it returns an error, what the
    clock and the random source deliver; [PgTypes] is what a
    column of a given type returns for a stored value.  Statements have the
    documented meaning of the SQL, or of the GORM call that issues it: a struct
    condition leaves zero-valued fields out, [Save] is an update by primary key
    that falls back to an insert, [Transaction] rolls back when its body fails. *)

From Stdlib Require Import Ascii.
From stdpp Require Import gmap strings list sorting pretty.
From S2P Require Import Prelude GoRuntime GoStrings Contracts.
Local Open Scope Z_scope.

(** ** Rows *)

Record tenantModel := mkTenant {
  t_ID : Z; t_TenantCode : string; t_Name : string; t_Status : Z
}.
Definition zero_tenantModel : tenantModel := mkTenant 0 "" "" 0.

Record hostModel := mkHost {
  h_ID : Z; h_TenantID : Z; h_HostUID : string; h_Hostname : string; h_PrimaryIP : string;
  h_OSType : string; h_Arch : string; h_Region : string;
  h_AZ : option string; h_Env : option string; h_Role : option string;
  h_Status : Z; h_RegisteredAt : Time; h_LastRegisterAt : Time; h_UpdatedAt : Time
}.

Record agentInstanceModel := mkAgentInstance {
  ai_ID : Z; ai_HostID : Z; ai_AgentID : string; ai_Version : string; ai_State : Z;
  ai_ConfigVersion : Z; ai_HeartbeatIntervalSec : Z; ai_MetricIntervalSec : Z;
  ai_LastSeenAt : option Time; ai_LastSeq : Z; ai_Capabilities : list string; ai_UpdatedAt : Time
}.

(** The metric columns of [host_status_current]. *)
Record metricColumns := mkMetricColumns {
  mc_CPUUsagePct : float64; mc_MemUsedPct : float64; mc_MemAvailableBytes : Z;
  mc_SwapUsedPct : float64; mc_DiskUsedPct : float64; mc_DiskFreeBytes : Z;
  mc_DiskInodesUsedPct : float64; mc_DiskReadBPS : Z; mc_DiskWriteBPS : Z;
  mc_DiskReadIOPS : Z; mc_DiskWriteIOPS : Z; mc_Load1 : float64; mc_NetRxBPS : Z;
  mc_NetTxBPS : Z; mc_NetRxPacketsPS : Z; mc_NetTxPacketsPS : Z
}.
Definition zero_metricColumns : metricColumns :=
  mkMetricColumns f64_zero f64_zero 0 f64_zero f64_zero 0 f64_zero 0 0 0 0 f64_zero 0 0 0 0.

Record hostStatusCurrentModel := mkStatus {
  st_HostID : Z;
  st_AgentState : Z; st_ReachabilityState : Z; st_ServiceState : Z; st_OverallState : Z;
  st_Metrics : metricColumns;
  st_LastAgentSeenAt : option Time; st_LastMetricAt : option Time; st_LastProbeAt : option Time;
  st_OpenAlertCount : Z; st_Version : Z; st_UpdatedAt : Time
}.

Record maintenanceWindowModel := mkMaintenance {
  mm_ID : Z; mm_TenantID : Z; mm_Title : string; mm_ScopeType : string; mm_ScopeRef : string;
  mm_StartAt : Time; mm_EndAt : Time; mm_CreatedBy : string; mm_Reason : option string; mm_Enabled : bool
}.

Record alertEventModel := mkAlert {
  al_ID : Z; al_TenantID : Z; al_Fingerprint : string; al_AckedBy : string; al_AckedAt : option Time
}.

Record auditRow := mkAudit {
  au_TenantID : Z; au_Actor : string; au_Action : string; au_ResourceType : string;
  au_ResourceID : string; au_Success : bool; au_CreatedAt : Time
}.

Record userModel := mkUser {
  u_ID : Z; u_TenantID : Z; u_DisplayName : string; u_AvatarURL : option string; u_Role : string;
  u_Status : string; u_LastLoginAt : option Time; u_CreatedAt : Time; u_UpdatedAt : Time
}.

Record userIdentityModel := mkIdentity {
  id_ID : Z; id_UserID : Z; id_Provider : string; id_ProviderUserID : string
}.
Definition zero_userIdentityModel : userIdentityModel := mkIdentity 0 0 "" "".

Record userPasswordRow := mkPassword {
  pw_UserID : Z; pw_TenantID : Z; pw_Username : string; pw_PasswordHash : string
}.

Record userSessionModel := mkSession {
  us_ID : Z; us_UserID : Z; us_TokenHash : string; us_ExpiresAt : Time; us_LastSeenAt : option Time;
  us_LastSeenIP : option string; us_UserAgent : option string; us_CreatedAt : Time; us_UpdatedAt : Time
}.

(** A row of [access_shares]; [fields] is jsonb, [None] when it is not an array
    of strings. *)
Record shareTableRow := mkShare {
  sh_ID : string; sh_TenantID : Z; sh_Title : string; sh_TokenHash : string; sh_Fields : option (list string);
  sh_ExpiresAt : Time; sh_CreatedBy : Z; sh_CreatedAt : Time; sh_RevokedAt : option Time
}.

Record shareSessionRow := mkShareSessionRow {
  sx_TokenHash : string; sx_ShareID : string; sx_ExpiresAt : Time; sx_CreatedAt : Time
}.

(** ** The database *)

Record DB := mkDB {
  db_tenants : gmap Z tenantModel;
  db_hosts : gmap Z hostModel;
  db_labels : gmap Z (gmap string string);
  db_agents : gmap Z agentInstanceModel;
  db_status : gmap Z hostStatusCurrentModel;
  db_groups : gset (Z * string);
  db_maintenance : gmap Z maintenanceWindowModel;
  db_alerts : gmap Z alertEventModel;
  db_audit : list auditRow;
  db_users : gmap Z userModel;
  db_identities : gmap Z userIdentityModel;
  db_passwords : gmap Z userPasswordRow;
  db_sessions : gmap Z userSessionModel;
  db_bootstrap : option Time;
  db_shares : gmap string shareTableRow;
  db_share_hosts : gset (string * Z * string);
  db_share_sessions : gmap string shareSessionRow
}.

Definition empty_DB : DB := mkDB ∅ ∅ ∅ ∅ ∅ ∅ ∅ ∅ [] ∅ ∅ ∅ ∅ None ∅ ∅ ∅.

Definition set_tenants x (d : DB) : DB :=
  mkDB x (db_hosts d) (db_labels d) (db_agents d) (db_status d) (db_groups d) (db_maintenance d)
    (db_alerts d) (db_audit d) (db_users d) (db_identities d) (db_passwords d) (db_sessions d)
    (db_bootstrap d) (db_shares d) (db_share_hosts d) (db_share_sessions d).
Definition set_hosts x (d : DB) : DB :=
  mkDB (db_tenants d) x (db_labels d) (db_agents d) (db_status d) (db_groups d)
    (db_maintenance d) (db_alerts d) (db_audit d) (db_users d) (db_identities d)
    (db_passwords d) (db_sessions d) (db_bootstrap d) (db_shares d) (db_share_hosts d)
    (db_share_sessions d).
Definition set_labels x (d : DB) : DB :=
  mkDB (db_tenants d) (db_hosts d) x (db_agents d) (db_status d) (db_groups d) (db_maintenance d)
    (db_alerts d) (db_audit d) (db_users d) (db_identities d) (db_passwords d) (db_sessions d)
    (db_bootstrap d) (db_shares d) (db_share_hosts d) (db_share_sessions d).
Definition set_agents x (d : DB) : DB :=
  mkDB (db_tenants d) (db_hosts d) (db_labels d) x (db_status d) (db_groups d) (db_maintenance d)
    (db_alerts d) (db_audit d) (db_users d) (db_identities d) (db_passwords d) (db_sessions d)
    (db_bootstrap d) (db_shares d) (db_share_hosts d) (db_share_sessions d).
Definition set_status x (d : DB) : DB :=
  mkDB (db_tenants d) (db_hosts d) (db_labels d) (db_agents d) x (db_groups d) (db_maintenance d)
    (db_alerts d) (db_audit d) (db_users d) (db_identities d) (db_passwords d) (db_sessions d)
    (db_bootstrap d) (db_shares d) (db_share_hosts d) (db_share_sessions d).
Definition set_maintenance x (d : DB) : DB :=
  mkDB (db_tenants d) (db_hosts d) (db_labels d) (db_agents d) (db_status d) (db_groups d) x
    (db_alerts d) (db_audit d) (db_users d) (db_identities d) (db_passwords d) (db_sessions d)
    (db_bootstrap d) (db_shares d) (db_share_hosts d) (db_share_sessions d).
Definition set_alerts x (d : DB) : DB :=
  mkDB (db_tenants d) (db_hosts d) (db_labels d) (db_agents d) (db_status d) (db_groups d)
    (db_maintenance d) x (db_audit d) (db_users d) (db_identities d) (db_passwords d)
    (db_sessions d) (db_bootstrap d) (db_shares d) (db_share_hosts d) (db_share_sessions d).
Definition set_audit x (d : DB) : DB :=
  mkDB (db_tenants d) (db_hosts d) (db_labels d) (db_agents d) (db_status d) (db_groups d)
    (db_maintenance d) (db_alerts d) x (db_users d) (db_identities d) (db_passwords d)
    (db_sessions d) (db_bootstrap d) (db_shares d) (db_share_hosts d) (db_share_sessions d).
Definition set_users x (d : DB) : DB :=
  mkDB (db_tenants d) (db_hosts d) (db_labels d) (db_agents d) (db_status d) (db_groups d)
    (db_maintenance d) (db_alerts d) (db_audit d) x (db_identities d) (db_passwords d)
    (db_sessions d) (db_bootstrap d) (db_shares d) (db_share_hosts d) (db_share_sessions d).
Definition set_passwords x (d : DB) : DB :=
  mkDB (db_tenants d) (db_hosts d) (db_labels d) (db_agents d) (db_status d) (db_groups d)
    (db_maintenance d) (db_alerts d) (db_audit d) (db_users d) (db_identities d) x
    (db_sessions d) (db_bootstrap d) (db_shares d) (db_share_hosts d) (db_share_sessions d).
Definition set_sessions x (d : DB) : DB :=
  mkDB (db_tenants d) (db_hosts d) (db_labels d) (db_agents d) (db_status d) (db_groups d)
    (db_maintenance d) (db_alerts d) (db_audit d) (db_users d) (db_identities d)
    (db_passwords d) x (db_bootstrap d) (db_shares d) (db_share_hosts d) (db_share_sessions d).
Definition set_bootstrap x (d : DB) : DB :=
  mkDB (db_tenants d) (db_hosts d) (db_labels d) (db_agents d) (db_status d) (db_groups d)
    (db_maintenance d) (db_alerts d) (db_audit d) (db_users d) (db_identities d)
    (db_passwords d) (db_sessions d) x (db_shares d) (db_share_hosts d) (db_share_sessions d).
Definition set_shares x (d : DB) : DB :=
  mkDB (db_tenants d) (db_hosts d) (db_labels d) (db_agents d) (db_status d) (db_groups d)
    (db_maintenance d) (db_alerts d) (db_audit d) (db_users d) (db_identities d)
    (db_passwords d) (db_sessions d) (db_bootstrap d) x (db_share_hosts d)
    (db_share_sessions d).
Definition set_share_hosts x (d : DB) : DB :=
  mkDB (db_tenants d) (db_hosts d) (db_labels d) (db_agents d) (db_status d) (db_groups d)
    (db_maintenance d) (db_alerts d) (db_audit d) (db_users d) (db_identities d)
    (db_passwords d) (db_sessions d) (db_bootstrap d) (db_shares d) x (db_share_sessions d).
Definition set_share_sessions x (d : DB) : DB :=
  mkDB (db_tenants d) (db_hosts d) (db_labels d) (db_agents d) (db_status d) (db_groups d)
    (db_maintenance d) (db_alerts d) (db_audit d) (db_users d) (db_identities d)
    (db_passwords d) (db_sessions d) (db_bootstrap d) (db_shares d) (db_share_hosts d) x.

(** The rows of a table, in no particular order. *)
Definition rows {K A} `{Countable K} (t : gmap K A) : list A := (map_to_list t).*2.

Lemma elem_of_rows {K A} `{Countable K} (t : gmap K A) x : x ∈ rows t ↔ ∃ k, t !! k = Some x.
Proof.
  unfold rows. rewrite list_elem_of_fmap. split.
  - intros ([k y] & -> & Hin). exists k. by apply elem_of_map_to_list in Hin.
  - intros [k Hk]. exists (k, x). by rewrite elem_of_map_to_list.
Qed.

Lemma rows_insert {K A} `{Countable K} (t : gmap K A) k x :
  t !! k = None → rows (<[k := x]> t) ≡ₚ x :: rows t.
Proof. intros Hk. unfold rows. by rewrite map_to_list_insert. Qed.

Lemma rows_fmap {K A B} `{Countable K} (f : A → B) (t : gmap K A) : rows (f <$> t) = f <$> rows t.
Proof. unfold rows. by rewrite map_to_list_fmap, <-!list_fmap_compose. Qed.

Lemma select_submseteq {A} (p : A → bool) l k : l ⊆+ k → (length (select p l) ≤ length (select p k))%nat.
Proof.
  induction 1 as [|x l k _ IH|x y l|x l k _ IH|l1 l2 l3 _ IH1 _ IH2]; rewrite ?select_cons; [done| | | |lia].
  - destruct (p x); simpl; lia.
  - destruct (p x), (p y); simpl; lia.
  - destruct (p x); simpl; lia.
Qed.

(** Deleting rows never raises a count. *)
Lemma count_subset {K A} `{Countable K} (p : A → bool) (t t' : gmap K A) :
  t ⊆ t' → (length (select p (rows t)) ≤ length (select p (rows t')))%nat.
Proof. intros Ht. apply select_submseteq. unfold rows. apply fmap_submseteq. by apply map_to_list_submseteq. Qed.

(** [ORDER BY <integer column>]. *)
Definition col_le {A} (key : A → Z) (x y : A) : Prop := key x ≤ key y.
Definition col_le_dec {A} (key : A → Z) : RelDecision (col_le key) :=
  λ x y, Z_le_dec (key x) (key y).

Definition order_by {A} (key : A → Z) (l : list A) : list A :=
  @merge_sort A (col_le key) (col_le_dec key) l.

Lemma order_by_Permutation {A} (key : A → Z) l : order_by key l ≡ₚ l.
Proof. apply merge_sort_Permutation. Qed.

(** [WHERE p ORDER BY key LIMIT 1]. *)
Definition first_by {A} (key : A → Z) (p : A → bool) (l : list A) : option A :=
  head (order_by key (select p l)).

Lemma first_by_Some {A} (key : A → Z) p l x : first_by key p l = Some x → x ∈ l ∧ p x = true.
Proof.
  unfold first_by. intros H%head_Some_elem_of. rewrite order_by_Permutation, elem_of_select in H. tauto.
Qed.

Lemma first_by_None {A} (key : A → Z) p l : first_by key p l = None ↔ ∀ x, x ∈ l → p x = false.
Proof.
  unfold first_by. rewrite head_None. split.
  - intros H x Hx. destruct (p x) eqn:E; [|done].
    assert (x ∈ order_by key (select p l)) as Hin by (rewrite order_by_Permutation; by apply elem_of_select).
    rewrite H in Hin. set_solver.
  - intros H. rewrite select_none by done. done.
Qed.

Lemma first_by_unique {A} (key : A → Z) p l x :
  x ∈ l → p x = true → (∀ y, y ∈ l → p y = true → y = x) → first_by key p l = Some x.
Proof.
  intros Hx Hp Hu. destruct (first_by key p l) as [y|] eqn:E.
  - apply first_by_Some in E as [??]. f_equal. auto.
  - rewrite first_by_None in E. by rewrite E in Hp.
Qed.

(** GORM struct conditions: a zero-valued field puts no condition on its
    column. *)
Definition cond_str (v x : string) : bool := str_empty v || str_eqb x v.
Definition cond_int (v x : Z) : bool := (v =? 0) || (x =? v).

Lemma cond_str_ne v x : v ≠ ""%string → cond_str v x = str_eqb x v.
Proof. intros H. unfold cond_str. apply str_empty_false in H. by rewrite H. Qed.
Lemma cond_int_ne v x : v ≠ 0 → cond_int v x = (x =? v).
Proof. intros H. unfold cond_int. apply Z.eqb_neq in H. by rewrite H. Qed.

(** ** The world *)

Record World := mkWorld {
  w_db : DB;
  w_seq : gmap string Z;
  w_tick : nat;
  w_tx : option DB;       (* the tables when the open transaction began *)
  w_aborted : bool        (* a statement of the open transaction has failed *)
}.

(** What the outside decides, by the number of the interaction: the error a
    statement fails with, whether a [COMMIT] that fails was carried out all the
    same and only its acknowledgement was lost, the clock, and the bytes of the
    random source. *)
Class Env := {
  env_fault : nat → option nat;
  env_unacked : nat → bool;
  env_nano : nat → Z;
  env_now : nat → Time;
  env_rand : nat → nat → option (list ascii);
  env_rand_length : ∀ tick n b, env_rand tick n = Some b → length b = n
}.

(** The value a column gives back for the value it was given: [numeric(p,2)]
    rounds, [timestamptz] keeps microseconds, [inet] normalises; and the sort
    key of the text collation, which distinguishes different strings. *)
Class PgTypes := {
  pg_numeric : float64 → float64;
  pg_timestamp : Time → Time;
  pg_inet : string → string;
  pg_collate : string → string;
  pg_collate_inj : ∀ s t, pg_collate s = pg_collate t → s = t
}.

Definition M (A : Type) : Type := World → res A * World.

#[export] Instance M_ret : MRet M := λ A a w, (Ok a, w).
#[export] Instance M_bind : MBind M := λ A B f m w,
  match m w with
  | (Ok a, w') => f a w'
  | (Err e, w') => (Err e, w')
  end.

Definition throw {A} (e : error) : M A := λ w, (Err e, w).
(** Run a call and look at the error it returns. *)
Definition attempt {A} (m : M A) : M (res A) := λ w, let '(r, w') := m w in (Ok r, w').
(** A pure computation that may fail. *)
Definition lift {A} (r : res A) : M A := λ w, (r, w).

Definition tick (w : World) : World :=
  mkWorld (w_db w) (w_seq w) (S (w_tick w)) (w_tx w) (w_aborted w).
Definition failed (w : World) : World :=
  mkWorld (w_db w) (w_seq w) (w_tick w) (w_tx w) (match w_tx w with Some _ => true | None => w_aborted w end).
Definition with_db (d : DB) (w : World) : World := mkWorld d (w_seq w) (w_tick w) (w_tx w) (w_aborted w).
Definition with_seq (s : gmap string Z) (w : World) : World := mkWorld (w_db w) s (w_tick w) (w_tx w) (w_aborted w).

Definition errAborted : error := ErrDatabase 1.
Definition errUnique : error := ErrDatabase 2.
Definition errForeignKey : error := ErrDatabase 3.
Definition errSequence : error := ErrDatabase 4.
Definition errMissingWhere : error := ErrMsg "WHERE conditions required".

Section statements.
Context `{Env}.

(** One statement: refused in an aborted transaction or by the server, else its
    meaning on the tables; a failure has no effect and aborts the transaction. *)
Definition stmt {A} (f : DB → res (A * DB)) : M A := λ w,
  if w_aborted w then (Err errAborted, tick w) else
  match env_fault (w_tick w) with
  | Some code => (Err (ErrDatabase code), failed (tick w))
  | None =>
      match f (w_db w) with
      | Ok (a, d) => (Ok a, with_db d (tick w))
      | Err e => (Err e, failed (tick w))
      end
  end.

Definition query {A} (f : DB → A) : M A := stmt (λ d, Ok (f d, d)).
Definition exec (f : DB → res DB) : M unit := stmt (λ d, d' ← f d; Ok ((), d')).

Definition seq_next (s : gmap string Z) (t : string) : Z := default 0 (s !! t) + 1.

(** [nextval] of a [bigserial] column: never given back, not even by a rollback. *)
Definition nextval (t : string) : M Z := λ w,
  let n := seq_next (w_seq w) t in
  if int64_max <? n then (Err errSequence, failed w)
  else (Ok n, with_seq (<[t := n]> (w_seq w)) w).

(** An insert whose key is generated. *)
Definition insert_serial (t : string) (f : Z → DB → res DB) : M Z :=
  id ← nextval t; exec (f id);; mret id.

(** [db.Transaction(body)] on the connection pool.  A [COMMIT] that returns an
    error may have been carried out: the caller then sees a failed transaction
    whose effect is there. *)
Definition Transaction {A} (body : M A) : M A := λ w,
  match env_fault (w_tick w) with
  | Some code => (Err (ErrDatabase code), tick w)
  | None =>
      let '(r, w1) := body (mkWorld (w_db w) (w_seq w) (S (w_tick w)) (Some (w_db w)) false) in
      let rollback := mkWorld (w_db w) (w_seq w1) (S (w_tick w1)) None false in
      let committed := mkWorld (w_db w1) (w_seq w1) (S (w_tick w1)) None false in
      match r with
      | Err e => (Err e, rollback)
      | Ok a =>
          if w_aborted w1 then (Err errAborted, rollback) else
          match env_fault (w_tick w1) with
          | Some code => (Err (ErrDatabase code), if env_unacked (w_tick w1) then committed else rollback)
          | None => (Ok a, committed)
          end
      end
  end.

(** A statement that writes outside a transaction is one of its own: GORM opens
    one for [Create], [Save], [Updates] and [Delete], PostgreSQL for any other. *)
Definition autocommit {A} (m : M A) : M A := λ w,
  match w_tx w with Some _ => m w | None => Transaction m w end.

(** [ids.New(prefix)] and [rand.Read]. *)
Definition new_id (prefix : string) : M string := λ w,
  (Ok (ids_New (env_nano (w_tick w)) (env_rand (w_tick w) 4) prefix), tick w).
Definition rand_read (n : nat) : M (option (list ascii)) := λ w,
  (Ok (env_rand (w_tick w) n), tick w).
Definition time_now : M Time := λ w, (Ok (env_now (w_tick w)), tick w).

(** [firstOrNotFound]: [Limit(1).Find] that reports a missing row. *)
Definition firstOrNotFound {A} (f : DB → option A) : M A :=
  r ← query f;
  match r with
  | Some a => mret a
  | None => throw ErrRecordNotFound
  end.

End statements.

(** ** Reasoning about programs

    [WP m Q d s]: started on tables [d] and sequences [s], at any moment and
    under any outside, [m] ends with a result, tables and sequences in [Q].
    Programs are total, so this is total correctness. *)

Abbreviation Seqs := (gmap string Z).

Definition WP {A} (m : M A) (Q : res A → DB → Seqs → Prop) (d : DB) (s : Seqs) : Prop :=
  ∀ w, w_db w = d → w_seq w = s → let '(r, w') := m w in Q r (w_db w') (w_seq w').

(** Postconditions of the success case only. *)
Definition on_ok {A} (Φ : A → DB → Seqs → Prop) : res A → DB → Seqs → Prop := λ r d s,
  match r with Ok a => Φ a d s | Err _ => True end.

(** Errors of the server or of the connection. *)
Definition driver_error (e : error) : Prop := ∃ code, e = ErrDatabase code.

Section rules.
Context `{Env}.

Lemma WP_mono {A} (m : M A) (Q Q' : _ → _ → _ → Prop) d s :
  WP m Q d s → (∀ r d' s', Q r d' s' → Q' r d' s') → WP m Q' d s.
Proof. intros Hm HQ w Hd Hs. specialize (Hm w Hd Hs). destruct (m w). auto. Qed.

Lemma WP_any {A} (m : M A) (Q : _ → _ → _ → Prop) d s : (∀ r d' s', Q r d' s') → WP m Q d s.
Proof. intros HQ w _ _. destruct (m w). apply HQ. Qed.

Lemma WP_and {A} (m : M A) (Q Q' : _ → _ → _ → Prop) d s :
  WP m Q d s → WP m Q' d s → WP m (λ r d' s', Q r d' s' ∧ Q' r d' s') d s.
Proof. intros H1 H2 w Hd Hs. specialize (H1 w Hd Hs). specialize (H2 w Hd Hs). by destruct (m w). Qed.

(** Sequencing of success postconditions. *)
Lemma WP_bind_ok {A B} (m : M A) (f : A → M B) Φ Ψ d s :
  WP m (on_ok Φ) d s → (∀ a d' s', Φ a d' s' → WP (f a) (on_ok Ψ) d' s') →
  WP (m ≫= f) (on_ok Ψ) d s.
Proof.
  intros Hm Hf w Hd Hs. specialize (Hm w Hd Hs). unfold mbind, M_bind.
  destruct (m w) as [[a|e] w']; [|done]. by apply (Hf a (w_db w') (w_seq w') Hm w').
Qed.

Lemma WP_Transaction_ok {A} (m : M A) Φ d s :
  WP m (on_ok Φ) d s → WP (Transaction m) (on_ok Φ) d s.
Proof.
  intros Hm w <- <-. unfold Transaction. destruct (env_fault (w_tick w)); [done|].
  specialize (Hm (mkWorld (w_db w) (w_seq w) (S (w_tick w)) (Some (w_db w)) false) eq_refl eq_refl).
  destruct (m _) as [[a|e] w1]; [|done].
  destruct (w_aborted w1); [done|]. by destruct (env_fault (w_tick w1)).
Qed.

Lemma WP_ret {A} (a : A) (Q : _ → _ → _ → Prop) d s : Q (Ok a) d s → WP (mret a) Q d s.
Proof. intros HQ w <- <-. apply HQ. Qed.

Lemma WP_throw {A} e (Q : res A → _ → _ → Prop) d s : Q (Err e) d s → WP (throw e) Q d s.
Proof. intros HQ w <- <-. apply HQ. Qed.

Lemma WP_lift {A} (r : res A) (Q : res A → _ → _ → Prop) d s : Q r d s → WP (lift r) Q d s.
Proof. intros HQ w <- <-. apply HQ. Qed.

Lemma WP_bind {A B} (m : M A) (f : A → M B) Q d s :
  WP m (λ r d' s', match r with Ok a => WP (f a) Q d' s' | Err e => Q (Err e) d' s' end) d s →
  WP (m ≫= f) Q d s.
Proof.
  intros Hm w Hd Hs. specialize (Hm w Hd Hs). unfold mbind, M_bind.
  destruct (m w) as [[a|e] w']; [by apply Hm|done].
Qed.

Lemma WP_attempt {A} (m : M A) Q d s :
  WP m (λ r d' s', Q (Ok r) d' s') d s → WP (attempt m) Q d s.
Proof. intros Hm w Hd Hs. specialize (Hm w Hd Hs). unfold attempt. by destruct (m w). Qed.

Lemma WP_stmt {A} (f : DB → res (A * DB)) (Q : res A → _ → _ → Prop) d s :
  (∀ e, driver_error e → Q (Err e) d s) →
  (match f d with Ok (a, d') => Q (Ok a) d' s | Err e => Q (Err e) d s end) →
  WP (stmt f) Q d s.
Proof.
  intros He Hf w <- <-. unfold stmt.
  destruct (w_aborted w); [simpl; apply He; by eexists|].
  destruct (env_fault (w_tick w)); [simpl; apply He; by eexists|].
  by destruct (f (w_db w)) as [[a d']|e].
Qed.

Lemma WP_query {A} (f : DB → A) (Q : res A → _ → _ → Prop) d s :
  (∀ e, driver_error e → Q (Err e) d s) → Q (Ok (f d)) d s → WP (query f) Q d s.
Proof. intros He HQ. by apply WP_stmt. Qed.

Lemma WP_exec (f : DB → res DB) (Q : res unit → _ → _ → Prop) d s :
  (∀ e, driver_error e → Q (Err e) d s) →
  (match f d with Ok d' => Q (Ok ()) d' s | Err e => Q (Err e) d s end) →
  WP (exec f) Q d s.
Proof. intros He HQ. apply WP_stmt; [done|]. by destruct (f d). Qed.

Lemma WP_nextval t (Q : res Z → _ → _ → Prop) d s :
  (∀ e, driver_error e → Q (Err e) d s) →
  Q (Ok (seq_next s t)) d (<[t := seq_next s t]> s) → WP (nextval t) Q d s.
Proof.
  intros He HQ w <- <-. unfold nextval. destruct (_ <? _); [apply He; by eexists|done].
Qed.

Lemma WP_insert_serial t f (Q : res Z → _ → _ → Prop) d s :
  let id := seq_next s t in
  (∀ e s', Q (Err e) d s') →
  (match f id d with Ok d' => Q (Ok id) d' (<[t := id]> s) | Err e => Q (Err e) d (<[t := id]> s) end) →
  WP (insert_serial t f) Q d s.
Proof.
  intros id He HQ. apply WP_bind, WP_nextval; [auto|]. cbv beta iota. fold id.
  apply WP_bind, WP_exec; [intros; auto|].
  destruct (f id d); [by apply WP_ret|auto].
Qed.

Lemma WP_new_id prefix (Q : res string → _ → _ → Prop) d s :
  (∀ nano buf, Q (Ok (ids_New nano buf prefix)) d s) → WP (new_id prefix) Q d s.
Proof. intros HQ w <- <-. apply HQ. Qed.

Lemma WP_rand_read n (Q : res (option (list ascii)) → _ → _ → Prop) d s :
  (∀ o, (∀ b, o = Some b → length b = n) → Q (Ok o) d s) → WP (rand_read n) Q d s.
Proof. intros HQ w <- <-. apply HQ. intros b Hb. by eapply env_rand_length. Qed.

Lemma WP_time_now (Q : res Time → _ → _ → Prop) d s :
  (∀ t, Q (Ok t) d s) → WP time_now Q d s.
Proof. intros HQ w <- <-. apply HQ. Qed.

Lemma WP_firstOrNotFound {A} (f : DB → option A) (Q : res A → _ → _ → Prop) d s :
  (∀ e, driver_error e → Q (Err e) d s) →
  (match f d with Some a => Q (Ok a) d s | None => Q (Err ErrRecordNotFound) d s end) →
  WP (firstOrNotFound f) Q d s.
Proof.
  intros He HQ. apply WP_bind, WP_query; [done|].
  destruct (f d); [by apply WP_ret|by apply WP_throw].
Qed.

(** An error of a transaction leaves the tables alone, or it is one of the driver
    and everything was done: [done] holds of the tables after a success. *)
Definition all_or_nothing (done : DB → Prop) (d : DB) (e : error) (d' : DB) : Prop :=
  d' = d ∨ driver_error e ∧ done d'.

Lemma all_or_nothing_mono (P P' : DB → Prop) d e d' : (∀ x, P x → P' x) → all_or_nothing P d e d' → all_or_nothing P' d e d'.
Proof. unfold all_or_nothing. naive_solver. Qed.

(** A transaction keeps the effect of its body when the body succeeds, but for the
    error of a lost acknowledgement has no effect on the tables otherwise, and
    keeps the error and the sequences of a failing body. *)
Lemma WP_Transaction_err {A} (m : M A) (Q : res A → DB → Seqs → Prop) d s :
  WP m (λ r d' s',
    match r with
    | Ok a => Q (Ok a) d' s' ∧ ∀ e, driver_error e → Q (Err e) d s' ∧ Q (Err e) d' s'
    | Err e => Q (Err e) d s'
    end) d s →
  (∀ e, driver_error e → Q (Err e) d s) →
  WP (Transaction m) Q d s.
Proof.
  intros Hm He w <- <-. unfold Transaction.
  destruct (env_fault (w_tick w)); [apply He; by eexists|].
  specialize (Hm (mkWorld (w_db w) (w_seq w) (S (w_tick w)) (Some (w_db w)) false) eq_refl eq_refl).
  destruct (m _) as [[a|e] w1]; [|apply Hm].
  destruct (w_aborted w1); [apply Hm; by eexists|].
  destruct (env_fault (w_tick w1)) as [code|]; [|apply Hm].
  destruct Hm as [_ Hm]. destruct (Hm (ErrDatabase code)) as [Hr Hc]; [by eexists|]. by destruct (env_unacked (w_tick w1)).
Qed.

(** The same when the error and the sequences do not matter. *)
Lemma WP_Transaction {A} (m : M A) (Q : res A → DB → Seqs → Prop) d s :
  WP m (λ r d' s', match r with Ok a => Q (Ok a) d' s' ∧ ∀ e, driver_error e → Q (Err e) d' s' | Err e => True end) d s →
  (∀ e s', Q (Err e) d s') →
  WP (Transaction m) Q d s.
Proof. intros Hm He. apply WP_Transaction_err; [|auto]. eapply WP_mono; [exact Hm|]. intros [a|e] d' s'; naive_solver. Qed.

Lemma WP_autocommit {A} (m : M A) (Q : res A → DB → Seqs → Prop) d s :
  WP m (λ r d' s',
    match r with
    | Ok a => Q (Ok a) d' s' ∧ ∀ e, driver_error e → Q (Err e) d s' ∧ Q (Err e) d' s'
    | Err e => Q (Err e) d s' ∧ Q (Err e) d' s'
    end) d s →
  (∀ e, driver_error e → Q (Err e) d s) →
  WP (autocommit m) Q d s.
Proof.
  intros Hm He w Hd Hs. unfold autocommit. destruct (w_tx w).
  - specialize (Hm w Hd Hs). destruct (m w) as [[a|e] w']; apply Hm.
  - revert w Hd Hs. change (WP (Transaction m) Q d s). apply WP_Transaction_err; [|done].
    eapply WP_mono; [exact Hm|]. intros [a|e] d' s'; naive_solver.
Qed.

(** Where errors do not matter. *)
Lemma WP_autocommit_ok {A} (m : M A) (Q : res A → DB → Seqs → Prop) d s :
  (∀ e d' s', Q (Err e) d' s') → WP m Q d s → WP (autocommit m) Q d s.
Proof. intros He Hm. apply WP_autocommit; [|auto]. eapply WP_mono; [exact Hm|]. intros [a|e] d' s'; auto. Qed.

(** From a rule to a run. *)
Lemma WP_run {A} (m : M A) (Q : res A → DB → Seqs → Prop) w r w' :
  WP m Q (w_db w) (w_seq w) → m w = (r, w') → Q r (w_db w') (w_seq w').
Proof. intros Hm E. specialize (Hm w eq_refl eq_refl). by rewrite E in Hm. Qed.

End rules.

(** ** Invariants of the database

    [keeps I m]: whatever the outcome of [m], the tables and sequences it leaves
    satisfy [I] when those it started from did. *)

Definition keeps {A} (I : DB → Seqs → Prop) (m : M A) : Prop :=
  ∀ d s, I d s → WP m (λ _ d' s', I d' s') d s.

Section keeps.
Context `{Env} (I : DB → Seqs → Prop).

Lemma keeps_ret {A} (a : A) : keeps I (mret a).
Proof. intros d s HI. by apply WP_ret. Qed.
Lemma keeps_throw {A} e : keeps I (throw (A:=A) e).
Proof. intros d s HI. by apply WP_throw. Qed.
Lemma keeps_lift {A} (r : res A) : keeps I (lift r).
Proof. intros d s HI. by apply WP_lift. Qed.
Lemma keeps_bind {A B} (m : M A) (f : A → M B) :
  keeps I m → (∀ a, keeps I (f a)) → keeps I (m ≫= f).
Proof.
  intros Hm Hf d s HI. apply WP_bind. eapply WP_mono; [by apply Hm|].
  intros [a|e] d' s' HI'; [by apply Hf|done].
Qed.
Lemma keeps_attempt {A} (m : M A) : keeps I m → keeps I (attempt m).
Proof. intros Hm d s HI. apply WP_attempt. by apply Hm. Qed.
Lemma keeps_query {A} (f : DB → A) : keeps I (query f).
Proof. intros d s HI. by apply WP_query. Qed.
Lemma keeps_firstOrNotFound {A} (f : DB → option A) : keeps I (firstOrNotFound f).
Proof. intros d s HI. apply WP_firstOrNotFound; [done|]. by destruct (f d). Qed.
Lemma keeps_new_id prefix : keeps I (new_id prefix).
Proof. intros d s HI. by apply WP_new_id. Qed.
Lemma keeps_rand_read n : keeps I (rand_read n).
Proof. intros d s HI. by apply WP_rand_read. Qed.
Lemma keeps_time_now : keeps I time_now.
Proof. intros d s HI. by apply WP_time_now. Qed.
Lemma keeps_exec f :
  (∀ d s d', I d s → f d = Ok d' → I d' s) → keeps I (exec f).
Proof.
  intros Hf d s HI. apply WP_exec; [done|]. destruct (f d) eqn:E; eauto.
Qed.
Lemma keeps_insert_serial t f :
  (∀ d s, I d s → I d (<[t := seq_next s t]> s)) →
  (∀ d s d', I d s → f (seq_next s t) d = Ok d' → I d' (<[t := seq_next s t]> s)) →
  keeps I (insert_serial t f).
Proof.
  intros Hs Hf d s HI. apply WP_bind, WP_nextval; [done|]. cbv beta iota.
  apply WP_bind, WP_exec; [auto|].
  destruct (f _ d) eqn:E; [apply WP_ret; eauto|auto].
Qed.
(** A failing body leaves the tables alone but keeps the sequence numbers it drew. *)
Lemma keeps_Transaction {A} (m : M A) :
  (∀ d s d' s', I d s → I d' s' → I d s') → keeps I m → keeps I (Transaction m).
Proof.
  intros Hr Hm d s HI. apply WP_Transaction_err; [|done].
  eapply WP_mono; [by apply Hm|]. intros [a|e] d' s' HI'; eauto.
Qed.
Lemma keeps_autocommit {A} (m : M A) :
  (∀ d s d' s', I d s → I d' s' → I d s') → keeps I m → keeps I (autocommit m).
Proof.
  intros Hr Hm d s HI w Hd Hs. unfold autocommit. destruct (w_tx w); [by apply (Hm d s)|by apply (keeps_Transaction _ Hr Hm d s)].
Qed.
End keeps.

(** Structural part of a preservation proof; statements that write are left. *)
Ltac keeps_step :=
  lazymatch goal with
  | |- ∀ _, _ => intros ?
  | |- keeps _ (_ ≫= _) => apply keeps_bind
  | |- keeps _ (mret _) => apply keeps_ret
  | |- keeps _ (throw _) => apply keeps_throw
  | |- keeps _ (lift _) => apply keeps_lift
  | |- keeps _ (attempt _) => apply keeps_attempt
  | |- keeps _ (query _) => apply keeps_query
  | |- keeps _ (firstOrNotFound _) => apply keeps_firstOrNotFound
  | |- keeps _ (new_id _) => apply keeps_new_id
  | |- keeps _ (rand_read _) => apply keeps_rand_read
  | |- keeps _ time_now => apply keeps_time_now
  | |- keeps _ (let _ := _ in _) => cbv zeta
  | |- keeps _ (match ?x with _ => _ end) => destruct x
  end.
Ltac keeps := repeat (first [progress auto with keeps nocore | keeps_step]).
Create HintDb keeps.

#[global] Arguments insert_serial : simpl never.
#[global] Arguments query : simpl never.
#[global] Arguments exec : simpl never.
#[global] Arguments firstOrNotFound : simpl never.
#[global] Arguments Transaction : simpl never.
#[global] Arguments autocommit : simpl never.
#[global] Arguments new_id : simpl never.
#[global] Arguments order_by : simpl never.
#[global] Arguments first_by : simpl never.
#[global] Arguments rows : simpl never.

(** One step of symbolic execution of a program. *)
Ltac wp_step :=
  lazymatch goal with
  | |- WP (_ ≫= _) _ _ _ => apply WP_bind
  | |- WP (mret _) _ _ _ => apply WP_ret
  | |- WP (throw _) _ _ _ => apply WP_throw
  | |- WP (lift _) _ _ _ => apply WP_lift
  | |- WP (attempt _) _ _ _ => apply WP_attempt
  | |- WP (query _) _ _ _ => apply WP_query; [intros ? ?|]
  | |- WP (exec _) _ _ _ => apply WP_exec; [intros ? ?|]
  | |- WP (insert_serial _ _) _ _ _ => apply WP_insert_serial; [intros ? ?|]
  | |- WP (firstOrNotFound _) _ _ _ => apply WP_firstOrNotFound; [intros ? ?|]
  | |- WP (new_id _) _ _ _ => apply WP_new_id; intros ? ?
  | |- WP (rand_read _) _ _ _ => apply WP_rand_read; intros ? ?
  | |- WP time_now _ _ _ => apply WP_time_now; intros ?
  end; cbv beta iota.

(** ** An outside without failures, for concrete runs *)

Program Definition Env_quiet : Env := {|
  env_fault _ := None;
  env_unacked _ := false;
  env_nano n := Z.of_nat n;
  env_now n := Z.of_nat n;
  env_rand tick n := Some (replicate n (ascii_of_nat tick))
|}.
Next Obligation. intros tick n b [= <-]. apply length_replicate. Qed.

Program Definition PgTypes_exact : PgTypes := {|
  pg_numeric x := x; pg_timestamp t := t; pg_inet s := s; pg_collate s := s
|}.
Next Obligation. done. Qed.

(** A world over given tables, before any interaction. *)
Definition world_of (d : DB) (s : Seqs) : World := mkWorld d s 0 None false.
