(* ===== verification/Atomic.v ===== *)
(** * All or nothing

    What a call leaves that ends in an error: nothing, or, when all that failed was
    the acknowledgement of its [COMMIT], exactly what it leaves when it succeeds.
    A call is [atomic] when this holds of it under every outside; the rules below
    carry it from [Transaction] to the calls that are built around one. *)

From stdpp Require Import gmap strings list.
From S2P Require Import Prelude GoRuntime GoStrings Contracts Sql.

(** ** An outside with one failure less *)

Definition acked (E : Env) (n : nat) : Env := {|
  env_fault k := if decide (k = n) then None else env_fault k;
  env_unacked := env_unacked;
  env_nano := env_nano;
  env_now := env_now;
  env_rand := env_rand;
  env_rand_length := env_rand_length
|}.

Lemma acked_fault {E : Env} n k : k ≠ n → @env_fault (acked E n) k = env_fault k.
Proof. intros Hk. simpl. by rewrite decide_False. Qed.

(** A program, and the same program under [acked E n]: they do the same as long as
    the interaction [n] is not reached. *)
Definition until {A} (n : nat) (m m' : M A) : Prop :=
  ∀ w, (w_tick w ≤ w_tick (m w).2)%nat ∧ ((w_tick (m w).2 ≤ n)%nat → m' w = m w).

Section until.
Context {E : Env} (n : nat).

Lemma until_ret {A} (a : A) : until n (mret a) (mret a).
Proof. by intros w. Qed.
Lemma until_throw {A} e : until n (throw (A:=A) e) (throw e).
Proof. by intros w. Qed.
Lemma until_lift {A} (r : res A) : until n (lift r) (lift r).
Proof. by intros w. Qed.

Lemma until_bind {A B} (m m' : M A) (f f' : A → M B) :
  until n m m' → (∀ a, until n (f a) (f' a)) → until n (m ≫= f) (m' ≫= f').
Proof.
  intros Hm Hf w. destruct (Hm w) as [Hle Heq]. unfold mbind, M_bind.
  destruct (m w) as [[a|e] w1] eqn:Ew; simpl in *.
  - destruct (Hf a w1) as [Hle' Heq']. split; [lia|]. intros Hn. rewrite Heq by lia. by apply Heq'.
  - split; [done|]. intros Hn. by rewrite Heq.
Qed.

Lemma until_attempt {A} (m m' : M A) : until n m m' → until n (attempt m) (attempt m').
Proof. intros Hm w. destruct (Hm w) as [Hle Heq]. unfold attempt. destruct (m w) as [r w1]. simpl in *. split; [done|]. intros Hn. by rewrite Heq. Qed.

Lemma until_stmt {A} (f : DB → res (A * DB)) : until n (stmt f) (@stmt (acked E n) A f).
Proof.
  intros w. assert (w_tick (stmt f w).2 = S (w_tick w)) as Ht.
  { unfold stmt. destruct (w_aborted w), (env_fault (w_tick w)), (f (w_db w)) as [[]|]; reflexivity. }
  rewrite Ht. split; [lia|]. intros Hn. unfold stmt. by rewrite acked_fault by lia.
Qed.

Lemma until_query {A} (f : DB → A) : until n (query f) (@query (acked E n) A f).
Proof. apply until_stmt. Qed.
Lemma until_exec f : until n (exec f) (@exec (acked E n) f).
Proof. apply until_stmt. Qed.
Lemma until_nextval t : until n (nextval t) (nextval t).
Proof. intros w. unfold nextval. split; [|done]. by destruct (_ <? _)%Z. Qed.
Lemma until_insert_serial t f : until n (insert_serial t f) (@insert_serial (acked E n) t f).
Proof.
  apply until_bind; [apply until_nextval|]. intros id. apply until_bind; [apply until_exec|]. intros []. apply until_ret.
Qed.
Lemma until_new_id prefix : until n (new_id prefix) (@new_id (acked E n) prefix).
Proof. intros w. split; simpl; [lia|done]. Qed.
Lemma until_rand_read k : until n (rand_read k) (@rand_read (acked E n) k).
Proof. intros w. split; simpl; [lia|done]. Qed.
Lemma until_time_now : until n time_now (@time_now (acked E n)).
Proof. intros w. split; simpl; [lia|done]. Qed.
Lemma until_firstOrNotFound {A} (f : DB → option A) : until n (firstOrNotFound f) (@firstOrNotFound (acked E n) A f).
Proof. apply until_bind; [apply until_query|]. intros [a|]; [apply until_ret|apply until_throw]. Qed.

Lemma until_Transaction {A} (m m' : M A) : until n m m' → until n (Transaction m) (@Transaction (acked E n) A m').
Proof.
  intros Hm w. unfold Transaction.
  destruct (env_fault (w_tick w)) as [code|] eqn:E0.
  { simpl. split; [lia|]. intros Hn. by rewrite decide_False, E0 by lia. }
  set (w0 := mkWorld _ _ _ _ _). destruct (Hm w0) as [Hle Heq]. destruct (m w0) as [r w1] eqn:Ew. simpl in Hle, Heq.
  assert (∀ x : res A * World, w_tick x.2 = S (w_tick w1) → (w_tick w ≤ w_tick x.2)%nat ∧ ((w_tick x.2 ≤ n)%nat → m' w0 = (r, w1) ∧ w_tick w ≠ n ∧ w_tick w1 ≠ n)) as Hx.
  { intros x ->. split; [lia|]. intros Hn. rewrite Heq by lia. split; [done|]. lia. }
  match goal with |- _ ∧ (_ → _ = ?x) => destruct (Hx x) as [H1 H2] end.
  { destruct r; [|done]. destruct (w_aborted w1); [done|]. by destruct (env_fault (w_tick w1)); [destruct (env_unacked _)|]. }
  split; [done|]. intros Hn. destruct (H2 Hn) as (Em & Hw & Hw1). rewrite acked_fault, E0, Em by done.
  destruct r; [|done]. destruct (w_aborted w1); [done|]. by rewrite acked_fault.
Qed.

Lemma until_autocommit {A} (m m' : M A) : until n m m' → until n (autocommit m) (@autocommit (acked E n) A m').
Proof. intros Hm w. unfold autocommit. destruct (w_tx w); [apply Hm|by apply until_Transaction]. Qed.

End until.

Create HintDb until.
#[export] Hint Resolve until_ret until_throw until_lift until_query until_exec until_nextval until_insert_serial
  until_new_id until_rand_read until_time_now until_firstOrNotFound : until.

(** The two programs have the same structure. *)
Ltac until_step :=
  lazymatch goal with
  | |- ∀ _, _ => intros ?
  | |- until _ (_ ≫= _) _ => apply until_bind
  | |- until _ (attempt _) _ => apply until_attempt
  | |- until _ (Transaction _) _ => apply until_Transaction
  | |- until _ (autocommit _) _ => apply until_autocommit
  | |- until _ (let _ := _ in _) _ => cbv zeta
  | |- until _ (match ?x with _ => _ end) _ => destruct x
  end.
Ltac until := repeat (first [solve [auto with until nocore] | until_step]).

(** ** Atomic calls *)

(** The failure of [m] was that of the [COMMIT] at interaction [n], and [m] is the
    same call when it is acknowledged. *)
Definition unacknowledged {A} (m : Env → M A) (E : Env) (w : World) (e : error) (w' : World) : Prop :=
  ∃ n code a, env_fault n = Some code ∧ env_unacked n = true ∧ e = ErrDatabase code ∧ (w_tick w ≤ n)%nat ∧
    m (acked E n) w = (Ok a, w').

Definition atomic {A} (m : Env → M A) : Prop :=
  ∀ E w e w', m E w = (Err e, w') → w_db w' = w_db w ∨ unacknowledged m E w e w'.

(** Programs that do not write. *)
Definition readonly {A} (m : M A) : Prop := ∀ w, w_db (m w).2 = w_db w.

Section readonly.
Context {E : Env}.

Lemma readonly_ret {A} (a : A) : readonly (mret a).
Proof. by intros w. Qed.
Lemma readonly_throw {A} e : readonly (throw (A:=A) e).
Proof. by intros w. Qed.
Lemma readonly_bind {A B} (m : M A) (f : A → M B) : readonly m → (∀ a, readonly (f a)) → readonly (m ≫= f).
Proof.
  intros Hm Hf w. rewrite <-(Hm w). unfold mbind, M_bind. destruct (m w) as [[a|e] w1]; [apply Hf|done].
Qed.
Lemma readonly_attempt {A} (m : M A) : readonly m → readonly (attempt m).
Proof. intros Hm w. specialize (Hm w). unfold attempt. by destruct (m w). Qed.
Lemma readonly_query {A} (f : DB → A) : readonly (query f).
Proof. intros w. unfold query, stmt. destruct (w_aborted w); [done|]. by destruct (env_fault (w_tick w)). Qed.
Lemma readonly_firstOrNotFound {A} (f : DB → option A) : readonly (firstOrNotFound f).
Proof. apply readonly_bind; [apply readonly_query|]. intros [a|]; [apply readonly_ret|apply readonly_throw]. Qed.
Lemma readonly_new_id prefix : readonly (new_id prefix).
Proof. by intros w. Qed.
End readonly.

Create HintDb readonly.
#[export] Hint Resolve readonly_ret readonly_throw readonly_query readonly_firstOrNotFound readonly_new_id : readonly.

Ltac readonly_step :=
  lazymatch goal with
  | |- ∀ _, _ => intros ?
  | |- readonly (_ ≫= _) => apply readonly_bind
  | |- readonly (attempt _) => apply readonly_attempt
  | |- readonly (let _ := _ in _) => cbv zeta
  | |- readonly (match ?x with _ => _ end) => destruct x
  end.
Ltac readonly := repeat (first [solve [auto with readonly nocore] | readonly_step]).

Lemma atomic_readonly {A} (m : Env → M A) : (∀ E, readonly (m E)) → atomic m.
Proof. intros Hm E w e w' Ew. left. specialize (Hm E w). by rewrite Ew in Hm. Qed.

Lemma atomic_Transaction {A} (m : Env → M A) :
  (∀ E n, until n (m E) (m (acked E n))) → atomic (λ E, @Transaction E A (m E)).
Proof.
  intros Hm E w e w' Ew. unfold Transaction in Ew. destruct (env_fault (w_tick w)) as [code|] eqn:E0; [left; by injection Ew as _ <-|].
  set (w0 := mkWorld (w_db w) (w_seq w) (S (w_tick w)) (Some (w_db w)) false) in *.
  destruct (m E w0) as [[a|e0] w1] eqn:E1; [|left; by injection Ew as _ <-].
  destruct (w_aborted w1) eqn:Ea; [left; by injection Ew as _ <-|].
  destruct (env_fault (w_tick w1)) as [code|] eqn:Ef; [|done].
  destruct (env_unacked (w_tick w1)) eqn:Eu; injection Ew as <- <-; [|by left].
  right. exists (w_tick w1), code, a. destruct (Hm E (w_tick w1) w0) as [Hle Heq]. rewrite E1 in Hle, Heq. simpl in Hle, Heq.
  split_and!; [done..|lia|]. unfold Transaction. fold w0. rewrite acked_fault, E0, Heq, Ea by lia. simpl. by rewrite decide_True.
Qed.

(** Inside a transaction the statement itself has no effect when it fails. *)
Lemma atomic_autocommit {A} (m : Env → M A) :
  (∀ E n, until n (m E) (m (acked E n))) → (∀ E w e w', m E w = (Err e, w') → w_db w' = w_db w) →
  atomic (λ E, @autocommit E A (m E)).
Proof.
  intros Hm Hd E w e w' Ew. unfold unacknowledged, autocommit in *.
  destruct (w_tx w); [left; by eapply Hd|by apply (atomic_Transaction m Hm) in Ew].
Qed.

Lemma stmt_error {A} {E : Env} (f : DB → res (A * DB)) w e w' : stmt f w = (Err e, w') → w_db w' = w_db w.
Proof.
  unfold stmt. destruct (w_aborted w), (env_fault (w_tick w)), (f (w_db w)) as [[]|]; try done; by intros [= _ <-].
Qed.
Lemma exec_error {E : Env} f w e w' : exec f w = (Err e, w') → w_db w' = w_db w.
Proof. apply stmt_error. Qed.
Lemma insert_serial_error {E : Env} t f w e w' : insert_serial t f w = (Err e, w') → w_db w' = w_db w.
Proof.
  unfold insert_serial, mbind, M_bind, nextval. cbv zeta. destruct (_ <? _)%Z; [by intros [= _ <-]|].
  set (w1 := with_seq _ w). destruct (exec _ w1) as [[a|e1] w2] eqn:Ex; [done|]. intros [= _ <-]. by apply exec_error in Ex.
Qed.

(** Reads before the write, and nothing that can fail after it. *)
Lemma atomic_after_read {A B} (m : Env → M A) (f : Env → A → M B) :
  (∀ E, readonly (m E)) → (∀ E n, until n (m E) (m (acked E n))) → (∀ a, atomic (λ E, f E a)) →
  atomic (λ E, m E ≫= f E).
Proof.
  intros Hr Hu Hf E w e w' Ew. unfold mbind, M_bind in Ew. pose proof (Hr E w) as Hd.
  destruct (m E w) as [[a|e0] w1] eqn:E1; simpl in Hd; [|left; by injection Ew as _ <-].
  destruct (Hf a E w1 e w' Ew) as [Hs|(n & code & b & H1 & H2 & H3 & H4 & H5)]; [left; congruence|right].
  destruct (Hu E n w) as [Hle Heq]. rewrite E1 in Hle, Heq. simpl in Hle, Heq.
  exists n, code, b. split_and!; [done..|lia|]. unfold mbind, M_bind. by rewrite Heq.
Qed.

Lemma atomic_then_ret {A B} (m : Env → M A) (g : A → B) : atomic m → atomic (λ E, m E ≫= λ a, mret (g a)).
Proof.
  intros Hm E w e w' Ew. unfold mbind, M_bind in Ew. destruct (m E w) as [[a|e0] w1] eqn:E1; [done|]. injection Ew as -> ->.
  destruct (Hm E w e w' E1) as [?|(n & code & a & ? & ? & ? & ? & Hk)]; [by left|right].
  exists n, code, (g a). split_and!; [done..|]. unfold mbind, M_bind. by rewrite Hk.
Qed.
