(* ===== verification/HostStore.v ===== *)
(** * The PostgreSQL host store

    Models [pkg/hostruntime/repository/postgres/store.go] over the tables of
    [Sql]: registration, heartbeats, metric reports, listing and the offline
    scan, each as the sequence of statements the source issues, inside the
    transactions the source opens. *)

From stdpp Require Import gmap strings list sorting pretty.
From S2P Require Import Prelude GoRuntime GoStrings Contracts Sql.
Local Open Scope Z_scope.

Definition defaultHeartbeatIntervalSec : Z := 1.
Definition defaultMetricIntervalSec : Z := 1.
Definition defaultConfigVersion : Z := 1.

Record Config := mkConfig {
  cfg_TenantCode : string;
  cfg_TenantName : string;
  cfg_AllowCustomTenantCode : bool
}.

Record PgStore := mkPgStore {
  ps_defaultTenantID : Z;
  ps_allowCustomTenantCode : bool
}.

Definition emptyStringPtr (value : string) : option string :=
  if str_empty value then None else Some value.

(** A nil result and an empty map are the same map. *)
Definition cloneLabels (src : labels) : labels := src.

(** ** Rows as the columns keep them *)

Section columns.
Context `{PgTypes}.

Definition stored_host (h : hostModel) : hostModel :=
  mkHost (h_ID h) (h_TenantID h) (h_HostUID h) (h_Hostname h) (pg_inet (h_PrimaryIP h))
    (h_OSType h) (h_Arch h) (h_Region h) (h_AZ h) (h_Env h) (h_Role h) (h_Status h)
    (pg_timestamp (h_RegisteredAt h)) (pg_timestamp (h_LastRegisterAt h)) (pg_timestamp (h_UpdatedAt h)).

Definition stored_agent (a : agentInstanceModel) : agentInstanceModel :=
  mkAgentInstance (ai_ID a) (ai_HostID a) (ai_AgentID a) (ai_Version a) (ai_State a)
    (ai_ConfigVersion a) (ai_HeartbeatIntervalSec a) (ai_MetricIntervalSec a)
    (pg_timestamp <$> ai_LastSeenAt a) (ai_LastSeq a) (ai_Capabilities a) (pg_timestamp (ai_UpdatedAt a)).

Definition stored_metrics (m : metricColumns) : metricColumns :=
  mkMetricColumns (pg_numeric (mc_CPUUsagePct m)) (pg_numeric (mc_MemUsedPct m)) (mc_MemAvailableBytes m)
    (pg_numeric (mc_SwapUsedPct m)) (pg_numeric (mc_DiskUsedPct m)) (mc_DiskFreeBytes m)
    (pg_numeric (mc_DiskInodesUsedPct m)) (mc_DiskReadBPS m) (mc_DiskWriteBPS m) (mc_DiskReadIOPS m)
    (mc_DiskWriteIOPS m) (pg_numeric (mc_Load1 m)) (mc_NetRxBPS m) (mc_NetTxBPS m)
    (mc_NetRxPacketsPS m) (mc_NetTxPacketsPS m).

Definition stored_status (r : hostStatusCurrentModel) : hostStatusCurrentModel :=
  mkStatus (st_HostID r) (st_AgentState r) (st_ReachabilityState r) (st_ServiceState r) (st_OverallState r)
    (stored_metrics (st_Metrics r)) (pg_timestamp <$> st_LastAgentSeenAt r)
    (pg_timestamp <$> st_LastMetricAt r) (pg_timestamp <$> st_LastProbeAt r)
    (st_OpenAlertCount r) (st_Version r) (pg_timestamp (st_UpdatedAt r)).

End columns.

(** ** Statements on the tables, with the constraints of the schema *)

Section writes.
Context `{PgTypes}.

Definition put_tenant (t : tenantModel) (d : DB) : res DB :=
  if existsb (λ t', negb (t_ID t' =? t_ID t) && str_eqb (t_TenantCode t') (t_TenantCode t)) (rows (db_tenants d))
  then Err errUnique
  else Ok (set_tenants (<[t_ID t := t]> (db_tenants d)) d).

Definition put_host (h : hostModel) (d : DB) : res DB :=
  if negb (bool_decide (is_Some (db_tenants d !! h_TenantID h))) then Err errForeignKey
  else if existsb (λ h', negb (h_ID h' =? h_ID h) && str_eqb (h_HostUID h') (h_HostUID h)) (rows (db_hosts d))
  then Err errUnique
  else Ok (set_hosts (<[h_ID h := stored_host h]> (db_hosts d)) d).

Definition put_agent (a : agentInstanceModel) (d : DB) : res DB :=
  if negb (bool_decide (is_Some (db_hosts d !! ai_HostID a))) then Err errForeignKey
  else if existsb (λ a', negb (ai_ID a' =? ai_ID a) && (ai_HostID a' =? ai_HostID a)
                         && str_eqb (ai_AgentID a') (ai_AgentID a)) (rows (db_agents d))
  then Err errUnique
  else Ok (set_agents (<[ai_ID a := stored_agent a]> (db_agents d)) d).

Definition put_status (r : hostStatusCurrentModel) (d : DB) : res DB :=
  if negb (bool_decide (is_Some (db_hosts d !! st_HostID r))) then Err errForeignKey
  else Ok (set_status (<[st_HostID r := stored_status r]> (db_status d)) d).

(** A plain insert refuses a primary key that is taken. *)
Definition insert_tenant (t : tenantModel) (d : DB) : res DB :=
  if bool_decide (is_Some (db_tenants d !! t_ID t)) then Err errUnique else put_tenant t d.
Definition insert_host (h : hostModel) (d : DB) : res DB :=
  if bool_decide (is_Some (db_hosts d !! h_ID h)) then Err errUnique else put_host h d.
Definition insert_agent (a : agentInstanceModel) (d : DB) : res DB :=
  if bool_decide (is_Some (db_agents d !! ai_ID a)) then Err errUnique else put_agent a d.
Definition insert_status (r : hostStatusCurrentModel) (d : DB) : res DB :=
  if bool_decide (is_Some (db_status d !! st_HostID r)) then Err errUnique else put_status r d.

Definition delete_labels (hostID : Z) (d : DB) : res DB :=
  if hostID =? 0 then Err errMissingWhere
  else Ok (set_labels (delete hostID (db_labels d)) d).

Definition insert_labels (hostID : Z) (l : labels) (d : DB) : res DB :=
  if negb (bool_decide (is_Some (db_hosts d !! hostID))) then Err errForeignKey
  else
    let old := default ∅ (db_labels d !! hostID) in
    if bool_decide (dom l ## (dom old : gset string)) then Ok (set_labels (<[hostID := l ∪ old]> (db_labels d)) d)
    else Err errUnique.

End writes.

(** ** The store *)

Section store.
Context `{Env} `{PgTypes}.

Definition ensureTenant (tenantCode tenantName : string) : M tenantModel :=
  found ← query (λ d, first_by t_ID (λ t, cond_str tenantCode (t_TenantCode t)) (rows (db_tenants d)));
  match found with
  | Some t =>
      let t := mkTenant (t_ID t) (t_TenantCode t)
                 (if str_empty tenantName then t_Name t else tenantName) 1 in
      autocommit (exec (put_tenant t));; mret t
  | None =>
      id ← autocommit (insert_serial "tenants" (λ id, insert_tenant (mkTenant id tenantCode tenantName 1)));
      mret (mkTenant id tenantCode tenantName 1)
  end.

Definition NewStore (cfg : Config) : M PgStore :=
  let tenantCode := if str_empty (cfg_TenantCode cfg) then "default"%string else cfg_TenantCode cfg in
  let tenantName := if str_empty (cfg_TenantName cfg) then "Default Tenant"%string else cfg_TenantName cfg in
  tenant ← ensureTenant tenantCode tenantName;
  mret (mkPgStore (t_ID tenant) (cfg_AllowCustomTenantCode cfg)).

Definition AllocateTenant (s : PgStore) : M string :=
  tenantCode ← new_id "tenant";
  tenant ← ensureTenant tenantCode tenantCode;
  mret (t_TenantCode tenant).

Definition hostSnapshotFromModel (host : hostModel) (tenant : tenantModel)
    (status : option hostStatusCurrentModel) (hostLabels : labels) : HostSnapshot :=
  match status with
  | None =>
      mkHostSnapshot (h_HostUID host) (t_TenantCode tenant) (h_Hostname host) (h_PrimaryIP host) ""
        Unknown Unknown Unknown Unknown
        f64_zero f64_zero 0 f64_zero f64_zero 0 f64_zero 0 0 0 0 f64_zero 0 0 0 0
        time_zero time_zero time_zero 0 hostLabels 0
  | Some statusRow =>
      let m := st_Metrics statusRow in
      mkHostSnapshot (h_HostUID host) (t_TenantCode tenant) (h_Hostname host) (h_PrimaryIP host) ""
        (to_Code (st_AgentState statusRow)) (to_Code (st_ReachabilityState statusRow))
        (to_Code (st_ServiceState statusRow)) (to_Code (st_OverallState statusRow))
        (mc_CPUUsagePct m) (mc_MemUsedPct m) (mc_MemAvailableBytes m) (mc_SwapUsedPct m)
        (mc_DiskUsedPct m) (mc_DiskFreeBytes m) (mc_DiskInodesUsedPct m) (mc_DiskReadBPS m)
        (mc_DiskWriteBPS m) (mc_DiskReadIOPS m) (mc_DiskWriteIOPS m) (mc_Load1 m)
        (mc_NetRxBPS m) (mc_NetTxBPS m) (mc_NetRxPacketsPS m) (mc_NetTxPacketsPS m)
        (default time_zero (st_LastAgentSeenAt statusRow))
        (default time_zero (st_LastMetricAt statusRow))
        (default time_zero (st_LastProbeAt statusRow))
        (st_OpenAlertCount statusRow) hostLabels (st_Version statusRow)
  end.

(** The condition of the listing query: the host uid when one is given, and the
    tenants with the code when one is given. *)
Definition host_selected (d : DB) (hostUID tenantCode : string) (h : hostModel) : bool :=
  cond_str hostUID (h_HostUID h) &&
  (str_empty tenantCode ||
   existsb (λ t, str_eqb (t_TenantCode t) tenantCode && (t_ID t =? h_TenantID h)) (rows (db_tenants d))).

Definition listHosts (hostUID tenantCode : string) : M (list HostSnapshot) :=
  hosts ← query (λ d, sort_by (λ h, pg_collate (h_HostUID h))
                        (select (host_selected d hostUID tenantCode) (rows (db_hosts d))));
  match hosts with
  | [] => mret []
  | _ :: _ =>
      (* Preload: one statement per association *)
      tenants ← query db_tenants;
      statuses ← query db_status;
      labels ← query db_labels;
      mret ((λ host, hostSnapshotFromModel host (default zero_tenantModel (tenants !! h_TenantID host))
                       (statuses !! h_ID host) (default ∅ (labels !! h_ID host))) <$> hosts)
  end.

Definition getHostByUID (hostUID tenantCode : string) : M (option HostSnapshot) :=
  items ← listHosts hostUID tenantCode;
  mret (head items).

Definition ListHosts (s : PgStore) (tenantCode : string) : M (list HostSnapshot) :=
  listHosts "" tenantCode.

Definition GetHost (s : PgStore) (hostUID tenantCode : string) : M (option HostSnapshot) :=
  getHostByUID hostUID tenantCode.

Definition findHostByUID (s : PgStore) (hostUID : string) (limitToDefaultTenant : bool) : M hostModel :=
  firstOrNotFound (λ d, first_by h_ID
    (λ h, cond_str hostUID (h_HostUID h) &&
          (negb limitToDefaultTenant || cond_int (ps_defaultTenantID s) (h_TenantID h)))
    (rows (db_hosts d))).

Definition agent_selected (hostID : Z) (agentID : string) (a : agentInstanceModel) : bool :=
  cond_int hostID (ai_HostID a) && cond_str agentID (ai_AgentID a).

Definition findAgentConfig (hostID : Z) (agentID : string) : M (option AgentConfig) :=
  r ← attempt (firstOrNotFound (λ d, first_by ai_ID (agent_selected hostID agentID) (rows (db_agents d))));
  match r with
  | Ok agent =>
      mret (Some (mkAgentConfig (ai_ConfigVersion agent) (ai_HeartbeatIntervalSec agent)
                    (ai_MetricIntervalSec agent) ∅))
  | Err ErrRecordNotFound => mret None
  | Err e => throw e
  end.

Definition lookupAgentInstance (s : PgStore) (hostUID agentID : string) : M (Z * AgentConfig) :=
  let second : M (Z * AgentConfig) :=
    r ← attempt (findHostByUID s hostUID false);
    match r with
    | Err ErrRecordNotFound => throw ErrHostNotFound
    | Err e => throw e
    | Ok host =>
        cfg ← findAgentConfig (h_ID host) agentID;
        match cfg with
        | None => throw ErrHostNotFound
        | Some cfg => mret (h_ID host, cfg)
        end
    end in
  r ← attempt (findHostByUID s hostUID true);
  match r with
  | Ok host =>
      cfg ← findAgentConfig (h_ID host) agentID;
      match cfg with
      | Some cfg => mret (h_ID host, cfg)
      | None => second
      end
  | Err _ => second
  end.

Definition lookupTenantCodeByHostUID (hostUID : string) : M string :=
  r ← attempt (firstOrNotFound (λ d, first_by h_ID (λ h, cond_str hostUID (h_HostUID h)) (rows (db_hosts d))));
  match r with
  | Ok host =>
      tenants ← query db_tenants;
      mret (t_TenantCode (default zero_tenantModel (tenants !! h_TenantID host)))
  | Err ErrRecordNotFound => mret ""%string
  | Err e => throw e
  end.

Definition resolveTenantForRegister (s : PgStore) (hostUID tenantCode : string) : M (Z * string) :=
  existingTenantCode ← lookupTenantCodeByHostUID hostUID;
  let tenantCode :=
    if negb (str_empty existingTenantCode) then existingTenantCode
    else if negb (ps_allowCustomTenantCode s) then ""%string
    else tenantCode in
  tenantCode ← (if str_empty tenantCode then new_id "tenant" else mret tenantCode);
  tenant ← ensureTenant tenantCode tenantCode;
  mret (t_ID tenant, tenantCode).

Definition resolveTenantForMetric (s : PgStore) (hostUID tenantCode : string) : M (Z * string) :=
  existingTenantCode ← lookupTenantCodeByHostUID hostUID;
  let tenantCode :=
    if negb (str_empty existingTenantCode) then existingTenantCode
    else if negb (ps_allowCustomTenantCode s) then ""%string
    else tenantCode in
  let tenantCode := TrimSpace tenantCode in
  if str_empty tenantCode then throw ErrTenantNotFound else
  r ← attempt (firstOrNotFound (λ d, first_by t_ID (λ t, cond_str tenantCode (t_TenantCode t)) (rows (db_tenants d))));
  match r with
  | Ok tenant => mret (t_ID tenant, t_TenantCode tenant)
  | Err ErrRecordNotFound => throw ErrTenantNotFound
  | Err e => throw e
  end.

Definition upsertHost (tenantID : Z) (hostUID : string) (req : RegisterAgentRequest) (now : Time) : M Z :=
  let h := ra_Host req in
  r ← attempt (firstOrNotFound (λ d, first_by h_ID (λ h, cond_str hostUID (h_HostUID h)) (rows (db_hosts d))));
  match r with
  | Err ErrRecordNotFound =>
      insert_serial "hosts" (λ id, insert_host
        (mkHost id tenantID hostUID (hi_Hostname h) (hi_PrimaryIP h) (hi_OSType h) (hi_Arch h) (hi_Region h)
           (emptyStringPtr (hi_AZ h)) (emptyStringPtr (hi_Env h)) (emptyStringPtr (hi_Role h))
           Up now now now))
  | Err e => throw e
  | Ok host =>
      exec (put_host
        (mkHost (h_ID host) tenantID (h_HostUID host) (hi_Hostname h) (hi_PrimaryIP h) (hi_OSType h)
           (hi_Arch h) (hi_Region h)
           (emptyStringPtr (hi_AZ h)) (emptyStringPtr (hi_Env h)) (emptyStringPtr (hi_Role h))
           Up (h_RegisteredAt host) now now));;
      mret (h_ID host)
  end.

Definition replaceLabels (hostID : Z) (l : labels) : M unit :=
  exec (delete_labels hostID);;
  if bool_decide (l = ∅) then mret () else exec (insert_labels hostID l).

Definition upsertAgentInstance (hostID : Z) (req : RegisterAgentRequest) (now : Time) : M AgentConfig :=
  let a := ra_Agent req in
  let cfg := mkAgentConfig defaultConfigVersion defaultHeartbeatIntervalSec defaultMetricIntervalSec
               (cloneLabels (hi_Labels (ra_Host req))) in
  r ← attempt (firstOrNotFound (λ d, first_by ai_ID (agent_selected hostID (am_AgentID a)) (rows (db_agents d))));
  match r with
  | Err ErrRecordNotFound =>
      insert_serial "agent_instances" (λ id, insert_agent
        (mkAgentInstance id hostID (am_AgentID a) (am_Version a) Up (ac_ConfigVersion cfg)
           (ac_HeartbeatIntervalSec cfg) (ac_MetricIntervalSec cfg) (Some now) 0 (am_Capabilities a) now));;
      mret cfg
  | Err e => throw e
  | Ok agent =>
      exec (put_agent
        (mkAgentInstance (ai_ID agent) (ai_HostID agent) (ai_AgentID agent) (am_Version a) Up
           (ac_ConfigVersion cfg) (ac_HeartbeatIntervalSec cfg) (ac_MetricIntervalSec cfg) (Some now)
           (ai_LastSeq agent) (am_Capabilities a) now));;
      mret (mkAgentConfig (ac_ConfigVersion cfg) (ac_HeartbeatIntervalSec cfg) (ac_MetricIntervalSec cfg)
              (cloneLabels (hi_Labels (ra_Host req))))
  end.

Definition find_status (hostID : Z) (d : DB) : option hostStatusCurrentModel :=
  head (select (λ r, cond_int hostID (st_HostID r)) (rows (db_status d))).

(** What a registration saves over the row it has read. *)
Definition registered_row (now : Time) (row : hostStatusCurrentModel) : hostStatusCurrentModel :=
  mkStatus (st_HostID row) Up (st_ReachabilityState row) (st_ServiceState row) Up (st_Metrics row)
    (Some now) (st_LastMetricAt row) (st_LastProbeAt row) (st_OpenAlertCount row)
    (int64_incr (st_Version row)) now.

Definition upsertRegisteredStatus (hostID : Z) (now : Time) : M unit :=
  r ← attempt (firstOrNotFound (find_status hostID));
  match r with
  | Err ErrRecordNotFound =>
      exec (insert_status
        (mkStatus hostID Up Unknown Unknown Up zero_metricColumns (Some now) None None 0 1 now))
  | Err e => throw e
  | Ok row =>
      exec (put_status (registered_row now row))
  end.

Definition updateAgentInstanceState (hostID : Z) (agentID : string) (seq : Z) (now : Time) : M unit :=
  exec (λ d,
    if (hostID =? 0) && str_empty agentID then Err errMissingWhere
    else Ok (set_agents
      ((λ a : agentInstanceModel,
          if agent_selected hostID agentID a
          then mkAgentInstance (ai_ID a) (ai_HostID a) (ai_AgentID a) (ai_Version a) Up (ai_ConfigVersion a)
                 (ai_HeartbeatIntervalSec a) (ai_MetricIntervalSec a) (Some (pg_timestamp now)) seq
                 (ai_Capabilities a) (pg_timestamp now)
          else a) <$> db_agents d) d)).

Definition columns_of_digest (digest : AgentDigest) : metricColumns :=
  mkMetricColumns (dg_CPUUsagePct digest) (dg_MemUsedPct digest) (dg_MemAvailableBytes digest)
    (dg_SwapUsedPct digest) (dg_DiskUsedPct digest) (dg_DiskFreeBytes digest) (dg_DiskInodesUsedPct digest)
    (dg_DiskReadBPS digest) (dg_DiskWriteBPS digest) (dg_DiskReadIOPS digest) (dg_DiskWriteIOPS digest)
    (dg_Load1 digest) (dg_NetRxBPS digest) (dg_NetTxBPS digest) (dg_NetRxPacketsPS digest)
    (dg_NetTxPacketsPS digest).

(** What a report saves over the row it has read, with the version it chooses. *)
Definition digest_row (digest : AgentDigest) (now : Time) (statusRow : hostStatusCurrentModel) (version : Z) : hostStatusCurrentModel :=
  mkStatus (st_HostID statusRow) Up (st_ReachabilityState statusRow) (st_ServiceState statusRow) Up
    (columns_of_digest digest) (Some now) (Some now) (st_LastProbeAt statusRow)
    (st_OpenAlertCount statusRow) version now.

Definition upsertDigestStatus (hostID : Z) (digest : AgentDigest) (now : Time) : M unit :=
  r ← attempt (firstOrNotFound (find_status hostID));
  statusRow ←
    match r with
    | Ok row => mret row
    | Err ErrRecordNotFound =>
        mret (mkStatus hostID Up Unknown Unknown Up zero_metricColumns None None None 0 1 time_zero)
    | Err e => throw e
    end;
  let updated := digest_row digest now statusRow in
  if st_Version statusRow =? 0 then exec (insert_status (updated 1))
  else exec (put_status (updated (int64_incr (st_Version statusRow)))).

Definition RegisterAgent (s : PgStore) (req : RegisterAgentRequest) (now : Time)
    : M (HostSnapshot * AgentConfig * string) :=
  Transaction (
    hostUID ← (if str_empty (hi_HostUID (ra_Host req)) then new_id "host" else mret (hi_HostUID (ra_Host req)));
    '(tenantID, tenantCode) ← resolveTenantForRegister s hostUID (hi_TenantCode (ra_Host req));
    hostID ← upsertHost tenantID hostUID req now;
    replaceLabels hostID (hi_Labels (ra_Host req));;
    cfg ← upsertAgentInstance hostID req now;
    upsertRegisteredStatus hostID now;;
    item ← getHostByUID hostUID "";
    match item with
    | None => throw ErrHostNotFound
    | Some item => mret (item, cfg, tenantCode)
    end).

Definition Heartbeat (s : PgStore) (req : HeartbeatRequest) (now : Time) : M (HostSnapshot * AgentConfig) :=
  Transaction (
    '(hostID, cfg) ← lookupAgentInstance s (hb_HostUID req) (hb_AgentID req);
    updateAgentInstanceState hostID (hb_AgentID req) (hb_Seq req) now;;
    upsertDigestStatus hostID (hb_Digest req) now;;
    item ← getHostByUID (hb_HostUID req) "";
    match item with
    | None => throw ErrHostNotFound
    | Some item => mret (item, cfg)
    end).

Definition set_host_identity (h : HostIdentity) (uid tenant : string) : HostIdentity :=
  mkHostIdentity uid tenant (hi_Hostname h) (hi_PrimaryIP h) (hi_IPs h) (hi_OSType h) (hi_Arch h)
    (hi_Region h) (hi_AZ h) (hi_Env h) (hi_Role h) (hi_Labels h).

Definition set_agent_id (a : AgentMetadata) (id : string) : AgentMetadata :=
  mkAgentMetadata id (am_Version a) (am_Capabilities a) (am_BootTime a).

Definition bootstrapHostForMetric (s : PgStore) (req : PushMetricBatchRequest) (now : Time) : M Z :=
  let hostUID := TrimSpace (hi_HostUID (pm_Host req)) in
  let hostUID := if str_empty hostUID then TrimSpace (pm_HostUID req) else hostUID in
  let agentID := TrimSpace (am_AgentID (pm_Agent req)) in
  let agentID := if str_empty agentID then TrimSpace (pm_AgentID req) else agentID in
  if str_empty hostUID || str_empty agentID then throw ErrHostNotFound else
  '(tenantID, tenantCode) ← resolveTenantForMetric s hostUID (hi_TenantCode (pm_Host req));
  let registerReq := mkRegisterAgentRequest (set_host_identity (pm_Host req) hostUID tenantCode)
                       (set_agent_id (pm_Agent req) agentID) in
  hostID ← upsertHost tenantID hostUID registerReq now;
  replaceLabels hostID (hi_Labels (ra_Host registerReq));;
  upsertAgentInstance hostID registerReq now;;
  upsertRegisteredStatus hostID now;;
  mret hostID.

Definition ReportMetrics (s : PgStore) (req : PushMetricBatchRequest) (digest : AgentDigest) (now : Time)
    : M HostSnapshot :=
  Transaction (
    r ← attempt (lookupAgentInstance s (pm_HostUID req) (pm_AgentID req));
    hostID ←
      match r with
      | Ok (hostID, _) => mret hostID
      | Err ErrHostNotFound => bootstrapHostForMetric s req now
      | Err e => throw e
      end;
    updateAgentInstanceState hostID (pm_AgentID req) (pm_BatchSeq req) now;;
    upsertDigestStatus hostID digest now;;
    item ← getHostByUID (pm_HostUID req) "";
    match item with
    | None => throw ErrHostNotFound
    | Some item => mret item
    end).

(** The rows the offline scan selects. *)
Definition stale_status (now : Time) (r : hostStatusCurrentModel) : bool :=
  match st_LastAgentSeenAt r with
  | None => false
  | Some seen =>
      (seen <? pg_timestamp (time_Add now (- (15 * Second)))) &&
      negb (st_AgentState r =? Offline) && negb (st_OverallState r =? Offline)
  end.

Definition offline_row (version : Z) (now : Time) (r : hostStatusCurrentModel) : hostStatusCurrentModel :=
  mkStatus (st_HostID r) Offline Offline (st_ServiceState r) Offline (st_Metrics r)
    (st_LastAgentSeenAt r) (st_LastMetricAt r) (st_LastProbeAt r) (st_OpenAlertCount r)
    version (pg_timestamp now).

Definition markOffline (now : Time) (current : hostStatusCurrentModel) : M unit :=
  exec (λ d,
    if st_HostID current =? 0 then Err errMissingWhere
    else Ok (set_status
      ((λ r : hostStatusCurrentModel,
          if cond_int (st_HostID current) (st_HostID r)
          then offline_row (int64_incr (st_Version current)) now r else r) <$> db_status d) d)).

(** The loop of the transaction; [hosts] are the preloaded hosts. *)
Fixpoint reconcileLoop (hosts : gmap Z hostModel) (now : Time) (statuses : list hostStatusCurrentModel)
    : M (list HostSnapshot) :=
  match statuses with
  | [] => mret []
  | current :: statuses =>
      markOffline now current;;
      item ← getHostByUID (default ""%string (h_HostUID <$> hosts !! st_HostID current)) "";
      changed ← reconcileLoop hosts now statuses;
      mret (match item with Some item => item :: changed | None => changed end)
  end.

(** The scan, outside any transaction, and the write of what it found. *)
Definition reconcileScan (now : Time) : M (list hostStatusCurrentModel * gmap Z hostModel) :=
  statuses ← query (λ d, order_by st_HostID (select (stale_status now) (rows (db_status d))));
  match statuses with
  | [] => mret ([], ∅)
  | _ :: _ => hosts ← query db_hosts; mret (statuses, hosts)
  end.

Definition reconcileApply (now : Time) (scan : list hostStatusCurrentModel * gmap Z hostModel)
    : M (list HostSnapshot) :=
  match scan.1 with
  | [] => mret []
  | _ :: _ => Transaction (reconcileLoop scan.2 now scan.1)
  end.

Definition ReconcileOffline (s : PgStore) (now : Time) : M (list HostSnapshot) :=
  scan ← reconcileScan now; reconcileApply now scan.

End store.

(** ** Well-formed tables

    What the schema and the code guarantee together: keys are stored in the
    rows, generated keys are positive, tenant codes and host uids are unique and
    not empty, and every row refers to rows that exist. *)

Record host_wf (d : DB) : Prop := {
  wf_tenant : ∀ i t, db_tenants d !! i = Some t → t_ID t = i ∧ 0 < i ∧ t_TenantCode t ≠ ""%string;
  wf_tenant_code : ∀ i j t t', db_tenants d !! i = Some t → db_tenants d !! j = Some t' →
    t_TenantCode t = t_TenantCode t' → i = j;
  wf_host : ∀ i h, db_hosts d !! i = Some h →
    h_ID h = i ∧ 0 < i ∧ h_HostUID h ≠ ""%string ∧ is_Some (db_tenants d !! h_TenantID h);
  wf_host_uid : ∀ i j h h', db_hosts d !! i = Some h → db_hosts d !! j = Some h' →
    h_HostUID h = h_HostUID h' → i = j;
  wf_agent : ∀ i a, db_agents d !! i = Some a →
    ai_ID a = i ∧ 0 < i ∧ is_Some (db_hosts d !! ai_HostID a);
  wf_agent_unique : ∀ i j a a', db_agents d !! i = Some a → db_agents d !! j = Some a' →
    ai_HostID a = ai_HostID a' → ai_AgentID a = ai_AgentID a' → i = j;
  wf_status : ∀ i r, db_status d !! i = Some r → st_HostID r = i ∧ is_Some (db_hosts d !! i);
  wf_labels : ∀ i l, db_labels d !! i = Some l → is_Some (db_hosts d !! i)
}.

Definition seq_wf (s : Seqs) : Prop := ∀ t v, s !! t = Some v → 0 ≤ v.
Definition store_inv (d : DB) (s : Seqs) : Prop := host_wf d ∧ seq_wf s.

Lemma seq_next_pos s t : seq_wf s → 0 < seq_next s t.
Proof.
  intros Hs. unfold seq_next. destruct (s !! t) as [v|] eqn:E; simpl; [apply Hs in E|]; lia.
Qed.

Lemma seq_wf_next s t : seq_wf s → seq_wf (<[t := seq_next s t]> s).
Proof.
  intros Hs t' v [[<- <-]|[_ Hv]]%lookup_insert_Some; [|by eapply Hs].
  pose proof (seq_next_pos s t Hs). lia.
Qed.

Lemma empty_DB_wf : host_wf empty_DB.
Proof. split; simpl; intros; simplify_map_eq. Qed.

Lemma existsb_rows_false {A} (t : gmap Z A) p i x :
  existsb p (rows t) = false → t !! i = Some x → p x = false.
Proof.
  intros Hp Hx. destruct (p x) eqn:E; [|done].
  assert (existsb p (rows t) = true); [|congruence].
  apply existsb_exists. exists x. split; [|done].
  apply list_elem_of_In, elem_of_rows. eauto.
Qed.

Ltac lookup_insert_cases :=
  repeat match goal with
    | Hl : <[_ := _]> _ !! _ = Some _ |- _ =>
        apply lookup_insert_Some in Hl as [[? ?]|[? Hl]]; subst
    end.

Lemma is_Some_insert {A} (t : gmap Z A) i j x : is_Some (t !! i) → is_Some (<[j := x]> t !! i).
Proof. intros Hi. apply lookup_insert_is_Some. destruct (decide (j = i)); auto. Qed.

Section wf_statements.
Context `{PgTypes}.

Lemma put_tenant_inv t d d' :
  put_tenant t d = Ok d' →
  d' = set_tenants (<[t_ID t := t]> (db_tenants d)) d ∧
  ∀ i t', db_tenants d !! i = Some t' → t_TenantCode t' = t_TenantCode t → t_ID t' = t_ID t.
Proof.
  unfold put_tenant. destruct (existsb _ _) eqn:E; [done|]. intros [= <-]. split; [done|].
  intros i t' Ht Hc. eapply existsb_rows_false in E; [|done].
  apply andb_false_iff in E as [E|E]; bool_to_prop; [done|by apply str_eqb_false in E].
Qed.

Lemma put_tenant_wf t d d' :
  host_wf d → 0 < t_ID t → t_TenantCode t ≠ ""%string → put_tenant t d = Ok d' → host_wf d'.
Proof.
  intros [] Hid Hc [-> Hu]%put_tenant_inv. split; simpl; try done.
  - intros i t' Ht. lookup_insert_cases; eauto.
  - intros i j t1 t2 H1 H2 He. lookup_insert_cases; try done; [| |by eauto].
    + destruct (wf_tenant0 _ _ H1) as (<- & _). by eapply Hu.
    + destruct (wf_tenant0 _ _ H2) as (<- & _). symmetry. by eapply Hu.
  - intros i h Hh. destruct (wf_host0 _ _ Hh) as (?&?&?&?). split_and!; try done. by apply is_Some_insert.
Qed.

Lemma put_host_inv h d d' :
  put_host h d = Ok d' →
  d' = set_hosts (<[h_ID h := stored_host h]> (db_hosts d)) d ∧
  is_Some (db_tenants d !! h_TenantID h) ∧
  ∀ i h', db_hosts d !! i = Some h' → h_HostUID h' = h_HostUID h → h_ID h' = h_ID h.
Proof.
  unfold put_host. destruct (negb _) eqn:Et; [done|]. destruct (existsb _ _) eqn:E; [done|].
  intros [= <-]. bool_to_prop. split_and!; [done..|].
  intros i h' Hh Hc. eapply existsb_rows_false in E; [|done].
  apply andb_false_iff in E as [E|E]; bool_to_prop; [done|by apply str_eqb_false in E].
Qed.

Lemma put_host_wf h d d' :
  host_wf d → 0 < h_ID h → h_HostUID h ≠ ""%string → put_host h d = Ok d' → host_wf d'.
Proof.
  intros [] Hid Hc (-> & Ht & Hu)%put_host_inv. split; simpl; try done.
  - intros i h' Hh. lookup_insert_cases; eauto.
  - intros i j h1 h2 H1 H2 He. lookup_insert_cases; try done; [| |by eauto].
    + destruct (wf_host0 _ _ H1) as (<- & _). by eapply Hu.
    + destruct (wf_host0 _ _ H2) as (<- & _). symmetry. by eapply Hu.
  - intros i a Ha. destruct (wf_agent0 _ _ Ha) as (?&?&?). split_and!; try done. by apply is_Some_insert.
  - intros i r Hr. destruct (wf_status0 _ _ Hr). split; [done|]. by apply is_Some_insert.
  - intros i l Hl. apply is_Some_insert. eauto.
Qed.

Lemma put_agent_inv a d d' :
  put_agent a d = Ok d' →
  d' = set_agents (<[ai_ID a := stored_agent a]> (db_agents d)) d ∧
  is_Some (db_hosts d !! ai_HostID a) ∧
  ∀ i a', db_agents d !! i = Some a' → ai_HostID a' = ai_HostID a → ai_AgentID a' = ai_AgentID a → ai_ID a' = ai_ID a.
Proof.
  unfold put_agent. destruct (negb _) eqn:Et; [done|]. destruct (existsb _ _) eqn:E; [done|].
  intros [= <-]. bool_to_prop. split_and!; [done..|].
  intros i a' Ha Hc Hc'. eapply existsb_rows_false in E; [|done].
  rewrite Hc, Hc', Z.eqb_refl in E. unfold str_eqb in E. rewrite bool_decide_eq_true_2 in E by done.
  rewrite !andb_true_r in E. by bool_to_prop.
Qed.

Lemma put_agent_wf a d d' :
  host_wf d → 0 < ai_ID a → put_agent a d = Ok d' → host_wf d'.
Proof.
  intros [] Hid (-> & Ht & Hu)%put_agent_inv. split; simpl; try done.
  - intros i a' Ha. lookup_insert_cases; eauto.
  - intros i j a1 a2 H1 H2 He He'. lookup_insert_cases; try done; [| |by eauto].
    + destruct (wf_agent0 _ _ H1) as (<- & _). by eapply Hu.
    + destruct (wf_agent0 _ _ H2) as (<- & _). symmetry. by eapply Hu.
Qed.

Lemma put_status_inv r d d' :
  put_status r d = Ok d' →
  d' = set_status (<[st_HostID r := stored_status r]> (db_status d)) d ∧ is_Some (db_hosts d !! st_HostID r).
Proof.
  unfold put_status. destruct (negb _) eqn:Et; [done|]. intros [= <-]. by bool_to_prop.
Qed.

Lemma put_status_wf r d d' : host_wf d → put_status r d = Ok d' → host_wf d'.
Proof.
  intros [] (-> & Hh)%put_status_inv. split; simpl; try done.
  intros i r' Hr. lookup_insert_cases; eauto.
Qed.

Lemma insert_tenant_put t d d' :
  insert_tenant t d = Ok d' → db_tenants d !! t_ID t = None ∧ put_tenant t d = Ok d'.
Proof. unfold insert_tenant. case_bool_decide as E; [done|]. by rewrite <-eq_None_not_Some in E. Qed.
Lemma insert_host_put h d d' :
  insert_host h d = Ok d' → db_hosts d !! h_ID h = None ∧ put_host h d = Ok d'.
Proof. unfold insert_host. case_bool_decide as E; [done|]. by rewrite <-eq_None_not_Some in E. Qed.
Lemma insert_agent_put a d d' :
  insert_agent a d = Ok d' → db_agents d !! ai_ID a = None ∧ put_agent a d = Ok d'.
Proof. unfold insert_agent. case_bool_decide as E; [done|]. by rewrite <-eq_None_not_Some in E. Qed.
Lemma insert_status_put r d d' :
  insert_status r d = Ok d' → db_status d !! st_HostID r = None ∧ put_status r d = Ok d'.
Proof. unfold insert_status. case_bool_decide as E; [done|]. by rewrite <-eq_None_not_Some in E. Qed.

Lemma delete_labels_inv hid d d' :
  delete_labels hid d = Ok d' → d' = set_labels (delete hid (db_labels d)) d.
Proof. unfold delete_labels. destruct (_ =? _); [done|]. by intros [= <-]. Qed.

Lemma delete_labels_wf hid d d' : host_wf d → delete_labels hid d = Ok d' → host_wf d'.
Proof.
  intros [] ->%delete_labels_inv. split; simpl; try done.
  intros i l [? ?]%lookup_delete_Some. eauto.
Qed.

Lemma insert_labels_inv hid l d d' :
  insert_labels hid l d = Ok d' →
  d' = set_labels (<[hid := l ∪ default ∅ (db_labels d !! hid)]> (db_labels d)) d ∧ is_Some (db_hosts d !! hid).
Proof.
  unfold insert_labels. destruct (negb _) eqn:E; [done|]. intros Hd. cbv zeta in Hd.
  destruct (bool_decide _) in Hd; [|done]. injection Hd as <-. by bool_to_prop.
Qed.

Lemma insert_labels_wf hid l d d' : host_wf d → insert_labels hid l d = Ok d' → host_wf d'.
Proof.
  intros [] (-> & Hh)%insert_labels_inv. split; simpl; try done.
  intros i l' Hl. lookup_insert_cases; eauto.
Qed.

End wf_statements.
