(* ===== verification/HostStoreProps.v ===== *)
(** * Properties of the PostgreSQL host store

    The invariant of the tables under every operation and every failure, then
    what registration, heartbeats, metric reports, listings and the offline
    scan do to the tables and return. *)

From stdpp Require Import gmap strings list sorting pretty.
From S2P Require Import Prelude GoRuntime GoStrings Contracts Sql HostStore.
Local Open Scope Z_scope.

(** ** Every operation keeps the tables well formed *)

Section keeps_inv.
Context `{Env} `{PgTypes}.

Lemma store_inv_seq d s t : store_inv d s → store_inv d (<[t := seq_next s t]> s).
Proof. intros [? ?]. split; [done|by apply seq_wf_next]. Qed.

Lemma store_inv_rollback d s d' s' : store_inv d s → store_inv d' s' → store_inv d s'.
Proof. by intros [? _] [_ ?]. Qed.

Lemma keeps_ensureTenant code name :
  code ≠ ""%string → keeps store_inv (ensureTenant code name).
Proof.
  intros Hc d s [Hd Hs]. apply WP_bind, WP_query; [done|].
  destruct (first_by _ _ _) as [t|] eqn:E.
  - apply first_by_Some in E as [[i Hi]%elem_of_rows _].
    destruct (wf_tenant _ Hd _ _ Hi) as (<- & ? & ?).
    assert (keeps store_inv (autocommit (exec (put_tenant (mkTenant (t_ID t) (t_TenantCode t) (if str_empty name then t_Name t else name) 1)))) ) as Hk.
    { apply keeps_autocommit; [apply store_inv_rollback|]. apply keeps_exec. intros d1 s1 d' [Hd1 Hs1] Hp. split; [|done]. by eapply put_tenant_wf in Hp. }
    apply keeps_bind; [exact Hk|intros; apply keeps_ret|done].
  - apply WP_bind. eapply WP_mono.
    { apply keeps_autocommit; [apply store_inv_rollback| |done]. apply (keeps_insert_serial store_inv _ _ (λ d s, store_inv_seq d s _)).
      intros d1 s1 d' [Hd1 Hs1] [_ Hp]%insert_tenant_put.
      split; [|by apply seq_wf_next]. eapply put_tenant_wf in Hp; try done. by apply seq_next_pos. }
    intros [id|e] d' s' HI; [by apply WP_ret|done].
Qed.

Lemma keeps_NewStore cfg : keeps store_inv (NewStore cfg).
Proof.
  unfold NewStore. apply keeps_bind; [|intros; apply keeps_ret].
  apply keeps_ensureTenant. destruct (str_empty (cfg_TenantCode cfg)) eqn:E; [done|].
  by apply str_empty_false.
Qed.

Lemma keeps_AllocateTenant st : keeps store_inv (AllocateTenant st).
Proof.
  intros d s HI. apply WP_bind, WP_new_id. intros nano buf.
  apply WP_bind. eapply WP_mono.
  { apply keeps_ensureTenant; [apply ids_New_nonempty|done]. }
  intros [t|e] d' s' HI'; [by apply WP_ret|done].
Qed.

Lemma keeps_listHosts uid code : keeps store_inv (listHosts uid code).
Proof. unfold listHosts. repeat keeps_step. Qed.
Lemma keeps_getHostByUID uid code : keeps store_inv (getHostByUID uid code).
Proof. unfold getHostByUID. apply keeps_bind; [apply keeps_listHosts|]. repeat keeps_step. Qed.
Lemma keeps_findHostByUID st uid b : keeps store_inv (findHostByUID st uid b).
Proof. unfold findHostByUID. repeat keeps_step. Qed.
Lemma keeps_findAgentConfig hid aid : keeps store_inv (findAgentConfig hid aid).
Proof. unfold findAgentConfig. repeat keeps_step. Qed.
Lemma keeps_lookupTenantCode uid : keeps store_inv (lookupTenantCodeByHostUID uid).
Proof. unfold lookupTenantCodeByHostUID. repeat keeps_step. Qed.

#[local] Hint Resolve keeps_listHosts keeps_getHostByUID keeps_findHostByUID keeps_findAgentConfig
  keeps_lookupTenantCode keeps_ret keeps_throw : keeps.

Lemma keeps_lookupAgentInstance st uid aid : keeps store_inv (lookupAgentInstance st uid aid).
Proof. unfold lookupAgentInstance. repeat first [by auto with keeps nocore|keeps_step]. Qed.

Lemma keeps_resolveTenantForMetric st uid code : keeps store_inv (resolveTenantForMetric st uid code).
Proof. unfold resolveTenantForMetric. repeat first [by auto with keeps nocore|keeps_step]. Qed.

Lemma keeps_resolveTenantForRegister st uid code : keeps store_inv (resolveTenantForRegister st uid code).
Proof.
  unfold resolveTenantForRegister. apply keeps_bind; [auto with keeps|]. intros existing. cbv zeta.
  set (c := if negb (str_empty existing) then _ else _). clearbody c.
  destruct (str_empty c) eqn:E.
  - intros d s HI. apply WP_bind, WP_new_id. intros nano buf. revert d s HI.
    apply keeps_bind; [|keeps]. apply keeps_ensureTenant, ids_New_nonempty.
  - apply str_empty_false in E. intros d s HI. apply WP_bind, WP_ret. revert d s HI.
    apply keeps_bind; [|keeps]. by apply keeps_ensureTenant.
Qed.

Lemma keeps_upsertHost tid uid req now :
  uid ≠ ""%string → keeps store_inv (upsertHost tid uid req now).
Proof.
  intros Hu d s [Hd Hs]. apply WP_bind, WP_attempt, WP_firstOrNotFound.
  { intros e [code ->]. by apply WP_throw. }
  destruct (first_by _ _ _) as [h|] eqn:E.
  - apply first_by_Some in E as [[i Hi]%elem_of_rows _].
    destruct (wf_host _ Hd _ _ Hi) as (<- & ? & ? & ?).
    apply WP_bind, WP_exec; [done|]. destruct (put_host _ d) eqn:Ep; [|done]. apply WP_ret.
    split; [|done]. by eapply put_host_wf in Ep.
  - apply (keeps_insert_serial store_inv _ _ (λ d s, store_inv_seq d s _)); [|done].
    intros d1 s1 d' [Hd1 Hs1] [_ Hp]%insert_host_put.
    split; [|by apply seq_wf_next]. eapply put_host_wf in Hp; try done. by apply seq_next_pos.
Qed.

Lemma keeps_replaceLabels hid l : keeps store_inv (replaceLabels hid l).
Proof.
  unfold replaceLabels. apply keeps_bind.
  - apply keeps_exec. intros d s d' [? ?] Hd. split; [by eapply delete_labels_wf|done].
  - intros _. case_bool_decide; [apply keeps_ret|].
    apply keeps_exec. intros d s d' [? ?] Hd. split; [by eapply insert_labels_wf|done].
Qed.

Lemma keeps_upsertAgentInstance hid req now : keeps store_inv (upsertAgentInstance hid req now).
Proof.
  intros d s [Hd Hs]. apply WP_bind, WP_attempt, WP_firstOrNotFound.
  { intros e [code ->]. by apply WP_throw. }
  destruct (first_by _ _ _) as [a|] eqn:E.
  - apply first_by_Some in E as [[i Hi]%elem_of_rows _].
    destruct (wf_agent _ Hd _ _ Hi) as (<- & ? & ?).
    apply WP_bind, WP_exec; [done|]. destruct (put_agent _ d) eqn:Ep; [|done]. apply WP_ret.
    split; [|done]. by eapply put_agent_wf in Ep.
  - apply WP_bind. eapply WP_mono.
    { apply (keeps_insert_serial store_inv _ _ (λ d s, store_inv_seq d s _)); [|done].
      intros d1 s1 d' [Hd1 Hs1] [_ Hp]%insert_agent_put.
      split; [|by apply seq_wf_next]. eapply put_agent_wf in Hp; try done. by apply seq_next_pos. }
    intros [id|e] d' s' HI; [by apply WP_ret|done].
Qed.

Lemma keeps_put_status r : keeps store_inv (exec (put_status r)).
Proof. apply keeps_exec. intros d s d' [? ?] ?. split; [by eapply put_status_wf|done]. Qed.

Lemma keeps_insert_status r : keeps store_inv (exec (insert_status r)).
Proof.
  apply keeps_exec. intros d s d' [? ?] [_ ?]%insert_status_put. split; [by eapply put_status_wf|done].
Qed.

#[local] Hint Resolve keeps_put_status keeps_insert_status keeps_replaceLabels keeps_upsertAgentInstance
  keeps_lookupAgentInstance keeps_resolveTenantForMetric keeps_resolveTenantForRegister : keeps.

Lemma keeps_upsertRegisteredStatus hid now : keeps store_inv (upsertRegisteredStatus hid now).
Proof. unfold upsertRegisteredStatus. repeat first [by auto with keeps nocore|keeps_step]. Qed.

Lemma keeps_upsertDigestStatus hid dg now : keeps store_inv (upsertDigestStatus hid dg now).
Proof. unfold upsertDigestStatus. repeat first [by auto with keeps nocore|keeps_step]. Qed.

Lemma keeps_updateAgentInstanceState hid aid seq now :
  keeps store_inv (updateAgentInstanceState hid aid seq now).
Proof.
  apply keeps_exec. intros d s d' [Hd ?] Hf. destruct (_ && _); [done|]. injection Hf as <-.
  split; [|done]. split; simpl; try apply Hd.
  - intros i a (a' & <- & Ha)%lookup_fmap_Some. destruct (wf_agent _ Hd _ _ Ha) as (?&?&?).
    by destruct (agent_selected _ _ a').
  - intros i j a1 a2 (a1' & <- & Ha1)%lookup_fmap_Some (a2' & <- & Ha2)%lookup_fmap_Some He He'.
    eapply (wf_agent_unique _ Hd); [done..| |]; destruct (agent_selected _ _ a1'), (agent_selected _ _ a2'); done.
Qed.

#[local] Hint Resolve keeps_upsertRegisteredStatus keeps_upsertDigestStatus keeps_updateAgentInstanceState : keeps.

Lemma keeps_RegisterAgent st req now : keeps store_inv (RegisterAgent st req now).
Proof.
  unfold RegisterAgent. apply keeps_Transaction; [apply store_inv_rollback|].
  assert (∀ hostUID, hostUID ≠ ""%string → keeps store_inv (
    '(tenantID, tenantCode) ← resolveTenantForRegister st hostUID (hi_TenantCode (ra_Host req));
    hostID ← upsertHost tenantID hostUID req now;
    replaceLabels hostID (hi_Labels (ra_Host req));;
    cfg ← upsertAgentInstance hostID req now;
    upsertRegisteredStatus hostID now;;
    item ← getHostByUID hostUID "";
    match item with
    | None => throw ErrHostNotFound
    | Some item => mret (item, cfg, tenantCode)
    end)) as Hk.
  { intros uid Hu. pose proof (λ tid req now, keeps_upsertHost tid uid req now Hu).
    repeat first [by auto with keeps nocore|keeps_step]. }
  destruct (str_empty _) eqn:E; intros d s HI.
  - apply WP_bind, WP_new_id. intros nano buf. revert d s HI. apply Hk, ids_New_nonempty.
  - apply str_empty_false in E. apply WP_bind, WP_ret. revert d s HI. by apply Hk.
Qed.

Lemma keeps_Heartbeat st req now : keeps store_inv (Heartbeat st req now).
Proof.
  unfold Heartbeat. apply keeps_Transaction; [apply store_inv_rollback|].
  repeat first [by auto with keeps nocore|keeps_step].
Qed.

Lemma keeps_bootstrapHostForMetric st req now : keeps store_inv (bootstrapHostForMetric st req now).
Proof.
  unfold bootstrapHostForMetric. cbv zeta.
  set (uid := if str_empty (TrimSpace (hi_HostUID _)) then _ else _). clearbody uid.
  destruct (_ || _) eqn:E; [apply keeps_throw|].
  apply orb_false_iff in E as [E _]. apply str_empty_false in E.
  pose proof (λ tid req now, keeps_upsertHost tid uid req now E).
  repeat first [by auto with keeps nocore|keeps_step].
Qed.

#[local] Hint Resolve keeps_bootstrapHostForMetric : keeps.

Lemma keeps_ReportMetrics st req dg now : keeps store_inv (ReportMetrics st req dg now).
Proof.
  unfold ReportMetrics. apply keeps_Transaction; [apply store_inv_rollback|].
  repeat first [by auto with keeps nocore|keeps_step].
Qed.

Lemma keeps_markOffline now cur : keeps store_inv (markOffline now cur).
Proof.
  apply keeps_exec. intros d s d' [Hd ?] Hf. destruct (_ =? _); [done|]. injection Hf as <-.
  split; [|done]. split; simpl; try apply Hd.
  intros i r (r' & <- & Hr)%lookup_fmap_Some. destruct (wf_status _ Hd _ _ Hr).
  by destruct (cond_int _ _).
Qed.

#[local] Hint Resolve keeps_markOffline : keeps.

Lemma keeps_reconcileLoop hosts now l : keeps store_inv (reconcileLoop hosts now l).
Proof.
  induction l as [|cur l IH]; simpl; repeat first [by auto with keeps nocore|keeps_step].
Qed.

Lemma keeps_ReconcileOffline st now : keeps store_inv (ReconcileOffline st now).
Proof.
  unfold ReconcileOffline, reconcileScan, reconcileApply. repeat keeps_step.
  apply keeps_Transaction; [apply store_inv_rollback|apply keeps_reconcileLoop].
Qed.

End keeps_inv.

(** ** Reading the tables *)

(** The snapshot of a host, as one state of the tables has it. *)
Definition snapshot_of (d : DB) (h : hostModel) : HostSnapshot :=
  hostSnapshotFromModel h (default zero_tenantModel (db_tenants d !! h_TenantID h))
    (db_status d !! h_ID h) (default ∅ (db_labels d !! h_ID h)).

Definition host_at (d : DB) (uid : string) : option hostModel :=
  first_by h_ID (λ h, cond_str uid (h_HostUID h)) (rows (db_hosts d)).

Section reads.
Context `{Env} `{PgTypes}.

Definition listing (d : DB) (uid code : string) : list HostSnapshot :=
  snapshot_of d <$> sort_by (λ h, pg_collate (h_HostUID h)) (select (host_selected d uid code) (rows (db_hosts d))).

Lemma WP_listHosts uid code (Q : res (list HostSnapshot) → DB → Seqs → Prop) d s :
  (∀ e, driver_error e → Q (Err e) d s) → Q (Ok (listing d uid code)) d s →
  WP (listHosts uid code) Q d s.
Proof.
  intros He HQ. apply WP_bind, WP_query; [done|]. unfold listing in HQ.
  destruct (sort_by _ _) as [|h hosts]; [by apply WP_ret|].
  repeat (apply WP_bind, WP_query; [done|]). by apply WP_ret.
Qed.

Lemma WP_getHostByUID uid code (Q : res (option HostSnapshot) → DB → Seqs → Prop) d s :
  (∀ e, driver_error e → Q (Err e) d s) → Q (Ok (head (listing d uid code))) d s →
  WP (getHostByUID uid code) Q d s.
Proof.
  intros He HQ. apply WP_bind, WP_listHosts; [done|]. by apply WP_ret.
Qed.

Lemma host_selected_spec d uid code h :
  host_wf d → (∃ i, db_hosts d !! i = Some h) →
  host_selected d uid code h = true ↔
  (uid = ""%string ∨ h_HostUID h = uid) ∧
  (code = ""%string ∨ ∃ t, db_tenants d !! h_TenantID h = Some t ∧ t_TenantCode t = code).
Proof.
  intros Hd [i Hi]. unfold host_selected, cond_str.
  rewrite andb_true_iff, !orb_true_iff, !str_empty_true, str_eqb_true.
  enough (existsb (λ t, str_eqb (t_TenantCode t) code && (t_ID t =? h_TenantID h)) (rows (db_tenants d)) = true
    ↔ ∃ t, db_tenants d !! h_TenantID h = Some t ∧ t_TenantCode t = code) as -> by done.
  rewrite existsb_exists. split.
  - intros (t & Ht & Hc). apply list_elem_of_In, elem_of_rows in Ht as [j Hj]. bool_to_prop.
    apply str_eqb_true in H1. destruct (wf_tenant _ Hd _ _ Hj) as (? & _). exists t. split; [|done].
    congruence.
  - intros (t & Ht & Hc). exists t. split; [apply list_elem_of_In, elem_of_rows; eauto|].
    destruct (wf_tenant _ Hd _ _ Ht) as (? & _).
    rewrite andb_true_iff, str_eqb_true, Z.eqb_eq. done.
Qed.

Lemma elem_of_listing d uid code x :
  host_wf d →
  x ∈ listing d uid code ↔
  ∃ i h, db_hosts d !! i = Some h ∧ x = snapshot_of d h ∧
    (uid = ""%string ∨ h_HostUID h = uid) ∧
    (code = ""%string ∨ ∃ t, db_tenants d !! h_TenantID h = Some t ∧ t_TenantCode t = code).
Proof.
  intros Hd. unfold listing. rewrite list_elem_of_fmap. split.
  - intros (h & -> & Hin). rewrite elem_of_sort_by, elem_of_select, elem_of_rows in Hin.
    destruct Hin as [Hs [i Hi]]. exists i, h. apply host_selected_spec in Hs; [|done|by eauto]. tauto.
  - intros (i & h & Hi & -> & Hu & Hc). exists h. split; [done|].
    rewrite elem_of_sort_by, elem_of_select, elem_of_rows. split; [|by eauto].
    apply host_selected_spec; [done|by eauto|done].
Qed.

Lemma snapshot_of_uid d h : hs_HostUID (snapshot_of d h) = h_HostUID h.
Proof. unfold snapshot_of. by destruct (db_status d !! h_ID h). Qed.

Lemma snapshot_of_tenant d h t :
  db_tenants d !! h_TenantID h = Some t → hs_TenantCode (snapshot_of d h) = t_TenantCode t.
Proof. intros Ht. unfold snapshot_of. rewrite Ht. by destruct (db_status d !! h_ID h). Qed.

Lemma hosts_unique d i j h h' :
  host_wf d → db_hosts d !! i = Some h → db_hosts d !! j = Some h' → h_HostUID h = h_HostUID h' → h = h'.
Proof. intros Hd Hi Hj Hu. pose proof (wf_host_uid _ Hd _ _ _ _ Hi Hj Hu) as <-. congruence. Qed.

(** Looking a host up by its uid finds the row with that uid. *)
Lemma host_at_Some d uid h :
  host_wf d → uid ≠ ""%string →
  host_at d uid = Some h ↔ db_hosts d !! h_ID h = Some h ∧ h_HostUID h = uid.
Proof.
  intros Hd Hu. unfold host_at. split.
  - intros [[i Hi]%elem_of_rows Hc]%first_by_Some. rewrite cond_str_ne in Hc by done.
    apply str_eqb_true in Hc. destruct (wf_host _ Hd _ _ Hi) as (-> & _). done.
  - intros [Hi Hc]. apply first_by_unique.
    + apply elem_of_rows. eauto.
    + rewrite cond_str_ne by done. by apply str_eqb_true.
    + intros y [j Hj]%elem_of_rows Hy. rewrite cond_str_ne in Hy by done. apply str_eqb_true in Hy.
      eapply hosts_unique; [done..|]. congruence.
Qed.

Lemma host_at_None d uid i h :
  uid ≠ ""%string → host_at d uid = None → db_hosts d !! i = Some h → h_HostUID h ≠ uid.
Proof.
  intros Hu Hn Hi. unfold host_at in Hn. rewrite first_by_None in Hn.
  specialize (Hn h). rewrite cond_str_ne in Hn by done. apply str_eqb_false, Hn, elem_of_rows. eauto.
Qed.

Lemma listing_uid d i h :
  host_wf d → db_hosts d !! i = Some h → head (listing d (h_HostUID h) "") = Some (snapshot_of d h).
Proof.
  intros Hd Hi. destruct (wf_host _ Hd _ _ Hi) as (_ & _ & Hu & _).
  assert (snapshot_of d h ∈ listing d (h_HostUID h) "") as Hin.
  { apply elem_of_listing; [done|]. exists i, h. auto. }
  destruct (head (listing d (h_HostUID h) "")) as [x|] eqn:E.
  - apply head_Some_elem_of in E. apply elem_of_listing in E as (j & h' & Hj & -> & [?|He] & _); [done| |done].
    f_equal. f_equal. by eapply hosts_unique.
  - apply head_None in E. rewrite E in Hin. set_solver.
Qed.

End reads.

(** ** The helpers of a registration *)

Section helpers.
Context `{Env} `{PgTypes}.
Implicit Types (d : DB) (s : Seqs).

Lemma ensureTenant_ok code name d s :
  host_wf d → code ≠ ""%string →
  WP (ensureTenant code name) (on_ok (λ t d' _,
    ∃ ts, d' = set_tenants ts d ∧ ts !! t_ID t = Some t ∧ t_TenantCode t = code ∧ t_Status t = 1 ∧
      (∀ j, j ≠ t_ID t → ts !! j = db_tenants d !! j) ∧
      (∀ j t0, db_tenants d !! j = Some t0 → t_TenantCode t0 = code → j = t_ID t) ∧
      (∀ t0, db_tenants d !! t_ID t = Some t0 → t_TenantCode t0 = code))) d s.
Proof.
  intros Hd Hc. apply WP_bind, WP_query; [done|].
  destruct (first_by _ _ _) as [t|] eqn:E.
  - apply first_by_Some in E as [[i Hi]%elem_of_rows Hcode].
    rewrite cond_str_ne in Hcode by done. apply str_eqb_true in Hcode.
    destruct (wf_tenant _ Hd _ _ Hi) as (<- & ? & ?).
    apply WP_bind, WP_autocommit_ok, WP_exec; [done..|]. destruct (put_tenant _ d) eqn:Ep; [|done]. apply WP_ret.
    apply put_tenant_inv in Ep as [-> _]. eexists. split; [done|]. simpl.
    rewrite lookup_insert, decide_True by done. split_and!; try done.
    + intros j Hj. by rewrite lookup_insert_ne.
    + intros j t0 Ht0 Hc0. eapply (wf_tenant_code _ Hd); [done..|]. congruence.
    + intros t0 Ht0. congruence.
  - apply WP_bind, WP_autocommit_ok, WP_insert_serial; [done..|].
    destruct (insert_tenant _ d) eqn:Ep; [|done]. apply WP_ret.
    apply insert_tenant_put in Ep as [Hn [-> _]%put_tenant_inv].
    eexists. split; [done|]. simpl in *.
    rewrite lookup_insert, decide_True by done. split_and!; try done.
    + intros j Hj. by rewrite lookup_insert_ne.
    + intros j t0 Ht0 Hc0. rewrite first_by_None in E. specialize (E t0).
      rewrite cond_str_ne, str_eqb_false in E by done. destruct E; [|done]. apply elem_of_rows. eauto.
    + intros t0 Ht0. congruence.
Qed.

(** The code of the tenant a host belongs to, empty when the host is unknown. *)
Definition tenant_of_host d (uid : string) : string :=
  match host_at d uid with
  | Some h => t_TenantCode (default zero_tenantModel (db_tenants d !! h_TenantID h))
  | None => ""%string
  end.

Lemma lookupTenantCode_ok uid d s :
  WP (lookupTenantCodeByHostUID uid) (on_ok (λ c d' s', c = tenant_of_host d uid ∧ d' = d ∧ s' = s)) d s.
Proof.
  apply WP_bind, WP_attempt, WP_firstOrNotFound.
  { intros e [code ->]. by apply WP_throw. }
  unfold tenant_of_host, host_at. destruct (first_by _ _ _) as [h|].
  - apply WP_bind, WP_query; [done|]. by apply WP_ret.
  - by apply WP_ret.
Qed.

Lemma tenant_of_host_Some d uid h :
  host_wf d → host_at d uid = Some h →
  ∃ t, db_tenants d !! h_TenantID h = Some t ∧ t_TenantCode t ≠ ""%string ∧ tenant_of_host d uid = t_TenantCode t.
Proof.
  intros Hd Hh. unfold tenant_of_host. rewrite Hh.
  apply first_by_Some in Hh as [[i Hi]%elem_of_rows _].
  destruct (wf_host _ Hd _ _ Hi) as (_ & _ & _ & [t Ht]).
  destruct (wf_tenant _ Hd _ _ Ht) as (_ & _ & Hc). exists t. by rewrite Ht.
Qed.

(** The tenant code a registration uses, [fresh] being the generated one. *)
Definition register_code (st : PgStore) d (uid code fresh : string) : string :=
  let c := if negb (str_empty (tenant_of_host d uid)) then tenant_of_host d uid
           else if negb (ps_allowCustomTenantCode st) then ""%string else code in
  if str_empty c then fresh else c.

Lemma resolveTenantForRegister_ok st uid code d s :
  host_wf d →
  WP (resolveTenantForRegister st uid code) (on_ok (λ '(tid, c) d' _,
    ∃ ts t nano buf, d' = set_tenants ts d ∧ ts !! tid = Some t ∧ t_TenantCode t = c ∧
      c = register_code st d uid code (ids_New nano buf "tenant") ∧
      (∀ j, j ≠ tid → ts !! j = db_tenants d !! j) ∧
      (∀ t0, db_tenants d !! tid = Some t0 → t_TenantCode t0 = c) ∧
      (∀ j t0, db_tenants d !! j = Some t0 → t_TenantCode t0 = c → j = tid))) d s.
Proof.
  intros Hd. eapply WP_bind_ok; [apply lookupTenantCode_ok|].
  intros existing d' s' (-> & -> & ->). cbv zeta. unfold register_code.
  set (c := if negb _ then _ else _).
  apply (WP_bind_ok _ _ (λ a d1 _, d1 = d ∧ a ≠ ""%string ∧ ∃ nano buf, a = if str_empty c then ids_New nano buf "tenant" else c)).
  { destruct (str_empty c) eqn:E.
    - apply WP_new_id. intros nano buf. split_and!; [done|apply ids_New_nonempty|by eauto].
    - apply WP_ret. split_and!; [done|by apply str_empty_false|]. by exists 0, None. }
  intros a d1 s1 (-> & Ha & nano & buf & Hcode).
  eapply WP_bind_ok; [by apply ensureTenant_ok|]. intros t d2 s2 (ts & -> & Ht & Hc & _ & Hj & Hcode' & Hold).
  apply WP_ret. exists ts, t, nano, buf. split_and!; try done.
Qed.

Lemma upsertHost_ok tid uid req now d s :
  host_wf d → uid ≠ ""%string →
  WP (upsertHost tid uid req now) (on_ok (λ hid d' _,
    ∃ h, d' = set_hosts (<[hid := h]> (db_hosts d)) d ∧ h_ID h = hid ∧ h_HostUID h = uid ∧ h_TenantID h = tid ∧
      h_Hostname h = hi_Hostname (ra_Host req) ∧ h_PrimaryIP h = pg_inet (hi_PrimaryIP (ra_Host req)) ∧
      match host_at d uid with
      | Some h0 => hid = h_ID h0
      | None => db_hosts d !! hid = None
      end)) d s.
Proof.
  intros Hd Hu. apply WP_bind, WP_attempt, WP_firstOrNotFound.
  { intros e [code ->]. by apply WP_throw. }
  destruct (host_at d uid) as [h0|] eqn:E; unfold host_at in E; rewrite E.
  - apply WP_bind, WP_exec; [done|]. destruct (put_host _ d) eqn:Ep; [|done]. apply WP_ret.
    apply put_host_inv in Ep as (-> & _). apply host_at_Some in E as [_ <-]; [|done..].
    eexists. split; [done|]. done.
  - apply WP_insert_serial; [done|].
    destruct (insert_host _ d) eqn:Ep; [|done].
    apply insert_host_put in Ep as [Hn (-> & _)%put_host_inv].
    eexists. split; [done|]. done.
Qed.

Lemma replaceLabels_ok hid l d s :
  WP (replaceLabels hid l) (on_ok (λ _ d' _,
    ∃ ls, d' = set_labels ls d ∧ default ∅ (ls !! hid) = l ∧
      ∀ j, j ≠ hid → ls !! j = db_labels d !! j)) d s.
Proof.
  apply WP_bind, WP_exec; [done|]. destruct (delete_labels hid d) eqn:E; [|done].
  apply delete_labels_inv in E as ->. case_bool_decide as El.
  - apply WP_ret. eexists. split; [done|]. rewrite lookup_delete, decide_True by done. split; [done|].
    intros j Hj. by rewrite lookup_delete_ne.
  - apply WP_exec; [done|]. destruct (insert_labels _ _ _) eqn:E; [|done].
    apply insert_labels_inv in E as [-> _]. eexists. split; [done|].
    simpl. rewrite lookup_delete, decide_True by done. rewrite lookup_insert, decide_True by done. simpl.
    split; [by rewrite (right_id_L ∅ (∪))|]. intros j Hj. by rewrite lookup_insert_ne, lookup_delete_ne.
Qed.

Definition default_config (l : labels) : AgentConfig :=
  mkAgentConfig defaultConfigVersion defaultHeartbeatIntervalSec defaultMetricIntervalSec l.

(** The agent row of a registration: the agent's row of before, if it had one,
    keeps its key and its last sequence number. *)
Record agent_stored (hid : Z) (req : RegisterAgentRequest) (now : Time) d (i : Z) (a : agentInstanceModel) : Prop := {
  ags_id : ai_ID a = i;
  ags_host : ai_HostID a = hid;
  ags_agent : am_AgentID (ra_Agent req) ≠ ""%string → ai_AgentID a = am_AgentID (ra_Agent req);
  ags_version : ai_Version a = am_Version (ra_Agent req);
  ags_state : ai_State a = Up;
  ags_config : (ai_ConfigVersion a, ai_HeartbeatIntervalSec a, ai_MetricIntervalSec a) =
    (defaultConfigVersion, defaultHeartbeatIntervalSec, defaultMetricIntervalSec);
  ags_seen : ai_LastSeenAt a = Some (pg_timestamp now);
  ags_capabilities : ai_Capabilities a = am_Capabilities (ra_Agent req);
  ags_old : match db_agents d !! i with
    | Some a0 => ai_HostID a0 = hid ∧ ai_AgentID a0 = ai_AgentID a ∧ ai_LastSeq a = ai_LastSeq a0
    | None => ai_LastSeq a = 0 ∧
        (am_AgentID (ra_Agent req) ≠ ""%string → ∀ j a0, db_agents d !! j = Some a0 → ai_HostID a0 = hid → ai_AgentID a0 ≠ ai_AgentID a)
    end
}.

Lemma agent_stored_ext hid req now d d' i a : db_agents d = db_agents d' → agent_stored hid req now d i a → agent_stored hid req now d' i a.
Proof. intros E []. split; by rewrite <-?E. Qed.

Lemma upsertAgentInstance_ok hid req now d s :
  host_wf d → hid ≠ 0 →
  WP (upsertAgentInstance hid req now) (on_ok (λ cfg d' _,
    cfg = default_config (hi_Labels (ra_Host req)) ∧
    ∃ i a, d' = set_agents (<[i := a]> (db_agents d)) d ∧ agent_stored hid req now d i a)) d s.
Proof.
  intros Hd Hn. apply WP_bind, WP_attempt, WP_firstOrNotFound.
  { intros e [code ->]. by apply WP_throw. }
  destruct (first_by _ _ _) as [a|] eqn:E.
  - apply first_by_Some in E as [[i Hi]%elem_of_rows Hsel].
    unfold agent_selected in Hsel. rewrite cond_int_ne in Hsel by done. bool_to_prop.
    apply WP_bind, WP_exec; [done|]. destruct (put_agent _ d) eqn:Ep; [|done]. apply WP_ret.
    apply put_agent_inv in Ep as (-> & _). split; [done|]. eexists _, _. split; [done|].
    destruct (wf_agent _ Hd _ _ Hi) as (<- & _). split; simpl; try done; [|by rewrite Hi].
    intros Ha. rewrite cond_str_ne in H2 by done. by apply str_eqb_true in H2.
  - apply WP_bind, WP_insert_serial; [done|].
    destruct (insert_agent _ d) eqn:Ep; [|done]. apply WP_ret.
    apply insert_agent_put in Ep as [Hn' (-> & _)%put_agent_inv]. split; [done|].
    eexists _, _. split; [done|]. simpl in *. split; simpl; try done. rewrite Hn'. split; [done|]. intros Ha j a0 Hj Hh Haid.
    rewrite first_by_None in E. specialize (E a0). unfold agent_selected in E. rewrite cond_int_ne, cond_str_ne, Hh, Haid, Z.eqb_refl, str_eqb_refl in E by done.
    discriminate E. apply elem_of_rows. eauto.
Qed.

(** Under the invariant there is one status row per host. *)
Lemma find_status_lookup hid d : host_wf d → hid ≠ 0 → find_status hid d = db_status d !! hid.
Proof.
  intros Hd Hn. unfold find_status.
  destruct (head _) as [r|] eqn:E.
  - apply head_Some_elem_of in E. rewrite elem_of_select, elem_of_rows, cond_int_ne in E by done.
    destruct E as [Hr [i Hi]]. destruct (wf_status _ Hd _ _ Hi) as (? & _). bool_to_prop. congruence.
  - apply head_None in E. destruct (db_status d !! hid) as [r|] eqn:Er; [|done].
    destruct (wf_status _ Hd _ _ Er) as (Hid & _).
    assert (r ∈ select (λ r, cond_int hid (st_HostID r)) (rows (db_status d))) as Hin; [|rewrite E in Hin; set_solver].
    rewrite elem_of_select, elem_of_rows, cond_int_ne by done. split; [by apply Z.eqb_eq|eauto].
Qed.

Definition old_version d (hid : Z) : Z :=
  match db_status d !! hid with Some r => st_Version r | None => 0 end.

Lemma upsertRegisteredStatus_ok hid now d s :
  host_wf d → hid ≠ 0 →
  WP (upsertRegisteredStatus hid now) (on_ok (λ _ d' _,
    ∃ r, d' = set_status (<[hid := r]> (db_status d)) d ∧ st_HostID r = hid ∧
      st_AgentState r = Up ∧ st_OverallState r = Up ∧ st_LastAgentSeenAt r = Some (pg_timestamp now) ∧
      st_Version r = int64_incr (old_version d hid))) d s.
Proof.
  intros Hd Hn. apply WP_bind, WP_attempt, WP_firstOrNotFound.
  { intros e [code ->]. by apply WP_throw. }
  rewrite find_status_lookup by done. unfold old_version.
  destruct (db_status d !! hid) as [r|] eqn:E.
  - destruct (wf_status _ Hd _ _ E) as (<- & _).
    apply WP_exec; [done|]. destruct (put_status _ d) eqn:Ep; [|done].
    apply put_status_inv in Ep as [-> _]. eexists. split; [done|]. done.
  - apply WP_exec; [done|]. destruct (insert_status _ d) eqn:Ep; [|done].
    apply insert_status_put in Ep as [_ [-> _]%put_status_inv]. eexists. split; [done|]. done.
Qed.

(** A digest replaces the metric columns; the version moves on from the stored
    one, or from 1 when the host had no status. *)
Lemma upsertDigestStatus_ok hid dg now d s :
  host_wf d → hid ≠ 0 →
  WP (upsertDigestStatus hid dg now) (on_ok (λ _ d' _,
    ∃ r, d' = set_status (<[hid := r]> (db_status d)) d ∧ st_HostID r = hid ∧
      st_AgentState r = Up ∧ st_OverallState r = Up ∧
      st_Metrics r = stored_metrics (columns_of_digest dg) ∧
      st_LastAgentSeenAt r = Some (pg_timestamp now) ∧ st_LastMetricAt r = Some (pg_timestamp now) ∧
      st_Version r = int64_incr (match db_status d !! hid with Some r => st_Version r | None => 1 end))) d s.
Proof.
  intros Hd Hn. apply WP_bind, WP_attempt, WP_firstOrNotFound.
  { intros e [code ->]. by apply WP_bind, WP_throw. }
  rewrite find_status_lookup by done.
  destruct (db_status d !! hid) as [r|] eqn:E; apply WP_bind, WP_ret; cbv zeta.
  - destruct (wf_status _ Hd _ _ E) as (<- & _).
    destruct (st_Version r =? 0) eqn:Ev; bool_to_prop.
    + apply WP_exec; [done|]. destruct (insert_status _ d) eqn:Ep; [|done].
      apply insert_status_put in Ep as [Hnone _]. simpl in Hnone. congruence.
    + apply WP_exec; [done|]. destruct (put_status _ d) eqn:Ep; [|done].
      apply put_status_inv in Ep as [-> _]. eexists. split; [done|]. done.
  - simpl. apply WP_exec; [done|]. destruct (put_status _ d) eqn:Ep; [|done].
    apply put_status_inv in Ep as [-> _]. eexists. split; [done|]. done.
Qed.

End helpers.

(** ** Registration *)

Section register.
Context `{Env} `{PgTypes}.
Implicit Types (d : DB) (s : Seqs).

Lemma WP_keeps_ok {A} (m : M A) Φ d s :
  keeps store_inv m → store_inv d s → WP m (on_ok Φ) d s →
  WP m (on_ok (λ a d' s', Φ a d' s' ∧ store_inv d' s')) d s.
Proof.
  intros Hk HI Hm. eapply WP_mono; [apply (WP_and _ _ _ _ _ Hm (Hk _ _ HI))|]. intros [a|e] d' s'; simpl; tauto.
Qed.

(** What a successful registration of [uid] leaves: tenant, host, labels and
    status of the host, everything else as before. *)
Definition registered (st : PgStore) (req : RegisterAgentRequest) (now : Time) d
    (uid : string) (snap : HostSnapshot) (cfg : AgentConfig) (code : string) d' : Prop :=
  ∃ hid h,
    db_hosts d' !! hid = Some h ∧ h_HostUID h = uid ∧ snap = snapshot_of d' h ∧
    hs_TenantCode snap = code ∧
    (∃ nano buf, code = register_code st d uid (hi_TenantCode (ra_Host req)) (ids_New nano buf "tenant")) ∧
    hs_Hostname snap = hi_Hostname (ra_Host req) ∧ hs_PrimaryIP snap = pg_inet (hi_PrimaryIP (ra_Host req)) ∧
    (∃ i a, db_agents d' !! i = Some a ∧ agent_stored hid req now d i a ∧
       ∀ j, j ≠ i → db_agents d' !! j = db_agents d !! j) ∧
    hs_AgentState snap = Up ∧ hs_OverallState snap = Up ∧
    hs_LastAgentSeenAt snap = pg_timestamp now ∧ hs_Labels snap = hi_Labels (ra_Host req) ∧
    hs_Version snap = int64_incr (old_version d hid) ∧
    cfg = default_config (hi_Labels (ra_Host req)) ∧
    (∀ h0, host_at d uid = Some h0 → hid = h_ID h0 ∧ h_TenantID h = h_TenantID h0) ∧
    (∀ j, j ≠ hid → db_hosts d' !! j = db_hosts d !! j ∧ db_labels d' !! j = db_labels d !! j ∧
                    db_status d' !! j = db_status d !! j) ∧
    (∀ j t, db_tenants d !! j = Some t → ∃ t', db_tenants d' !! j = Some t' ∧ t_TenantCode t' = t_TenantCode t) ∧
    (host_at d uid = None → db_hosts d !! hid = None).

(** What the statements that store a host, its labels, its agent and its status
    leave, for the host row [h], the labels [ls], the agent row [a] and the
    status row [r]. *)
Record host_stored (tid : Z) (uid : string) (req : RegisterAgentRequest) (now : Time) d
    (hid : Z) (h : hostModel) (ls : gmap Z (gmap string string)) (i : Z) (a : agentInstanceModel) (r : hostStatusCurrentModel) : Prop := {
  hst_id : h_ID h = hid;
  hst_uid : h_HostUID h = uid;
  hst_tenant : h_TenantID h = tid;
  hst_name : h_Hostname h = hi_Hostname (ra_Host req);
  hst_ip : h_PrimaryIP h = pg_inet (hi_PrimaryIP (ra_Host req));
  hst_old : match host_at d uid with Some h0 => hid = h_ID h0 | None => db_hosts d !! hid = None end;
  hst_nonzero : hid ≠ 0;
  hst_labels : default ∅ (ls !! hid) = hi_Labels (ra_Host req);
  hst_other_labels : ∀ j, j ≠ hid → ls !! j = db_labels d !! j;
  hst_agent_row : agent_stored hid req now d i a;
  hst_status_id : st_HostID r = hid;
  hst_agent : st_AgentState r = Up;
  hst_overall : st_OverallState r = Up;
  hst_seen : st_LastAgentSeenAt r = Some (pg_timestamp now);
  hst_version : st_Version r = int64_incr (old_version d hid)
}.
Definition with_host d hid h ls i a r : DB :=
  set_status (<[hid := r]> (db_status d)) (set_agents (<[i := a]> (db_agents d)) (set_labels ls (set_hosts (<[hid := h]> (db_hosts d)) d))).

Lemma store_host_ok {B} tid uid req now (K : Z → AgentConfig → M B) Ψ d s :
  store_inv d s → uid ≠ ""%string →
  (∀ hid h ls i a r s', host_stored tid uid req now d hid h ls i a r → store_inv (with_host d hid h ls i a r) s' →
     WP (K hid (default_config (hi_Labels (ra_Host req)))) (on_ok Ψ) (with_host d hid h ls i a r) s') →
  WP (hostID ← upsertHost tid uid req now;
      replaceLabels hostID (hi_Labels (ra_Host req));;
      cfg ← upsertAgentInstance hostID req now;
      upsertRegisteredStatus hostID now;;
      K hostID cfg) (on_ok Ψ) d s.
Proof.
  intros HI Hu HK.
  eapply WP_bind_ok; [apply WP_keeps_ok; [by apply keeps_upsertHost|done|by apply upsertHost_ok; [apply HI|]]|].
  intros hid d2 s2 [(h & -> & Hid & Huid & Hten & Hname & Hip & Hold) HI2].
  assert (hid ≠ 0) as Hnz.
  { destruct (wf_host _ (proj1 HI2) hid h) as (_ & ? & _); [|lia]. simpl. by rewrite lookup_insert, decide_True. }
  eapply WP_bind_ok; [apply WP_keeps_ok; [apply keeps_replaceLabels|done|apply replaceLabels_ok]|].
  intros _ d3 s3 [(ls & -> & Hl & Hlj) HI3].
  eapply WP_bind_ok; [apply WP_keeps_ok; [apply keeps_upsertAgentInstance|done|by apply upsertAgentInstance_ok; [apply HI3|]]|].
  intros cfg d4 s4 [(-> & i & a & -> & Ha) HI4].
  eapply WP_bind_ok; [apply WP_keeps_ok; [apply keeps_upsertRegisteredStatus|done|by apply upsertRegisteredStatus_ok; [apply HI4|]]|].
  intros _ d5 s5 [(r & -> & Hrid & Hra & Hro & Hrl & Hrv) HI5]. apply (HK hid h ls i a r); [|done].
  split; try done. by eapply agent_stored_ext; [|exact Ha].
Qed.

Lemma register_body_ok st req now uid d s :
  store_inv d s → uid ≠ ""%string →
  WP ('(tenantID, tenantCode) ← resolveTenantForRegister st uid (hi_TenantCode (ra_Host req));
      hostID ← upsertHost tenantID uid req now;
      replaceLabels hostID (hi_Labels (ra_Host req));;
      cfg ← upsertAgentInstance hostID req now;
      upsertRegisteredStatus hostID now;;
      item ← getHostByUID uid "";
      match item with
      | None => throw ErrHostNotFound
      | Some item => mret (item, cfg, tenantCode)
      end)
    (on_ok (λ '(snap, cfg, code) d' _, registered st req now d uid snap cfg code d')) d s.
Proof.
  intros HI Hu.
  eapply WP_bind_ok; [apply WP_keeps_ok; [apply keeps_resolveTenantForRegister|done|by apply resolveTenantForRegister_ok, HI]|].
  intros [tid code] d1 s1 [(ts & t & nano & buf & -> & Htid & Hc & Hcode & Htj & Htold & Htu) HI1].
  apply store_host_ok; [done..|].
  intros hid h ls i a r s2 [Hid Huid Hten Hname Hip Hold Hnz Hl Hlj Hag Hrid Hra Hro Hrl Hrv] HI5. unfold with_host in *.
  apply WP_bind, WP_getHostByUID; [done|].
  set (d' := set_status _ _) in *.
  assert (db_hosts d' !! hid = Some h) as Hh by (simpl; by rewrite lookup_insert, decide_True).
  rewrite <-Huid, (listing_uid d' hid h) by (done || apply HI5). apply WP_ret. rewrite Huid.
  assert (db_tenants d' !! h_TenantID h = Some t) as Ht by (simpl; by rewrite Hten).
  exists hid, h. rewrite (snapshot_of_tenant _ _ _ Ht).
  unfold snapshot_of. rewrite Ht, Hid. simpl. rewrite !lookup_insert, !decide_True by done. simpl.
  rewrite Hl, Hra, Hro, Hrl. split_and!; try done.
  - by eauto.
  - exists i, a. rewrite lookup_insert, decide_True by done. split_and!; [done| |intros j Hj; by rewrite lookup_insert_ne].
    by eapply agent_stored_ext; [|exact Hag].
  - intros h0 Hh0. change (host_at (set_tenants ts d) uid) with (host_at d uid) in Hold.
    rewrite Hh0 in Hold. split; [done|]. rewrite Hten.
    apply host_at_Some in Hh0 as Hrow; [|apply HI|done].
    destruct (tenant_of_host_Some d uid h0) as (t0 & Ht0 & Hne & Hto); [apply HI|done|].
    symmetry. eapply Htu; [done|]. rewrite Hcode. unfold register_code. rewrite Hto.
    apply str_empty_false in Hne. rewrite Hne. simpl. by rewrite Hne.
  - intros j Hj. rewrite !lookup_insert_ne by done. auto.
  - intros j t0 Ht0. destruct (decide (j = tid)) as [->|Hj]; [|rewrite Htj by done; eauto].
    exists t. split; [done|]. rewrite Hc. symmetry. by apply Htold.
  - intros Hn. change (host_at (set_tenants ts d) uid) with (host_at d uid) in Hold. by rewrite Hn in Hold.
Qed.

Lemma RegisterAgent_ok st req now d s :
  store_inv d s →
  WP (RegisterAgent st req now) (on_ok (λ '(snap, cfg, code) d' _,
    ∃ uid, uid ≠ ""%string ∧
      (hi_HostUID (ra_Host req) ≠ ""%string → uid = hi_HostUID (ra_Host req)) ∧
      registered st req now d uid snap cfg code d')) d s.
Proof.
  intros HI. apply WP_Transaction_ok.
  apply (WP_bind_ok _ _ (λ uid d1 s1, d1 = d ∧ s1 = s ∧ uid ≠ ""%string ∧
    (hi_HostUID (ra_Host req) ≠ ""%string → uid = hi_HostUID (ra_Host req)))).
  { destruct (str_empty _) eqn:E.
    - apply str_empty_true in E. apply WP_new_id. intros nano buf. split_and!; [done..|apply ids_New_nonempty|done].
    - apply str_empty_false in E. apply WP_ret. done. }
  intros uid d1 s1 (-> & -> & Hu & Heq). eapply WP_mono; [by apply register_body_ok|].
  intros [[[snap cfg] code]|e] d' s' Hr; [|done]. exists uid. done.
Qed.

End register.

(** ** Heartbeats and metric reports *)

(** The host [uid] is registered and has an agent [aid]. *)
Definition known_agent (d : DB) (uid aid : string) : Prop :=
  ∃ h j a, db_hosts d !! h_ID h = Some h ∧ h_HostUID h = uid ∧
    db_agents d !! j = Some a ∧ ai_HostID a = h_ID h ∧ ai_AgentID a = aid.

Section reports.
Context `{Env} `{PgTypes}.
Implicit Types (d : DB) (s : Seqs).

Lemma findHostByUID_spec st uid b d s :
  host_wf d → uid ≠ ""%string →
  WP (findHostByUID st uid b) (λ r d' s', d' = d ∧ s' = s ∧
    match r with
    | Ok h => db_hosts d !! h_ID h = Some h ∧ h_HostUID h = uid
    | Err e => driver_error e ∨ (e = ErrRecordNotFound ∧ (b = false → ∀ i h, db_hosts d !! i = Some h → h_HostUID h ≠ uid))
    end) d s.
Proof.
  intros Hd Hu. apply WP_firstOrNotFound; [auto|].
  destruct (first_by _ _ _) as [h|] eqn:E; split_and!; try done.
  - apply first_by_Some in E as [[i Hi]%elem_of_rows Hc]. bool_to_prop.
    rewrite cond_str_ne in H1 by done. apply str_eqb_true in H1.
    by destruct (wf_host _ Hd _ _ Hi) as (-> & _).
  - apply first_by_Some in E as [_ Hc]. bool_to_prop. rewrite cond_str_ne in H1 by done.
    by apply str_eqb_true in H1.
  - right. split; [done|]. intros -> i h Hi Heq. rewrite first_by_None in E.
    specialize (E h). simpl in E. rewrite cond_str_ne, andb_true_r, str_eqb_false in E by done.
    apply E; [apply elem_of_rows; eauto|done].
Qed.

Lemma findAgentConfig_spec hid aid d s :
  hid ≠ 0 → aid ≠ ""%string →
  WP (findAgentConfig hid aid) (λ r d' s', d' = d ∧ s' = s ∧
    match r with
    | Ok (Some cfg) => ∃ j a, db_agents d !! j = Some a ∧ ai_HostID a = hid ∧ ai_AgentID a = aid ∧
        cfg = mkAgentConfig (ai_ConfigVersion a) (ai_HeartbeatIntervalSec a) (ai_MetricIntervalSec a) ∅
    | Ok None => ∀ j a, db_agents d !! j = Some a → ai_HostID a = hid → ai_AgentID a = aid → False
    | Err e => driver_error e
    end) d s.
Proof.
  intros Hh Ha. apply WP_bind, WP_attempt, WP_firstOrNotFound.
  { intros e [code ->]. apply WP_throw. split_and!; try done. by eexists. }
  assert (∀ a, agent_selected hid aid a = true ↔ ai_HostID a = hid ∧ ai_AgentID a = aid) as Hsel.
  { intros a. unfold agent_selected. rewrite cond_int_ne, cond_str_ne, andb_true_iff, Z.eqb_eq, str_eqb_true; done. }
  destruct (first_by _ _ _) as [a|] eqn:E; apply WP_ret; split_and!; try done.
  - apply first_by_Some in E as [[j Hj]%elem_of_rows [??]%Hsel]. by exists j, a.
  - intros j a Hj H1 H2. rewrite first_by_None in E.
    assert (agent_selected hid aid a = true) as E' by by apply Hsel.
    rewrite E in E'; [done|]. apply elem_of_rows; eauto.
Qed.

Lemma lookupAgentInstance_spec st uid aid d s :
  host_wf d → uid ≠ ""%string → aid ≠ ""%string →
  WP (lookupAgentInstance st uid aid) (λ r d' s', d' = d ∧ s' = s ∧
    match r with
    | Ok (hid, cfg) => hid ≠ 0 ∧ ∃ h j a, db_hosts d !! hid = Some h ∧ h_ID h = hid ∧ h_HostUID h = uid ∧
        db_agents d !! j = Some a ∧ ai_HostID a = hid ∧ ai_AgentID a = aid ∧
        cfg = mkAgentConfig (ai_ConfigVersion a) (ai_HeartbeatIntervalSec a) (ai_MetricIntervalSec a) ∅
    | Err e => driver_error e ∨ (e = ErrHostNotFound ∧ ¬ known_agent d uid aid)
    end) d s.
Proof.
  intros Hd Hu Ha. unfold lookupAgentInstance. cbv zeta.
  set (second := attempt (findHostByUID st uid false) ≫= _).
  set (Q := λ (r : res (Z * AgentConfig)) (d' : DB) (s' : Seqs), _).
  assert (∀ h, db_hosts d !! h_ID h = Some h → h_ID h ≠ 0) as Hnz.
  { intros h Hh. destruct (wf_host _ Hd _ _ Hh) as (_ & ? & _). lia. }
  assert (WP second Q d s) as Hsecond.
  { apply WP_bind, WP_attempt. eapply WP_mono; [by apply findHostByUID_spec|].
    intros [h|e] d' s' (-> & -> & Hr); cbv beta iota.
    - destruct Hr as [Hh Huid]. apply WP_bind. eapply WP_mono; [apply findAgentConfig_spec; auto|].
      intros [[cfg|]|e] d' s' (-> & -> & Hr); cbv beta iota.
      + destruct Hr as (j & a & ? & ? & ? & ->). apply WP_ret. split_and!; try done; [auto|].
        by exists h, j, a.
      + apply WP_throw. split_and!; try done. right. split; [done|].
        intros (h' & j & a & Hh' & Hu' & Hj & Hah & Haid). eapply Hr; [done| |done].
        rewrite Hah. f_equal. eapply hosts_unique; [done..|congruence].
      + split_and!; auto.
    - destruct Hr as [[c ->]|[-> Hnone]]; apply WP_throw; split_and!; try done.
      + left. by eexists.
      + right. split; [done|]. intros (h' & j & a & Hh' & Hu' & _). by eapply Hnone. }
  apply WP_bind, WP_attempt. eapply WP_mono; [by apply findHostByUID_spec|].
  intros [h|e] d' s' (-> & -> & Hr); cbv beta iota; [|done]. destruct Hr as [Hh Huid].
  apply WP_bind. eapply WP_mono; [apply findAgentConfig_spec; auto|].
  intros [[cfg|]|e] d' s' (-> & -> & Hr); cbv beta iota.
  - destruct Hr as (j & a & ? & ? & ? & ->). apply WP_ret. split_and!; try done; [auto|].
    by exists h, j, a.
  - done.
  - split_and!; auto.
Qed.

(** The agent rows after the host's agent has been seen. *)
Lemma updateAgentInstanceState_spec hid aid seq now d s :
  hid ≠ 0 →
  WP (updateAgentInstanceState hid aid seq now) (λ r d' s',
    match r with
    | Ok _ => s' = s ∧ ∃ ags, d' = set_agents ags d ∧
        ∀ j a, db_agents d !! j = Some a → agent_selected hid aid a = false → ags !! j = Some a
    | Err e => driver_error e
    end) d s.
Proof.
  intros Hn. apply WP_exec; [done|]. apply Z.eqb_neq in Hn. rewrite Hn. simpl. split; [done|].
  eexists. split; [done|]. intros j a Hj Hsel. by rewrite lookup_fmap, Hj; simpl; rewrite Hsel.
Qed.

Lemma put_status_err r d e : put_status r d = Err e → driver_error e.
Proof. unfold put_status. destruct (negb _); [|done]. intros [= <-]. by eexists. Qed.
Lemma insert_status_err r d e : insert_status r d = Err e → driver_error e.
Proof. unfold insert_status. case_bool_decide; [intros [= <-]; by eexists|]. apply put_status_err. Qed.

Lemma upsertDigestStatus_err hid dg now d s :
  WP (upsertDigestStatus hid dg now) (λ r _ _, match r with Ok _ => True | Err e => driver_error e end) d s.
Proof.
  apply WP_bind, WP_attempt, WP_firstOrNotFound.
  { intros e [code ->]. apply WP_bind, WP_throw. by eexists. }
  destruct (find_status hid d) as [r|]; apply WP_bind, WP_ret; cbv zeta.
  - destruct (_ =? 0); apply WP_exec; try done.
    + destruct (insert_status _ d) eqn:E; [done|]. by eapply insert_status_err.
    + destruct (put_status _ d) eqn:E; [done|]. by eapply put_status_err.
  - simpl. apply WP_exec; [done|]. destruct (put_status _ d) eqn:E; [done|]. by eapply put_status_err.
Qed.

(** What a digest leaves: the metric columns and the version of the host, the
    agent rows it selects, everything else as before. *)
Definition digested (dg : AgentDigest) (now : Time) d
    (uid : string) (snap : HostSnapshot) d' : Prop :=
  ∃ hid h r ags,
    d' = set_status (<[hid := r]> (db_status d)) (set_agents ags d) ∧
    db_hosts d !! hid = Some h ∧ h_HostUID h = uid ∧ snap = snapshot_of d' h ∧
    st_AgentState r = Up ∧ st_OverallState r = Up ∧
    st_Metrics r = stored_metrics (columns_of_digest dg) ∧
    st_LastAgentSeenAt r = Some (pg_timestamp now) ∧ st_LastMetricAt r = Some (pg_timestamp now) ∧
    st_Version r = int64_incr (match db_status d !! hid with Some r => st_Version r | None => 1 end) ∧
    (∀ j a, db_agents d !! j = Some a → ai_HostID a ≠ hid → ags !! j = Some a).

(** The common tail of [Heartbeat] and [ReportMetrics]. *)
Lemma digest_tail_spec {B} (mk : HostSnapshot → B) hid h uid aid seq dg now d s :
  store_inv d s → uid ≠ ""%string → db_hosts d !! hid = Some h → h_HostUID h = uid →
  WP (updateAgentInstanceState hid aid seq now;;
      upsertDigestStatus hid dg now;;
      item ← getHostByUID uid "";
      match item with
      | None => throw ErrHostNotFound
      | Some item => mret (mk item)
      end) (λ r d' _,
    match r with
    | Ok b => ∃ snap, b = mk snap ∧ digested dg now d uid snap d'
    | Err e => driver_error e
    end) d s.
Proof.
  intros HI Hu Hh Huid.
  assert (hid ≠ 0) as Hnz by (destruct (wf_host _ (proj1 HI) _ _ Hh) as (_ & ? & _); lia).
  apply WP_bind. eapply WP_mono.
  { apply (WP_and _ _ _ _ _ (updateAgentInstanceState_spec hid aid seq now d s Hnz)
             (keeps_updateAgentInstanceState hid aid seq now d s HI)). }
  intros [[]|e] d1 s1 [Hr HI1]; [|done]. destruct Hr as [-> (ags & -> & Hags)].
  apply WP_bind. eapply WP_mono.
  { apply (WP_and _ _ _ _ _ (upsertDigestStatus_err hid dg now _ s)
      (WP_and _ _ _ _ _ (upsertDigestStatus_ok hid dg now _ s (proj1 HI1) Hnz)
        (keeps_upsertDigestStatus hid dg now _ s HI1))). }
  intros [[]|e] d2 s2 (He & Hok & HI2); [|done].
  destruct Hok as (r & -> & Hrid & Hra & Hro & Hrm & Hrl & Hrl' & Hrv).
  apply WP_bind, WP_getHostByUID; [done|].
  rewrite <-Huid. set (d' := set_status _ _) in *.
  rewrite (listing_uid d' hid h) by (apply HI2 || done). apply WP_ret.
  eexists. split; [done|]. exists hid, h, r, ags. split_and!; try done.
  intros j a Hj Hne. apply Hags; [done|]. unfold agent_selected. rewrite cond_int_ne by done.
  apply Z.eqb_neq in Hne. by rewrite Hne.
Qed.

Lemma Heartbeat_spec st req now d s :
  store_inv d s → hb_HostUID req ≠ ""%string → hb_AgentID req ≠ ""%string →
  WP (Heartbeat st req now) (λ r d' _,
    match r with
    | Ok (snap, cfg) => known_agent d (hb_HostUID req) (hb_AgentID req) ∧
        digested (hb_Digest req) now d (hb_HostUID req) snap d'
    | Err e => all_or_nothing (λ d', known_agent d (hb_HostUID req) (hb_AgentID req) ∧
          ∃ snap, digested (hb_Digest req) now d (hb_HostUID req) snap d') d e d' ∧
        (driver_error e ∨ (e = ErrHostNotFound ∧ ¬ known_agent d (hb_HostUID req) (hb_AgentID req)))
    end) d s.
Proof.
  intros HI Hu Ha. apply WP_Transaction_err; [|by split; [left|left]].
  apply WP_bind. eapply WP_mono; [by apply lookupAgentInstance_spec; [apply HI|..]|].
  intros [[hid cfg]|e] d' s' (-> & -> & Hr); cbv beta iota; [|by split; [left|]].
  destruct Hr as (Hnz & h & j & a & Hh & Hid & Huid & Hj & Hah & Haid & ->).
  eapply WP_mono; [by eapply (digest_tail_spec (λ item, (item, _)))|].
  intros [[snap cfg]|e] d' s' Hr; cbv beta iota; [|by split; [left|left]].
  destruct Hr as (snap' & [= -> ->] & Hdig).
  assert (known_agent d (hb_HostUID req) (hb_AgentID req)) as Hk by (exists h, j, a; by rewrite Hid).
  split; [done|]. intros e He. split; (split; [|by left]); [by left|right; eauto].
Qed.

(** Reports never touch the tenants. *)
Section tenants_fixed.
Context (T : gmap Z tenantModel).
Let fixed : DB → Seqs → Prop := λ d _, db_tenants d = T.

Lemma fixed_upsertHost tid uid req now : keeps fixed (upsertHost tid uid req now).
Proof.
  unfold upsertHost. repeat keeps_step.
  - apply keeps_exec. by intros d s d' HI (-> & _)%put_host_inv.
  - apply keeps_insert_serial; [done|]. by intros d s d' HI [_ (-> & _)%put_host_inv]%insert_host_put.
Qed.
Lemma fixed_replaceLabels hid l : keeps fixed (replaceLabels hid l).
Proof.
  unfold replaceLabels. repeat keeps_step; apply keeps_exec.
  - by intros d s d' HI ->%delete_labels_inv.
  - by intros d s d' HI [-> _]%insert_labels_inv.
Qed.
Lemma fixed_upsertAgentInstance hid req now : keeps fixed (upsertAgentInstance hid req now).
Proof.
  unfold upsertAgentInstance. repeat keeps_step.
  - apply keeps_exec. by intros d s d' HI (-> & _)%put_agent_inv.
  - apply keeps_insert_serial; [done|]. by intros d s d' HI [_ (-> & _)%put_agent_inv]%insert_agent_put.
Qed.
Lemma fixed_put_status r : keeps fixed (exec (put_status r)).
Proof. apply keeps_exec. by intros d s d' HI [-> _]%put_status_inv. Qed.
Lemma fixed_insert_status r : keeps fixed (exec (insert_status r)).
Proof. apply keeps_exec. by intros d s d' HI [_ [-> _]%put_status_inv]%insert_status_put. Qed.
#[local] Hint Resolve fixed_upsertHost fixed_replaceLabels fixed_upsertAgentInstance
  fixed_put_status fixed_insert_status : keeps.
Lemma fixed_updateAgentInstanceState hid aid seq now : keeps fixed (updateAgentInstanceState hid aid seq now).
Proof.
  apply keeps_exec. intros d s d' HI Hf. destruct (_ && _); [done|]. by injection Hf as <-.
Qed.
#[local] Hint Resolve fixed_updateAgentInstanceState : keeps.

Lemma fixed_ReportMetrics st req dg now : keeps fixed (ReportMetrics st req dg now).
Proof.
  unfold ReportMetrics, bootstrapHostForMetric, lookupAgentInstance, findHostByUID, findAgentConfig,
    resolveTenantForMetric, lookupTenantCodeByHostUID, getHostByUID, listHosts,
    upsertRegisteredStatus, upsertDigestStatus.
  apply keeps_Transaction; [done|]. repeat first [by auto with keeps nocore|keeps_step].
Qed.
End tenants_fixed.

(** The tenant a report may create a host in: the host's own, else the one the
    request names when custom codes are allowed and the tenant exists. *)
Definition metric_tenant (st : PgStore) d (uid code : string) : option tenantModel :=
  let c := TrimSpace (if negb (str_empty (tenant_of_host d uid)) then tenant_of_host d uid
                      else if negb (ps_allowCustomTenantCode st) then ""%string else code) in
  if str_empty c then None else first_by t_ID (λ t, cond_str c (t_TenantCode t)) (rows (db_tenants d)).

Lemma resolveTenantForMetric_spec st uid code d s :
  WP (resolveTenantForMetric st uid code) (λ r d' s', d' = d ∧ s' = s ∧
    match r with
    | Ok (tid, c) => ∃ t, metric_tenant st d uid code = Some t ∧ tid = t_ID t ∧ c = t_TenantCode t
    | Err e => driver_error e ∨ (e = ErrTenantNotFound ∧ metric_tenant st d uid code = None)
    end) d s.
Proof.
  apply WP_bind, WP_bind, WP_attempt, WP_firstOrNotFound.
  { intros e [c ->]. apply WP_throw. split_and!; try done. left. by eexists. }
  assert (∀ c (Q : res (Z * string) → DB → Seqs → Prop), c = tenant_of_host d uid → WP
    (let tenantCode :=
       if negb (str_empty c) then c else if negb (ps_allowCustomTenantCode st) then ""%string else code in
     let tenantCode := TrimSpace tenantCode in
     if str_empty tenantCode then throw ErrTenantNotFound else
     r ← attempt (firstOrNotFound (λ d, first_by t_ID (λ t, cond_str tenantCode (t_TenantCode t)) (rows (db_tenants d))));
     match r with
     | Ok tenant => mret (t_ID tenant, t_TenantCode tenant)
     | Err ErrRecordNotFound => throw ErrTenantNotFound
     | Err e => throw e
     end) (λ r d' s', d' = d ∧ s' = s ∧
       match r with
       | Ok (tid, c) => ∃ t, metric_tenant st d uid code = Some t ∧ tid = t_ID t ∧ c = t_TenantCode t
       | Err e => driver_error e ∨ (e = ErrTenantNotFound ∧ metric_tenant st d uid code = None)
       end) d s) as Htail.
  { intros c _ ->. unfold metric_tenant. cbv zeta. set (c := TrimSpace _). clearbody c.
    destruct (str_empty c); [apply WP_throw; by auto|].
    apply WP_bind, WP_attempt, WP_firstOrNotFound.
    { intros e [x ->]. apply WP_throw. split_and!; try done. left. by eexists. }
    destruct (first_by _ _ _) as [t|]; [apply WP_ret; by eauto 10|apply WP_throw; by auto]. }
  unfold tenant_of_host, host_at in Htail. destruct (first_by h_ID _ _) as [h|].
  - apply WP_bind, WP_query; [by auto|]. apply WP_ret. by apply (Htail _ (λ _ _ _, True)).
  - apply WP_ret. by apply (Htail _ (λ _ _ _, True)).
Qed.

(** A report from an unknown agent that names no usable tenant is refused. *)
Lemma ReportMetrics_no_tenant st req dg now d s :
  store_inv d s → pm_HostUID req ≠ ""%string → pm_AgentID req ≠ ""%string →
  ¬ known_agent d (pm_HostUID req) (pm_AgentID req) →
  let uid := TrimSpace (hi_HostUID (pm_Host req)) in
  let uid := if str_empty uid then TrimSpace (pm_HostUID req) else uid in
  metric_tenant st d uid (hi_TenantCode (pm_Host req)) = None →
  WP (ReportMetrics st req dg now) (λ r d' _,
    d' = d ∧ ∃ e, r = Err e ∧ (driver_error e ∨ e = ErrTenantNotFound ∨ e = ErrHostNotFound)) d s.
Proof.
  intros HI Hu Ha Hk uid uid' Ht. apply WP_Transaction_err; [|intros e He; eauto].
  apply WP_bind, WP_attempt. eapply WP_mono; [by apply lookupAgentInstance_spec; [apply HI|..]|].
  intros [[hid cfg]|e] d' s' (-> & -> & Hr); cbv beta iota.
  { destruct Hr as (_ & h & j & a & Hh & Hid & Huid & Hj & Hah & Haid & _).
    destruct Hk. exists h, j, a. by rewrite Hid. }
  destruct Hr as [[c ->]|[-> _]].
  { apply WP_bind, WP_throw. split; [done|]. eexists. split; [done|]. left. by eexists. }
  apply WP_bind. unfold bootstrapHostForMetric. cbv zeta. fold uid. fold uid'.
  destruct (_ || _); [apply WP_throw; eauto 10|].
  apply WP_bind. eapply WP_mono; [apply resolveTenantForMetric_spec|].
  intros [[tid c]|e] d' s' (-> & -> & Hr); cbv beta iota.
  - destruct Hr as (t & Hr & _). congruence.
  - split; [done|]. destruct Hr as [?|[-> _]]; eauto.
Qed.

(** A report of a registered agent is recorded like a heartbeat. *)
Lemma ReportMetrics_known st req dg now d s :
  store_inv d s → pm_HostUID req ≠ ""%string → pm_AgentID req ≠ ""%string →
  known_agent d (pm_HostUID req) (pm_AgentID req) →
  WP (ReportMetrics st req dg now) (λ r d' _,
    match r with
    | Ok snap => digested dg now d (pm_HostUID req) snap d'
    | Err e => all_or_nothing (λ d', ∃ snap, digested dg now d (pm_HostUID req) snap d') d e d' ∧ driver_error e
    end) d s.
Proof.
  intros HI Hu Ha Hk. apply WP_Transaction_err; [|by split; [left|]].
  apply WP_bind, WP_attempt. eapply WP_mono; [by apply lookupAgentInstance_spec; [apply HI|..]|].
  intros [[hid cfg]|e] d' s' (-> & -> & Hr); cbv beta iota.
  - destruct Hr as (Hnz & h & j & a & Hh & Hid & Huid & _). apply WP_bind, WP_ret.
    eapply WP_mono; [by eapply (digest_tail_spec id)|].
    intros [snap|e] d' s' Hr; cbv beta iota; [|by split; [left|]]. destruct Hr as (snap' & -> & Hdig).
    split; [done|]. intros e He. split; (split; [|done]); [by left|right; eauto].
  - destruct Hr as [[c ->]|[_ Hn]]; [|done]. apply WP_bind, WP_throw. split; [by left|]. by eexists.
Qed.

End reports.

(** ** The offline scan *)

Section reconcile.
Context `{Env} `{PgTypes}.
Implicit Types (d : DB) (s : Seqs).

(** The effect of the loop on one status row: the row the scan had for its host
    decides. *)
Definition mark (now : Time) (l : list hostStatusCurrentModel) (r : hostStatusCurrentModel) : hostStatusCurrentModel :=
  match find_first (λ c, st_HostID c =? st_HostID r) l with
  | Some c => offline_row (int64_incr (st_Version c)) now r
  | None => r
  end.

Lemma mark_id now l r : st_HostID (mark now l r) = st_HostID r.
Proof. unfold mark. by destruct (find_first _ _). Qed.

Lemma mark_notin now l r : st_HostID r ∉ st_HostID <$> l → mark now l r = r.
Proof.
  intros Hn. unfold mark. destruct (find_first _ _) as [c|] eqn:E; [|done].
  apply find_first_Some in E as [Hc He]. bool_to_prop. destruct Hn. apply list_elem_of_fmap. eauto.
Qed.

Lemma mark_cons now c l r :
  st_HostID c ∉ st_HostID <$> l →
  mark now l (if st_HostID r =? st_HostID c then offline_row (int64_incr (st_Version c)) now r else r) =
  mark now (c :: l) r.
Proof.
  intros Hn. unfold mark at 2. simpl. rewrite (Z.eqb_sym (st_HostID c)).
  destruct (_ =? _) eqn:E; [|done]. bool_to_prop.
  apply mark_notin. simpl. by rewrite E.
Qed.

Lemma snapshot_of_status d d' h :
  db_tenants d' = db_tenants d → db_labels d' = db_labels d → db_status d' !! h_ID h = db_status d !! h_ID h →
  snapshot_of d' h = snapshot_of d h.
Proof. intros Ht Hl Hs. unfold snapshot_of. by rewrite Ht, Hl, Hs. Qed.

Lemma set_status_id (f : hostStatusCurrentModel → hostStatusCurrentModel) d :
  (∀ r, f r = r) → set_status (f <$> db_status d) d = d.
Proof.
  intros Hf. replace (f <$> db_status d) with (db_status d); [by destruct d|].
  rewrite <-(map_fmap_id (db_status d)) at 1. by apply map_fmap_ext.
Qed.

Lemma reconcileLoop_ok now l d s :
  store_inv d s → NoDup (st_HostID <$> l) →
  (∀ c, c ∈ l → is_Some (db_hosts d !! st_HostID c)) →
  WP (reconcileLoop (db_hosts d) now l) (on_ok (λ changed d' _,
    d' = set_status (mark now l <$> db_status d) d ∧
    Forall2 (λ c x, ∃ h, db_hosts d !! st_HostID c = Some h ∧ x = snapshot_of d' h) l changed)) d s.
Proof.
  remember (db_hosts d) as hosts eqn:Hhosts. revert d s Hhosts.
  induction l as [|c l IH]; intros d s Hhosts HI Hnd Hex; simpl.
  { apply WP_ret. split; [|constructor]. by rewrite set_status_id. }
  rewrite fmap_cons, NoDup_cons in Hnd. destruct Hnd as [Hnin Hnd].
  destruct (Hex c) as [h Hh]; [set_solver|].
  assert (st_HostID c ≠ 0 ∧ h_ID h = st_HostID c) as [Hnz Hid].
  { rewrite Hhosts in Hh. destruct (wf_host _ (proj1 HI) _ _ Hh) as (? & ? & _). split; [lia|done]. }
  eapply WP_bind_ok.
  { apply WP_keeps_ok; [apply keeps_markOffline|done|].
    apply (WP_exec _ (on_ok (λ _ d' _, d' = set_status
      ((λ r : hostStatusCurrentModel, if st_HostID r =? st_HostID c
        then offline_row (int64_incr (st_Version c)) now r else r) <$> db_status d) d))); [done|].
    apply Z.eqb_neq in Hnz as E. rewrite E. simpl. f_equal. apply map_fmap_ext. intros i r Hr.
    by rewrite cond_int_ne. }
  intros _ d1 s1 [Hd1 HI1]. rewrite Hh. simpl.
  apply WP_bind, WP_getHostByUID; [done|].
  assert (db_hosts d1 !! st_HostID c = Some h) as Hh1 by (by rewrite Hd1; simpl; rewrite <-Hhosts).
  rewrite (listing_uid d1 _ h) by (apply HI1 || done).
  eapply WP_bind_ok.
  { apply IH; [by rewrite Hd1|done|done|]. intros c' Hc'. apply Hex. set_solver. }
  intros changed d2 s2 [Hd2 Hall]. apply WP_ret.
  assert (d2 = set_status (mark now (c :: l) <$> db_status d) d) as Hd2'.
  { rewrite Hd2, Hd1. unfold set_status; simpl. f_equal. rewrite <-map_fmap_compose. apply map_fmap_ext.
    intros i r Hr. simpl. by apply mark_cons. }
  split; [done|]. constructor; [|done]. exists h. split; [done|].
  apply snapshot_of_status; [by rewrite Hd2..|]. rewrite Hd2. simpl. rewrite lookup_fmap, Hid.
  destruct (db_status d1 !! st_HostID c) as [r|] eqn:Er; [|done]. simpl. f_equal. symmetry.
  apply mark_notin. by destruct (wf_status _ (proj1 HI1) _ _ Er) as [-> _].
Qed.

Definition stale_rows now d : list hostStatusCurrentModel :=
  order_by st_HostID (select (stale_status now) (rows (db_status d))).

Lemma elem_of_stale_rows now d c :
  host_wf d → c ∈ stale_rows now d ↔ stale_status now c = true ∧ db_status d !! st_HostID c = Some c.
Proof.
  intros Hd. unfold stale_rows. rewrite order_by_Permutation, elem_of_select, elem_of_rows.
  split; [|by intros [? ?]; eauto]. intros [? [i Hi]]. split; [done|].
  by destruct (wf_status _ Hd _ _ Hi) as [-> _].
Qed.

Lemma stale_rows_NoDup now d : host_wf d → NoDup (st_HostID <$> stale_rows now d).
Proof.
  intros Hd. unfold stale_rows. rewrite order_by_Permutation.
  apply NoDup_fmap_2_strong.
  - intros x y Hx Hy Hxy. rewrite elem_of_select, elem_of_rows in Hx, Hy.
    destruct Hx as [_ [i Hi]], Hy as [_ [j Hj]].
    destruct (wf_status _ Hd _ _ Hi) as [? _], (wf_status _ Hd _ _ Hj) as [? _]. congruence.
  - apply NoDup_filter. unfold rows. apply NoDup_fmap_2_strong; [|apply NoDup_map_to_list].
    intros [i x] [j y] Hx%elem_of_map_to_list Hy%elem_of_map_to_list Hxy. simpl in *.
    destruct (wf_status _ Hd _ _ Hx) as [? _], (wf_status _ Hd _ _ Hy) as [? _]. congruence.
Qed.

Lemma mark_stale_rows now d i r :
  host_wf d → db_status d !! i = Some r →
  mark now (stale_rows now d) r =
    if stale_status now r then offline_row (int64_incr (st_Version r)) now r else r.
Proof.
  intros Hd Hi. destruct (wf_status _ Hd _ _ Hi) as [Hid _]. destruct (stale_status now r) eqn:E.
  - unfold mark. rewrite (find_first_unique _ _ r); [done| |by apply Z.eqb_eq|].
    + apply elem_of_stale_rows; [done|]. split; [done|congruence].
    + intros y [_ Hy]%elem_of_stale_rows Heq; [|done]. bool_to_prop. congruence.
  - apply mark_notin. intros (c & Hc & Hin)%list_elem_of_fmap. apply elem_of_stale_rows in Hin as [Hs Hl]; [|done].
    congruence.
Qed.

(** The tables after a pass of the scan. *)
Definition reconciled now d : DB :=
  set_status ((λ r, if stale_status now r then offline_row (int64_incr (st_Version r)) now r else r) <$> db_status d) d.

Lemma reconciled_marks now d :
  host_wf d → set_status (mark now (stale_rows now d) <$> db_status d) d = reconciled now d.
Proof.
  intros Hd. unfold reconciled, set_status. f_equal. apply map_fmap_ext. intros i r Hr. by eapply mark_stale_rows.
Qed.

Lemma offline_row_not_stale v now r t : stale_status t (offline_row v now r) = false.
Proof. unfold stale_status, offline_row; simpl. by destruct (st_LastAgentSeenAt r); [rewrite andb_false_r|]. Qed.

Lemma reconciled_no_stale now d : host_wf d → stale_rows now (reconciled now d) = [].
Proof.
  intros Hd. unfold stale_rows. rewrite select_none; [done|]. intros r [i Hi]%elem_of_rows. simpl in Hi.
  rewrite lookup_fmap in Hi. apply fmap_Some in Hi as (r0 & Hr0 & ->).
  destruct (stale_status now r0) eqn:E; [apply offline_row_not_stale|done].
Qed.

(** The rows a pass turned to offline. *)
Definition turned (now : Time) (d d' : DB) (changed : list HostSnapshot) : Prop :=
  d' = reconciled now d ∧ Forall2 (λ c x, ∃ h, db_hosts d !! st_HostID c = Some h ∧ x = snapshot_of d' h) (stale_rows now d) changed.

Lemma ReconcileOffline_spec st now d s :
  store_inv d s →
  WP (ReconcileOffline st now) (λ r d' _,
    match r with
    | Ok changed => turned now d d' changed
    | Err e => all_or_nothing (λ d', ∃ changed, turned now d d' changed) d e d'
    end) d s.
Proof.
  intros HI. unfold ReconcileOffline, reconcileScan. apply WP_bind, WP_bind, WP_query; [by left|].
  fold (stale_rows now d). destruct (stale_rows now d) as [|c l] eqn:E.
  { apply WP_ret. cbv beta iota. unfold reconcileApply; simpl. apply WP_ret. split; [|rewrite E; constructor].
    rewrite <-reconciled_marks by apply HI. rewrite E. by rewrite set_status_id. }
  apply WP_bind, WP_query; [by left|]. apply WP_ret. cbv beta iota. unfold reconcileApply. cbn [fst snd].
  rewrite <-E. apply WP_Transaction; [|by left]. eapply WP_mono.
  { apply reconcileLoop_ok; [done|apply stale_rows_NoDup, HI|].
    intros c' [_ Hc']%elem_of_stale_rows; [|apply HI]. by destruct (wf_status _ (proj1 HI) _ _ Hc'). }
  intros [changed|e] d' s' Hr; [|done]. simpl in Hr. rewrite reconciled_marks in Hr by apply HI.
  split; [done|]. intros e He. right. split; [done|]. by exists changed.
Qed.

End reconcile.

(** ** Sequences of operations *)

Inductive store_op :=
| OpAllocateTenant
| OpRegisterAgent (req : RegisterAgentRequest) (now : Time)
| OpHeartbeat (req : HeartbeatRequest) (now : Time)
| OpReportMetrics (req : PushMetricBatchRequest) (dg : AgentDigest) (now : Time)
| OpListHosts (code : string)
| OpGetHost (uid code : string)
| OpReconcileOffline (now : Time).

Section runs.
Context `{Env} `{PgTypes}.

Definition run_op (st : PgStore) (o : store_op) : M unit :=
  match o with
  | OpAllocateTenant => AllocateTenant st;; mret ()
  | OpRegisterAgent req now => RegisterAgent st req now;; mret ()
  | OpHeartbeat req now => Heartbeat st req now;; mret ()
  | OpReportMetrics req dg now => ReportMetrics st req dg now;; mret ()
  | OpListHosts code => ListHosts st code;; mret ()
  | OpGetHost uid code => GetHost st uid code;; mret ()
  | OpReconcileOffline now => ReconcileOffline st now;; mret ()
  end.

(** Errors are reported to the caller and the service goes on. *)
Fixpoint run_ops (st : PgStore) (ops : list store_op) (w : World) : World :=
  match ops with
  | [] => w
  | o :: ops => run_ops st ops (run_op st o w).2
  end.

Lemma keeps_run_op st o : keeps store_inv (run_op st o).
Proof.
  destruct o; apply keeps_bind; try (intros; apply keeps_ret).
  - apply keeps_AllocateTenant.
  - apply keeps_RegisterAgent.
  - apply keeps_Heartbeat.
  - apply keeps_ReportMetrics.
  - apply keeps_listHosts.
  - apply keeps_getHostByUID.
  - apply keeps_ReconcileOffline.
Qed.

Lemma keeps_run {A} (m : M A) w :
  keeps store_inv m → store_inv (w_db w) (w_seq w) → store_inv (w_db (m w).2) (w_seq (m w).2).
Proof. intros Hk HI. specialize (Hk _ _ HI w eq_refl eq_refl). by destruct (m w). Qed.

Lemma run_ops_inv st ops w :
  store_inv (w_db w) (w_seq w) → store_inv (w_db (run_ops st ops w)) (w_seq (run_ops st ops w)).
Proof.
  revert w. induction ops as [|o ops IH]; intros w HI; simpl; [done|].
  apply IH, keeps_run; [apply keeps_run_op|done].
Qed.

(** C1: starting from the empty schema, after [NewStore] and any sequence of
    store operations, whatever statements the database refuses along the way,
    the tables are well formed: keys agree with their rows, tenant codes and
    host uids are unique and not empty, agents are unique per host, and every
    host, agent, status and label row refers to rows that exist. *)
Theorem pg_reachable_wf cfg st ops :
  host_wf (w_db (run_ops st ops (NewStore cfg (world_of empty_DB ∅)).2)).
Proof.
  apply run_ops_inv. apply keeps_run; [apply keeps_NewStore|]. split; [apply empty_DB_wf|].
  intros t v Hv. simpl in Hv. simplify_map_eq.
Qed.

(** C5: a successful registration returns the snapshot now stored for the host:
    it carries the requested uid, name, address and labels and the returned tenant
    code, is [Up], seen now and one version further; the agent's row, and no other,
    is stored with its version, capabilities and default configuration and keeps
    its last sequence number; the configuration is the default
    one with the host's labels; no other host's row, labels or status changes
    and no tenant disappears or changes its code. *)
Theorem pg_RegisterAgent_spec st req now w snap cfg code w' :
  store_inv (w_db w) (w_seq w) →
  RegisterAgent st req now w = (Ok (snap, cfg, code), w') →
  ∃ uid, uid ≠ ""%string ∧ (hi_HostUID (ra_Host req) ≠ ""%string → uid = hi_HostUID (ra_Host req)) ∧
    registered st req now (w_db w) uid snap cfg code (w_db w').
Proof. intros HI E. exact (WP_run _ _ _ _ _ (RegisterAgent_ok st req now _ _ HI) E). Qed.

(** The tenant of a registration.  A known host stays in its tenant whatever
    code the request names; for an unknown host the requested code is used only
    when custom codes are allowed and it is not empty, and a fresh identifier is
    generated otherwise. *)
Theorem pg_register_tenant_choice st req now w snap cfg code w' :
  store_inv (w_db w) (w_seq w) →
  hi_HostUID (ra_Host req) ≠ ""%string →
  RegisterAgent st req now w = (Ok (snap, cfg, code), w') →
  match host_at (w_db w) (hi_HostUID (ra_Host req)) with
  | Some h => t_TenantCode <$> db_tenants (w_db w) !! h_TenantID h = Some code
  | None =>
      if ps_allowCustomTenantCode st && negb (str_empty (hi_TenantCode (ra_Host req)))
      then code = hi_TenantCode (ra_Host req)
      else ∃ nano buf, code = ids_New nano buf "tenant"
  end.
Proof.
  intros HI Hu E. apply (WP_run _ _ _ _ _ (RegisterAgent_ok st req now _ _ HI)) in E.
  destruct E as (uid & _ & Heq & hid & h & _ & _ & _ & _ & (nano & buf & Hcode) & _). rewrite Heq in Hcode by done.
  unfold register_code in Hcode.
  destruct (host_at _ _) as [h0|] eqn:Eh.
  - destruct (tenant_of_host_Some _ _ _ (proj1 HI) Eh) as (t & Ht & Hne & Hto). rewrite Hto in Hcode.
    apply str_empty_false in Hne. rewrite Hne in Hcode. simpl in Hcode. rewrite Hne in Hcode. by rewrite Ht, Hcode.
  - unfold tenant_of_host in Hcode. rewrite Eh in Hcode. simpl in Hcode.
    destruct (ps_allowCustomTenantCode st); simpl in *; [|by eauto].
    destruct (str_empty (hi_TenantCode _)); simpl in *; [by eauto|done].
Qed.

(** A heartbeat of a host and agent succeeds only when they are registered
    and then records the digest for that host alone: the metric columns, the
    times and the version of its status row, and the host's agent rows; it
    fails with [ErrHostNotFound] only for an unregistered pair, and an error
    leaves the tables alone unless the acknowledgement of the [COMMIT] was lost,
    when all of it is recorded. *)
Theorem pg_Heartbeat_spec st req now w r w' :
  store_inv (w_db w) (w_seq w) → hb_HostUID req ≠ ""%string → hb_AgentID req ≠ ""%string →
  Heartbeat st req now w = (r, w') →
  match r with
  | Ok (snap, cfg) => known_agent (w_db w) (hb_HostUID req) (hb_AgentID req) ∧
      digested (hb_Digest req) now (w_db w) (hb_HostUID req) snap (w_db w')
  | Err e => all_or_nothing (λ d', known_agent (w_db w) (hb_HostUID req) (hb_AgentID req) ∧
        ∃ snap, digested (hb_Digest req) now (w_db w) (hb_HostUID req) snap d') (w_db w) e (w_db w') ∧
      (driver_error e ∨ (e = ErrHostNotFound ∧ ¬ known_agent (w_db w) (hb_HostUID req) (hb_AgentID req)))
  end.
Proof. intros HI Hu Ha E. exact (WP_run _ _ _ _ _ (Heartbeat_spec st req now _ _ HI Hu Ha) E). Qed.

(** Reporting metrics never creates, renames or re-activates a tenant. *)
Theorem pg_report_keeps_tenants st req dg now w :
  db_tenants (w_db (ReportMetrics st req dg now w).2) = db_tenants (w_db w).
Proof.
  pose proof (fixed_ReportMetrics (db_tenants (w_db w)) st req dg now (w_db w) (w_seq w) eq_refl w eq_refl eq_refl) as Hk.
  by destruct (ReportMetrics _ _ _ _ w).
Qed.

(** A report of an unregistered agent is refused, without effect, when no
    tenant can be found for it: its host is unknown and either custom codes are
    not allowed or the code it names is blank or no tenant's. *)
Theorem pg_report_unknown_tenant st req dg now w r w' :
  store_inv (w_db w) (w_seq w) → pm_HostUID req ≠ ""%string → pm_AgentID req ≠ ""%string →
  ¬ known_agent (w_db w) (pm_HostUID req) (pm_AgentID req) →
  metric_tenant st (w_db w)
    (if str_empty (TrimSpace (hi_HostUID (pm_Host req))) then TrimSpace (pm_HostUID req)
     else TrimSpace (hi_HostUID (pm_Host req))) (hi_TenantCode (pm_Host req)) = None →
  ReportMetrics st req dg now w = (r, w') →
  w_db w' = w_db w ∧ ∃ e, r = Err e ∧ (driver_error e ∨ e = ErrTenantNotFound ∨ e = ErrHostNotFound).
Proof.
  intros HI Hu Ha Hk Ht E. exact (WP_run _ _ _ _ _ (ReportMetrics_no_tenant st req dg now _ _ HI Hu Ha Hk Ht) E).
Qed.

Lemma listHosts_pure uid code d s : WP (listHosts uid code) (λ r d' _, d' = d) d s.
Proof. by apply WP_listHosts. Qed.

Lemma reads_only {A} (m : M A) w : (∀ d s, WP m (λ _ d' _, d' = d) d s) → w_db (m w).2 = w_db w.
Proof. intros Hm. specialize (Hm _ _ w eq_refl eq_refl). by destruct (m w). Qed.

(** C6: a listing returns, in the order of the database's collation of the host
    uid, exactly the hosts of the tenants with the given code (all hosts for an
    empty code), each with its tenant's code; [GetHost] returns the listed host
    with that uid.  Neither writes, whether it succeeds or fails. *)
Theorem pg_ListHosts_spec st code w items w' :
  host_wf (w_db w) →
  ListHosts st code w = (Ok items, w') →
  (∀ w1, w_db (ListHosts st code w1).2 = w_db w1 ∧ ∀ uid, w_db (GetHost st uid code w1).2 = w_db w1) ∧ items = listing (w_db w) "" code ∧
  (∀ x, x ∈ items ↔ ∃ i h t, db_hosts (w_db w) !! i = Some h ∧ db_tenants (w_db w) !! h_TenantID h = Some t ∧
     (code = ""%string ∨ t_TenantCode t = code) ∧ x = snapshot_of (w_db w) h ∧ hs_TenantCode x = t_TenantCode t) ∧
  (∀ uid w1 x w2, w_db w1 = w_db w → uid ≠ ""%string → GetHost st uid code w1 = (Ok x, w2) →
     match x with
     | Some x => x ∈ items ∧ hs_HostUID x = uid
     | None => ∀ x, x ∈ items → hs_HostUID x ≠ uid
     end).
Proof.
  intros Hd E.
  assert (w_db w' = w_db w ∧ items = listing (w_db w) "" code) as [Hw ->].
  { apply (WP_run _ (λ r d' _, d' = w_db w ∧ match r with Ok l => l = listing (w_db w) "" code | Err _ => True end) _ _ _)
      in E; [naive_solver|]. by apply WP_listHosts. }
  split_and!; try done.
  - intros w1. split; [apply (reads_only (ListHosts st code))|intros uid; apply (reads_only (GetHost st uid code))]; intros d s;
      [by apply WP_listHosts|by apply WP_getHostByUID].
  - intros x. rewrite elem_of_listing by done. split.
    + intros (i & h & Hi & -> & _ & Hc). destruct (wf_host _ Hd _ _ Hi) as (_ & _ & _ & [t Ht]).
      exists i, h, t. rewrite (snapshot_of_tenant _ _ _ Ht). split_and!; try done.
      destruct Hc as [?|(t' & ? & ?)]; [by left|right; congruence].
    + intros (i & h & t & Hi & Ht & Hc & -> & _). exists i, h. split_and!; eauto. naive_solver.
  - intros uid w1 x w2 Hw1 Hu Eg.
    apply (WP_run _ (λ r d' _, match r with Ok x => x = head (listing (w_db w1) uid code) | Err _ => True end)) in Eg;
      [|by apply WP_getHostByUID]. rewrite Hw1 in Eg.
    destruct x as [x|].
    + symmetry in Eg. apply head_Some_elem_of in Eg. rewrite elem_of_listing in Eg by done.
      destruct Eg as (i & h & Hi & -> & [?|He] & Hc); [done|]. rewrite snapshot_of_uid.
      split; [|done]. apply elem_of_listing; [done|]. exists i, h. auto.
    + intros x Hx Hux. symmetry in Eg. apply head_None in Eg.
      assert (x ∈ listing (w_db w) uid code) as Hin; [|rewrite Eg in Hin; set_solver].
      apply elem_of_listing in Hx as (i & h & Hi & -> & _ & Hc); [|done].
      apply elem_of_listing; [done|]. exists i, h. rewrite snapshot_of_uid in Hux. auto.
Qed.

(** A successful pass of the offline scan turns exactly the stale rows (seen
    more than fifteen seconds ago and neither offline state set) to offline,
    each one version further, leaves every other row and table alone and
    returns the new snapshots of those hosts in the order of their ids; a
    second pass at the same time changes nothing and returns nothing; a failing
    pass has no effect, or all of it when only its acknowledgement was lost. *)
Theorem pg_ReconcileOffline_spec st now w r w' :
  store_inv (w_db w) (w_seq w) →
  ReconcileOffline st now w = (r, w') →
  match r with
  | Err e => all_or_nothing (λ d', ∃ changed, turned now (w_db w) d' changed) (w_db w) e (w_db w')
  | Ok changed =>
      turned now (w_db w) (w_db w') changed ∧
      ∀ r2 w2, ReconcileOffline st now w' = (r2, w2) →
        w_db w2 = w_db w' ∧ match r2 with Ok l => l = [] | Err _ => True end
  end.
Proof.
  intros HI E. pose proof (keeps_run (ReconcileOffline st now) w (keeps_ReconcileOffline st now) HI) as HI'.
  rewrite E in HI'. simpl in HI'.
  apply (WP_run _ _ _ _ _ (ReconcileOffline_spec st now _ _ HI)) in E. destruct r as [changed|e]; [|done].
  split; [done|]. destruct E as [Hd Hall]. intros r2 w2 E2.
  apply (WP_run _ _ _ _ _ (ReconcileOffline_spec st now _ _ HI')) in E2.
  assert (stale_rows now (w_db w') = []) as Hno by (rewrite Hd; apply reconciled_no_stale, HI).
  assert (reconciled now (w_db w') = w_db w') as Hsame.
  { rewrite <-reconciled_marks by apply HI'. rewrite Hno. by rewrite set_status_id. }
  destruct r2 as [l|e2]; [|split; [|done]; destruct E2 as [E2|[_ (? & E2 & _)]]; by rewrite ?Hsame in E2].
  destruct E2 as [Hd2 Hall2]. rewrite Hno in Hall2. split; [by rewrite Hd2|by apply Forall2_nil_inv_l in Hall2].
Qed.

End runs.

(** ** Concrete runs *)

Section examples.
#[local] Existing Instance Env_quiet.
#[local] Existing Instance PgTypes_exact.

Definition ex_store : PgStore := mkPgStore 1 true.
Definition ex_world0 : World := (NewStore (mkConfig "" "" true) (world_of empty_DB ∅)).2.
Definition ex_identity (uid tenant : string) : HostIdentity :=
  mkHostIdentity uid tenant "web-1" "10.0.0.1" [] "linux" "amd64" "eu" "" "" "" {["rack" := "r1"]}.
Definition ex_agent : AgentMetadata := mkAgentMetadata "agent-1" "1.0" ["metrics"] 0.
Definition ex_register : RegisterAgentRequest := mkRegisterAgentRequest (ex_identity "host-a" "acme") ex_agent.
Definition ex_world1 : World := run_ops ex_store [OpRegisterAgent ex_register (100 * Second)] ex_world0.
Definition ex_digest : AgentDigest :=
  mkAgentDigest f64_zero f64_zero 7 f64_zero f64_zero 9 f64_zero 1 2 3 4 f64_zero 5 6 7 8 0 0.
Definition ex_heartbeat (uid : string) : HeartbeatRequest := mkHeartbeatRequest uid "agent-1" 5 0 ex_digest.
Definition ex_report (uid tenant : string) : PushMetricBatchRequest :=
  mkPushMetricBatchRequest uid "agent-1" 6 0 (ex_identity uid tenant) ex_agent [] [] ex_digest.

Lemma ex_world0_inv : store_inv (w_db ex_world0) (w_seq ex_world0).
Proof.
  apply keeps_run; [apply keeps_NewStore|]. split; [apply empty_DB_wf|].
  intros t v Hv. simpl in Hv. simplify_map_eq.
Qed.
Lemma ex_world1_inv : store_inv (w_db ex_world1) (w_seq ex_world1).
Proof. apply run_ops_inv, ex_world0_inv. Qed.

Lemma pg_RegisterAgent_spec_witness :
  match RegisterAgent ex_store ex_register (100 * Second) ex_world0 with
  | (Ok (snap, cfg, code), w') => ∃ uid, registered ex_store ex_register (100 * Second) (w_db ex_world0) uid snap cfg code (w_db w')
  | _ => False
  end.
Proof.
  assert (is_ok (RegisterAgent ex_store ex_register (100 * Second) ex_world0).1 = true) as Hk by (vm_compute; reflexivity).
  destruct (RegisterAgent ex_store ex_register (100 * Second) ex_world0) as [[[[snap cfg] code]|e] w'] eqn:E; [|discriminate Hk].
  destruct (pg_RegisterAgent_spec ex_store ex_register (100 * Second) ex_world0 snap cfg code w' ex_world0_inv E)
    as (uid & _ & _ & Hr).
  exists uid. exact Hr.
Defined.

(** The host of [ex_world1] asks for another tenant and stays where it is. *)
Lemma pg_register_tenant_choice_witness :
  match RegisterAgent ex_store (mkRegisterAgentRequest (ex_identity "host-a" "other") ex_agent) 0 ex_world1 with
  | (Ok (_, _, code), _) => code = "acme"%string
  | _ => False
  end.
Proof.
  set (req := mkRegisterAgentRequest (ex_identity "host-a" "other") ex_agent).
  assert (is_ok (RegisterAgent ex_store req 0 ex_world1).1 = true) as Hk by (vm_compute; reflexivity).
  destruct (RegisterAgent ex_store req 0 ex_world1) as [[[[snap cfg] code]|e] w'] eqn:E; [|discriminate Hk].
  assert (hi_HostUID (ra_Host req) ≠ ""%string) as Hu by discriminate.
  pose proof (pg_register_tenant_choice ex_store req 0 ex_world1 snap cfg code w' ex_world1_inv Hu E) as Hc.
  vm_compute in Hc. injection Hc as Hc. by rewrite Hc.
Defined.

Lemma pg_Heartbeat_spec_witness :
  match Heartbeat ex_store (ex_heartbeat "host-a") (200 * Second) ex_world1 with
  | (Ok (snap, _), w') => digested ex_digest (200 * Second) (w_db ex_world1) "host-a" snap (w_db w')
  | _ => False
  end.
Proof.
  assert (is_ok (Heartbeat ex_store (ex_heartbeat "host-a") (200 * Second) ex_world1).1 = true) as Hk by (vm_compute; reflexivity).
  destruct (Heartbeat ex_store (ex_heartbeat "host-a") (200 * Second) ex_world1) as [[[snap cfg]|e] w'] eqn:E; [|discriminate Hk].
  assert (hb_HostUID (ex_heartbeat "host-a") ≠ ""%string ∧ hb_AgentID (ex_heartbeat "host-a") ≠ ""%string) as [Hu Ha]
    by (split; discriminate).
  exact (proj2 (pg_Heartbeat_spec ex_store (ex_heartbeat "host-a") (200 * Second) ex_world1 _ w' ex_world1_inv Hu Ha E)).
Defined.

Lemma ex_ghost_unknown : ¬ known_agent (w_db ex_world1) "ghost" "agent-1".
Proof.
  intros (h & j & a & Hh & Hu & _).
  assert (host_at (w_db ex_world1) "ghost" = None) as Hn by (vm_compute; reflexivity).
  assert ("ghost" ≠ "")%string as Hne by discriminate.
  exact (host_at_None _ _ _ _ Hne Hn Hh Hu).
Qed.

Lemma pg_report_unknown_tenant_witness :
  match ReportMetrics ex_store (ex_report "ghost" "nobody") ex_digest 0 ex_world1 with
  | (Err e, w') => w_db w' = w_db ex_world1
  | _ => False
  end.
Proof.
  assert (is_ok (ReportMetrics ex_store (ex_report "ghost" "nobody") ex_digest 0 ex_world1).1 = false) as Hk by (vm_compute; reflexivity).
  destruct (ReportMetrics ex_store (ex_report "ghost" "nobody") ex_digest 0 ex_world1) as [[a|e] w'] eqn:E; [discriminate Hk|].
  assert (pm_HostUID (ex_report "ghost" "nobody") ≠ ""%string ∧ pm_AgentID (ex_report "ghost" "nobody") ≠ ""%string) as [Hu Ha]
    by (split; discriminate).
  refine (proj1 (pg_report_unknown_tenant ex_store (ex_report "ghost" "nobody") ex_digest 0 ex_world1 _ w'
    ex_world1_inv Hu Ha ex_ghost_unknown _ E)).
  vm_compute. reflexivity.
Defined.

Lemma pg_ListHosts_spec_witness :
  match ListHosts ex_store "acme" ex_world1 with
  | (Ok items, w') => items = listing (w_db ex_world1) "" "acme" ∧ length items = 1%nat
  | _ => False
  end.
Proof.
  assert (length <$> (ListHosts ex_store "acme" ex_world1).1 = Ok 1%nat) as Hk by (vm_compute; reflexivity).
  destruct (ListHosts ex_store "acme" ex_world1) as [[items|e] w'] eqn:E; [|discriminate Hk].
  split; [|by injection Hk].
  exact (proj1 (proj2 (pg_ListHosts_spec ex_store "acme" ex_world1 items w' (proj1 ex_world1_inv) E))).
Defined.

Lemma pg_ReconcileOffline_spec_witness :
  match ReconcileOffline ex_store (200 * Second) ex_world1 with
  | (Ok changed, w') => length changed = 1%nat ∧ w_db w' = reconciled (200 * Second) (w_db ex_world1)
  | _ => False
  end.
Proof.
  assert (length <$> (ReconcileOffline ex_store (200 * Second) ex_world1).1 = Ok 1%nat) as Hk by (vm_compute; reflexivity).
  destruct (ReconcileOffline ex_store (200 * Second) ex_world1) as [[changed|e] w'] eqn:E; [|discriminate Hk].
  split; [by injection Hk|].
  exact (proj1 (proj1 (pg_ReconcileOffline_spec ex_store (200 * Second) ex_world1 _ w' ex_world1_inv E))).
Defined.

(** The scan reads its rows outside the transaction that writes them.  A
    heartbeat that commits in between is overwritten: the host that was seen a
    moment ago is stored as offline and the version step of the heartbeat is
    lost. *)
Theorem pg_reconcile_overwrites_heartbeat :
  ∃ w now,
    let scanned := reconcileScan now w in
    let beaten := Heartbeat ex_store (ex_heartbeat "host-a") now scanned.2 in
    match scanned.1 with
    | Ok scan =>
        let applied := reconcileApply now scan beaten.2 in
        is_ok beaten.1 = true ∧ is_ok applied.1 = true ∧
        (st_OverallState <$> db_status (w_db beaten.2) !! 1 = Some Up) ∧
        (st_OverallState <$> db_status (w_db applied.2) !! 1 = Some Offline) ∧
        (st_LastAgentSeenAt <$> db_status (w_db applied.2) !! 1 = Some (Some now)) ∧
        (st_Version <$> db_status (w_db applied.2) !! 1 = st_Version <$> db_status (w_db beaten.2) !! 1)
    | Err _ => False
    end.
Proof. exists ex_world1, (200 * Second). vm_compute. split_and!; reflexivity. Qed.

(** Registering an agent re-activates the tenant it names and overwrites
    the tenant's name: a tenant with status 0 is stored with status 1 and its
    own code as its name. *)
Theorem pg_register_reactivates_tenant :
  ∃ d w', d = set_tenants {[1 := mkTenant 1 "acme" "Acme Corp" 0]} empty_DB ∧
    RegisterAgent ex_store ex_register 0 (world_of d {["tenants" := 1]}) = w' ∧ is_ok w'.1 = true ∧
    db_tenants (w_db w'.2) !! 1 = Some (mkTenant 1 "acme" "acme" 1).
Proof. eexists _, _. split_and!; [reflexivity..|vm_compute; reflexivity|vm_compute; reflexivity]. Qed.

End examples.
