(* ===== verification/HostAtomic.v ===== *)
(** * All or nothing: the PostgreSQL host store

    The calls of [HostStore] are atomic: whichever statement the database refuses,
    and whether a failed [COMMIT] was carried out or not, a call that returns an
    error has changed nothing or done everything.  Holds because each call writes
    in one transaction, reads nothing of the outside after it, and a registration
    inside [ReportMetrics] shares its transaction. *)

From stdpp Require Import gmap strings list.
From S2P Require Import Prelude GoRuntime GoStrings Contracts Sql Atomic HostStore HostStoreProps.
Local Open Scope Z_scope.

Section until.
Context {E : Env} `{PgTypes} (n : nat).

Lemma until_listHosts uid code : until n (listHosts uid code) (@listHosts (acked E n) _ uid code).
Proof. unfold listHosts. until. Qed.
Lemma until_getHostByUID uid code : until n (getHostByUID uid code) (@getHostByUID (acked E n) _ uid code).
Proof. apply until_bind; [apply until_listHosts|]. until. Qed.
Lemma until_findHostByUID st uid b : until n (findHostByUID st uid b) (@findHostByUID (acked E n) st uid b).
Proof. unfold findHostByUID. until. Qed.
Lemma until_findAgentConfig hid aid : until n (findAgentConfig hid aid) (@findAgentConfig (acked E n) hid aid).
Proof. unfold findAgentConfig. until. Qed.
Lemma until_ensureTenant code name : until n (ensureTenant code name) (@ensureTenant (acked E n) code name).
Proof. unfold ensureTenant. until. Qed.
Lemma until_lookupTenantCodeByHostUID uid : until n (lookupTenantCodeByHostUID uid) (@lookupTenantCodeByHostUID (acked E n) uid).
Proof. unfold lookupTenantCodeByHostUID. until. Qed.
#[local] Hint Resolve until_listHosts until_getHostByUID until_findHostByUID until_findAgentConfig until_ensureTenant
  until_lookupTenantCodeByHostUID : until.
Lemma until_lookupAgentInstance st uid aid : until n (lookupAgentInstance st uid aid) (@lookupAgentInstance (acked E n) st uid aid).
Proof. unfold lookupAgentInstance. until. Qed.
Lemma until_resolveTenantForMetric st uid code : until n (resolveTenantForMetric st uid code) (@resolveTenantForMetric (acked E n) st uid code).
Proof. unfold resolveTenantForMetric. until. Qed.
Lemma until_resolveTenantForRegister st uid code :
  until n (resolveTenantForRegister st uid code) (@resolveTenantForRegister (acked E n) st uid code).
Proof. unfold resolveTenantForRegister. until. Qed.
Lemma until_upsertHost tid uid req now : until n (upsertHost tid uid req now) (@upsertHost (acked E n) _ tid uid req now).
Proof. unfold upsertHost. until. Qed.
Lemma until_replaceLabels hid l : until n (replaceLabels hid l) (@replaceLabels (acked E n) hid l).
Proof. unfold replaceLabels. until. Qed.
Lemma until_upsertAgentInstance hid req now : until n (upsertAgentInstance hid req now) (@upsertAgentInstance (acked E n) _ hid req now).
Proof. unfold upsertAgentInstance. until. Qed.
Lemma until_upsertRegisteredStatus hid now : until n (upsertRegisteredStatus hid now) (@upsertRegisteredStatus (acked E n) _ hid now).
Proof. unfold upsertRegisteredStatus. until. Qed.
Lemma until_upsertDigestStatus hid dg now : until n (upsertDigestStatus hid dg now) (@upsertDigestStatus (acked E n) _ hid dg now).
Proof. unfold upsertDigestStatus. until. Qed.
Lemma until_updateAgentInstanceState hid aid seq now :
  until n (updateAgentInstanceState hid aid seq now) (@updateAgentInstanceState (acked E n) _ hid aid seq now).
Proof. unfold updateAgentInstanceState. until. Qed.
#[local] Hint Resolve until_lookupAgentInstance until_resolveTenantForMetric until_resolveTenantForRegister until_upsertHost
  until_replaceLabels until_upsertAgentInstance until_upsertRegisteredStatus until_upsertDigestStatus until_updateAgentInstanceState : until.
Lemma until_bootstrapHostForMetric st req now :
  until n (bootstrapHostForMetric st req now) (@bootstrapHostForMetric (acked E n) _ st req now).
Proof. unfold bootstrapHostForMetric. until. Qed.
Lemma until_reconcileScan now : until n (reconcileScan now) (@reconcileScan (acked E n) _ now).
Proof. unfold reconcileScan. until. Qed.
Lemma until_markOffline now r : until n (markOffline now r) (@markOffline (acked E n) _ now r).
Proof. unfold markOffline. until. Qed.
Lemma until_reconcileLoop hosts now l : until n (reconcileLoop hosts now l) (@reconcileLoop (acked E n) _ hosts now l).
Proof.
  induction l as [|c l IH]; simpl; [apply until_ret|]. apply until_bind; [apply until_markOffline|]. intros [].
  apply until_bind; [apply until_getHostByUID|]. intros item. apply until_bind; [exact IH|]. intros changed. apply until_ret.
Qed.
End until.

#[export] Hint Resolve until_listHosts until_getHostByUID until_ensureTenant until_lookupAgentInstance until_resolveTenantForRegister
  until_upsertHost until_replaceLabels until_upsertAgentInstance until_upsertRegisteredStatus until_upsertDigestStatus
  until_updateAgentInstanceState until_bootstrapHostForMetric until_reconcileScan until_reconcileLoop : until.

(** ** The calls *)

Section atomic.
Context `{PgTypes}.

Lemma atomic_ensureTenant code name : atomic (λ E, @ensureTenant E code name).
Proof.
  unfold ensureTenant. apply (atomic_after_read (λ E, @query E _ _)); [intros; readonly|intros; until|].
  intros [t|]; apply atomic_then_ret, atomic_autocommit; intros.
  - apply until_exec.
  - by eapply exec_error.
  - apply until_insert_serial.
  - by eapply insert_serial_error.
Qed.

Lemma atomic_AllocateTenant st : atomic (λ E, @AllocateTenant E st).
Proof.
  unfold AllocateTenant. apply (atomic_after_read (λ E, @new_id E "tenant")); [intros; readonly|intros; until|].
  intros code. apply atomic_then_ret, atomic_ensureTenant.
Qed.
Lemma atomic_RegisterAgent st req now : atomic (λ E, @RegisterAgent E _ st req now).
Proof. unfold RegisterAgent. apply atomic_Transaction. until. Qed.
Lemma atomic_Heartbeat st req now : atomic (λ E, @Heartbeat E _ st req now).
Proof. unfold Heartbeat. apply atomic_Transaction. until. Qed.
Lemma atomic_ReportMetrics st req dg now : atomic (λ E, @ReportMetrics E _ st req dg now).
Proof. unfold ReportMetrics. apply atomic_Transaction. until. Qed.
Lemma atomic_ReconcileOffline st now : atomic (λ E, @ReconcileOffline E _ st now).
Proof.
  unfold ReconcileOffline. apply (atomic_after_read (λ E, @reconcileScan E _ now)).
  - intros E. unfold reconcileScan. readonly.
  - intros. until.
  - intros [l hosts]. unfold reconcileApply. simpl. destruct l; [apply atomic_readonly; intros; readonly|].
    apply atomic_Transaction. until.
Qed.

Lemma readonly_listHosts {E : Env} uid code : readonly (listHosts uid code).
Proof. unfold listHosts. readonly. Qed.

Lemma atomic_run_op st o : atomic (λ E, @run_op E _ st o).
Proof.
  destruct o; simpl; apply (atomic_then_ret _ (λ _, ())).
  - apply atomic_AllocateTenant.
  - apply atomic_RegisterAgent.
  - apply atomic_Heartbeat.
  - apply atomic_ReportMetrics.
  - apply atomic_readonly. intros E. apply readonly_listHosts.
  - apply atomic_readonly. intros E. apply readonly_bind; [apply readonly_listHosts|readonly].
  - apply atomic_ReconcileOffline.
Qed.

(** C2: a call of the store that returns an error has left every table as it was,
    at whichever statement it failed, with one exception: when the error is that
    of a [COMMIT] whose acknowledgement was lost, the tables and sequences are
    exactly those the same call leaves, without an error, when that [COMMIT] is
    acknowledged.  So a call never leaves a part of its effect. *)
Theorem pg_error_atomic (E : Env) st o w e w' :
  run_op st o w = (Err e, w') →
  w_db w' = w_db w ∨
  ∃ n code, env_fault n = Some code ∧ env_unacked n = true ∧ e = ErrDatabase code ∧ @run_op (acked E n) _ st o w = (Ok (), w').
Proof.
  intros Ew. destruct (atomic_run_op st o E w e w' Ew) as [?|(n & code & [] & ? & ? & ? & _ & ?)]; [by left|right; eauto 10].
Qed.

End atomic.

(** ** Concrete failures *)

Section examples.
#[local] Existing Instance PgTypes_exact.

(** The interaction [k] fails; a failed [COMMIT] was carried out. *)
#[local, refine] Instance Env_lost (k : nat) : Env := {|
  env_fault i := if decide (i = k) then Some 7%nat else None; env_unacked _ := true;
  env_nano n := Z.of_nat n; env_now n := Z.of_nat n; env_rand tick n := Some (replicate n (Ascii.ascii_of_nat tick))
|}.
Proof. intros tick n b [= <-]. apply length_replicate. Defined.

Definition ex_start : World := world_of (w_db ex_world1) (w_seq ex_world1).
Definition ex_beat (k : nat) : res () * World :=
  @run_op (Env_lost k) _ ex_store (OpHeartbeat (ex_heartbeat "host-a") (200 * Second)) ex_start.
Definition ex_seen (w : World) : option (option Time) := st_LastAgentSeenAt <$> db_status (w_db w) !! 1.

(** A heartbeat whose update is refused leaves nothing. *)
Example ex_refused : is_ok (ex_beat 5).1 = false ∧ ex_seen (ex_beat 5).2 = ex_seen ex_start.
Proof. vm_compute. by split. Qed.

(** One whose [COMMIT] is not acknowledged returns an error as well, and the host
    has been seen: it has done what the acknowledged heartbeat does. *)
Lemma pg_error_atomic_witness :
  is_ok (ex_beat 11).1 = false ∧ ex_seen (ex_beat 11).2 = Some (Some (200 * Second)) ∧
  ∃ n, @run_op (acked (Env_lost 11) n) _ ex_store (OpHeartbeat (ex_heartbeat "host-a") (200 * Second)) ex_start = (Ok (), (ex_beat 11).2).
Proof.
  assert (is_ok (ex_beat 11).1 = false ∧ ex_seen (ex_beat 11).2 = Some (Some (200 * Second)) ∧ ex_seen ex_start = Some (Some (100 * Second))) as (Hk & Hs & H0)
    by (vm_compute; by repeat split).
  split; [exact Hk|]. split; [exact Hs|]. revert Hk Hs. unfold ex_beat.
  destruct (run_op ex_store (OpHeartbeat (ex_heartbeat "host-a") (200 * Second)) ex_start) as [[a|e] w'] eqn:E; [discriminate|]. intros _ Hs. simpl in Hs.
  destruct (pg_error_atomic (Env_lost 11) ex_store _ ex_start e w' E) as [Hd|(n & code & _ & _ & _ & Hr)].
  - unfold ex_seen in Hs, H0. rewrite Hd, H0 in Hs. discriminate Hs.
  - exists n. exact Hr.
Defined.

End examples.
