(* ===== verification/Registry.v ===== *)
(** * The host registry: one contract, two stores

    [HostStateStore] has two implementations, the in-memory store and the
    PostgreSQL store.  This file states what they promise together, as an abstract
    machine over a map from host uids to snapshots, and proves that every run of
    either of them is a run of that machine. *)

From stdpp Require Import gmap strings list relations.
From S2P Require Import Prelude GoRuntime GoStrings Contracts MemoryStore MemoryConcurrent Sql Atomic HostStore HostStoreProps HostAtomic.
Local Open Scope Z_scope.

(** ** The contract *)

Abbreviation Reg := (gmap string HostSnapshot).

(** A host that was just heard of. *)
Definition live (x : HostSnapshot) : Prop := hs_AgentState x = Up ∧ hs_OverallState x = Up.
Definition silent (x : HostSnapshot) : Prop := hs_AgentState x = Offline ∧ hs_OverallState x = Offline.

(** What only a registration changes. *)
Definition same_identity (x y : HostSnapshot) : Prop :=
  hs_HostUID y = hs_HostUID x ∧ hs_TenantCode y = hs_TenantCode x ∧ hs_Hostname y = hs_Hostname x ∧
  hs_PrimaryIP y = hs_PrimaryIP x ∧ hs_Labels y = hs_Labels x.

(** The version of a host, 0 before its first registration. *)
Definition version (r : Reg) (uid : string) : Z := match r !! uid with Some x => hs_Version x | None => 0 end.

Definition silenced (x y : HostSnapshot) : Prop :=
  y = x ∨ (same_identity x y ∧ silent y ∧ hs_Version y = int64_incr (hs_Version x)).

(** A host is registered, in the tenant it had up to white space around the
    code; a known host reports; hosts fall silent.  Every change is a step of the
    version of the host, and no step removes a host. *)
Inductive reg_step : Reg → Reg → Prop :=
| reg_register r x :
    hs_HostUID x ≠ ""%string → hs_TenantCode x ≠ ""%string → live x → hs_Version x = int64_incr (version r (hs_HostUID x)) →
    (∀ old, r !! hs_HostUID x = Some old → TrimSpace (hs_TenantCode x) = TrimSpace (hs_TenantCode old)) →
    reg_step r (<[hs_HostUID x := x]> r)
| reg_report r old x :
    r !! hs_HostUID x = Some old → same_identity old x → live x → hs_Version x = int64_incr (hs_Version old) →
    reg_step r (<[hs_HostUID x := x]> r)
| reg_silence r r' :
    (∀ uid, option_Forall2 silenced (r !! uid) (r' !! uid)) → reg_step r r'.

(** What a client reads. *)
Definition reg_get (r : Reg) (uid code : string) : option HostSnapshot :=
  x ← r !! uid; if str_empty code || str_eqb (hs_TenantCode x) code then Some x else None.

(** *** Consequences, for any implementation *)

Definition keyed (r : Reg) : Prop := ∀ uid x, r !! uid = Some x → hs_HostUID x = uid ∧ uid ≠ ""%string ∧ hs_TenantCode x ≠ ""%string.

Lemma silenced_identity x y : silenced x y → same_identity x y.
Proof. intros [-> | [? _]]; [by repeat split|done]. Qed.

Lemma reg_step_keyed r r' : reg_step r r' → keyed r → keyed r'.
Proof.
  intros Hs Hk. destruct Hs as [r x Hu Ht _ _ _|r old x Ho Hi _ _|r r' Hall]; intros uid y Hy.
  - apply lookup_insert_Some in Hy as [[<- <-]|[_ Hy]]; [done|by apply Hk].
  - apply lookup_insert_Some in Hy as [[<- <-]|[_ Hy]]; [|by apply Hk].
    destruct (Hk _ _ Ho) as (_ & ? & ?). destruct Hi as (_ & -> & _). done.
  - specialize (Hall uid). rewrite Hy in Hall. inversion Hall as [x y' Hsil Hx|]; subst. symmetry in Hx.
    destruct (Hk _ _ Hx) as (? & ? & ?). apply silenced_identity in Hsil as (-> & -> & _). done.
Qed.

(** A host stays, in its tenant. *)
Definition stays (x y : HostSnapshot) : Prop := hs_HostUID y = hs_HostUID x ∧ TrimSpace (hs_TenantCode y) = TrimSpace (hs_TenantCode x).

Lemma reg_step_stays r r' uid x : reg_step r r' → r !! uid = Some x → keyed r → ∃ y, r' !! uid = Some y ∧ stays x y.
Proof.
  intros Hs Hx Hk. destruct Hs as [r z Hu Ht _ _ Ho|r old z Ho Hi _ _|r r' Hall].
  - destruct (decide (hs_HostUID z = uid)) as [<-|Hne]; [|exists x; by rewrite lookup_insert_ne].
    exists z. rewrite lookup_insert, decide_True by done. split; [done|]. split; [by destruct (Hk _ _ Hx) as (-> & _)|by apply Ho].
  - destruct (decide (hs_HostUID z = uid)) as [<-|Hne]; [|exists x; by rewrite lookup_insert_ne].
    exists z. rewrite lookup_insert, decide_True by done. assert (x = old) as -> by congruence.
    destruct Hi as (E1 & E2 & _). split; [done|]. split; [done|by rewrite E2].
  - specialize (Hall uid). rewrite Hx in Hall. inversion Hall as [x' y Hsil Hx' Hy|]; subst. exists y.
    apply silenced_identity in Hsil as (E1 & E2 & _). split; [done|]. split; [done|by rewrite E2].
Qed.

Lemma reg_steps_keyed r r' : rtc reg_step r r' → keyed r → keyed r'.
Proof. induction 1; [done|]. eauto using reg_step_keyed. Qed.

Lemma reg_steps_stays r r' uid x :
  rtc reg_step r r' → keyed r → r !! uid = Some x → ∃ y, r' !! uid = Some y ∧ stays x y.
Proof.
  intros Hr. revert x. induction Hr as [r|r r1 r2 Hs _ IH]; intros x Hk Hx; [by exists x|].
  destruct (reg_step_stays _ _ _ _ Hs Hx Hk) as (y & Hy & Hxy). destruct (IH y) as (z & Hz & Hyz); [by eapply reg_step_keyed|done|].
  exists z. split; [done|]. destruct Hxy as [E1 E2], Hyz as [E3 E4]. split; congruence.
Qed.

Lemma empty_keyed : keyed ∅.
Proof. intros uid x Hx. by rewrite lookup_empty in Hx. Qed.

(** ** The in-memory store *)

Lemma memory_step_refines s s' : MemoryStore.step s s' → store_wf s → rtc reg_step (MemoryStore.st_hosts s) (MemoryStore.st_hosts s').
Proof.
  intros Hs Hwf. destruct Hs as [s eh et req now|s req now|s e req|s a b|s now|s e|s id|s id]; try apply rtc_refl.
  - rewrite RegisterAgent_hosts. apply rtc_once. set (uid := registered_uid eh req). set (x := registerSnapshot _ _ _ _ _).
    change uid with (hs_HostUID x). constructor.
    + apply registered_uid_nonempty.
    + apply registered_tenant_nonempty.
    + done.
    + unfold version. simpl. by destruct (MemoryStore.st_hosts s !! uid).
    + intros old Hold. f_equal. apply registered_tenant_existing; [by apply (MemoryStore.wf_tenant s Hwf)|]. by apply (wf_nonempty s Hwf _ _ Hold).
  - rewrite Heartbeat_state. destruct (MemoryStore.st_hosts s !! hb_HostUID req) as [old|] eqn:E; [|done]. apply rtc_once. simpl.
    rewrite <-(wf_uid s Hwf _ _ E). set (x := heartbeatSnapshot _ _ _). change (hs_HostUID old) with (hs_HostUID x).
    apply (reg_report _ old); [|done..]. change (hs_HostUID x) with (hs_HostUID old). by rewrite (wf_uid s Hwf _ _ E).
  - rewrite MemoryStore.ReconcileOffline_state. apply rtc_once. simpl. apply reg_silence. intros uid. rewrite lookup_fmap.
    destruct (MemoryStore.st_hosts s !! uid) as [x|]; simpl; constructor. destruct (stale now x); [right|by left].
    by split_and!.
  - unfold MemoryStore.cancel. by case_match.
Qed.

Lemma memory_steps_refine s s' :
  rtc MemoryStore.step s s' → store_wf s → rtc reg_step (MemoryStore.st_hosts s) (MemoryStore.st_hosts s').
Proof.
  induction 1 as [s0|s0 s1 s2 Hs _ IH]; intros Hwf; [done|]. etrans; [by apply memory_step_refines|]. apply IH. by eapply step_wf.
Qed.

(** C38: the in-memory store implements the registry: every store it can reach by
    concurrent calls is reached by a run of the contract, and a client reads from
    it what the contract says. *)
Theorem memory_registry_refined cfg y :
  rtc sys_step (start cfg) y →
  rtc reg_step ∅ (MemoryStore.st_hosts (sy_store y)) ∧
  ∀ uid code, MemoryStore.GetHost (sy_store y) uid code =
    match reg_get (MemoryStore.st_hosts (sy_store y)) uid code with Some x => (x, true) | None => (zero_HostSnapshot, false) end.
Proof.
  intros Hr. pose proof (si_wf _ (sys_steps_inv _ _ Hr (start_inv cfg))) as Hwf. split.
  - destruct (sys_steps_atomic cfg y Hr) as (t & Ht & ->). by apply (memory_steps_refine (MemoryStore.NewStore cfg)), NewStore_wf.
  - intros uid code. unfold MemoryStore.GetHost, reg_get. destruct (MemoryStore.st_hosts (sy_store y) !! uid) as [x|] eqn:E; [|done]. simpl.
    unfold MemoryStore.tenant_of. rewrite (MemoryStore.wf_tenant _ Hwf _ _ E). simpl. by destruct (str_empty code), (str_eqb (hs_TenantCode x) code).
Qed.

(** ** The PostgreSQL store *)

Section postgres.
Context `{Env} `{PgTypes}.
Implicit Types (d : DB) (s : Seqs).

Definition registry (d : DB) : Reg := list_to_map ((λ h, (h_HostUID h, snapshot_of d h)) <$> rows (db_hosts d)).

Lemma rows_uids_NoDup d : host_wf d → NoDup (h_HostUID <$> rows (db_hosts d)).
Proof.
  intros Hd. unfold rows. rewrite <-list_fmap_compose. apply NoDup_fmap_2_strong; [|apply NoDup_map_to_list].
  intros [i h] [j h'] Hi%elem_of_map_to_list Hj%elem_of_map_to_list Hu. simpl in Hu.
  pose proof (wf_host_uid _ Hd _ _ _ _ Hi Hj Hu) as <-. congruence.
Qed.

Lemma registry_lookup d uid x :
  host_wf d → registry d !! uid = Some x ↔ ∃ i h, db_hosts d !! i = Some h ∧ h_HostUID h = uid ∧ x = snapshot_of d h.
Proof.
  intros Hd. unfold registry. rewrite <-elem_of_list_to_map.
  2: { rewrite <-list_fmap_compose. by apply rows_uids_NoDup. }
  rewrite list_elem_of_fmap. split.
  - intros (h & [= -> ->] & [i Hi]%elem_of_rows). by exists i, h.
  - intros (i & h & Hi & <- & ->). exists h. split; [done|]. apply elem_of_rows. by exists i.
Qed.

Lemma registry_None d uid : host_wf d → registry d !! uid = None ↔ ∀ i h, db_hosts d !! i = Some h → h_HostUID h ≠ uid.
Proof.
  intros Hd. rewrite eq_None_not_Some. split.
  - intros Hn i h Hi Hu. destruct Hn. exists (snapshot_of d h). apply registry_lookup; [done|]. by exists i, h.
  - intros Hn [x Hx]. apply registry_lookup in Hx as (i & h & Hi & Hu & _); [|done]. by destruct (Hn i h Hi).
Qed.

(** A client reads the registry. *)
Lemma registry_get d uid code : host_wf d → uid ≠ ""%string → head (listing d uid code) = reg_get (registry d) uid code.
Proof.
  intros Hd Hu. unfold reg_get. destruct (head (listing d uid code)) as [x|] eqn:E.
  - apply head_Some_elem_of in E. apply elem_of_listing in E as (i & h & Hi & -> & [?|Hh] & Hc); [done| |done].
    assert (registry d !! uid = Some (snapshot_of d h)) as -> by (apply registry_lookup; [done|]; by exists i, h). simpl.
    destruct Hc as [-> | (t & Ht & <-)]; [done|]. by rewrite (snapshot_of_tenant _ _ _ Ht), str_eqb_refl, orb_true_r.
  - destruct (registry d !! uid) as [x|] eqn:Er; [|done]. simpl. destruct (_ || _) eqn:Ec; [|done].
    apply registry_lookup in Er as (i & h & Hi & Hh & ->); [|done]. apply head_None in E.
    assert (snapshot_of d h ∈ listing d uid code) as Hin; [|rewrite E in Hin; set_solver]. apply elem_of_listing; [done|].
    exists i, h. split_and!; [done..|by right|]. apply orb_true_iff in Ec as [Ec|Ec]; [left; by apply str_empty_true|right].
    destruct (HostStore.wf_host _ Hd _ _ Hi) as (_ & _ & _ & t & Ht). exists t. split; [done|].
    rewrite (snapshot_of_tenant _ _ _ Ht) in Ec. by apply str_eqb_true in Ec.
Qed.

(** Tables that differ in one host differ so in the registry. *)
Lemma registry_update d d' hid h :
  host_wf d → host_wf d' → db_hosts d' !! hid = Some h →
  (∀ h0, db_hosts d !! hid = Some h0 → h_HostUID h0 = h_HostUID h) →
  (∀ j h0, j ≠ hid → db_hosts d' !! j = Some h0 ↔ db_hosts d !! j = Some h0) →
  (∀ j h0, j ≠ hid → db_hosts d !! j = Some h0 → snapshot_of d' h0 = snapshot_of d h0) →
  registry d' = <[h_HostUID h := snapshot_of d' h]> (registry d).
Proof.
  intros Hd Hd' Hh Hold Hj Hsn. apply map_eq. intros uid. destruct (decide (h_HostUID h = uid)) as [<-|Hne].
  - rewrite lookup_insert, decide_True by done. apply registry_lookup; [done|]. by exists hid, h.
  - rewrite lookup_insert_ne by done. apply option_eq. intros x. rewrite !registry_lookup by done. split.
    + intros (i & h0 & Hi & Hu & ->). assert (i ≠ hid) as Hi' by (intros ->; congruence). exists i, h0.
      apply Hj in Hi; [|done]. split_and!; [done..|]. by eapply Hsn.
    + intros (i & h0 & Hi & Hu & ->). assert (i ≠ hid) as Hi' by (intros ->; apply Hold in Hi; congruence). exists i, h0.
      split_and!; [by apply Hj|done|]. symmetry. by eapply Hsn.
Qed.

(** Tables with the same hosts in the same tenants. *)
Lemma registry_same d d' :
  db_hosts d' = db_hosts d → (∀ i h, db_hosts d !! i = Some h → snapshot_of d' h = snapshot_of d h) → registry d' = registry d.
Proof.
  intros Hh Hs. unfold registry. rewrite Hh. f_equal. apply list_fmap_ext. intros j h Hj. simpl. f_equal.
  apply list_elem_of_lookup_2, elem_of_rows in Hj as [i Hi]. by eapply Hs.
Qed.

(** Every host has a status row. *)
Definition all_status (d : DB) : Prop := ∀ i h, db_hosts d !! i = Some h → is_Some (db_status d !! i).

Lemma snapshot_codes d d' h :
  (∀ t, db_tenants d !! h_TenantID h = Some t → ∃ t', db_tenants d' !! h_TenantID h = Some t' ∧ t_TenantCode t' = t_TenantCode t) →
  is_Some (db_tenants d !! h_TenantID h) → db_status d' !! h_ID h = db_status d !! h_ID h → db_labels d' !! h_ID h = db_labels d !! h_ID h →
  snapshot_of d' h = snapshot_of d h.
Proof.
  intros Hc [t Ht] Hs Hl. destruct (Hc t Ht) as (t' & Ht' & Hcode). unfold snapshot_of. rewrite Hs, Hl, Ht, Ht'. simpl.
  unfold hostSnapshotFromModel. by rewrite Hcode.
Qed.

(** *** The steps of the store *)

Lemma stored_step d d' hid h :
  host_wf d → host_wf d' → all_status d →
  db_hosts d' !! hid = Some h → live (snapshot_of d' h) → hs_Version (snapshot_of d' h) = int64_incr (old_version d hid) →
  match host_at d (h_HostUID h) with
  | Some h0 => hid = h_ID h0 ∧ TrimSpace (hs_TenantCode (snapshot_of d' h)) = TrimSpace (hs_TenantCode (snapshot_of d h0))
  | None => db_hosts d !! hid = None
  end →
  (∀ j, j ≠ hid → db_hosts d' !! j = db_hosts d !! j ∧ db_labels d' !! j = db_labels d !! j ∧ db_status d' !! j = db_status d !! j) →
  (∀ j t, db_tenants d !! j = Some t → ∃ t', db_tenants d' !! j = Some t' ∧ t_TenantCode t' = t_TenantCode t) →
  reg_step (registry d) (registry d') ∧ all_status d'.
Proof.
  intros Hd Hd' Has Hh Hlive Hver Hold Hj Ht. destruct (HostStore.wf_host _ Hd' _ _ Hh) as (Hid & _ & Hu & [t0 Ht0]).
  assert (∀ h0, host_at d (h_HostUID h) = Some h0 → db_hosts d !! hid = Some h0 ∧ hid = h_ID h0) as Hat.
  { intros h0 E. pose proof Hold as Hold'. rewrite E in Hold'. destruct Hold' as [-> _]. apply host_at_Some in E as [E _]; done. }
  split.
  - rewrite (registry_update d d' hid h); [|done..| | |].
    + rewrite <-(snapshot_of_uid d' h). apply reg_register; rewrite ?snapshot_of_uid; try done.
      * rewrite (snapshot_of_tenant _ _ _ Ht0). by destruct (HostStore.wf_tenant _ Hd' _ _ Ht0) as (_ & _ & ?).
      * rewrite Hver. f_equal. unfold old_version, version. destruct (host_at d (h_HostUID h)) as [h0|] eqn:E.
        { destruct (Hat h0 eq_refl) as [Hh0 Hid0]. apply host_at_Some in E as [_ E]; [|done..].
          assert (registry d !! h_HostUID h = Some (snapshot_of d h0)) as -> by (apply registry_lookup; [done|]; by exists hid, h0).
          destruct (Has _ _ Hh0) as [r Hr]. unfold snapshot_of. rewrite <-Hid0, Hr. done. }
        assert (registry d !! h_HostUID h = None) as ->.
        { apply registry_None; [done|]. intros i h0 Hi. by eapply host_at_None. }
        destruct (db_status d !! hid) as [r|] eqn:Er; [|done]. destruct (wf_status _ Hd _ _ Er) as (_ & [? Hx]). congruence.
      * intros old Ho. apply registry_lookup in Ho as (i & h0 & Hi & Hu0 & ->); [|done].
        assert (host_at d (h_HostUID h) = Some h0) as E.
        { apply host_at_Some; [done..|]. split; [|done]. by destruct (HostStore.wf_host _ Hd _ _ Hi) as (-> & _). }
        rewrite E in Hold. apply Hold.
    + intros h0 Hh0. destruct (host_at d (h_HostUID h)) as [h1|] eqn:E; [|congruence].
      destruct (Hat h1 eq_refl) as [Hh1 _]. apply host_at_Some in E as [_ E]; [|done..]. congruence.
    + intros j h0 Hne. by destruct (Hj j Hne) as (-> & _).
    + intros j h0 Hne Hh0. destruct (HostStore.wf_host _ Hd _ _ Hh0) as (Hi0 & _ & _ & Hten). destruct (Hj j Hne) as (_ & Hl & Hs).
      apply snapshot_codes; [intros t; apply Ht|done|by rewrite Hi0..].
  - intros i h0 Hi. destruct (decide (i = hid)) as [->|Hne].
    + destruct (db_status d' !! hid) as [r|] eqn:E; [done|]. exfalso. destruct Hlive as [Hlive _]. unfold snapshot_of in Hlive.
      rewrite Hid, E in Hlive. discriminate Hlive.
    + destruct (Hj i Hne) as (Eh & _ & ->). apply (Has i h0). by rewrite <-Eh.
Qed.

Lemma digest_step d d' hid h r ags :
  host_wf d → host_wf d' → all_status d →
  d' = set_status (<[hid := r]> (db_status d)) (set_agents ags d) → db_hosts d !! hid = Some h →
  st_AgentState r = Up → st_OverallState r = Up →
  st_Version r = int64_incr (match db_status d !! hid with Some r => st_Version r | None => 1 end) →
  reg_step (registry d) (registry d') ∧ all_status d'.
Proof.
  intros Hd Hd' Has -> Hh Ha Ho Hv. set (d' := set_status _ _) in *. destruct (HostStore.wf_host _ Hd _ _ Hh) as (Hid & _).
  destruct (Has _ _ Hh) as [r0 Hr0]. rewrite Hr0 in Hv.
  assert (db_status d' !! h_ID h = Some r) as Hr by (simpl; by rewrite Hid, lookup_insert, decide_True). split.
  - rewrite (registry_update d d' hid h); [|done..| | |].
    + rewrite <-(snapshot_of_uid d' h). apply (reg_report _ (snapshot_of d h)).
      * rewrite snapshot_of_uid. apply registry_lookup; [done|]. by exists hid, h.
      * unfold snapshot_of, same_identity. rewrite Hr, Hid, Hr0. done.
      * unfold snapshot_of, live. rewrite Hr. simpl. by rewrite Ha, Ho.
      * unfold snapshot_of. rewrite Hr, Hid, Hr0. done.
    + intros h0 Hh0. congruence.
    + done.
    + intros j h0 Hne Hh0. apply snapshot_of_status; [done..|]. destruct (HostStore.wf_host _ Hd _ _ Hh0) as (-> & _).
      simpl. by rewrite lookup_insert_ne.
  - intros i h0 Hi. simpl. rewrite lookup_insert. case_decide; [done|]. by eapply Has.
Qed.

Lemma silence_step now d :
  host_wf d → host_wf (reconciled now d) → all_status d → reg_step (registry d) (registry (reconciled now d)) ∧ all_status (reconciled now d).
Proof.
  intros Hd Hd' Has. split.
  - apply reg_silence. intros uid. destruct (registry d !! uid) as [x|] eqn:E.
    + apply registry_lookup in E as (i & h & Hi & Hu & ->); [|done].
      assert (registry (reconciled now d) !! uid = Some (snapshot_of (reconciled now d) h)) as ->.
      { apply registry_lookup; [done|]. by exists i, h. }
      constructor. destruct (Has _ _ Hi) as [r Hr]. destruct (HostStore.wf_host _ Hd _ _ Hi) as (Hid & _).
      assert (db_status (reconciled now d) !! i =
        Some (if stale_status now r then offline_row (int64_incr (st_Version r)) now r else r)) as Hr'.
      { simpl. by rewrite lookup_fmap, Hr. }
      unfold silenced, same_identity, silent, snapshot_of. rewrite Hid, Hr, Hr'. destruct (stale_status now r); [right|by left].
      by split_and!.
    + assert (registry (reconciled now d) !! uid = None) as ->; [|constructor]. apply registry_None; [done|].
      intros i h Hi. by apply (proj1 (registry_None d uid Hd) E i).
  - intros i h Hi. simpl. rewrite lookup_fmap. destruct (Has i h Hi) as [r ->]. by eexists.
Qed.

(** *** The operations *)

Definition reg_inv d s : Prop := store_inv d s ∧ all_status d.

(** A success of [m] is a run of the contract. *)
Definition refines {A} (m : M A) : Prop := ∀ d s, reg_inv d s → WP m (on_ok (λ _ d' s', rtc reg_step (registry d) (registry d') ∧ all_status d')) d s.

Lemma lookupAgentInstance_host st uid aid d s :
  host_wf d →
  WP (lookupAgentInstance st uid aid) (λ r d' s', d' = d ∧ s' = s ∧ match r with Ok (hid, _) => ∃ h, db_hosts d !! hid = Some h | Err _ => True end) d s.
Proof.
  intros Hd. unfold lookupAgentInstance. cbv zeta. set (second := attempt (findHostByUID st uid false) ≫= _).
  set (Q := λ (r : res (Z * AgentConfig)) (d' : DB) (s' : Seqs), _).
  assert (∀ b h, first_by h_ID (λ h, cond_str uid (h_HostUID h) && (negb b || cond_int (ps_defaultTenantID st) (h_TenantID h))) (rows (db_hosts d)) = Some h →
    db_hosts d !! h_ID h = Some h) as Hf.
  { intros b h [[i Hi]%elem_of_rows _]%first_by_Some. by destruct (HostStore.wf_host _ Hd _ _ Hi) as (-> & _). }
  assert (∀ h (K : M (Z * AgentConfig)), db_hosts d !! h_ID h = Some h → WP K Q d s →
    WP (cfg ← findAgentConfig (h_ID h) aid; match cfg with None => K | Some cfg => mret (h_ID h, cfg) end) Q d s) as Hcfg.
  { intros h K Hh HK. apply WP_bind, WP_bind, WP_attempt, WP_firstOrNotFound.
    { intros e [c ->]. by apply WP_throw. }
    destruct (first_by _ _ _); apply WP_ret; [|done]. apply WP_ret. split_and!; [done..|]. by exists h. }
  assert (WP second Q d s) as Hsecond.
  { apply WP_bind, WP_attempt, WP_firstOrNotFound.
    { intros e [c ->]. by apply WP_throw. }
    destruct (first_by _ _ _) as [h|] eqn:E; [|by apply WP_throw]. apply Hcfg; [by eapply Hf|]. by apply WP_throw. }
  apply WP_bind, WP_attempt, WP_firstOrNotFound.
  { intros e [c ->]. exact Hsecond. }
  destruct (first_by _ _ _) as [h|] eqn:E; [|exact Hsecond]. apply Hcfg; [by eapply Hf|done].
Qed.

(** The tail of heartbeats and reports, whatever host is read back. *)
Lemma digest_tail_refines {B} (mk : HostSnapshot → B) hid h uid aid seq dg now d s :
  reg_inv d s → db_hosts d !! hid = Some h →
  WP (updateAgentInstanceState hid aid seq now;;
      upsertDigestStatus hid dg now;;
      item ← getHostByUID uid "";
      match item with None => throw ErrHostNotFound | Some item => mret (mk item) end)
    (on_ok (λ _ d' s', reg_step (registry d) (registry d') ∧ all_status d')) d s.
Proof.
  intros [HI Has] Hh. assert (hid ≠ 0) as Hnz by (destruct (HostStore.wf_host _ (proj1 HI) _ _ Hh) as (_ & ? & _); lia).
  eapply WP_bind_ok.
  { apply WP_keeps_ok; [apply keeps_updateAgentInstanceState|done|].
    eapply (WP_mono _ _ (on_ok (λ _ d' _, ∃ ags, d' = set_agents ags d))); [by apply updateAgentInstanceState_spec|].
    intros [[]|e] d' s' Hr; [|done]. destruct Hr as (_ & ags & -> & _). by exists ags. }
  intros _ d1 s1 [(ags & ->) HI1].
  eapply WP_bind_ok; [apply WP_keeps_ok; [apply keeps_upsertDigestStatus|done|by apply upsertDigestStatus_ok; [apply HI1|]]|].
  intros _ d2 s2 [(r & -> & _ & Ha & Ho & _ & _ & _ & Hv) HI2].
  apply WP_bind, WP_getHostByUID; [done|]. destruct (head _); [apply WP_ret|by apply WP_throw].
  eapply (digest_step d _ hid h r ags); [apply HI|apply HI2|done..].
Qed.

Lemma Heartbeat_refines st req now : refines (Heartbeat st req now).
Proof.
  intros d s HI. apply WP_Transaction_ok. apply WP_bind. eapply WP_mono; [apply lookupAgentInstance_host, HI|].
  intros [[hid cfg]|e] d' s' (-> & -> & Hr); [|done]. destruct Hr as [h Hh]. cbv beta iota.
  eapply WP_mono; [by eapply (digest_tail_refines (λ item, (item, cfg)))|]. intros [a|e] d' s' Hr; [|done].
  destruct Hr as [Hs Ha]. split; [by apply rtc_once|done].
Qed.

Lemma RegisterAgent_refines st req now : refines (RegisterAgent st req now).
Proof.
  intros d s [HI Has]. eapply WP_mono; [apply (WP_and _ _ _ _ _ (RegisterAgent_ok st req now d s HI) (keeps_RegisterAgent st req now d s HI))|].
  intros [[[snap cfg] code]|e] d' s' [Hr HI']; [|done].
  destruct Hr as (uid & Hu & _ & hid & h & Hh & Huid & Hsnap & Htc & _ & _ & _ & _ & Hag & Hov & _ & _ & Hv & _ & Hsame & Hj & Ht & Hn). subst snap.
  destruct (stored_step d d' hid h) as [Hs Ha']; try done; [apply HI|apply HI'| |split; [by apply rtc_once|done]].
  rewrite Huid. destruct (host_at d uid) as [h0|] eqn:E; [|by apply Hn].
  destruct (Hsame h0 eq_refl) as [Hid Hten]. split; [done|]. f_equal. apply host_at_Some in E as [E _]; [|apply HI|done].
  destruct (HostStore.wf_host _ (proj1 HI) _ _ E) as (_ & _ & _ & t & Htt). destruct (Ht _ _ Htt) as (t' & Ht' & Hc).
  rewrite (snapshot_of_tenant _ _ _ Htt), (snapshot_of_tenant d' h t'); [done|]. by rewrite Hten.
Qed.

(** The tenant a report finds for a known host. *)
Lemma metric_tenant_known st d uid code t :
  host_wf d → metric_tenant st d uid code = Some t →
  db_tenants d !! t_ID t = Some t ∧ (tenant_of_host d uid ≠ ""%string → t_TenantCode t = TrimSpace (tenant_of_host d uid)).
Proof.
  intros Hd. unfold metric_tenant. cbv zeta. set (c := TrimSpace _). destruct (str_empty c) eqn:Ec; [done|].
  intros [[i Hi]%elem_of_rows Hcode]%first_by_Some. rewrite cond_str_ne in Hcode by (by apply str_empty_false). apply str_eqb_true in Hcode. split.
  - by destruct (HostStore.wf_tenant _ Hd _ _ Hi) as (-> & _).
  - intros Hn%str_empty_false. unfold c in Hcode. by rewrite Hn in Hcode.
Qed.

Lemma bootstrap_refines st req now d s :
  reg_inv d s →
  WP (bootstrapHostForMetric st req now) (on_ok (λ hid d' s',
    reg_step (registry d) (registry d') ∧ reg_inv d' s' ∧ ∃ h, db_hosts d' !! hid = Some h)) d s.
Proof.
  intros [HI Has]. unfold bootstrapHostForMetric. cbv zeta. set (uid := if str_empty _ then _ else _).
  destruct (_ || _) eqn:Ee; [by apply WP_throw|]. apply orb_false_iff in Ee as [Hu%str_empty_false _].
  apply WP_bind. eapply WP_mono; [apply resolveTenantForMetric_spec|]. intros [[tid code]|e] d1 s1 (-> & -> & Hr); [|done].
  destruct Hr as (t & Hmt & -> & ->). apply metric_tenant_known in Hmt as [Ht Hcode]; [|apply HI]. cbv beta iota.
  set (rreq := mkRegisterAgentRequest _ _). apply (store_host_ok _ _ rreq now (λ hid _, mret hid)); [done..|].
  intros hid h ls i a r s2 [Hid Huid Hten Hname _ Hold Hnz Hl Hlj _ Hrid Hra Hro Hrl Hrv] HI'. apply WP_ret. simpl.
  set (d' := with_host d hid h ls i a r) in *.
  assert (db_hosts d' !! hid = Some h) as Hh by (simpl; by rewrite lookup_insert, decide_True).
  assert (db_tenants d' !! h_TenantID h = Some t) as Ht' by (simpl; by rewrite Hten).
  assert (db_status d' !! h_ID h = Some r) as Hr by (simpl; by rewrite Hid, lookup_insert, decide_True).
  destruct (stored_step d d' hid h) as [Hs Ha']; try done.
  - apply HI.
  - apply HI'.
  - unfold live, snapshot_of. rewrite Hr. simpl. by rewrite Hra, Hro.
  - unfold snapshot_of. by rewrite Hr.
  - rewrite Huid. destruct (host_at d uid) as [h0|] eqn:E; [|done]. split; [done|].
    destruct (tenant_of_host_Some d uid h0) as (t0 & Ht0 & Hne & Hto); [apply HI|done|].
    rewrite (snapshot_of_tenant _ _ _ Ht'), (snapshot_of_tenant _ _ _ Ht0), Hcode, Hto by (by rewrite Hto). apply TrimSpace_idemp.
  - intros j Hne. simpl. rewrite !lookup_insert_ne by done. split_and!; [done|by apply Hlj|done].
  - intros j t0 Hj. by exists t0.
  - split_and!; [done..|]. by exists h.
Qed.

Lemma ReportMetrics_refines st req dg now : refines (ReportMetrics st req dg now).
Proof.
  intros d s HI. apply WP_Transaction_ok. apply WP_bind, WP_attempt. eapply WP_mono; [apply lookupAgentInstance_host, HI|].
  intros r d' s' (-> & -> & Hr).
  apply (WP_bind_ok _ _ (λ hid d' s', rtc reg_step (registry d) (registry d') ∧ reg_inv d' s' ∧ ∃ h, db_hosts d' !! hid = Some h)).
  - destruct r as [[hid cfg]|e]; [by apply WP_ret|].
    destruct e; try (by apply WP_throw). eapply WP_mono; [by apply bootstrap_refines|].
    intros [hid|e] d' s' Hb; [|done]. destruct Hb as (Hs & HI' & Hh). split; [by apply rtc_once|done].
  - intros hid d1 s1 (Hs1 & HI1 & h & Hh). eapply WP_mono; [by eapply (digest_tail_refines id)|]. intros [x|e] d' s' Hd; [|done].
    destruct Hd as [Hs2 Ha]. split; [|done]. etrans; [done|by apply rtc_once].
Qed.

Lemma AllocateTenant_refines st : refines (AllocateTenant st).
Proof.
  intros d s [HI Has]. eapply WP_bind_ok with (Φ := λ code d' s', d' = d ∧ code ≠ ""%string).
  { apply WP_new_id. intros nano buf. split; [done|]. apply ids_New_nonempty. }
  intros code d1 s1 [-> Hc]. eapply WP_bind_ok; [apply ensureTenant_ok; [apply HI|done]|].
  intros t d2 s2 (ts & -> & Ht & Hcode & _ & Hj & _ & Hold). apply WP_ret. split; [|done].
  rewrite (registry_same d (set_tenants ts d)); [done..|]. intros i h Hi.
  destruct (HostStore.wf_host _ (proj1 HI) _ _ Hi) as (_ & _ & _ & Hten). apply snapshot_codes; [|done..]. intros t0 Ht0. simpl.
  destruct (decide (h_TenantID h = t_ID t)) as [E|Hne]; [|rewrite Hj by done; by exists t0].
  exists t. rewrite E. split; [done|]. rewrite Hcode. symmetry. apply Hold. by rewrite <-E.
Qed.

Lemma ReconcileOffline_refines st now : refines (ReconcileOffline st now).
Proof.
  intros d s [HI Has].
  eapply WP_mono; [apply (WP_and _ _ _ _ _ (ReconcileOffline_spec st now d s HI) (keeps_ReconcileOffline st now d s HI))|].
  intros [changed|e] d' s' [Hr HI']; [|done]. destruct Hr as [-> _]. destruct (silence_step now d) as [Hs Ha]; [apply HI|apply HI'|done|].
  split; [by apply rtc_once|done].
Qed.

Lemma refines_run_op st o : refines (run_op st o).
Proof.
  assert (∀ A (m : M A), refines m → refines (m;; mret ())) as Hb.
  { intros A m Hm d s Hi. eapply WP_bind_ok; [by apply Hm|]. intros a d' s' Ha. by apply WP_ret. }
  destruct o; apply Hb.
  - apply AllocateTenant_refines.
  - apply RegisterAgent_refines.
  - apply Heartbeat_refines.
  - apply ReportMetrics_refines.
  - intros d s [_ Ha]. by apply WP_listHosts.
  - intros d s [_ Ha]. by apply WP_getHostByUID.
  - apply ReconcileOffline_refines.
Qed.

Lemma refines_run {A} (m : M A) w a w' :
  refines m → reg_inv (w_db w) (w_seq w) → m w = (Ok a, w') →
  rtc reg_step (registry (w_db w)) (registry (w_db w')) ∧ all_status (w_db w').
Proof. intros Hm HI E. exact (WP_run _ _ _ _ _ (Hm _ _ HI) E). Qed.

End postgres.

(** A call that succeeds is a run of the contract; one that fails has done nothing,
    or what it does under an outside that acknowledges its [COMMIT]. *)
Lemma run_op_refines `{Env} `{PgTypes} st o w :
  reg_inv (w_db w) (w_seq w) →
  let w' := (run_op st o w).2 in rtc reg_step (registry (w_db w)) (registry (w_db w')) ∧ reg_inv (w_db w') (w_seq w').
Proof.
  intros HI. cbv zeta. pose proof (keeps_run (run_op st o) w (keeps_run_op st o) (proj1 HI)) as HI'.
  destruct (run_op st o w) as [[[]|e] w'] eqn:E; simpl in *.
  - destruct (refines_run _ _ _ _ (refines_run_op st o) HI E) as [Hs Ha]. split; [done|]. by split.
  - destruct (atomic_run_op st o _ _ _ _ E) as [Hd|(n & code & [] & _ & _ & _ & _ & Hr)].
    + rewrite Hd in *. split; [done|]. split; [done|]. apply HI.
    + destruct (refines_run _ _ _ _ (refines_run_op st o) HI Hr) as [Hs Ha]. split; [done|]. by split.
Qed.

Section postgres_runs.
Context `{Env} `{PgTypes}.

Lemma run_ops_refines st ops w :
  reg_inv (w_db w) (w_seq w) →
  rtc reg_step (registry (w_db w)) (registry (w_db (run_ops st ops w))) ∧ reg_inv (w_db (run_ops st ops w)) (w_seq (run_ops st ops w)).
Proof.
  revert w. induction ops as [|o ops IH]; intros w HI; simpl; [done|]. destruct (run_op_refines st o w HI) as [Hs HI1].
  destruct (IH _ HI1) as [Hs' HI2]. split; [by etrans|done].
Qed.

Lemma NewStore_hosts cfg d s : WP (NewStore cfg) (λ _ d' _, db_hosts d' = db_hosts d) d s.
Proof.
  apply WP_bind, WP_bind, WP_query; [done|]. destruct (first_by _ _ _); apply WP_bind, WP_autocommit; [|done| |done].
  - apply WP_exec; [done|]. destruct (put_tenant _ d) eqn:E; [|done]. apply put_tenant_inv in E as [-> _]. split; [by apply WP_ret, WP_ret|done].
  - apply WP_insert_serial; [done|]. destruct (insert_tenant _ d) eqn:E; [|done].
    apply insert_tenant_put in E as [_ [-> _]%put_tenant_inv]. split; [by apply WP_ret, WP_ret|done].
Qed.

Lemma NewStore_reg cfg :
  let w := (NewStore cfg (world_of empty_DB ∅)).2 in registry (w_db w) = ∅ ∧ reg_inv (w_db w) (w_seq w).
Proof.
  cbv zeta. pose proof (NewStore_hosts cfg empty_DB ∅ (world_of empty_DB ∅) eq_refl eq_refl) as Hh.
  assert (store_inv (w_db (NewStore cfg (world_of empty_DB ∅)).2) (w_seq (NewStore cfg (world_of empty_DB ∅)).2)) as HI.
  { apply keeps_run; [apply keeps_NewStore|]. split; [apply empty_DB_wf|]. intros t v Hv. simpl in Hv. simplify_map_eq. }
  destruct (NewStore cfg _) as [r w]. simpl in *. split; [unfold registry; by rewrite Hh|]. split; [done|].
  intros i h Hi. by rewrite Hh, lookup_empty in Hi.
Qed.

(** C3: the PostgreSQL store implements the registry.  From the empty schema, any
    sequence of operations, whatever they are given and whatever the database
    refuses along the way, is a run of the contract on the hosts as the listing
    shows them; a client that fetches a host gets what the contract says; and a
    host that was registered once is there after any further operations, in its
    tenant up to white space around the code. *)
Theorem pg_registry_refined cfg st ops ops' :
  let w := run_ops st ops (NewStore cfg (world_of empty_DB ∅)).2 in
  let w' := run_ops st ops' w in
  rtc reg_step ∅ (registry (w_db w)) ∧
  (∀ uid code r w2, uid ≠ ""%string → GetHost st uid code w = (Ok r, w2) → r = reg_get (registry (w_db w)) uid code) ∧
  (∀ uid x, registry (w_db w) !! uid = Some x → ∃ y, registry (w_db w') !! uid = Some y ∧ stays x y).
Proof.
  intros w w'. destruct (NewStore_reg cfg) as [E0 HI0]. destruct (run_ops_refines st ops _ HI0) as [Hr HI].
  rewrite E0 in Hr. fold w in Hr, HI. destruct (run_ops_refines st ops' w HI) as [Hr' _]. fold w' in Hr'. split_and!; [done| |].
  - intros uid code r w2 Hu E. rewrite <-registry_get by (done || apply HI).
    apply (WP_run _ (λ r _ _, match r with Ok l => l = head (listing (w_db w) uid code) | Err _ => True end)) in E; [done|].
    by apply WP_getHostByUID.
  - intros uid x Hx. eapply reg_steps_stays; [done| |done]. eapply reg_steps_keyed; [done|apply empty_keyed].
Qed.

End postgres_runs.

(** ** Concrete runs *)

Section examples.
#[local] Existing Instance Env_quiet.
#[local] Existing Instance PgTypes_exact.

Lemma memory_registry_refined_witness :
  rtc reg_step ∅ (MemoryStore.st_hosts (sy_store ex_raced)) ∧ MemoryStore.st_hosts (sy_store ex_raced) ≠ ∅.
Proof.
  split; [exact (proj1 (memory_registry_refined None ex_raced ex_raced_reachable))|].
  intros E. assert (size (MemoryStore.st_hosts (sy_store ex_raced)) = 0%nat) as Hs by (rewrite E; reflexivity). vm_compute in Hs. discriminate Hs.
Defined.

Definition ex_reg (uid tenant agent : string) : RegisterAgentRequest :=
  mkRegisterAgentRequest (ex_identity uid tenant) (mkAgentMetadata agent "1.0" [] 0).
Definition ex_new_agent (uid own : string) : PushMetricBatchRequest :=
  mkPushMetricBatchRequest uid "agent-2" 6 0 (ex_identity own "acme") (mkAgentMetadata "agent-2" "1.0" [] 0) [] [] ex_digest.

Definition tenants_in (d : DB) : list (string * string) :=
  (λ x, (hs_HostUID x, hs_TenantCode x)) <$> listing d "" "".

(** The white space matters: a host registered under a code with a space
    around it moves to the tenant whose code lacks the space as soon as another
    agent reports for it. *)
Theorem pg_report_moves_tenant :
  let w := run_ops ex_store [OpRegisterAgent (ex_reg "host-a" " acme" "agent-1") 1; OpRegisterAgent (ex_reg "host-b" "acme" "agent-1") 2] ex_world0 in
  let w' := run_ops ex_store [OpReportMetrics (ex_new_agent "host-a" "host-a") ex_digest 3] w in
  tenants_in (w_db w) = [("host-a", " acme"); ("host-b", "acme")]%string ∧
  tenants_in (w_db w') = [("host-a", "acme"); ("host-b", "acme")]%string.
Proof. vm_compute. split; reflexivity. Qed.

Definition versions_in (d : DB) : list (string * Z) := (λ x, (hs_HostUID x, hs_Version x)) <$> listing d "" "".

(** A batch is stored for the host its identity names and answered for the
    host its envelope names: a report of an unknown agent with two different
    uids registers and updates the one, and returns the unchanged snapshot of
    the other, under whose uid the service goes on to record the metrics. *)
Theorem pg_report_splits_hosts :
  let w := run_ops ex_store [OpRegisterAgent (ex_reg "host-a" "acme" "agent-1") 1] ex_world0 in
  let '(r, w') := ReportMetrics ex_store (ex_new_agent "host-a" "host-c") ex_digest 3 w in
  (hs_HostUID <$> r) = Ok "host-a"%string ∧
  versions_in (w_db w) = [("host-a", 1)]%string ∧ versions_in (w_db w') = [("host-a", 1); ("host-c", 2)]%string.
Proof. vm_compute. split_and!; reflexivity. Qed.

End examples.
