(* ===== verification/Operations.v ===== *)
(** * Maintenance windows and alert acknowledgement

    Models [pkg/hostruntime/repository/postgres/operations.go]: both operations
    authorise the acting user against the tables inside the transaction, write,
    and leave one audit row. *)

From stdpp Require Import gmap strings list sorting pretty.
From S2P Require Import Prelude GoRuntime GoStrings Contracts Encoding Access Sql HostStore.
Local Open Scope Z_scope.

(** The row of an active user of an active tenant with the given code. *)
Definition active_user (d : DB) (userID : Z) (tenantCode : string) : option userModel :=
  match db_users d !! userID with
  | Some u =>
      match db_tenants d !! u_TenantID u with
      | Some t =>
          if str_eqb (t_TenantCode t) tenantCode && str_eqb (u_Status u) "active" && (t_Status t =? 1)
          then Some u else None
      | None => None
      end
  | None => None
  end.

Lemma active_user_spec d uid code u :
  active_user d uid code = Some u ↔
  db_users d !! uid = Some u ∧ u_Status u = "active"%string ∧
  ∃ t, db_tenants d !! u_TenantID u = Some t ∧ t_TenantCode t = code ∧ t_Status t = 1.
Proof.
  unfold active_user. destruct (db_users d !! uid) as [u'|]; [|naive_solver].
  destruct (db_tenants d !! u_TenantID u') as [t|] eqn:Et; [|naive_solver].
  destruct (_ && _) eqn:E.
  - bool_to_prop. repeat match goal with Hs : str_eqb _ _ = true |- _ => apply str_eqb_true in Hs end. naive_solver.
  - split; [done|]. intros ([= ->] & Hst & t' & Ht' & Hc & Hs). simplify_eq.
    rewrite Hst, Hs in E. unfold str_eqb in E. by rewrite !bool_decide_eq_true_2 in E.
Qed.

Section operations.
Context `{Env} `{PgTypes}.

Definition operationTenant (p : Principal) (admin : bool) : M Z :=
  if negb (IsUser p) || (admin && negb (IsAdmin p)) then throw ErrForbidden else
  row ← query (λ d, active_user d (p_UserID p) (p_TenantCode p));
  let tenantID := default 0 (u_TenantID <$> row) in
  let role := default ""%string (u_Role <$> row) in
  if (tenantID =? 0) || (negb (str_eqb role "admin") && negb (str_eqb role "member")) ||
     (admin && negb (str_eqb role "admin"))
  then throw ErrForbidden else mret tenantID.

Definition insert_audit (a : auditRow) (d : DB) : res DB := Ok (set_audit (db_audit d ++ [a]) d).

Definition writeOperationAudit (tenantID : Z) (p : Principal) (action resourceType id : string) (now : Time) : M unit :=
  exec (insert_audit (mkAudit tenantID (Actor p) action resourceType id true (pg_timestamp now))).

Definition insert_maintenance (m : maintenanceWindowModel) (d : DB) : res DB :=
  if bool_decide (is_Some (db_maintenance d !! mm_ID m)) then Err errUnique
  else Ok (set_maintenance (<[mm_ID m := m]> (db_maintenance d)) d).

Definition scope_exists (tenantID : Z) (p : Principal) (req : CreateMaintenanceWindowRequest) : M bool :=
  if str_eqb (cm_ScopeType req) "tenant" then mret (str_eqb (cm_ScopeRef req) (p_TenantCode p))
  else if str_eqb (cm_ScopeType req) "host" then
    query (λ d, existsb (λ h, (h_TenantID h =? tenantID) && str_eqb (h_HostUID h) (cm_ScopeRef req)) (rows (db_hosts d)))
  else if str_eqb (cm_ScopeType req) "group" then
    query (λ d, bool_decide ((tenantID, cm_ScopeRef req) ∈ db_groups d))
  else throw ErrNotFound.

Definition CreateMaintenance (p : Principal) (req : CreateMaintenanceWindowRequest) : M MaintenanceWindow :=
  Transaction (
    tenantID ← operationTenant p true;
    exists_ ← scope_exists tenantID p req;
    if negb exists_ then throw ErrNotFound else
    modelID ← insert_serial "maintenance_windows" (λ id, insert_maintenance
      (mkMaintenance id tenantID (cm_Title req) (cm_ScopeType req) (cm_ScopeRef req)
         (pg_timestamp (cm_StartAt req)) (pg_timestamp (cm_EndAt req)) (Actor p) (emptyStringPtr (cm_Reason req)) true));
    let id := FormatInt modelID in
    now ← time_now;
    writeOperationAudit tenantID p "maintenance.create" "maintenance" id now;;
    mret (mkMaintenanceWindow id (cm_Title req) (cm_ScopeType req) (cm_ScopeRef req) (cm_StartAt req)
            (cm_EndAt req) (Actor p) (cm_Reason req))).

Definition AckAlert (p : Principal) (alertID : string) (now : Time) : M unit :=
  match ParseInt alertID with
  | None => throw ErrNotFound
  | Some id =>
      if id <=? 0 then throw ErrNotFound else
      Transaction (
        tenantID ← operationTenant p false;
        event ← query (λ d, match db_alerts d !! id with
                            | Some ev => if al_TenantID ev =? tenantID then Some ev else None
                            | None => None
                            end);
        match event with
        | None => throw ErrNotFound
        | Some event =>
            match al_AckedAt event with
            | Some _ => mret ()
            | None =>
                exec (λ d, Ok (set_alerts
                  (alter (λ ev, mkAlert (al_ID ev) (al_TenantID ev) (al_Fingerprint ev) (Actor p) (Some (pg_timestamp now)))
                     (al_ID event) (db_alerts d)) d));;
                writeOperationAudit tenantID p "alert.ack" "alert" alertID now
            end
        end)
  end.

(** ** Properties *)

Lemma operationTenant_spec p admin d s :
  WP (operationTenant p admin) (λ r d' s', d' = d ∧ s' = s ∧
    match r with
    | Ok tid => IsUser p = true ∧ (admin = true → IsAdmin p = true) ∧ tid ≠ 0 ∧
        ∃ u, active_user d (p_UserID p) (p_TenantCode p) = Some u ∧ u_TenantID u = tid ∧
          (u_Role u = "admin"%string ∨ (admin = false ∧ u_Role u = "member"%string))
    | Err e => driver_error e ∨ e = ErrForbidden
    end) d s.
Proof.
  unfold operationTenant. destruct (negb (IsUser p) || _) eqn:E; [apply WP_throw; auto|].
  bool_to_prop. apply WP_bind, WP_query; [auto|]. cbv zeta.
  destruct (active_user d _ _) as [u|] eqn:Eu; simpl; [|apply WP_throw; auto].
  destruct (_ || _) eqn:E2; [apply WP_throw; auto|]. bool_to_prop. apply WP_ret.
  assert (admin = true → IsAdmin p = true) as Hadm
    by (intros ->; simpl in *; match goal with Hx : _ ∨ _ |- _ => destruct Hx as [?|Hx]; [done|by bool_to_prop] | _ => by bool_to_prop end).
  split_and!; try done. exists u. split_and!; try done.
  rewrite !negb_false_iff, !str_eqb_true in *. destruct admin; naive_solver.
Qed.

(** The scope of a window lies in the tenant of the user. *)
Definition scope_in_tenant (d : DB) (tid : Z) (p : Principal) (req : CreateMaintenanceWindowRequest) : Prop :=
  (cm_ScopeType req = "tenant"%string ∧ cm_ScopeRef req = p_TenantCode p) ∨
  (cm_ScopeType req = "host"%string ∧ ∃ i h, db_hosts d !! i = Some h ∧ h_TenantID h = tid ∧ h_HostUID h = cm_ScopeRef req) ∨
  (cm_ScopeType req = "group"%string ∧ (tid, cm_ScopeRef req) ∈ db_groups d).

Lemma scope_exists_spec tid p req d s :
  WP (scope_exists tid p req) (λ r d' s', d' = d ∧ s' = s ∧
    match r with
    | Ok b => b = true ↔ scope_in_tenant d tid p req
    | Err e => driver_error e ∨ (e = ErrNotFound ∧ ¬ scope_in_tenant d tid p req)
    end) d s.
Proof.
  unfold scope_exists, scope_in_tenant.
  destruct (str_eqb (cm_ScopeType req) "tenant") eqn:E1.
  { apply str_eqb_true in E1. rewrite E1. apply WP_ret. rewrite str_eqb_true. naive_solver. }
  destruct (str_eqb (cm_ScopeType req) "host") eqn:E2.
  { apply str_eqb_true in E2. rewrite E2. apply WP_query; [auto|]. split_and!; try done.
    rewrite existsb_exists. split.
    - intros (h & Hh & Hb). apply list_elem_of_In, elem_of_rows in Hh as [i Hi]. bool_to_prop.
      match goal with Hx : str_eqb _ _ = true |- _ => apply str_eqb_true in Hx end. naive_solver.
    - intros [[? _]|[(_ & i & h & Hi & Ht & Hu)|[? _]]]; [done| |done]. exists h.
      rewrite andb_true_iff, str_eqb_true, Z.eqb_eq. split; [apply list_elem_of_In, elem_of_rows; eauto|done]. }
  destruct (str_eqb (cm_ScopeType req) "group") eqn:E3.
  { apply str_eqb_true in E3. rewrite E3. apply WP_query; [auto|]. rewrite bool_decide_eq_true. naive_solver. }
  apply str_eqb_false in E1, E2, E3. apply WP_throw. naive_solver.
Qed.

(** What the creation of a window leaves. *)
Definition window_created (p : Principal) (req : CreateMaintenanceWindowRequest) (d : DB) (mw : MaintenanceWindow) (d' : DB) : Prop :=
  ∃ u id a, IsAdmin p = true ∧ active_user d (p_UserID p) (p_TenantCode p) = Some u ∧
    u_Role u = "admin"%string ∧ scope_in_tenant d (u_TenantID u) p req ∧
    db_maintenance d !! id = None ∧
    mw = mkMaintenanceWindow (FormatInt id) (cm_Title req) (cm_ScopeType req) (cm_ScopeRef req)
           (cm_StartAt req) (cm_EndAt req) (Actor p) (cm_Reason req) ∧
    a = mkAudit (u_TenantID u) (Actor p) "maintenance.create" "maintenance" (FormatInt id) true (au_CreatedAt a) ∧
    d' = set_audit (db_audit d ++ [a]) (set_maintenance (<[id :=
           mkMaintenance id (u_TenantID u) (cm_Title req) (cm_ScopeType req) (cm_ScopeRef req)
             (pg_timestamp (cm_StartAt req)) (pg_timestamp (cm_EndAt req)) (Actor p)
             (emptyStringPtr (cm_Reason req)) true]> (db_maintenance d)) d).

Lemma CreateMaintenance_WP p req d s :
  WP (CreateMaintenance p req) (λ r d' s',
    match r with
    | Ok mw => window_created p req d mw d'
    | Err e => all_or_nothing (λ d', ∃ mw, window_created p req d mw d') d e d' ∧ (driver_error e ∨ e = ErrForbidden ∨
        (e = ErrNotFound ∧ ∀ u, active_user d (p_UserID p) (p_TenantCode p) = Some u → ¬ scope_in_tenant d (u_TenantID u) p req))
    end) d s.
Proof.
  apply WP_Transaction_err; [|by split; [left|left]]. apply WP_bind. eapply WP_mono; [apply operationTenant_spec|].
  intros [tid|e] d' s' (-> & -> & Hr); cbv beta iota; [|split; [by left|naive_solver]].
  destruct Hr as (Hu & Hadm & Hnz & u & Hact & <- & Hrole). specialize (Hadm eq_refl).
  assert (u_Role u = "admin"%string) as Hr by naive_solver.
  apply WP_bind. eapply WP_mono; [apply scope_exists_spec|].
  intros [b|e] d' s' (-> & -> & Hb); cbv beta iota; [|split; [by left|naive_solver]].
  destruct b; simpl; [|apply WP_throw; split; [by left|]; right; right; naive_solver].
  apply WP_bind. apply WP_bind, WP_nextval; [by split; [left|left]|]. cbv beta iota.
  apply WP_bind, WP_exec; [by split; [left|left]|]. unfold insert_maintenance. simpl.
  case_bool_decide as Ex; [split; [by left|]; left; by eexists|]. apply WP_ret. cbv zeta.
  apply WP_bind, WP_time_now. intros t. apply WP_bind, WP_exec; [by split; [left|left]|]. apply WP_ret.
  match goal with |- ?P ∧ _ => assert P as Hok end.
  { eexists u, _, _. split_and!; try done; [naive_solver| |]; [by apply eq_None_not_Some|done]. }
  split; [exact Hok|]. intros e He. split; (split; [|by left]); [by left|right; eauto].
Qed.

(** What an acknowledgement leaves. *)
Definition alert_acked (p : Principal) (alertID : string) (now : Time) (d d' : DB) : Prop :=
  ∃ id u ev, ParseInt alertID = Some id ∧ 0 < id ∧
    IsUser p = true ∧ active_user d (p_UserID p) (p_TenantCode p) = Some u ∧
    db_alerts d !! id = Some ev ∧ al_TenantID ev = u_TenantID u ∧
    match al_AckedAt ev with
    | Some _ => d' = d
    | None => d' = set_audit (db_audit d ++ [mkAudit (u_TenantID u) (Actor p) "alert.ack" "alert" alertID true (pg_timestamp now)])
        (set_alerts (alter (λ ev, mkAlert (al_ID ev) (al_TenantID ev) (al_Fingerprint ev) (Actor p) (Some (pg_timestamp now)))
           (al_ID ev) (db_alerts d)) d)
    end.

Lemma AckAlert_WP p alertID now d s :
  WP (AckAlert p alertID now) (λ r d' s',
    match r with
    | Ok _ => alert_acked p alertID now d d'
    | Err e => all_or_nothing (alert_acked p alertID now d) d e d' ∧ (driver_error e ∨ e = ErrForbidden ∨ e = ErrNotFound)
    end) d s.
Proof.
  unfold AckAlert. assert (∀ e d1, driver_error e ∨ e = ErrForbidden ∨ e = ErrNotFound → d1 = d →
    all_or_nothing (alert_acked p alertID now d) d e d1 ∧ (driver_error e ∨ e = ErrForbidden ∨ e = ErrNotFound)) as Herr by (by split; [left|]).
  destruct (ParseInt alertID) as [id|] eqn:Ep; [|apply WP_throw; auto].
  destruct (id <=? 0) eqn:Ei; [apply WP_throw; auto|]. bool_to_prop.
  assert (∀ d1, alert_acked p alertID now d d1 → alert_acked p alertID now d d1 ∧ ∀ e, driver_error e →
    (all_or_nothing (alert_acked p alertID now d) d e d ∧ (driver_error e ∨ e = ErrForbidden ∨ e = ErrNotFound)) ∧
    all_or_nothing (alert_acked p alertID now d) d e d1 ∧ (driver_error e ∨ e = ErrForbidden ∨ e = ErrNotFound)) as Hok.
  { intros d1 Hd. split; [done|]. intros e He. split; (split; [|by left]); [by left|by right]. }
  apply WP_Transaction_err; [|auto]. apply WP_bind. eapply WP_mono; [apply operationTenant_spec|].
  intros [tid|e] d' s' (-> & -> & Hr); cbv beta iota; [|naive_solver].
  destruct Hr as (Hu & _ & Hnz & u & Hact & <- & Hrole).
  apply WP_bind, WP_query; [auto|].
  destruct (db_alerts d !! id) as [ev|] eqn:Eev; [|apply WP_throw; auto].
  destruct (al_TenantID ev =? u_TenantID u) eqn:Et; [|apply WP_throw; auto]. bool_to_prop.
  destruct (al_AckedAt ev) eqn:Eack.
  - apply WP_ret, Hok. exists id, u, ev. by rewrite Eack.
  - apply WP_bind, WP_exec; [auto|]. apply WP_exec; [auto|]. apply Hok.
    exists id, u, ev. by rewrite Eack.
Qed.

(** Creating a maintenance window succeeds only for an administrator whose
    account is active, of role admin and in the active tenant the credential
    names, and only for a scope inside that tenant; it then adds exactly one
    window, owned by that tenant and attributed to the user, and one audit row.
    On an error nothing is written, or all of it when only the acknowledgement of
    the [COMMIT] was lost. *)
Theorem ops_CreateMaintenance_spec p req w r w' :
  CreateMaintenance p req w = (r, w') →
  match r with
  | Ok mw => window_created p req (w_db w) mw (w_db w')
  | Err e => all_or_nothing (λ d', ∃ mw, window_created p req (w_db w) mw d') (w_db w) e (w_db w') ∧
      (driver_error e ∨ e = ErrForbidden ∨
       (e = ErrNotFound ∧ ∀ u, active_user (w_db w) (p_UserID p) (p_TenantCode p) = Some u →
          ¬ scope_in_tenant (w_db w) (u_TenantID u) p req))
  end.
Proof. intros E. exact (WP_run _ _ _ _ _ (CreateMaintenance_WP p req _ _) E). Qed.

(** The first acknowledgement of an alert wins.  An acknowledgement succeeds
    only for an alert of the user's own active tenant; it marks an open alert
    with the user and the time and writes one audit row, and leaves an alert
    that is already acknowledged exactly as it is.  Alerts of other tenants are
    not found, and an error writes nothing unless only the acknowledgement of the
    [COMMIT] was lost. *)
Theorem ops_AckAlert_spec p alertID now w r w' :
  AckAlert p alertID now w = (r, w') →
  match r with
  | Ok _ => alert_acked p alertID now (w_db w) (w_db w')
  | Err e => all_or_nothing (alert_acked p alertID now (w_db w)) (w_db w) e (w_db w') ∧ (driver_error e ∨ e = ErrForbidden ∨ e = ErrNotFound)
  end.
Proof. intros E. exact (WP_run _ _ _ _ _ (AckAlert_WP p alertID now _ _) E). Qed.

End operations.

Section examples.
#[local] Existing Instance Env_quiet.
#[local] Existing Instance PgTypes_exact.

Definition ex_admin : Principal := mkPrincipal User 1 "acme" 3 "admin" "" "" "" [] [].
Definition ex_ops_db : DB :=
  set_alerts {[8 := mkAlert 8 1 "fp" "" None; 9 := mkAlert 9 2 "fp" "" None]}
    (set_users {[3 := mkUser 3 1 "Ann" None "admin" "active" None 0 0]}
      (set_tenants {[1 := mkTenant 1 "acme" "Acme" 1; 2 := mkTenant 2 "other" "Other" 1]} empty_DB)).
Definition ex_window : CreateMaintenanceWindowRequest :=
  mkCreateMaintenanceWindowRequest "patching" "tenant" "acme" 10 20 "" "".

Lemma ops_CreateMaintenance_spec_witness :
  match CreateMaintenance ex_admin ex_window (world_of ex_ops_db ∅) with
  | (Ok mw, w') => mw_CreatedBy mw = "user:3"%string ∧ length (db_audit (w_db w')) = 1%nat
  | _ => False
  end.
Proof.
  assert (is_ok (CreateMaintenance ex_admin ex_window (world_of ex_ops_db ∅)).1 = true) as Hk by (vm_compute; reflexivity).
  destruct (CreateMaintenance ex_admin ex_window (world_of ex_ops_db ∅)) as [[mw|e] w'] eqn:E; [|discriminate Hk].
  destruct (ops_CreateMaintenance_spec ex_admin ex_window (world_of ex_ops_db ∅) _ w' E)
    as (u & id & a & _ & _ & _ & _ & _ & Hmw & _ & Hd).
  split; [rewrite Hmw; vm_compute; reflexivity|rewrite Hd; reflexivity].
Defined.

(** The alert of another tenant. *)
Lemma ops_AckAlert_spec_witness :
  match AckAlert ex_admin "8" 5 (world_of ex_ops_db ∅) with
  | (Ok _, w') => length (db_audit (w_db w')) = 1%nat
  | _ => False
  end ∧ is_ok (AckAlert ex_admin "9" 5 (world_of ex_ops_db ∅)).1 = false.
Proof.
  split; [|vm_compute; reflexivity].
  assert (is_ok (AckAlert ex_admin "8" 5 (world_of ex_ops_db ∅)).1 = true) as Hk by (vm_compute; reflexivity).
  destruct (AckAlert ex_admin "8" 5 (world_of ex_ops_db ∅)) as [[[]|e] w'] eqn:E; [|discriminate Hk].
  destruct (ops_AckAlert_spec ex_admin "8" 5 (world_of ex_ops_db ∅) _ w' E)
    as (id & u & ev & Hid & _ & _ & _ & Hev & _ & Hd).
  vm_compute in Hid. injection Hid as <-. vm_compute in Hev. injection Hev as <-. simpl in Hd. rewrite Hd. reflexivity.
Defined.

End examples.
