(* ===== verification/ShareStore.v ===== *)
(** * Shares of hosts and their sessions

    Models [pkg/access/postgres/shares.go]: a share is a bearer token, stored as
    its hash, that grants read access to listed hosts and fields of one tenant
    until it expires or is revoked; exchanging it yields a session with the same
    limits. *)

From Stdlib Require Import Ascii.
From stdpp Require Import gmap strings list sorting pretty.
From S2P Require Import Prelude GoRuntime GoStrings Contracts Encoding Access Sql HostStore Operations.
Local Open Scope Z_scope.

(** The columns a share query returns, the tenant's code joined in. *)
Record shareRow := mkShareRow {
  sw_ID : string; sw_TenantCode : string; sw_Title : string; sw_TenantID : Z; sw_CreatedBy : Z;
  sw_Fields : option (list string); sw_ExpiresAt : Time; sw_CreatedAt : Time; sw_RevokedAt : option Time
}.

Definition joined_share (t : tenantModel) (r : shareTableRow) : shareRow :=
  mkShareRow (sh_ID r) (t_TenantCode t) (sh_Title r) (sh_TenantID r) (sh_CreatedBy r) (sh_Fields r)
    (sh_ExpiresAt r) (sh_CreatedAt r) (sh_RevokedAt r).

(** The share's tenant is active, its creator is an active administrator of that
    tenant, and it is not revoked. *)
Definition share_in_force (d : DB) (r : shareTableRow) : bool :=
  match db_tenants d !! sh_TenantID r, db_users d !! sh_CreatedBy r with
  | Some t, Some u =>
      (u_TenantID u =? sh_TenantID r) && (t_Status t =? 1) && str_eqb (u_Status u) "active" &&
      str_eqb (u_Role u) "admin" && match sh_RevokedAt r with None => true | Some _ => false end
  | _, _ => false
  end.

Section store.
Context `{Env} `{PgTypes}.

Definition tenantForAdmin (p : Principal) : M Z :=
  if negb (IsAdmin p) then throw ErrForbidden else
  id ← query (λ d, match active_user d (p_UserID p) (p_TenantCode p) with
                   | Some u => if str_eqb (u_Role u) "admin" then u_TenantID u else 0
                   | None => 0
                   end);
  if id =? 0 then throw ErrForbidden else mret id.

Definition audit (p : Principal) (tenant : Z) (action id : string) (now : Time) : M unit :=
  exec (insert_audit (mkAudit tenant (Actor p) action "share" id true (pg_timestamp now))).

Definition insert_share (r : shareTableRow) (d : DB) : res DB :=
  if bool_decide (is_Some (db_shares d !! sh_ID r)) ||
     existsb (λ r', str_eqb (sh_TokenHash r') (sh_TokenHash r)) (rows (db_shares d))
  then Err errUnique
  else match db_users d !! sh_CreatedBy r with
       | Some u => if u_TenantID u =? sh_TenantID r then Ok (set_shares (<[sh_ID r := r]> (db_shares d)) d)
                   else Err errForeignKey
       | None => Err errForeignKey
       end.

Definition insert_share_host (id : string) (tenant : Z) (uid : string) (d : DB) : res DB :=
  if existsb (λ '(i, t, u), str_eqb i id && str_eqb u uid) (elements (db_share_hosts d)) then Err errUnique
  else if existsb (λ h, (h_TenantID h =? tenant) && str_eqb (h_HostUID h) uid) (rows (db_hosts d)) &&
          match db_shares d !! id with Some r => sh_TenantID r =? tenant | None => false end
  then Ok (set_share_hosts ({[(id, tenant, uid)]} ∪ db_share_hosts d) d)
  else Err errForeignKey.

Fixpoint insert_share_hosts (id : string) (tenant : Z) (uids : list string) : M unit :=
  match uids with
  | [] => mret ()
  | uid :: uids => exec (insert_share_host id tenant uid);; insert_share_hosts id tenant uids
  end.

Definition CreateShare (p : Principal) (req : CreateShareRequest) (hash : string) (now : Time) : M ShareRecord :=
  if negb (IsAdmin p) then throw ErrForbidden else
  match ValidateShareRequest req with
  | Err e => throw e
  | Ok _ =>
      if negb (len hash =? 64) then throw ErrUnauthorized else
      Transaction (
        tenant ← tenantForAdmin p;
        count ← query (λ d, llen (select (λ r, sh_TenantID r =? tenant) (rows (db_shares d))));
        if 100 <=? count then throw ErrQuota else
        count ← query (λ d, llen (select (λ h, (h_TenantID h =? tenant) && contains (cr_HostUIDs req) (h_HostUID h)) (rows (db_hosts d))));
        if negb (count =? llen (cr_HostUIDs req)) then throw ErrNotFound else
        id ← new_id "share";
        let expires := time_Add now (to_int64 (cr_TTLSeconds req * Second)) in
        exec (insert_share (mkShare id tenant (cr_Title req) hash (Some (cr_Fields req)) (pg_timestamp expires)
                              (p_UserID p) (pg_timestamp now) None));;
        insert_share_hosts id tenant (cr_HostUIDs req);;
        audit p tenant "share.create" id now;;
        mret (mkShareRecord id (p_TenantCode p) (cr_Title req) (cr_HostUIDs req) (cr_Fields req) expires now None))
  end.

(** [Where("share_id=? AND tenant_id=?").Order("host_uid").Pluck("host_uid")]. *)
Definition share_hosts (id : string) (tenant : Z) (d : DB) : list string :=
  sort_by pg_collate (omap (λ '(i, t, u), if str_eqb i id && (t =? tenant) then Some u else None) (elements (db_share_hosts d))).

Fixpoint shareRecords (p : Principal) (tenant : Z) (l : list shareTableRow) : M (list ShareRecord) :=
  match l with
  | [] => mret []
  | row :: l =>
      match sh_Fields row with
      | None => throw ErrJSON
      | Some fields =>
          uids ← query (share_hosts (sh_ID row) tenant);
          rest ← shareRecords p tenant l;
          mret (mkShareRecord (sh_ID row) (p_TenantCode p) (sh_Title row) uids fields (sh_ExpiresAt row)
                  (sh_CreatedAt row) (sh_RevokedAt row) :: rest)
      end
  end.

Definition ListShares (p : Principal) : M (list ShareRecord) :=
  if negb (IsAdmin p) then throw ErrForbidden else
  Transaction (
    tenant ← tenantForAdmin p;
    rows ← query (λ d, take 100 (order_by (λ r, - sh_CreatedAt r)
             (select (λ r, (sh_TenantID r =? tenant) && bool_decide (is_Some (db_tenants d !! sh_TenantID r))) (rows (db_shares d)))));
    shareRecords p tenant rows).

Definition revoke_share (id : string) (tenant : Z) (now : Time) (d : DB) : res DB :=
  Ok (set_shares
    ((λ r : shareTableRow,
        if str_eqb (sh_ID r) id && (sh_TenantID r =? tenant)
        then mkShare (sh_ID r) (sh_TenantID r) (sh_Title r) (sh_TokenHash r) (sh_Fields r) (sh_ExpiresAt r)
               (sh_CreatedBy r) (sh_CreatedAt r)
               (match sh_RevokedAt r with Some t => Some t | None => Some (pg_timestamp now) end)
        else r) <$> db_shares d) d).

Definition delete_share_sessions (p : shareSessionRow → bool) (d : DB) : res DB :=
  Ok (set_share_sessions (filter (λ '(_, x), p x = false) (db_share_sessions d)) d).

Definition RevokeShare (p : Principal) (id : string) (now : Time) : M unit :=
  Transaction (
    tenant ← tenantForAdmin p;
    found ← query (λ d, existsb (λ r, str_eqb (sh_ID r) id && (sh_TenantID r =? tenant)) (rows (db_shares d)));
    if negb found then throw ErrNotFound else
    exec (revoke_share id tenant now);;
    exec (delete_share_sessions (λ x, str_eqb (sx_ShareID x) id));;
    audit p tenant "share.revoke" id now).

(** The share that is in force and satisfies the extra condition. *)
Definition find_valid_share (cond : DB → shareTableRow → bool) (d : DB) : option shareRow :=
  match head (select (λ r, share_in_force d r && cond d r) (rows (db_shares d))) with
  | Some r => Some (joined_share (default zero_tenantModel (db_tenants d !! sh_TenantID r)) r)
  | None => None
  end.

Definition validShare (cond : DB → shareTableRow → bool) : M shareRow :=
  row ← query (find_valid_share cond);
  match row with
  | None => throw ErrUnauthorized
  | Some row => mret row
  end.

Definition sharePrincipal (row : shareRow) : M Principal :=
  match sw_Fields row with
  | None => throw ErrUnauthorized
  | Some fields =>
      uids ← query (share_hosts (sw_ID row) (sw_TenantID row));
      mret (mkPrincipal Share (sw_TenantID row) (sw_TenantCode row) 0 "" "" "" (sw_ID row) uids fields)
  end.

Definition Authenticate (raw : string) (kind : Kind) (now : Time) : M Principal :=
  if negb (str_eqb kind Share) || str_empty (TokenHash raw) then throw ErrUnauthorized else
  row ← validShare (λ _ r, str_eqb (sh_TokenHash r) (TokenHash raw) && (pg_timestamp now <? sh_ExpiresAt r));
  sharePrincipal row.

Definition insert_share_session (x : shareSessionRow) (d : DB) : res DB :=
  if bool_decide (is_Some (db_share_sessions d !! sx_TokenHash x)) then Err errUnique
  else if bool_decide (is_Some (db_shares d !! sx_ShareID x))
  then Ok (set_share_sessions (<[sx_TokenHash x := x]> (db_share_sessions d)) d)
  else Err errForeignKey.

Definition ExchangeShare (raw : string) (now : Time) : M ShareSession :=
  if str_empty (TokenHash raw) then throw ErrUnauthorized else
  Transaction (
    found ← query (λ d, head (select (λ r, str_eqb (sh_TokenHash r) (TokenHash raw)) (rows (db_shares d))));
    let id := default ""%string (sh_ID <$> found) in
    if str_empty id then throw ErrUnauthorized else
    row ← validShare (λ _ r, str_eqb (sh_ID r) id && (pg_timestamp now <? sh_ExpiresAt r));
    exec (delete_share_sessions (λ x, str_eqb (sx_ShareID x) id && (sx_ExpiresAt x <=? pg_timestamp now)));;
    count ← query (λ d, llen (select (λ x, str_eqb (sx_ShareID x) id) (rows (db_share_sessions d))));
    if 100 <=? count then throw ErrQuota else
    buf ← rand_read 32;
    '(token, hash) ← lift (NewToken buf);
    exec (insert_share_session (mkShareSessionRow hash id (sw_ExpiresAt row) (pg_timestamp now)));;
    p ← sharePrincipal row;
    mret (mkShareSession token (sw_ExpiresAt row) p)).

Definition AuthenticateShareSession (raw : string) (now : Time) : M Principal :=
  if str_empty (TokenHash raw) then throw ErrUnauthorized else
  row ← validShare (λ d r, (pg_timestamp now <? sh_ExpiresAt r) &&
          existsb (λ x, str_eqb (sx_ShareID x) (sh_ID r) && str_eqb (sx_TokenHash x) (TokenHash raw) &&
                        (pg_timestamp now <? sx_ExpiresAt x)) (rows (db_share_sessions d)));
  sharePrincipal row.

Definition ValidateDemo (p : Principal) : M unit :=
  if negb (str_eqb (p_Kind p) Demo) || str_empty (p_TenantCode p) || (llen (p_AllowedHosts p) =? 0) then throw ErrForbidden else
  active ← query (λ d, existsb (λ t, str_eqb (t_TenantCode t) (p_TenantCode p) && (t_Status t =? 1)) (rows (db_tenants d)));
  if negb active then throw ErrForbidden else mret ().

End store.
