(* ===== verification/ShareStoreProps.v ===== *)
(** * Properties of shares

    The quotas and the integrity of the share tables under every operation, and
    what a share token gives access to: only in force, only until it expires,
    never after it is revoked, only inside its tenant. *)

From Stdlib Require Import Ascii.
From stdpp Require Import gmap strings list sorting pretty.
From S2P Require Import Prelude GoRuntime GoStrings Contracts Encoding Access Sql HostStore Operations ShareStore.
Local Open Scope Z_scope.

Definition shares_of (d : DB) (tenant : Z) : list shareTableRow :=
  select (λ r, sh_TenantID r =? tenant) (rows (db_shares d)).
Definition sessions_of (d : DB) (id : string) : list shareSessionRow :=
  select (λ x, str_eqb (sx_ShareID x) id) (rows (db_share_sessions d)).

Record share_wf (d : DB) : Prop := {
  wf_share : ∀ i r, db_shares d !! i = Some r → sh_ID r = i ∧ i ≠ ""%string;
  wf_share_hash : ∀ i j r r', db_shares d !! i = Some r → db_shares d !! j = Some r' →
    sh_TokenHash r = sh_TokenHash r' → i = j;
  wf_share_host : ∀ i t u, (i, t, u) ∈ db_share_hosts d → ∃ r, db_shares d !! i = Some r ∧ sh_TenantID r = t;
  wf_share_session : ∀ k x, db_share_sessions d !! k = Some x →
    sx_TokenHash x = k ∧ is_Some (db_shares d !! sx_ShareID x);
  wf_share_quota : ∀ t, (length (shares_of d t) ≤ 100)%nat;
  wf_session_quota : ∀ i, (length (sessions_of d i) ≤ 100)%nat
}.

Definition share_inv (d : DB) (s : Seqs) : Prop := share_wf d.

Lemma share_wf_empty d :
  db_shares d = ∅ → db_share_hosts d = ∅ → db_share_sessions d = ∅ → share_wf d.
Proof.
  intros H1 H2 H3. split; unfold shares_of, sessions_of; rewrite ?H1, ?H2, ?H3; intros; simplify_map_eq; try set_solver.
  all: unfold rows; rewrite map_to_list_empty; simpl; lia.
Qed.

Section keeps_inv.
Context `{Env} `{PgTypes}.

Lemma keeps_audit p t a i now : keeps share_inv (audit p t a i now).
Proof. apply keeps_exec. intros d s d' [] [= <-]. by split. Qed.

Lemma keeps_tenantForAdmin p : keeps share_inv (tenantForAdmin p).
Proof. unfold tenantForAdmin. repeat keeps_step. Qed.

Lemma insert_share_inv r d d' :
  insert_share r d = Ok d' →
  d' = set_shares (<[sh_ID r := r]> (db_shares d)) d ∧ db_shares d !! sh_ID r = None ∧
  (∀ i r', db_shares d !! i = Some r' → sh_TokenHash r' ≠ sh_TokenHash r).
Proof.
  unfold insert_share. destruct (_ || _) eqn:E; [done|].
  destruct (db_users d !! sh_CreatedBy r) as [u|]; [|done]. destruct (_ =? _); [|done]. intros [= <-].
  apply orb_false_iff in E as [E1 E2]. apply bool_decide_eq_false, eq_None_not_Some in E1. split_and!; try done.
  intros i r' Hr' Hh. assert (existsb (λ r', str_eqb (sh_TokenHash r') (sh_TokenHash r)) (rows (db_shares d)) = true); [|congruence].
  apply existsb_exists. exists r'. rewrite str_eqb_true. split; [apply list_elem_of_In, elem_of_rows; eauto|done].
Qed.

Lemma insert_share_wf r d d' :
  share_wf d → sh_ID r ≠ ""%string → (length (shares_of d (sh_TenantID r)) < 100)%nat →
  insert_share r d = Ok d' → share_wf d'.
Proof.
  intros [] Hne Hq (-> & Hn & Hu)%insert_share_inv. split; simpl; try done.
  - intros i r'. rewrite lookup_insert_Some. intros [[<- <-]|[_ ?]]; eauto.
  - intros i j r1 r2. rewrite !lookup_insert_Some. intros [[<- <-]|[_ H1]] [[<- <-]|[_ H2]] He; eauto.
    + by destruct (Hu _ _ H2).
    + by destruct (Hu _ _ H1).
  - intros i t u Hin. destruct (wf_share_host0 _ _ _ Hin) as (r' & Hr' & <-). exists r'. split; [|done].
    rewrite lookup_insert_ne; [done|]. intros E. rewrite E in Hn. congruence.
  - intros k x Hx. destruct (wf_share_session0 _ _ Hx) as [? [r' Hr']]. split; [done|]. exists r'.
    rewrite lookup_insert_ne; [done|]. intros E. rewrite E in Hn. congruence.
  - intros t. unfold shares_of; simpl.
    rewrite (Permutation_length (select_Permutation _ _ _ (rows_insert _ _ r Hn))), select_cons.
    destruct (_ =? _) eqn:E; [|apply wf_share_quota0]. apply Z.eqb_eq in E as <-. unfold shares_of in Hq. simpl. lia.
Qed.

Lemma insert_share_host_inv id t u d d' :
  insert_share_host id t u d = Ok d' →
  d' = set_share_hosts ({[(id, t, u)]} ∪ db_share_hosts d) d ∧
  ∃ r, db_shares d !! id = Some r ∧ sh_TenantID r = t.
Proof.
  unfold insert_share_host. destruct (existsb _ (elements _)); [done|]. destruct (_ && _) eqn:E; [|done].
  intros [= <-]. apply andb_true_iff in E as [_ E]. split; [done|].
  destruct (db_shares d !! id) as [r|]; [|done]. exists r. by bool_to_prop.
Qed.

Lemma keeps_insert_share_hosts id t uids : keeps share_inv (insert_share_hosts id t uids).
Proof.
  induction uids as [|u uids IH]; simpl; [apply keeps_ret|]. apply keeps_bind; [|auto].
  apply keeps_exec. intros d s d' [] (-> & r & Hr & Ht)%insert_share_host_inv. split; simpl; try done.
  intros i t' u' [[= -> -> ->]%elem_of_singleton|Hin]%elem_of_union; eauto.
Qed.

Lemma WP_tenantForAdmin p (Q : res Z → DB → Seqs → Prop) d s :
  (∀ e, driver_error e ∨ e = ErrForbidden → Q (Err e) d s) →
  (∀ u, IsAdmin p = true → active_user d (p_UserID p) (p_TenantCode p) = Some u → u_Role u = "admin"%string →
    u_TenantID u ≠ 0 → Q (Ok (u_TenantID u)) d s) →
  WP (tenantForAdmin p) Q d s.
Proof.
  intros He HQ. unfold tenantForAdmin. destruct (IsAdmin p) eqn:Ea; simpl; [|apply WP_throw; auto].
  apply WP_bind, WP_query; [auto|]. destruct (active_user d _ _) as [u|] eqn:Eu; [|apply WP_throw; auto].
  destruct (str_eqb (u_Role u) "admin") eqn:Er; [|apply WP_throw; auto]. apply str_eqb_true in Er.
  destruct (_ =? 0) eqn:Ez; [apply WP_throw; auto|]. bool_to_prop. apply WP_ret. auto.
Qed.

Lemma keeps_CreateShare p req hash now : keeps share_inv (CreateShare p req hash now).
Proof.
  unfold CreateShare. destruct (negb _); [apply keeps_throw|].
  destruct (ValidateShareRequest req); [|apply keeps_throw]. destruct (negb _); [apply keeps_throw|].
  apply keeps_Transaction; [done|]. intros d s HI. apply WP_bind, WP_tenantForAdmin; [done|].
  intros u _ _ _ _. apply WP_bind, WP_query; [done|].
  destruct (100 <=? _) eqn:Eq; [by apply WP_throw|].
  apply WP_bind, WP_query; [done|]. destruct (negb _); [by apply WP_throw|].
  apply WP_bind, WP_new_id. intros nano buf. cbv zeta.
  apply WP_bind, WP_exec; [done|]. destruct (insert_share _ d) eqn:Ei; [|done].
  eapply insert_share_wf in Ei; [|done|apply ids_New_nonempty|].
  - revert Ei. generalize a0. intros d' Hd'. apply (keeps_bind share_inv); [apply keeps_insert_share_hosts| |done].
    intros _. apply keeps_bind; [apply keeps_audit|]. intros _. apply keeps_ret.
  - simpl. bool_to_prop. unfold llen in Eq. unfold shares_of. lia.
Qed.

Lemma keeps_shareRecords p t l : keeps share_inv (shareRecords p t l).
Proof. induction l as [|r l IH]; simpl; [apply keeps_ret|]. destruct (sh_Fields r); repeat first [done|keeps_step]. Qed.

Lemma keeps_ListShares p : keeps share_inv (ListShares p).
Proof.
  unfold ListShares. destruct (negb _); [apply keeps_throw|]. apply keeps_Transaction; [done|].
  apply keeps_bind; [apply keeps_tenantForAdmin|]. intros t. apply keeps_bind; [apply keeps_query|].
  intros l. apply keeps_shareRecords.
Qed.

Lemma revoke_share_wf id t now d d' : share_wf d → revoke_share id t now d = Ok d' → share_wf d'.
Proof.
  intros [] [= <-]. split; simpl.
  - intros i r (r' & <- & Hr)%lookup_fmap_Some. destruct (_ && _); by apply (wf_share0 _ _ Hr).
  - intros i j r1 r2 (r1' & <- & H1)%lookup_fmap_Some (r2' & <- & H2)%lookup_fmap_Some He.
    eapply wf_share_hash0; [done..|]. by destruct (_ && _), (_ && _).
  - intros i t' u Hin. destruct (wf_share_host0 _ _ _ Hin) as (r & Hr & <-).
    eexists. rewrite lookup_fmap, Hr. split; [done|]. by destruct (_ && _).
  - intros k x Hx. destruct (wf_share_session0 _ _ Hx) as [? [r Hr]]. split; [done|].
    rewrite lookup_fmap, Hr. by eexists.
  - intros t'. specialize (wf_share_quota0 t'). unfold shares_of in *; simpl. rewrite rows_fmap.
    rewrite length_select_fmap; [done|]. intros r. by destruct (_ && _).
  - done.
Qed.

Lemma delete_share_sessions_wf q d d' : share_wf d → delete_share_sessions q d = Ok d' → share_wf d'.
Proof.
  intros [] [= <-]. split; simpl; try done.
  - intros k x [Hx _]%map_lookup_filter_Some. eauto.
  - intros i. etrans; [|apply (wf_session_quota0 i)]. apply count_subset, map_filter_subseteq.
Qed.

Lemma keeps_RevokeShare p id now : keeps share_inv (RevokeShare p id now).
Proof.
  unfold RevokeShare. apply keeps_Transaction; [done|]. apply keeps_bind; [apply keeps_tenantForAdmin|]. intros t.
  apply keeps_bind; [apply keeps_query|]. intros b. destruct (negb b); [apply keeps_throw|].
  apply keeps_bind; [apply keeps_exec; intros; by eapply revoke_share_wf|]. intros _.
  apply keeps_bind; [apply keeps_exec; intros; by eapply delete_share_sessions_wf|]. intros _. apply keeps_audit.
Qed.

Lemma keeps_validShare c : keeps share_inv (validShare c).
Proof. unfold validShare. repeat keeps_step. Qed.
Lemma keeps_sharePrincipal r : keeps share_inv (sharePrincipal r).
Proof. unfold sharePrincipal. repeat keeps_step. Qed.

Lemma insert_share_session_inv x d d' :
  insert_share_session x d = Ok d' →
  d' = set_share_sessions (<[sx_TokenHash x := x]> (db_share_sessions d)) d ∧
  db_share_sessions d !! sx_TokenHash x = None ∧ is_Some (db_shares d !! sx_ShareID x).
Proof.
  unfold insert_share_session. case_bool_decide as E1; [done|]. case_bool_decide; [|done]. intros [= <-].
  by rewrite <-eq_None_not_Some in E1.
Qed.

Lemma insert_share_session_wf x d d' :
  share_wf d → (length (sessions_of d (sx_ShareID x)) < 100)%nat → insert_share_session x d = Ok d' → share_wf d'.
Proof.
  intros [] Hq (-> & Hn & Hs)%insert_share_session_inv. split; simpl; try done.
  - intros k x'. rewrite lookup_insert_Some. intros [[<- <-]|[_ ?]]; eauto.
  - intros i. unfold sessions_of; simpl.
    rewrite (Permutation_length (select_Permutation _ _ _ (rows_insert _ _ x Hn))), select_cons.
    destruct (str_eqb _ _) eqn:E; [|apply wf_session_quota0]. apply str_eqb_true in E as <-.
    unfold sessions_of in Hq. simpl. lia.
Qed.

Lemma keeps_ExchangeShare raw now : keeps share_inv (ExchangeShare raw now).
Proof.
  unfold ExchangeShare. destruct (str_empty (TokenHash raw)); [apply keeps_throw|].
  apply keeps_Transaction; [done|]. apply keeps_bind; [apply keeps_query|]. intros found. cbv zeta.
  destruct (str_empty _); [apply keeps_throw|]. set (id := default _ _).
  apply keeps_bind; [apply keeps_validShare|]. intros row.
  apply keeps_bind; [apply keeps_exec; intros; by eapply delete_share_sessions_wf|]. intros _.
  intros d s HI. apply WP_bind, WP_query; [done|]. destruct (100 <=? _) eqn:Eq; [by apply WP_throw|].
  apply WP_bind, WP_rand_read. intros buf _. apply WP_bind, WP_lift.
  destruct (NewToken buf) as [[token hash]|e]; [|done].
  apply WP_bind, WP_exec; [done|]. destruct (insert_share_session _ d) as [d'|e] eqn:Ei; [|done].
  eapply insert_share_session_wf in Ei; [|done|].
  - apply (keeps_bind share_inv); [apply keeps_sharePrincipal| |done]. intros pr. apply keeps_ret.
  - simpl. bool_to_prop. unfold llen in Eq. unfold sessions_of. lia.
Qed.

End keeps_inv.

(** ** What a credential grants *)

Section grants.
Context `{Env} `{PgTypes}.

(** The principal [pr] is what a share in force grants at [now]. *)
Definition share_grant (d : DB) (now : Time) (pr : Principal) : Prop :=
  ∃ r t u, db_shares d !! p_ShareID pr = Some r ∧ sh_RevokedAt r = None ∧ pg_timestamp now < sh_ExpiresAt r ∧
    db_tenants d !! sh_TenantID r = Some t ∧ t_Status t = 1 ∧
    db_users d !! sh_CreatedBy r = Some u ∧ u_TenantID u = sh_TenantID r ∧
    u_Status u = "active"%string ∧ u_Role u = "admin"%string ∧
    p_Kind pr = Share ∧ p_UserID pr = 0 ∧ p_TenantID pr = sh_TenantID r ∧ p_TenantCode pr = t_TenantCode t ∧
    sh_Fields r = Some (p_Fields pr) ∧
    (∀ h, h ∈ p_AllowedHosts pr ↔ (p_ShareID pr, sh_TenantID r, h) ∈ db_share_hosts d).

Lemma share_in_force_spec d r :
  share_in_force d r = true ↔
  ∃ t u, db_tenants d !! sh_TenantID r = Some t ∧ t_Status t = 1 ∧ db_users d !! sh_CreatedBy r = Some u ∧
    u_TenantID u = sh_TenantID r ∧ u_Status u = "active"%string ∧ u_Role u = "admin"%string ∧ sh_RevokedAt r = None.
Proof.
  unfold share_in_force. destruct (db_tenants d !! sh_TenantID r) as [t|]; [|naive_solver].
  destruct (db_users d !! sh_CreatedBy r) as [u|]; [|naive_solver].
  rewrite !andb_true_iff, !Z.eqb_eq, !str_eqb_true. destruct (sh_RevokedAt r); naive_solver.
Qed.

Lemma elem_of_share_hosts id t d u : u ∈ share_hosts id t d ↔ (id, t, u) ∈ db_share_hosts d.
Proof.
  unfold share_hosts. rewrite elem_of_sort_by, list_elem_of_omap. split.
  - intros ([[i t'] u'] & Hin%elem_of_elements & Hs). destruct (_ && _) eqn:E; [|done]. injection Hs as ->.
    bool_to_prop. match goal with Hx : str_eqb _ _ = true |- _ => apply str_eqb_true in Hx end. by subst.
  - intros Hin. exists (id, t, u). split; [by apply elem_of_elements|].
    unfold str_eqb. by rewrite bool_decide_eq_true_2, Z.eqb_refl.
Qed.

Lemma validShare_spec cond d s :
  share_wf d →
  WP (validShare cond) (λ r d' s', d' = d ∧ s' = s ∧
    match r with
    | Ok row => ∃ r t, db_shares d !! sh_ID r = Some r ∧ share_in_force d r = true ∧ cond d r = true ∧
        db_tenants d !! sh_TenantID r = Some t ∧ row = joined_share t r
    | Err e => driver_error e ∨ (e = ErrUnauthorized ∧ ∀ i r, db_shares d !! i = Some r → share_in_force d r && cond d r = false)
    end) d s.
Proof.
  intros Hd. apply WP_bind, WP_query; [auto|]. unfold find_valid_share. destruct (head _) as [r|] eqn:E.
  - apply WP_ret. apply head_Some_elem_of in E. rewrite elem_of_select, elem_of_rows in E. destruct E as [E [i Hi]].
    apply andb_true_iff in E as [Hf Hc]. destruct (wf_share _ Hd _ _ Hi) as [<- _].
    apply share_in_force_spec in Hf as Hf'. destruct Hf' as (t & u & Ht & _). split_and!; try done.
    exists r, t. by rewrite Ht.
  - apply WP_throw. split_and!; try done. right. split; [done|]. intros i r Hi. apply head_None in E.
    destruct (_ && _) eqn:Eb; [|done].
    assert (r ∈ select (λ r, share_in_force d r && cond d r) (rows (db_shares d))) as Hin; [|rewrite E in Hin; set_solver].
    rewrite elem_of_select, elem_of_rows. eauto.
Qed.

Lemma sharePrincipal_spec t r d s :
  WP (sharePrincipal (joined_share t r)) (λ x d' s', d' = d ∧ s' = s ∧
    match x with
    | Ok pr => ∃ fields, sh_Fields r = Some fields ∧
        pr = mkPrincipal Share (sh_TenantID r) (t_TenantCode t) 0 "" "" "" (sh_ID r) (share_hosts (sh_ID r) (sh_TenantID r) d) fields
    | Err e => driver_error e ∨ (e = ErrUnauthorized ∧ sh_Fields r = None)
    end) d s.
Proof.
  unfold sharePrincipal. simpl. destruct (sh_Fields r); [|apply WP_throw; auto].
  apply WP_bind, WP_query; [auto|]. apply WP_ret. eauto.
Qed.

Lemma grant_intro d now r t pr fields :
  db_shares d !! sh_ID r = Some r → share_in_force d r = true → pg_timestamp now < sh_ExpiresAt r →
  db_tenants d !! sh_TenantID r = Some t → sh_Fields r = Some fields →
  pr = mkPrincipal Share (sh_TenantID r) (t_TenantCode t) 0 "" "" "" (sh_ID r) (share_hosts (sh_ID r) (sh_TenantID r) d) fields →
  share_grant d now pr.
Proof.
  intros Hr Hf Hx Ht Hfl ->. apply share_in_force_spec in Hf as (t' & u & Ht' & ? & Hu & ? & ? & ? & ?).
  exists r, t, u. simpl. simplify_eq. split_and!; try done. intros h. by rewrite elem_of_share_hosts.
Qed.

(** The share a raw token belongs to. *)
Definition token_share (d : DB) (raw : string) (r : shareTableRow) : Prop :=
  db_shares d !! sh_ID r = Some r ∧ sh_TokenHash r = TokenHash raw.

Lemma Authenticate_WP raw now d s :
  share_wf d →
  WP (Authenticate raw Share now) (λ x d' s', d' = d ∧ s' = s ∧
    match x with
    | Ok pr => share_grant d now pr ∧ ∃ r, token_share d raw r ∧ sh_ID r = p_ShareID pr
    | Err e => driver_error e ∨ (e = ErrUnauthorized ∧
        ∀ r, TokenHash raw ≠ ""%string → token_share d raw r → share_in_force d r = true →
          pg_timestamp now < sh_ExpiresAt r → sh_Fields r = None)
    end) d s.
Proof.
  intros Hd. unfold Authenticate. destruct (_ || _) eqn:E.
  { apply WP_throw. split_and!; try done. right. split; [done|]. intros r Hne. apply str_empty_false in Hne.
    by rewrite Hne in E. }
  apply WP_bind. eapply WP_mono; [by apply validShare_spec|].
  intros [row|e] d' s' (-> & -> & Hr); cbv beta iota.
  - destruct Hr as (r & t & Hr & Hf & Hc & Ht & ->). bool_to_prop.
    match goal with Hx : str_eqb (sh_TokenHash r) _ = true |- _ => apply str_eqb_true in Hx as Hh end.
    eapply WP_mono; [apply sharePrincipal_spec|]. intros [pr|e] d' s' (-> & -> & Hp); do 2 (split; [done|]).
    + destruct Hp as (fields & Hfl & ->). split; [by eapply grant_intro|]. exists r. done.
    + destruct Hp as [?|[-> Hn]]; [by left|]. right. split; [done|]. intros r' _ [Hr' Hh'] _ _.
      assert (sh_ID r' = sh_ID r) as Hid by (eapply (wf_share_hash _ Hd); [done..|congruence]). congruence.
  - split_and!; try done. destruct Hr as [?|[-> Hn]]; [by left|]. right. split; [done|].
    intros r _ [Hr Hh] Hf Hx. specialize (Hn _ _ Hr). rewrite Hf in Hn. simpl in Hn.
    apply str_eqb_true in Hh. rewrite Hh in Hn. bool_to_prop. destruct Hn as [?|Hn]; [done|]. bool_to_prop. lia.
Qed.

Lemma AuthenticateShareSession_WP raw now d s :
  share_wf d →
  WP (AuthenticateShareSession raw now) (λ x d' s', d' = d ∧ s' = s ∧
    match x with
    | Ok pr => share_grant d now pr ∧ ∃ y, db_share_sessions d !! TokenHash raw = Some y ∧
        sx_ShareID y = p_ShareID pr ∧ pg_timestamp now < sx_ExpiresAt y
    | Err e => driver_error e ∨ (e = ErrUnauthorized ∧
        ∀ r y, TokenHash raw ≠ ""%string → db_share_sessions d !! TokenHash raw = Some y →
          db_shares d !! sx_ShareID y = Some r → share_in_force d r = true →
          pg_timestamp now < sh_ExpiresAt r → pg_timestamp now < sx_ExpiresAt y → sh_Fields r = None)
    end) d s.
Proof.
  intros Hd. unfold AuthenticateShareSession. destruct (str_empty _) eqn:E0.
  { apply str_empty_true in E0. apply WP_throw. do 2 (split; [done|]). right. split; [done|]. by intros r y Hne. }
  apply WP_bind. eapply WP_mono; [by apply validShare_spec|].
  intros [row|e] d' s' (-> & -> & Hr); cbv beta iota.
  - destruct Hr as (r & t & Hr & Hf & Hc & Ht & ->). apply andb_true_iff in Hc as [Hx Hc]. bool_to_prop.
    apply existsb_exists in Hc as (y & Hy%list_elem_of_In & Hc). apply elem_of_rows in Hy as [k Hy]. bool_to_prop.
    repeat match goal with Hs : str_eqb _ _ = true |- _ => apply str_eqb_true in Hs end.
    destruct (wf_share_session _ Hd _ _ Hy) as [<- _].
    assert (db_share_sessions d !! TokenHash raw = Some y) as Hy' by congruence.
    eapply WP_mono; [apply sharePrincipal_spec|]. intros [pr|e] d' s' (-> & -> & Hp); do 2 (split; [done|]).
    + destruct Hp as (fields & Hfl & ->). split; [by eapply grant_intro|]. exists y. simpl. done.
    + destruct Hp as [?|[-> Hn]]; [by left|]. right. split; [done|]. intros r' y' _ Hy'' Hr' _ _ _. congruence.
  - do 2 (split; [done|]). destruct Hr as [?|[-> Hn]]; [by left|]. right. split; [done|].
    intros r y _ Hy Hr Hf Hx Hxy. exfalso. specialize (Hn _ _ Hr). rewrite Hf in Hn. simpl in Hn.
    apply andb_false_iff in Hn as [Hn|Hn]; [bool_to_prop; lia|].
    destruct (wf_share_session _ Hd _ _ Hy) as [Hyh _]. destruct (wf_share _ Hd _ _ Hr) as [Hrid _].
    match type of Hn with ?b = false => assert (b = true); [|congruence] end.
    apply existsb_exists. exists y. split; [apply list_elem_of_In, elem_of_rows; eauto|].
    rewrite !andb_true_iff, !str_eqb_true, Z.ltb_lt. done.
Qed.

End grants.

(** ** Revocation *)

Inductive share_op :=
| OpCreateShare (p : Principal) (req : CreateShareRequest) (hash : string) (now : Time)
| OpListShares (p : Principal)
| OpRevokeShare (p : Principal) (id : string) (now : Time)
| OpAuthenticate (raw : string) (kind : Kind) (now : Time)
| OpExchangeShare (raw : string) (now : Time)
| OpAuthenticateShareSession (raw : string) (now : Time)
| OpValidateDemo (p : Principal).

Section runs.
Context `{Env} `{PgTypes}.

Definition run_share_op (o : share_op) : M unit :=
  match o with
  | OpCreateShare p req hash now => CreateShare p req hash now;; mret ()
  | OpListShares p => ListShares p;; mret ()
  | OpRevokeShare p id now => RevokeShare p id now
  | OpAuthenticate raw kind now => Authenticate raw kind now;; mret ()
  | OpExchangeShare raw now => ExchangeShare raw now;; mret ()
  | OpAuthenticateShareSession raw now => AuthenticateShareSession raw now;; mret ()
  | OpValidateDemo p => ValidateDemo p
  end.

Fixpoint run_share_ops (ops : list share_op) (w : World) : World :=
  match ops with
  | [] => w
  | o :: ops => run_share_ops ops (run_share_op o w).2
  end.

Lemma keeps_run_share_op o : keeps share_inv (run_share_op o).
Proof.
  destruct o; simpl; try (apply keeps_bind; [|intros; apply keeps_ret]).
  - apply keeps_CreateShare.
  - apply keeps_ListShares.
  - apply keeps_RevokeShare.
  - unfold Authenticate. destruct (_ || _); [apply keeps_throw|].
    apply keeps_bind; [apply keeps_validShare|apply keeps_sharePrincipal].
  - apply keeps_ExchangeShare.
  - unfold AuthenticateShareSession. destruct (str_empty _); [apply keeps_throw|].
    apply keeps_bind; [apply keeps_validShare|apply keeps_sharePrincipal].
  - unfold ValidateDemo. repeat keeps_step.
Qed.

Lemma share_keeps_run (I : DB → Seqs → Prop) {A} (m : M A) w :
  keeps I m → I (w_db w) (w_seq w) → I (w_db (m w).2) (w_seq (m w).2).
Proof. intros Hk HI. specialize (Hk _ _ HI w eq_refl eq_refl). by destruct (m w). Qed.

(** A revoked share: its row stays, with the time of the revocation. *)
Definition revoked (id : string) (d : DB) (s : Seqs) : Prop :=
  ∃ r, db_shares d !! id = Some r ∧ sh_RevokedAt r ≠ None.

Lemma revoked_shares id d d' s s' : db_shares d' = db_shares d → revoked id d s → revoked id d' s'.
Proof. intros E (r & Hr & Hn). exists r. by rewrite E. Qed.

Lemma keeps_revoked_insert_hosts id i t uids : keeps (revoked id) (insert_share_hosts i t uids).
Proof.
  induction uids as [|u uids IH]; simpl; [apply keeps_ret|]. apply keeps_bind; [|auto].
  apply keeps_exec. intros d s d' Hr (-> & _)%insert_share_host_inv. by apply (revoked_shares _ d _ s).
Qed.

Lemma keeps_revoked id o : keeps (revoked id) (run_share_op o).
Proof.
  assert (∀ p t a i now, keeps (revoked id) (audit p t a i now)) as Ha.
  { intros. apply keeps_exec. intros d s d' Hr [= <-]. by apply (revoked_shares _ d _ s). }
  assert (∀ q, keeps (revoked id) (exec (delete_share_sessions q))) as Hd.
  { intros. apply keeps_exec. intros d s d' Hr [= <-]. by apply (revoked_shares _ d _ s). }
  assert (∀ x, keeps (revoked id) (exec (insert_share_session x))) as Hs.
  { intros. apply keeps_exec. intros d s d' Hr (-> & _)%insert_share_session_inv. by apply (revoked_shares _ d _ s). }
  assert (∀ r, keeps (revoked id) (exec (insert_share r))) as Hi.
  { intros r. apply keeps_exec. intros d s d' (r' & Hr & Hn) (-> & Hnone & _)%insert_share_inv.
    exists r'. simpl. rewrite lookup_insert_ne; [done|]. intros E. rewrite E in Hnone. congruence. }
  assert (∀ i t now, keeps (revoked id) (exec (revoke_share i t now))) as Hrv.
  { intros i t now. apply keeps_exec. intros d s d' (r & Hr & Hn) [= <-]. eexists. simpl.
    rewrite lookup_fmap, Hr. split; [done|]. destruct (_ && _); [|done]. simpl. by destruct (sh_RevokedAt r). }
  assert (∀ p t l, keeps (revoked id) (shareRecords p t l)) as Hl.
  { intros p t l. induction l as [|r l IH]; simpl; [apply keeps_ret|]. destruct (sh_Fields r); repeat first [done|keeps_step]. }
  pose proof (keeps_revoked_insert_hosts id) as Hh.
  destruct o; simpl; unfold CreateShare, ListShares, RevokeShare, Authenticate, ExchangeShare,
    AuthenticateShareSession, ValidateDemo, validShare, sharePrincipal, tenantForAdmin;
    repeat first [by auto|apply keeps_Transaction; [intros d s d' s' Hx _; exact Hx|]|keeps_step].
Qed.

Lemma run_share_ops_inv (I : DB → Seqs → Prop) ops w :
  (∀ o, keeps I (run_share_op o)) → I (w_db w) (w_seq w) →
  I (w_db (run_share_ops ops w)) (w_seq (run_share_ops ops w)).
Proof.
  intros Hk. revert w. induction ops as [|o ops IH]; intros w HI; simpl; [done|].
  by apply IH, share_keeps_run.
Qed.

Lemma RevokeShare_WP p id now d s :
  share_wf d →
  WP (RevokeShare p id now) (on_ok (λ _ d' s', share_wf d' ∧ revoked id d' s' ∧ sessions_of d' id = [] ∧
    ∃ u r, active_user d (p_UserID p) (p_TenantCode p) = Some u ∧ u_Role u = "admin"%string ∧
      db_shares d !! id = Some r ∧ sh_TenantID r = u_TenantID u)) d s.
Proof.
  intros Hd. apply WP_Transaction_ok. apply WP_bind, WP_tenantForAdmin; [done|]. intros u _ Hu Hrole _.
  apply WP_bind, WP_query; [done|]. destruct (existsb _ _) eqn:E; simpl; [|by apply WP_throw].
  apply existsb_exists in E as (r & Hr%list_elem_of_In & Hc). apply elem_of_rows in Hr as [i Hi].
  apply andb_true_iff in Hc as [Hid%str_eqb_true Ht]. apply Z.eqb_eq in Ht.
  destruct (wf_share _ Hd _ _ Hi) as [Hi' _]. rewrite Hid in Hi'. subst i.
  apply WP_bind, WP_exec; [done|]. unfold revoke_share at 1.
  pose proof (revoke_share_wf id (u_TenantID u) now d _ Hd eq_refl) as Hd1.
  apply WP_bind, WP_exec; [done|]. unfold delete_share_sessions at 1.
  apply WP_exec; [done|]. simpl. split_and!.
  - destruct (delete_share_sessions_wf (λ x, str_eqb (sx_ShareID x) id) _ _ Hd1 eq_refl). by split.
  - eexists. simpl. rewrite lookup_fmap, Hi. split; [done|]. simpl. rewrite Ht, Z.eqb_refl, andb_true_r.
    apply str_eqb_true in Hid. rewrite Hid. simpl. by destruct (sh_RevokedAt r).
  - unfold sessions_of; simpl. apply select_none. intros x [k Hk]%elem_of_rows.
    apply map_lookup_filter_Some in Hk as [_ Hk]. done.
  - exists u, r. done.
Qed.

(** C8: whatever is done with shares, and whatever fails, the share tables stay
    sound: identifiers and token hashes are unique, hosts and sessions belong to
    existing shares, no tenant holds more than 100 shares and no share more than
    100 sessions. *)
Theorem share_quota_invariant ops w :
  share_wf (w_db w) → share_wf (w_db (run_share_ops ops w)).
Proof. intros Hw. by apply (run_share_ops_inv share_inv ops w keeps_run_share_op). Qed.

(** C9: a share token or session token that is accepted yields exactly what a
    share in force grants at that time: the share is not revoked and not
    expired, its tenant is active, its creator is still an active administrator
    of that tenant, and the principal is a share principal of that tenant with
    the share's hosts and fields.  A share token carries the share's hash, a
    session token that of an unexpired session of the share. *)
Theorem share_authentication_sound raw now w :
  share_wf (w_db w) →
  match (Authenticate raw Share now w).1 with
  | Ok pr => share_grant (w_db w) now pr ∧ ∃ r, token_share (w_db w) raw r ∧ sh_ID r = p_ShareID pr
  | Err _ => True
  end ∧
  match (AuthenticateShareSession raw now w).1 with
  | Ok pr => share_grant (w_db w) now pr ∧ ∃ y, db_share_sessions (w_db w) !! TokenHash raw = Some y ∧
      sx_ShareID y = p_ShareID pr ∧ pg_timestamp now < sx_ExpiresAt y
  | Err _ => True
  end.
Proof.
  intros Hw. split.
  - pose proof (Authenticate_WP raw now _ (w_seq w) Hw w eq_refl eq_refl) as Ha.
    destruct (Authenticate raw Share now w) as [[pr|e] w']; [apply Ha|done].
  - pose proof (AuthenticateShareSession_WP raw now _ (w_seq w) Hw w eq_refl eq_refl) as Ha.
    destruct (AuthenticateShareSession raw now w) as [[pr|e] w']; [apply Ha|done].
Qed.

(** C10: revocation is immediate and final.  Revoking needs an active
    administrator of the share's own tenant; once it has succeeded, and after any
    further operations on shares, the share has no session left when it returns
    and no token, of the share or of a session, authenticates as it again. *)
Theorem share_revocation_final p id now w w1 ops raw t :
  share_wf (w_db w) → RevokeShare p id now w = (Ok (), w1) →
  let w2 := run_share_ops ops w1 in
  sessions_of (w_db w1) id = [] ∧
  (∃ u r, active_user (w_db w) (p_UserID p) (p_TenantCode p) = Some u ∧ u_Role u = "admin"%string ∧
     db_shares (w_db w) !! id = Some r ∧ sh_TenantID r = u_TenantID u) ∧
  match (Authenticate raw Share t w2).1 with Ok pr => p_ShareID pr ≠ id | Err _ => True end ∧
  match (AuthenticateShareSession raw t w2).1 with Ok pr => p_ShareID pr ≠ id | Err _ => True end.
Proof.
  intros Hw E w2. apply (WP_run _ _ _ _ _ (RevokeShare_WP p id now _ _ Hw)) in E.
  destruct E as (Hw1 & Hrev & Hs & Hu).
  assert (share_wf (w_db w2)) as Hw2 by by apply (run_share_ops_inv share_inv ops w1 keeps_run_share_op).
  assert (revoked id (w_db w2) (w_seq w2)) as (r & Hr & Hn) by by apply (run_share_ops_inv (revoked id) ops w1 (keeps_revoked id)).
  assert (∀ pr, share_grant (w_db w2) t pr → p_ShareID pr ≠ id) as Hg.
  { intros pr (r' & _ & _ & Hr' & Hn' & _) He. rewrite He in Hr'. congruence. }
  split_and!; try done.
  - pose proof (Authenticate_WP raw t _ (w_seq w2) Hw2 w2 eq_refl eq_refl) as Ha.
    destruct (Authenticate raw Share t w2) as [[pr|e] w']; [apply Hg, Ha|done].
  - pose proof (AuthenticateShareSession_WP raw t _ (w_seq w2) Hw2 w2 eq_refl eq_refl) as Ha.
    destruct (AuthenticateShareSession raw t w2) as [[pr|e] w']; [apply Hg, Ha|done].
Qed.

End runs.

(** ** Creation and exchange *)

Section creation.
Context `{Env} `{PgTypes}.

Definition host_of_tenant (d : DB) (tenant : Z) (uid : string) : Prop :=
  ∃ i h, db_hosts d !! i = Some h ∧ h_TenantID h = tenant ∧ h_HostUID h = uid.

Lemma insert_share_host_tenant id t u d d' : insert_share_host id t u d = Ok d' → host_of_tenant d t u.
Proof.
  unfold insert_share_host. destruct (existsb _ (elements _)); [done|]. destruct (_ && _) eqn:E; [|done]. intros _.
  apply andb_true_iff in E as [E _]. apply existsb_exists in E as (h & Hh%list_elem_of_In & Hc).
  apply elem_of_rows in Hh as [i Hi]. bool_to_prop.
  match goal with Hx : str_eqb _ _ = true |- _ => apply str_eqb_true in Hx end. by exists i, h.
Qed.

Lemma insert_share_hosts_ok id t uids d s :
  WP (insert_share_hosts id t uids) (on_ok (λ _ d' _,
    ∃ X, d' = set_share_hosts X d ∧
      (∀ i t' u, (i, t', u) ∈ X ↔ (i = id ∧ t' = t ∧ u ∈ uids) ∨ (i, t', u) ∈ db_share_hosts d) ∧
      ∀ u, u ∈ uids → host_of_tenant d t u)) d s.
Proof.
  revert d. induction uids as [|u uids IH]; intros d; simpl.
  { apply WP_ret. exists (db_share_hosts d). split; [by destruct d|]. split; [set_solver|set_solver]. }
  apply WP_bind, WP_exec; [done|]. destruct (insert_share_host id t u d) as [d1|] eqn:E; [|done].
  apply insert_share_host_tenant in E as Ht. apply insert_share_host_inv in E as [-> _].
  eapply WP_mono; [apply IH|]. intros [[]|e] d' s'; [|done]. intros (X & -> & HX & Hall).
  exists X. split; [done|]. simpl in *. split.
  - intros i t' u'. rewrite HX, elem_of_union, elem_of_singleton, elem_of_cons. naive_solver.
  - intros u' [->|Hin]%elem_of_cons; [done|]. by apply Hall.
Qed.

Definition created_row (p : Principal) (req : CreateShareRequest) (hash : string) (now : Time) (id : string) (tenant : Z) : shareTableRow :=
  mkShare id tenant (cr_Title req) hash (Some (cr_Fields req)) (pg_timestamp (now + cr_TTLSeconds req * Second))
    (p_UserID p) (pg_timestamp now) None.

Lemma CreateShare_WP p req hash now d s :
  WP (CreateShare p req hash now) (on_ok (λ rec d' _,
    share_request_ok req ∧ len hash = 64 ∧ IsAdmin p = true ∧
    ∃ u a X, active_user d (p_UserID p) (p_TenantCode p) = Some u ∧ u_Role u = "admin"%string ∧
      db_shares d !! sr_ID rec = None ∧
      rec = mkShareRecord (sr_ID rec) (p_TenantCode p) (cr_Title req) (cr_HostUIDs req) (cr_Fields req)
              (now + cr_TTLSeconds req * Second) now None ∧
      d' = set_audit (db_audit d ++ [a]) (set_share_hosts X
             (set_shares (<[sr_ID rec := created_row p req hash now (sr_ID rec) (u_TenantID u)]> (db_shares d)) d)) ∧
      (∀ i t h, (i, t, h) ∈ X ↔ (i = sr_ID rec ∧ t = u_TenantID u ∧ h ∈ cr_HostUIDs req) ∨ (i, t, h) ∈ db_share_hosts d) ∧
      (∀ h, h ∈ cr_HostUIDs req → host_of_tenant d (u_TenantID u) h))) d s.
Proof.
  unfold CreateShare. destruct (IsAdmin p) eqn:Ea; simpl; [|by apply WP_throw].
  destruct (ValidateShareRequest req) as [[]|e] eqn:Ev; [|by apply WP_throw].
  apply ValidateShareRequest_spec in Ev. destruct (len hash =? 64) eqn:El; simpl; [|by apply WP_throw]. bool_to_prop.
  apply WP_Transaction_ok, WP_bind, WP_tenantForAdmin; [done|]. intros u _ Hu Hrole _.
  apply WP_bind, WP_query; [done|]. destruct (100 <=? _); [by apply WP_throw|].
  apply WP_bind, WP_query; [done|]. destruct (negb _); [by apply WP_throw|].
  apply WP_bind, WP_new_id. intros nano buf. cbv zeta. set (id := ids_New _ _ _).
  assert (time_Add now (to_int64 (cr_TTLSeconds req * Second)) = now + cr_TTLSeconds req * Second) as Hx.
  { unfold time_Add. rewrite to_int64_id; [done|]. destruct Ev as (_ & _ & _ & ? & _).
    unfold int64_min, int64_max, Second. lia. }
  rewrite Hx. apply WP_bind, WP_exec; [done|]. destruct (insert_share _ d) as [d1|] eqn:Ei; [|done].
  apply insert_share_inv in Ei as (-> & Hn & _). simpl in Hn.
  eapply WP_bind_ok; [apply insert_share_hosts_ok|]. intros [] d2 s2 (X & -> & HX & Hall).
  apply WP_bind, WP_exec; [done|]. apply WP_ret. split_and!; try done.
  exists u. eexists _, X. simpl. split_and!; try done.
Qed.

Lemma exchange_body_ok raw now d s :
  share_wf d →
  WP (ExchangeShare raw now) (on_ok (λ ss d' _,
    share_grant d now (ss_Principal ss) ∧
    ∃ r, token_share d raw r ∧ sh_ID r = p_ShareID (ss_Principal ss) ∧ ss_ExpiresAt ss = sh_ExpiresAt r ∧
      TokenHash (ss_Token ss) ≠ ""%string ∧
      db_share_sessions d' !! TokenHash (ss_Token ss) =
        Some (mkShareSessionRow (TokenHash (ss_Token ss)) (sh_ID r) (sh_ExpiresAt r) (pg_timestamp now)) ∧
      ∃ X, d' = set_share_sessions X d)) d s.
Proof.
  intros Hd. unfold ExchangeShare. destruct (str_empty _); [by apply WP_throw|].
  apply WP_Transaction_ok, WP_bind, WP_query; [done|]. cbv zeta.
  destruct (head _) as [r0|] eqn:E0; simpl; [|by apply WP_throw].
  apply head_Some_elem_of in E0. rewrite elem_of_select, elem_of_rows in E0. destruct E0 as [Hh%str_eqb_true [i0 Hi0]].
  destruct (wf_share _ Hd _ _ Hi0) as [<- _].
  destruct (str_empty (sh_ID r0)); [by apply WP_throw|].
  apply WP_bind. eapply WP_mono; [by apply validShare_spec|].
  intros [row|e] d' s' (-> & -> & Hr); [|done]. destruct Hr as (r & t & Hr & Hf & Hc & Ht & ->). bool_to_prop.
  match goal with Hx : str_eqb (sh_ID r) _ = true |- _ => apply str_eqb_true in Hx as Hid end.
  assert (r = r0) as -> by congruence.
  apply WP_bind, WP_exec; [done|]. unfold delete_share_sessions at 1.
  apply WP_bind, WP_query; [done|]. destruct (100 <=? _); [by apply WP_throw|].
  apply WP_bind, WP_rand_read. intros [buf|] Hlen; [|by apply WP_bind, WP_lift].
  specialize (Hlen _ eq_refl). apply WP_bind, WP_lift. simpl.
  apply WP_bind, WP_exec; [done|]. destruct (insert_share_session _ _) as [d2|] eqn:Ei; [|done].
  apply insert_share_session_inv in Ei as (-> & _). simpl.
  eapply WP_bind. eapply WP_mono; [apply sharePrincipal_spec|].
  intros [pr|e] d3 s3 (-> & -> & Hp); [|done]. destruct Hp as (fields & Hfl & Hpr). apply WP_ret.
  split; [by eapply (grant_intro d)|]. exists r0. simpl. rewrite lookup_insert, decide_True by done.
  assert (TokenHash (b64_encode buf) ≠ ""%string) as Hne.
  { intros E. pose proof (sha256_hex_length (bytes (b64_encode buf))) as Hx.
    rewrite <-TokenHash_encode, E in Hx by done. done. }
  split_and!; try done; [by rewrite Hpr|]. eexists. done.
Qed.

(** Sharing round trip.  After an administrator has created a share, its
    token authenticates until the stored expiry (unless the database fails), as
    a share principal of the administrator's tenant with exactly the requested
    hosts, all of them hosts of that tenant, and exactly the requested fields;
    the share expires the requested number of seconds after its creation. *)
Theorem share_create_authenticate p req raw now w rec w1 t w2 :
  share_wf (w_db w) →
  CreateShare p req (TokenHash raw) now w = (Ok rec, w1) →
  w_db w2 = w_db w1 → pg_timestamp t < pg_timestamp (sr_ExpiresAt rec) →
  sr_ExpiresAt rec = now + cr_TTLSeconds req * Second ∧
  match (Authenticate raw Share t w2).1 with
  | Ok pr => p_Kind pr = Share ∧ p_ShareID pr = sr_ID rec ∧ p_TenantCode pr = p_TenantCode p ∧
      p_Fields pr = cr_Fields req ∧ (∀ h, h ∈ p_AllowedHosts pr ↔ h ∈ cr_HostUIDs req) ∧
      (∀ h, h ∈ p_AllowedHosts pr → host_of_tenant (w_db w) (p_TenantID pr) h)
  | Err e => driver_error e
  end.
Proof.
  intros Hw E Hw2 Ht.
  pose proof (share_keeps_run share_inv _ w (keeps_CreateShare p req (TokenHash raw) now) Hw) as Hw1.
  rewrite E in Hw1. simpl in Hw1.
  apply (WP_run _ _ _ _ _ (CreateShare_WP p req (TokenHash raw) now _ _)) in E.
  destruct E as (_ & Hlen & _ & u & a & X & Hu & Hrole & Hn & Hrec & Hd & HX & Hall).
  split; [by rewrite Hrec|].
  apply active_user_spec in Hu as (Hu & Hact & tn & Htn & Hcode & Hst).
  set (row := created_row p req (TokenHash raw) now (sr_ID rec) (u_TenantID u)) in *.
  assert (db_shares (w_db w2) !! sr_ID rec = Some row) as Hrow.
  { rewrite Hw2, Hd. simpl. by rewrite lookup_insert, decide_True. }
  assert (sh_ID row = sr_ID rec) as Hid by done.
  assert (TokenHash raw ≠ ""%string) as Hne by (intros E; by rewrite E in Hlen).
  assert (share_in_force (w_db w2) row = true) as Hf.
  { apply share_in_force_spec. exists tn, u. rewrite Hw2, Hd. simpl. done. }
  assert (share_inv (w_db w2) (w_seq w2)) as Hi2 by (red; by rewrite Hw2).
  pose proof (Authenticate_WP raw t _ (w_seq w2) Hi2 w2 eq_refl eq_refl) as Ha.
  destruct (Authenticate raw Share t w2) as [[pr|e] w3]; simpl.
  - destruct Ha as (_ & _ & (r & tn' & u' & Hr & _ & _ & Htn' & _ & _ & _ & _ & _ & Hk & _ & Htid & Htc & Hfl & Hh) & r' & [Hr' Hh'] & He).
    assert (p_ShareID pr = sr_ID rec) as Hpid.
    { rewrite <-He. eapply (wf_share_hash _ Hi2); [done|done|]. by rewrite Hh'. }
    rewrite Hpid in Hr, Hh. assert (r = row) as -> by congruence. simpl in *.
    rewrite Hw2, Hd in Htn'. simpl in Htn'. assert (tn' = tn) as -> by congruence.
    assert (∀ h, h ∈ p_AllowedHosts pr ↔ h ∈ cr_HostUIDs req) as Hhosts.
    { intros h. rewrite Hh, Hw2, Hd. simpl. rewrite HX. split; [|by auto].
      intros [(_ & _ & ?)|Hin]; [done|]. destruct (wf_share_host _ Hw _ _ _ Hin) as (r0 & Hr0 & _). congruence. }
    split_and!; try done; try congruence. intros h Hh2. rewrite Htid. by apply Hall, Hhosts.
  - destruct Ha as (_ & _ & [?|(_ & Hnone)]); [done|].
    assert (sh_Fields row = None) as Hx; [|done]. apply Hnone; [done|by split|done|].
    simpl. by rewrite Hrec in Ht.
Qed.

(** Exchanging a share token yields a session that expires with the share and
    is at once accepted as the same share principal; only share sessions are
    written. *)
Theorem share_exchange_session raw now w ss w1 :
  share_wf (w_db w) → ExchangeShare raw now w = (Ok ss, w1) →
  share_grant (w_db w) now (ss_Principal ss) ∧
  (∃ r, token_share (w_db w) raw r ∧ sh_ID r = p_ShareID (ss_Principal ss) ∧ ss_ExpiresAt ss = sh_ExpiresAt r) ∧
  (∃ X, w_db w1 = set_share_sessions X (w_db w)) ∧
  ∀ w2, w_db w2 = w_db w1 →
    match (AuthenticateShareSession (ss_Token ss) now w2).1 with
    | Ok pr => p_ShareID pr = p_ShareID (ss_Principal ss) ∧ share_grant (w_db w1) now pr
    | Err e => driver_error e
    end.
Proof.
  intros Hw E. pose proof (share_keeps_run share_inv _ w (keeps_ExchangeShare raw now) Hw) as Hw1.
  rewrite E in Hw1. simpl in Hw1.
  apply (WP_run _ _ _ _ _ (exchange_body_ok raw now _ _ Hw)) in E.
  destruct E as (Hg & r & Hr & Hid & Hx & Hne & Hs & HX). split_and!; eauto.
  intros w2 Hw2. assert (share_wf (w_db w2)) as Hi2 by by rewrite Hw2.
  pose proof (AuthenticateShareSession_WP (ss_Token ss) now _ (w_seq w2) Hi2 w2 eq_refl eq_refl) as Ha.
  destruct HX as [X HX].
  destruct (AuthenticateShareSession (ss_Token ss) now w2) as [[pr|e] w3]; simpl.
  - destruct Ha as (_ & _ & Hg2 & y & Hy & Hyid & _). rewrite Hw2 in Hy, Hg2.
    rewrite Hs in Hy. injection Hy as <-. simpl in Hyid. split; [congruence|done].
  - destruct Ha as (_ & _ & [?|[_ Hn]]); [done|]. exfalso. rewrite Hw2 in Hn.
    destruct Hg as (r' & t & u & Hr' & ? & Hexp & ? & ? & ? & ? & ? & ? & _ & _ & _ & _ & Hfl & _).
    rewrite <-Hid in Hr'. destruct Hr as [Hr _]. assert (r' = r) as -> by congruence.
    assert (share_in_force (w_db w1) r = true) as Hf.
    { apply share_in_force_spec. exists t, u. by rewrite HX. }
    specialize (Hn r _ Hne Hs). simpl in Hn. rewrite HX in Hn. simpl in Hn. rewrite HX in Hf.
    specialize (Hn Hr Hf Hexp Hexp). congruence.
Qed.

End creation.

(** ** Concrete runs *)

Section examples.
#[local] Existing Instance Env_quiet.
#[local] Existing Instance PgTypes_exact.

Definition ex_share_db : DB :=
  set_hosts {[5 := mkHost 5 1 "host-a" "web-1" "10.0.0.1" "linux" "amd64" "eu" None None None 1 0 0 0]} ex_ops_db.
Definition ex_share_world : World := world_of ex_share_db ∅.
Definition ex_raw : string := b64_encode (replicate 32 zero).
Definition ex_share_req : CreateShareRequest := mkCreateShareRequest "dash" ["host-a"] ["status"] 3600.
Definition ex_shared : World := (CreateShare ex_admin ex_share_req (TokenHash ex_raw) (10 * Second) ex_share_world).2.
Definition ex_share_id : string :=
  match (CreateShare ex_admin ex_share_req (TokenHash ex_raw) (10 * Second) ex_share_world).1 with
  | Ok rec => sr_ID rec | Err _ => ""
  end.

Lemma ex_share_world_wf : share_wf (w_db ex_share_world).
Proof. by apply share_wf_empty. Qed.
Lemma ex_shared_wf : share_wf (w_db ex_shared).
Proof. apply (share_keeps_run share_inv _ ex_share_world (keeps_CreateShare _ _ _ _) ex_share_world_wf). Qed.

Lemma share_quota_invariant_witness :
  share_wf (w_db (run_share_ops [OpExchangeShare ex_raw 0; OpListShares ex_admin] ex_shared)).
Proof. exact (share_quota_invariant [OpExchangeShare ex_raw 0; OpListShares ex_admin] ex_shared ex_shared_wf). Defined.

Lemma share_authentication_sound_witness :
  match (Authenticate ex_raw Share (20 * Second) ex_shared).1 with
  | Ok pr => share_grant (w_db ex_shared) (20 * Second) pr
  | Err _ => False
  end.
Proof.
  assert (is_ok (Authenticate ex_raw Share (20 * Second) ex_shared).1 = true) as Hk by (vm_compute; reflexivity).
  pose proof (proj1 (share_authentication_sound ex_raw (20 * Second) ex_shared ex_shared_wf)) as Ha.
  destruct (Authenticate ex_raw Share (20 * Second) ex_shared).1 as [pr|e]; [exact (proj1 Ha)|discriminate Hk].
Defined.

Lemma share_revocation_final_witness :
  match RevokeShare ex_admin ex_share_id (30 * Second) ex_shared with
  | (Ok _, w1) => sessions_of (w_db w1) ex_share_id = []
  | _ => False
  end.
Proof.
  assert (is_ok (RevokeShare ex_admin ex_share_id (30 * Second) ex_shared).1 = true) as Hk by (vm_compute; reflexivity).
  destruct (RevokeShare ex_admin ex_share_id (30 * Second) ex_shared) as [[[]|e] w1] eqn:E; [|discriminate Hk].
  exact (proj1 (share_revocation_final ex_admin ex_share_id (30 * Second) ex_shared w1 [] ex_raw 0 ex_shared_wf E)).
Defined.

Lemma share_create_authenticate_witness :
  match CreateShare ex_admin ex_share_req (TokenHash ex_raw) (10 * Second) ex_share_world with
  | (Ok rec, w1) =>
      match (Authenticate ex_raw Share (20 * Second) w1).1 with
      | Ok pr => p_TenantCode pr = "acme"%string ∧ p_Fields pr = ["status"%string]
      | Err _ => False
      end
  | _ => False
  end.
Proof.
  assert ((λ rec, 20 * Second <? sr_ExpiresAt rec) <$>
    (CreateShare ex_admin ex_share_req (TokenHash ex_raw) (10 * Second) ex_share_world).1 = Ok true) as Hk by (vm_compute; reflexivity).
  assert (is_ok (Authenticate ex_raw Share (20 * Second)
    (CreateShare ex_admin ex_share_req (TokenHash ex_raw) (10 * Second) ex_share_world).2).1 = true) as Hk2 by (vm_compute; reflexivity).
  destruct (CreateShare ex_admin ex_share_req (TokenHash ex_raw) (10 * Second) ex_share_world) as [[rec|e] w1] eqn:E; [|discriminate Hk].
  injection Hk as Hk. apply Z.ltb_lt in Hk. cbn [snd] in Hk2.
  pose proof (proj2 (share_create_authenticate ex_admin ex_share_req ex_raw (10 * Second) ex_share_world rec w1
    (20 * Second) w1 ex_share_world_wf E eq_refl Hk)) as Ha.
  destruct (Authenticate ex_raw Share (20 * Second) w1).1 as [pr|e]; [|discriminate Hk2].
  destruct Ha as (_ & _ & Htc & Hf & _). split; [exact Htc|exact Hf].
Defined.

Lemma share_exchange_session_witness :
  match ExchangeShare ex_raw (20 * Second) ex_shared with
  | (Ok ss, w1) => share_grant (w_db ex_shared) (20 * Second) (ss_Principal ss)
  | _ => False
  end.
Proof.
  assert (is_ok (ExchangeShare ex_raw (20 * Second) ex_shared).1 = true) as Hk by (vm_compute; reflexivity).
  destruct (ExchangeShare ex_raw (20 * Second) ex_shared) as [[ss|e] w1] eqn:E; [|discriminate Hk].
  exact (proj1 (share_exchange_session ex_raw (20 * Second) ex_shared ss w1 ex_shared_wf E)).
Defined.

End examples.
