(* ===== verification/MetricValidation.v ===== *)
(** * Validation of metric batches

    Models [server/internal/ingest/service/metric_validation.go] and
    [digestFromMetricBatch] of [service.go].  Go ranges over a map in an
    unspecified order: [range] is any enumeration of the labels.  Of the error
    messages only the fixed text is kept. *)

From stdpp Require Import gmap strings list sorting pretty.
From Stdlib Require Import SpecFloat.
From S2P Require Import Prelude GoRuntime GoStrings Contracts.
Local Open Scope Z_scope.

Definition maxMetricPoints : Z := 4096.
Definition maxMetricNameBytes : Z := 128.
Definition maxLabelsPerPoint : Z := 16.
Definition maxLabelKeyBytes : Z := 64.
Definition maxLabelValueBytes : Z := 256.
Definition maxCollectors : Z := 64.
Definition maxCollectorMetricNames : Z := 4096.
Definition maxMetricBatchStringBytes : Z := 2 ^ 20.

(** The order in which a [range] loop visits a map. *)
Class MapRange := {
  range : labels → list (string * string);
  range_Permutation : ∀ m, range m ≡ₚ map_to_list m
}.

(** [strings.ContainsRune("_:-.", char)]. *)
Definition identifier_punct (r : Z) : bool := (r =? 95) || (r =? 58) || (r =? 45) || (r =? 46).

Section validation.
Context `{UnicodeTables} `{MapRange}.

Definition identifier_rune (r : Z) : bool := IsLetter r || IsDigit r || identifier_punct r.

Definition validIdentifier (value : string) (maxBytes : Z) : bool :=
  if str_empty value || (maxBytes <? len value) then false else
  match runes value with
  | None => false
  | Some rs => forallb identifier_rune rs
  end.

Definition validText (value : string) (maxBytes : Z) : bool :=
  if maxBytes <? len value then false else
  match runes value with
  | None => false
  | Some rs => forallb (λ r, negb (IsControl r)) rs
  end.

Definition invalidMetricBatch {A} (reason : string) : res A := Err (ErrInvalidMetricBatch reason).

(** The inner loop: the labels of one point, [stringBytes] so far. *)
Fixpoint validateLabels (stringBytes : Z) (l : list (string * string)) : res Z :=
  match l with
  | [] => Ok stringBytes
  | (key, value) :: l =>
      if negb (validIdentifier key maxLabelKeyBytes) then invalidMetricBatch "point has an invalid label key"
      else if negb (validText value maxLabelValueBytes) then invalidMetricBatch "point label has an invalid value"
      else validateLabels (stringBytes + (len key + len value)) l
  end.

Fixpoint validatePoints (stringBytes : Z) (l : list MetricPoint) : res Z :=
  match l with
  | [] => Ok stringBytes
  | point :: l =>
      if negb (validIdentifier (mp_Name point) maxMetricNameBytes) then invalidMetricBatch "point has an invalid name"
      else if is_nan (mp_Value point) || is_inf (mp_Value point) then invalidMetricBatch "point has a non-finite value"
      else if maxLabelsPerPoint <? Z.of_nat (size (mp_Labels point)) then invalidMetricBatch "point label count exceeds"
      else
        stringBytes ← validateLabels (stringBytes + len (mp_Name point)) (range (mp_Labels point));
        validatePoints stringBytes l
  end.

Fixpoint validateMetricNames (stringBytes : Z) (l : list string) : res Z :=
  match l with
  | [] => Ok stringBytes
  | name :: l =>
      if negb (validIdentifier name maxMetricNameBytes) then invalidMetricBatch "collector has an invalid metric name"
      else validateMetricNames (stringBytes + len name) l
  end.

Fixpoint validateCollectors (stringBytes collectorMetricNames : Z) (l : list CollectorStatus) : res Z :=
  match l with
  | [] => Ok stringBytes
  | collector :: l =>
      if negb (validIdentifier (cs_Name collector) maxMetricNameBytes) then invalidMetricBatch "collector has an invalid name"
      else if (cs_State collector <? CollectorStateUnspecified) || (CollectorStateDegraded <? cs_State collector)
      then invalidMetricBatch "collector has an invalid state"
      else if cs_DurationMicros collector <? 0 then invalidMetricBatch "collector has a negative duration"
      else
        let stringBytes := stringBytes + len (cs_Name collector) in
        let collectorMetricNames := collectorMetricNames + llen (cs_MetricNames collector) in
        if maxCollectorMetricNames <? collectorMetricNames then invalidMetricBatch "collector metric name count exceeds"
        else
          stringBytes ← validateMetricNames stringBytes (cs_MetricNames collector);
          validateCollectors stringBytes collectorMetricNames l
  end.

Definition validateMetricBatch (req : PushMetricBatchRequest) : res unit :=
  if maxMetricPoints <? llen (pm_Points req) then invalidMetricBatch "point count exceeds"
  else if maxCollectors <? llen (pm_Collectors req) then invalidMetricBatch "collector count exceeds"
  else
    stringBytes ← validatePoints 0 (pm_Points req);
    stringBytes ← validateCollectors stringBytes 0 (pm_Collectors req);
    if maxMetricBatchStringBytes <? stringBytes then invalidMetricBatch "string data size exceeds"
    else Ok ().

(** ** What a valid batch is *)

Definition identifier_ok (value : string) (maxBytes : Z) : Prop :=
  value ≠ ""%string ∧ len value ≤ maxBytes ∧ ∃ rs, runes value = Some rs ∧ Forall (λ r, identifier_rune r = true) rs.
Definition text_ok (value : string) (maxBytes : Z) : Prop :=
  len value ≤ maxBytes ∧ ∃ rs, runes value = Some rs ∧ Forall (λ r, IsControl r = false) rs.

Definition point_ok (p : MetricPoint) : Prop :=
  identifier_ok (mp_Name p) 128 ∧ is_finite (mp_Value p) = true ∧ (size (mp_Labels p) ≤ 16)%nat ∧
  ∀ k v, mp_Labels p !! k = Some v → identifier_ok k 64 ∧ text_ok v 256.
Definition collector_ok (c : CollectorStatus) : Prop :=
  identifier_ok (cs_Name c) 128 ∧ 0 ≤ cs_State c ≤ 3 ∧ 0 ≤ cs_DurationMicros c ∧
  Forall (λ n, identifier_ok n 128) (cs_MetricNames c).

Fixpoint sum (l : list Z) : Z :=
  match l with [] => 0 | x :: l => x + sum l end.

(** Bytes of the strings of a point and of a collector. *)
Definition label_bytes (l : list (string * string)) : Z := sum ((λ '(k, v), len k + len v) <$> l).
Definition point_bytes (p : MetricPoint) : Z := len (mp_Name p) + label_bytes (map_to_list (mp_Labels p)).
Definition collector_bytes (c : CollectorStatus) : Z := len (cs_Name c) + sum (len <$> cs_MetricNames c).

Definition batch_ok (req : PushMetricBatchRequest) : Prop :=
  llen (pm_Points req) ≤ 4096 ∧ llen (pm_Collectors req) ≤ 64 ∧
  Forall point_ok (pm_Points req) ∧ Forall collector_ok (pm_Collectors req) ∧
  sum ((λ c, llen (cs_MetricNames c)) <$> pm_Collectors req) ≤ 4096 ∧
  sum (point_bytes <$> pm_Points req) + sum (collector_bytes <$> pm_Collectors req) ≤ 2 ^ 20.

(** ** The validation accepts exactly the valid batches *)

Lemma validIdentifier_spec v m : validIdentifier v m = true ↔ identifier_ok v m.
Proof.
  unfold validIdentifier, identifier_ok. destruct (_ || _) eqn:E.
  - split; [done|]. intros (Hne & Hl & _). apply str_empty_false in Hne. rewrite Hne in E. simpl in E. bool_to_prop. lia.
  - bool_to_prop. match goal with Hs : str_empty _ = false |- _ => apply str_empty_false in Hs end.
    destruct (runes v) as [rs|]; [|naive_solver].
    split.
    + intros Hf. split_and!; [done|lia|]. exists rs. split; [done|]. apply list.Forall_forall. intros r Hr.
      rewrite forallb_forall in Hf. by apply Hf, list_elem_of_In.
    + intros (_ & _ & rs' & [= <-] & Hf). apply forallb_forall. intros r Hr%list_elem_of_In.
      rewrite list.Forall_forall in Hf. auto.
Qed.

Lemma validText_spec v m : validText v m = true ↔ text_ok v m.
Proof.
  unfold validText, text_ok. destruct (_ <? _) eqn:E.
  - split; [done|]. intros [Hl _]. bool_to_prop. lia.
  - bool_to_prop. destruct (runes v) as [rs|]; [|naive_solver]. split.
    + intros Hf. split; [lia|]. exists rs. split; [done|]. apply list.Forall_forall. intros r Hr.
      rewrite forallb_forall in Hf. apply list_elem_of_In, Hf in Hr. by bool_to_prop.
    + intros (_ & rs' & [= <-] & Hf). apply forallb_forall. intros r Hr%list_elem_of_In.
      rewrite list.Forall_forall in Hf. by rewrite Hf.
Qed.

Lemma validateLabels_spec b l n :
  validateLabels b l = Ok n ↔
  n = b + label_bytes l ∧ Forall (λ '(k, v), identifier_ok k 64 ∧ text_ok v 256) l.
Proof.
  revert b. induction l as [|[k v] l IH]; intros b; csimpl.
  { unfold label_bytes. simpl. rewrite Z.add_0_r. split; [intros [= ->]; by split|by intros [-> _]]. }
  rewrite Forall_cons, <-validIdentifier_spec, <-validText_spec.
  destruct (validIdentifier k _); simpl; [|naive_solver].
  destruct (validText v _); simpl; [|naive_solver].
  rewrite IH. unfold label_bytes. csimpl. split; intros; destruct_and!; split_and!; try done; lia.
Qed.

Lemma sum_Permutation l k : l ≡ₚ k → sum l = sum k.
Proof. induction 1; simpl in *; lia. Qed.

Lemma labels_range_spec m :
  label_bytes (range m) = label_bytes (map_to_list m) ∧
  (Forall (λ '(k, v), identifier_ok k 64 ∧ text_ok v 256) (range m) ↔
   ∀ k v, m !! k = Some v → identifier_ok k 64 ∧ text_ok v 256).
Proof.
  split.
  - unfold label_bytes. apply sum_Permutation. by rewrite range_Permutation.
  - rewrite range_Permutation, list.Forall_forall. split.
    + intros Hf k v Hkv. apply elem_of_map_to_list in Hkv. by apply (Hf (k, v)).
    + intros Hf [k v] Hkv%elem_of_map_to_list. auto.
Qed.

Lemma validatePoints_spec b l n :
  validatePoints b l = Ok n ↔ n = b + sum (point_bytes <$> l) ∧ Forall point_ok l.
Proof.
  revert b. induction l as [|p l IH]; intros b; csimpl.
  { rewrite Z.add_0_r. split; [intros [= ->]; by split|by intros [-> _]]. }
  rewrite Forall_cons. unfold point_ok at 1. rewrite <-validIdentifier_spec.
  destruct (validIdentifier _ _); simpl; [|naive_solver].
  destruct (is_nan _ || is_inf _) eqn:Ef.
  { split; [done|]. intros (_ & (_ & Hfin & _) & _). unfold is_finite in Hfin.
    destruct (is_nan _), (is_inf _); done. }
  assert (is_finite (mp_Value p) = true) as Hfin.
  { unfold is_finite. apply orb_false_iff in Ef as [-> ->]. done. }
  destruct (_ <? _) eqn:El; bool_to_prop.
  { split; [done|]. intros (_ & (_ & _ & Hs & _) & _). unfold maxLabelsPerPoint in El. lia. }
  destruct (labels_range_spec (mp_Labels p)) as [Hb Hf].
  destruct (validateLabels _ _) as [b1|e] eqn:Ev; simpl.
  - apply validateLabels_spec in Ev as [-> Hall]. rewrite IH, Hb. unfold point_bytes. csimpl.
    rewrite Hf in Hall. unfold maxLabelsPerPoint in El. split.
    + intros [-> ?]. split; [lia|]. split_and!; try done. lia.
    + intros (-> & _ & ?). split; [lia|done].
  - split; [done|]. intros (_ & (_ & _ & _ & Hall) & _). rewrite <-Hf in Hall.
    pose proof (proj2 (validateLabels_spec (b + len (mp_Name p)) _ _) (conj eq_refl Hall)) as Hx.
    rewrite Ev in Hx. done.
Qed.

Lemma validateMetricNames_spec b l n :
  validateMetricNames b l = Ok n ↔ n = b + sum (len <$> l) ∧ Forall (λ x, identifier_ok x 128) l.
Proof.
  revert b. induction l as [|x l IH]; intros b; csimpl.
  { rewrite Z.add_0_r. split; [intros [= ->]; by split|by intros [-> _]]. }
  rewrite Forall_cons, <-validIdentifier_spec. destruct (validIdentifier _ _); simpl; [|naive_solver].
  rewrite IH. split; intros; destruct_and!; split_and!; try done; lia.
Qed.

Lemma sum_nonneg l : Forall (λ x, 0 ≤ x) l → 0 ≤ sum l.
Proof. induction 1; simpl; lia. Qed.

Lemma validateCollectors_spec b m l n :
  validateCollectors b m l = Ok n ↔
  n = b + sum (collector_bytes <$> l) ∧ Forall collector_ok l ∧
  (l = [] ∨ m + sum ((λ c, llen (cs_MetricNames c)) <$> l) ≤ 4096).
Proof.
  revert b m. induction l as [|c l IH]; intros b m; csimpl.
  { rewrite Z.add_0_r. split; [intros [= ->]; split_and!; auto|by intros (-> & _)]. }
  rewrite Forall_cons. unfold collector_ok at 1. rewrite <-validIdentifier_spec.
  destruct (validIdentifier _ _); simpl; [|naive_solver].
  destruct (_ || _) eqn:Es.
  { split; [done|]. intros (_ & ((_ & Hs & _) & _) & _). unfold CollectorStateUnspecified, CollectorStateDegraded in Es.
    apply orb_true_iff in Es as [Es|Es]; bool_to_prop; lia. }
  bool_to_prop. unfold CollectorStateUnspecified, CollectorStateDegraded in *.
  destruct (cs_DurationMicros c <? 0) eqn:Ed; bool_to_prop.
  { split; [done|]. intros (_ & ((_ & _ & Hd & _) & _) & _). lia. }
  assert (0 ≤ sum ((λ c, llen (cs_MetricNames c)) <$> l)) as Hnn.
  { apply sum_nonneg, Forall_fmap, list.Forall_forall. intros x _. simpl. unfold llen. lia. }
  destruct (maxCollectorMetricNames <? _) eqn:Em; bool_to_prop; unfold maxCollectorMetricNames in Em.
  { split; [done|]. intros (_ & _ & [?|Hle]); [done|]. lia. }
  destruct (validateMetricNames _ _) as [b1|e] eqn:Ev; simpl.
  - apply validateMetricNames_spec in Ev as [-> Hall]. rewrite IH. unfold collector_bytes. split.
    + intros (-> & ? & Hs). split; [lia|]. split_and!; try done; try lia. right.
      destruct Hs as [->|?]; simpl in *; lia.
    + intros (-> & (_ & ?) & [?|Hle]); [done|]. split; [lia|]. split; [done|]. right. lia.
  - split; [done|]. intros (_ & ((_ & _ & _ & Hall) & _) & _).
    pose proof (proj2 (validateMetricNames_spec (b + len (cs_Name c)) _ _) (conj eq_refl Hall)) as Hx.
    rewrite Ev in Hx. done.
Qed.

Lemma validateMetricBatch_ok req : validateMetricBatch req = Ok () ↔ batch_ok req.
Proof.
  unfold validateMetricBatch, batch_ok, maxMetricPoints, maxCollectors, maxMetricBatchStringBytes.
  destruct (_ <? llen (pm_Points req)) eqn:E1; bool_to_prop; [split; [done|]; intros (? & _); lia|].
  destruct (_ <? llen (pm_Collectors req)) eqn:E2; bool_to_prop; [split; [done|]; intros (_ & ? & _); lia|].
  destruct (validatePoints 0 _) as [n|e] eqn:Ep; simpl.
  - apply validatePoints_spec in Ep as [-> Hp].
    destruct (validateCollectors _ _ _) as [n|e] eqn:Ec; simpl.
    + apply validateCollectors_spec in Ec as (-> & Hc & Hs).
      assert (sum ((λ c, llen (cs_MetricNames c)) <$> pm_Collectors req) ≤ 4096) as Hs'.
      { destruct Hs as [->|?]; simpl; lia. }
      destruct (_ <? _) eqn:E3; bool_to_prop; [split; [done|]; intros (_ & _ & _ & _ & _ & ?); lia|].
      split; [|done]. intros _. split_and!; try done; lia.
    + split; [done|]. intros (_ & _ & _ & Hc & Hs & _).
      pose proof (proj2 (validateCollectors_spec (0 + sum (point_bytes <$> pm_Points req)) 0 _ _)
        (conj eq_refl (conj Hc (or_intror Hs)))) as Hx. rewrite Ec in Hx. done.
  - split; [done|]. intros (_ & _ & Hp & _).
    pose proof (proj2 (validatePoints_spec 0 _ _) (conj eq_refl Hp)) as Hx. rewrite Ep in Hx. done.
Qed.

(** C36: a metric batch is accepted exactly when it has at most 4096 points and 64
    collectors, every point has a valid name, a finite value and at most 16
    valid labels, every collector a valid name, a known state, a non-negative
    duration and valid metric names (4096 in all), and its strings take at most
    one mebibyte; the order in which labels are visited does not matter. *)
Theorem ingest_validation_spec req : validateMetricBatch req = Ok () ↔ batch_ok req.
Proof. apply validateMetricBatch_ok. Qed.

End validation.

(** ** [digestFromMetricBatch]

    Each known metric name sets its field of the digest; later points overwrite
    earlier ones and unknown names are ignored. *)

Definition set_CPUUsagePct v (d : AgentDigest) : AgentDigest :=
  mkAgentDigest v (dg_MemUsedPct d) (dg_MemAvailableBytes d) (dg_SwapUsedPct d) (dg_DiskUsedPct d)
    (dg_DiskFreeBytes d) (dg_DiskInodesUsedPct d) (dg_DiskReadBPS d) (dg_DiskWriteBPS d)
    (dg_DiskReadIOPS d) (dg_DiskWriteIOPS d) (dg_Load1 d) (dg_NetRxBPS d) (dg_NetTxBPS d)
    (dg_NetRxPacketsPS d) (dg_NetTxPacketsPS d) (dg_QueueDepth d) (dg_LastMetricBatchSeq d).
Definition set_MemUsedPct v (d : AgentDigest) : AgentDigest :=
  mkAgentDigest (dg_CPUUsagePct d) v (dg_MemAvailableBytes d) (dg_SwapUsedPct d) (dg_DiskUsedPct d)
    (dg_DiskFreeBytes d) (dg_DiskInodesUsedPct d) (dg_DiskReadBPS d) (dg_DiskWriteBPS d)
    (dg_DiskReadIOPS d) (dg_DiskWriteIOPS d) (dg_Load1 d) (dg_NetRxBPS d) (dg_NetTxBPS d)
    (dg_NetRxPacketsPS d) (dg_NetTxPacketsPS d) (dg_QueueDepth d) (dg_LastMetricBatchSeq d).
Definition set_MemAvailableBytes v (d : AgentDigest) : AgentDigest :=
  mkAgentDigest (dg_CPUUsagePct d) (dg_MemUsedPct d) v (dg_SwapUsedPct d) (dg_DiskUsedPct d)
    (dg_DiskFreeBytes d) (dg_DiskInodesUsedPct d) (dg_DiskReadBPS d) (dg_DiskWriteBPS d)
    (dg_DiskReadIOPS d) (dg_DiskWriteIOPS d) (dg_Load1 d) (dg_NetRxBPS d) (dg_NetTxBPS d)
    (dg_NetRxPacketsPS d) (dg_NetTxPacketsPS d) (dg_QueueDepth d) (dg_LastMetricBatchSeq d).
Definition set_SwapUsedPct v (d : AgentDigest) : AgentDigest :=
  mkAgentDigest (dg_CPUUsagePct d) (dg_MemUsedPct d) (dg_MemAvailableBytes d) v (dg_DiskUsedPct d)
    (dg_DiskFreeBytes d) (dg_DiskInodesUsedPct d) (dg_DiskReadBPS d) (dg_DiskWriteBPS d)
    (dg_DiskReadIOPS d) (dg_DiskWriteIOPS d) (dg_Load1 d) (dg_NetRxBPS d) (dg_NetTxBPS d)
    (dg_NetRxPacketsPS d) (dg_NetTxPacketsPS d) (dg_QueueDepth d) (dg_LastMetricBatchSeq d).
Definition set_DiskUsedPct v (d : AgentDigest) : AgentDigest :=
  mkAgentDigest (dg_CPUUsagePct d) (dg_MemUsedPct d) (dg_MemAvailableBytes d) (dg_SwapUsedPct d) v
    (dg_DiskFreeBytes d) (dg_DiskInodesUsedPct d) (dg_DiskReadBPS d) (dg_DiskWriteBPS d)
    (dg_DiskReadIOPS d) (dg_DiskWriteIOPS d) (dg_Load1 d) (dg_NetRxBPS d) (dg_NetTxBPS d)
    (dg_NetRxPacketsPS d) (dg_NetTxPacketsPS d) (dg_QueueDepth d) (dg_LastMetricBatchSeq d).
Definition set_DiskFreeBytes v (d : AgentDigest) : AgentDigest :=
  mkAgentDigest (dg_CPUUsagePct d) (dg_MemUsedPct d) (dg_MemAvailableBytes d) (dg_SwapUsedPct d)
    (dg_DiskUsedPct d) v (dg_DiskInodesUsedPct d) (dg_DiskReadBPS d) (dg_DiskWriteBPS d)
    (dg_DiskReadIOPS d) (dg_DiskWriteIOPS d) (dg_Load1 d) (dg_NetRxBPS d) (dg_NetTxBPS d)
    (dg_NetRxPacketsPS d) (dg_NetTxPacketsPS d) (dg_QueueDepth d) (dg_LastMetricBatchSeq d).
Definition set_DiskInodesUsedPct v (d : AgentDigest) : AgentDigest :=
  mkAgentDigest (dg_CPUUsagePct d) (dg_MemUsedPct d) (dg_MemAvailableBytes d) (dg_SwapUsedPct d)
    (dg_DiskUsedPct d) (dg_DiskFreeBytes d) v (dg_DiskReadBPS d) (dg_DiskWriteBPS d)
    (dg_DiskReadIOPS d) (dg_DiskWriteIOPS d) (dg_Load1 d) (dg_NetRxBPS d) (dg_NetTxBPS d)
    (dg_NetRxPacketsPS d) (dg_NetTxPacketsPS d) (dg_QueueDepth d) (dg_LastMetricBatchSeq d).
Definition set_DiskReadBPS v (d : AgentDigest) : AgentDigest :=
  mkAgentDigest (dg_CPUUsagePct d) (dg_MemUsedPct d) (dg_MemAvailableBytes d) (dg_SwapUsedPct d)
    (dg_DiskUsedPct d) (dg_DiskFreeBytes d) (dg_DiskInodesUsedPct d) v (dg_DiskWriteBPS d)
    (dg_DiskReadIOPS d) (dg_DiskWriteIOPS d) (dg_Load1 d) (dg_NetRxBPS d) (dg_NetTxBPS d)
    (dg_NetRxPacketsPS d) (dg_NetTxPacketsPS d) (dg_QueueDepth d) (dg_LastMetricBatchSeq d).
Definition set_DiskWriteBPS v (d : AgentDigest) : AgentDigest :=
  mkAgentDigest (dg_CPUUsagePct d) (dg_MemUsedPct d) (dg_MemAvailableBytes d) (dg_SwapUsedPct d)
    (dg_DiskUsedPct d) (dg_DiskFreeBytes d) (dg_DiskInodesUsedPct d) (dg_DiskReadBPS d) v
    (dg_DiskReadIOPS d) (dg_DiskWriteIOPS d) (dg_Load1 d) (dg_NetRxBPS d) (dg_NetTxBPS d)
    (dg_NetRxPacketsPS d) (dg_NetTxPacketsPS d) (dg_QueueDepth d) (dg_LastMetricBatchSeq d).
Definition set_DiskReadIOPS v (d : AgentDigest) : AgentDigest :=
  mkAgentDigest (dg_CPUUsagePct d) (dg_MemUsedPct d) (dg_MemAvailableBytes d) (dg_SwapUsedPct d)
    (dg_DiskUsedPct d) (dg_DiskFreeBytes d) (dg_DiskInodesUsedPct d) (dg_DiskReadBPS d)
    (dg_DiskWriteBPS d) v (dg_DiskWriteIOPS d) (dg_Load1 d) (dg_NetRxBPS d) (dg_NetTxBPS d)
    (dg_NetRxPacketsPS d) (dg_NetTxPacketsPS d) (dg_QueueDepth d) (dg_LastMetricBatchSeq d).
Definition set_DiskWriteIOPS v (d : AgentDigest) : AgentDigest :=
  mkAgentDigest (dg_CPUUsagePct d) (dg_MemUsedPct d) (dg_MemAvailableBytes d) (dg_SwapUsedPct d)
    (dg_DiskUsedPct d) (dg_DiskFreeBytes d) (dg_DiskInodesUsedPct d) (dg_DiskReadBPS d)
    (dg_DiskWriteBPS d) (dg_DiskReadIOPS d) v (dg_Load1 d) (dg_NetRxBPS d) (dg_NetTxBPS d)
    (dg_NetRxPacketsPS d) (dg_NetTxPacketsPS d) (dg_QueueDepth d) (dg_LastMetricBatchSeq d).
Definition set_Load1 v (d : AgentDigest) : AgentDigest :=
  mkAgentDigest (dg_CPUUsagePct d) (dg_MemUsedPct d) (dg_MemAvailableBytes d) (dg_SwapUsedPct d)
    (dg_DiskUsedPct d) (dg_DiskFreeBytes d) (dg_DiskInodesUsedPct d) (dg_DiskReadBPS d)
    (dg_DiskWriteBPS d) (dg_DiskReadIOPS d) (dg_DiskWriteIOPS d) v (dg_NetRxBPS d) (dg_NetTxBPS d)
    (dg_NetRxPacketsPS d) (dg_NetTxPacketsPS d) (dg_QueueDepth d) (dg_LastMetricBatchSeq d).
Definition set_NetRxBPS v (d : AgentDigest) : AgentDigest :=
  mkAgentDigest (dg_CPUUsagePct d) (dg_MemUsedPct d) (dg_MemAvailableBytes d) (dg_SwapUsedPct d)
    (dg_DiskUsedPct d) (dg_DiskFreeBytes d) (dg_DiskInodesUsedPct d) (dg_DiskReadBPS d)
    (dg_DiskWriteBPS d) (dg_DiskReadIOPS d) (dg_DiskWriteIOPS d) (dg_Load1 d) v (dg_NetTxBPS d)
    (dg_NetRxPacketsPS d) (dg_NetTxPacketsPS d) (dg_QueueDepth d) (dg_LastMetricBatchSeq d).
Definition set_NetTxBPS v (d : AgentDigest) : AgentDigest :=
  mkAgentDigest (dg_CPUUsagePct d) (dg_MemUsedPct d) (dg_MemAvailableBytes d) (dg_SwapUsedPct d)
    (dg_DiskUsedPct d) (dg_DiskFreeBytes d) (dg_DiskInodesUsedPct d) (dg_DiskReadBPS d)
    (dg_DiskWriteBPS d) (dg_DiskReadIOPS d) (dg_DiskWriteIOPS d) (dg_Load1 d) (dg_NetRxBPS d) v
    (dg_NetRxPacketsPS d) (dg_NetTxPacketsPS d) (dg_QueueDepth d) (dg_LastMetricBatchSeq d).
Definition set_NetRxPacketsPS v (d : AgentDigest) : AgentDigest :=
  mkAgentDigest (dg_CPUUsagePct d) (dg_MemUsedPct d) (dg_MemAvailableBytes d) (dg_SwapUsedPct d)
    (dg_DiskUsedPct d) (dg_DiskFreeBytes d) (dg_DiskInodesUsedPct d) (dg_DiskReadBPS d)
    (dg_DiskWriteBPS d) (dg_DiskReadIOPS d) (dg_DiskWriteIOPS d) (dg_Load1 d) (dg_NetRxBPS d)
    (dg_NetTxBPS d) v (dg_NetTxPacketsPS d) (dg_QueueDepth d) (dg_LastMetricBatchSeq d).
Definition set_NetTxPacketsPS v (d : AgentDigest) : AgentDigest :=
  mkAgentDigest (dg_CPUUsagePct d) (dg_MemUsedPct d) (dg_MemAvailableBytes d) (dg_SwapUsedPct d)
    (dg_DiskUsedPct d) (dg_DiskFreeBytes d) (dg_DiskInodesUsedPct d) (dg_DiskReadBPS d)
    (dg_DiskWriteBPS d) (dg_DiskReadIOPS d) (dg_DiskWriteIOPS d) (dg_Load1 d) (dg_NetRxBPS d)
    (dg_NetTxBPS d) (dg_NetRxPacketsPS d) v (dg_QueueDepth d) (dg_LastMetricBatchSeq d).

Section digest.
Context `{GoArch}.

(** The body of the loop. *)
Definition apply_point (digest : AgentDigest) (point : MetricPoint) : AgentDigest :=
  if str_eqb (mp_Name point) "host_cpu_usage_pct" then set_CPUUsagePct (mp_Value point) digest
  else if str_eqb (mp_Name point) "host_mem_used_pct" then set_MemUsedPct (mp_Value point) digest
  else if str_eqb (mp_Name point) "host_mem_available_bytes" then set_MemAvailableBytes (f64_to_int64 (mp_Value point)) digest
  else if str_eqb (mp_Name point) "host_swap_used_pct" then set_SwapUsedPct (mp_Value point) digest
  else if str_eqb (mp_Name point) "host_disk_used_pct" then set_DiskUsedPct (mp_Value point) digest
  else if str_eqb (mp_Name point) "host_disk_free_bytes" then set_DiskFreeBytes (f64_to_int64 (mp_Value point)) digest
  else if str_eqb (mp_Name point) "host_disk_inodes_used_pct" then set_DiskInodesUsedPct (mp_Value point) digest
  else if str_eqb (mp_Name point) "host_disk_read_bps" then set_DiskReadBPS (f64_to_int64 (mp_Value point)) digest
  else if str_eqb (mp_Name point) "host_disk_write_bps" then set_DiskWriteBPS (f64_to_int64 (mp_Value point)) digest
  else if str_eqb (mp_Name point) "host_disk_read_iops" then set_DiskReadIOPS (f64_to_int64 (mp_Value point)) digest
  else if str_eqb (mp_Name point) "host_disk_write_iops" then set_DiskWriteIOPS (f64_to_int64 (mp_Value point)) digest
  else if str_eqb (mp_Name point) "host_load1" then set_Load1 (mp_Value point) digest
  else if str_eqb (mp_Name point) "host_net_rx_bps" then set_NetRxBPS (f64_to_int64 (mp_Value point)) digest
  else if str_eqb (mp_Name point) "host_net_tx_bps" then set_NetTxBPS (f64_to_int64 (mp_Value point)) digest
  else if str_eqb (mp_Name point) "host_net_rx_packets_ps" then set_NetRxPacketsPS (f64_to_int64 (mp_Value point)) digest
  else if str_eqb (mp_Name point) "host_net_tx_packets_ps" then set_NetTxPacketsPS (f64_to_int64 (mp_Value point)) digest
  else digest.

Definition digestFromMetricBatch (req : PushMetricBatchRequest) : AgentDigest :=
  foldl apply_point (mkAgentDigest f64_zero f64_zero 0 f64_zero f64_zero 0 f64_zero 0 0 0 0 f64_zero 0 0 0 0 0 (pm_BatchSeq req))
    (pm_Points req).

(** The value of the last point of that name, if any. *)
Definition last_value (name : string) (points : list MetricPoint) : option float64 :=
  mp_Value <$> last (select (λ p, str_eqb (mp_Name p) name) points).

Definition metric_f (name : string) (points : list MetricPoint) (zero : float64) : float64 := default zero (last_value name points).
Definition metric_i (name : string) (points : list MetricPoint) (zero : Z) : Z := default zero (f64_to_int64 <$> last_value name points).

Definition digest_spec (points : list MetricPoint) (d : AgentDigest) : AgentDigest :=
  mkAgentDigest (metric_f "host_cpu_usage_pct" points (dg_CPUUsagePct d))
    (metric_f "host_mem_used_pct" points (dg_MemUsedPct d))
    (metric_i "host_mem_available_bytes" points (dg_MemAvailableBytes d))
    (metric_f "host_swap_used_pct" points (dg_SwapUsedPct d))
    (metric_f "host_disk_used_pct" points (dg_DiskUsedPct d))
    (metric_i "host_disk_free_bytes" points (dg_DiskFreeBytes d))
    (metric_f "host_disk_inodes_used_pct" points (dg_DiskInodesUsedPct d))
    (metric_i "host_disk_read_bps" points (dg_DiskReadBPS d))
    (metric_i "host_disk_write_bps" points (dg_DiskWriteBPS d))
    (metric_i "host_disk_read_iops" points (dg_DiskReadIOPS d))
    (metric_i "host_disk_write_iops" points (dg_DiskWriteIOPS d))
    (metric_f "host_load1" points (dg_Load1 d)) (metric_i "host_net_rx_bps" points (dg_NetRxBPS d))
    (metric_i "host_net_tx_bps" points (dg_NetTxBPS d))
    (metric_i "host_net_rx_packets_ps" points (dg_NetRxPacketsPS d))
    (metric_i "host_net_tx_packets_ps" points (dg_NetTxPacketsPS d)) (dg_QueueDepth d)
    (dg_LastMetricBatchSeq d).

Lemma last_value_app name points p :
  last_value name (points ++ [p]) = if str_eqb (mp_Name p) name then Some (mp_Value p) else last_value name points.
Proof.
  unfold last_value. rewrite select_app, select_cons.
  change (select (λ p, str_eqb (mp_Name p) name) []) with (@nil MetricPoint).
  destruct (str_eqb _ _); [by rewrite last_snoc|by rewrite app_nil_r].
Qed.

Lemma digest_fold points d : foldl apply_point d points = digest_spec points d.
Proof.
  induction points as [|p points IH] using rev_ind; [by destruct d|].
  rewrite foldl_app, IH. simpl. unfold digest_spec, metric_f, metric_i. rewrite !last_value_app.
  unfold apply_point.
  repeat match goal with
    | |- context [str_eqb (mp_Name p) ?n] =>
        lazymatch goal with
        | E : str_eqb (mp_Name p) n = false |- _ => rewrite E
        | _ => let E := fresh in destruct (str_eqb (mp_Name p) n) eqn:E;
            [apply str_eqb_true in E; rewrite ?E, ?str_eqb_refl, ?str_eqb_neq by discriminate; reflexivity|]
        end
    end.
  reflexivity.
Qed.

(** The digest of a batch holds, for each of the sixteen known metric names,
    the value of the last point with that name (truncated to an integer for
    counters and sizes), zero for the names no point carries, and the batch's
    sequence number; other points have no influence. *)
Theorem ingest_digest_spec req :
  digestFromMetricBatch req =
  digest_spec (pm_Points req)
    (mkAgentDigest f64_zero f64_zero 0 f64_zero f64_zero 0 f64_zero 0 0 0 0 f64_zero 0 0 0 0 0 (pm_BatchSeq req)).
Proof. apply digest_fold. Qed.

End digest.
