(* ===== verification/MetricWindow.v ===== *)
(** * The metric window in Redis

    Models [pkg/hostruntime/repository/redis/history.go] and the envelope of
    [event_bus.go].  The Redis server is a map from keys to lists and strings
    with the documented meaning of the commands used; [RedisEnv] decides which
    round trips fail and how much of a failing pipeline the server had executed.
    The JSON encoding of the stored values is a parameter with its round-trip
    law.  Keys expire on the server: [expire] is the step that drops one. *)

From Stdlib Require Import Ascii.
From stdpp Require Import gmap strings list sorting pretty.
From Stdlib Require Import SpecFloat.
From S2P Require Import Prelude GoRuntime GoStrings Contracts.
Local Open Scope Z_scope.

(** ** Redis *)

Inductive rvalue := RList (l : list string) | RString (s : string).

Record Redis := mkRedis {
  rd_keys : gmap string rvalue;
  rd_published : list (string * string);
  rd_tick : nat
}.

Inductive rcmd :=
| LPush (key : string) (value : string)
| LTrim (key : string) (start stop : Z)
| Expire (key : string) (ttl : Duration).

(** A failing round trip, with the number of commands executed before it. *)
Class RedisEnv := { redis_fault : nat → option nat }.

Definition errWrongType : error := ErrRedis 1.
Definition errRedisIO : error := ErrRedis 2.

(** [LTRIM]: negative indices count from the end, the bounds are inclusive. *)
Definition ltrim (l : list string) (start stop : Z) : list string :=
  let n := llen l in
  let start := if start <? 0 then Z.max 0 (n + start) else start in
  let stop := if stop <? 0 then n + stop else stop in
  drop (Z.to_nat start) (take (Z.to_nat (stop + 1)) l).

Definition run_cmd (c : rcmd) (keys : gmap string rvalue) : res (gmap string rvalue) :=
  match c with
  | LPush k v =>
      match keys !! k with
      | None => Ok (<[k := RList [v]]> keys)
      | Some (RList l) => Ok (<[k := RList (v :: l)]> keys)
      | Some (RString _) => Err errWrongType
      end
  | LTrim k start stop =>
      match keys !! k with
      | None => Ok keys
      | Some (RList l) =>
          match ltrim l start stop with
          | [] => Ok (delete k keys)
          | l => Ok (<[k := RList l]> keys)
          end
      | Some (RString _) => Err errWrongType
      end
  | Expire k ttl => if ttl <=? 0 then Ok (delete k keys) else Ok keys
  end.

(** The commands of a pipeline run in order, a refused one being skipped; the
    first error is reported. *)
Fixpoint run_cmds (cs : list rcmd) (keys : gmap string rvalue) : option error * gmap string rvalue :=
  match cs with
  | [] => (None, keys)
  | c :: cs =>
      match run_cmd c keys with
      | Ok keys => run_cmds cs keys
      | Err e => (Some e, (run_cmds cs keys).2)
      end
  end.

Definition tickR (r : Redis) : Redis := mkRedis (rd_keys r) (rd_published r) (S (rd_tick r)).
Definition with_keys (k : gmap string rvalue) (r : Redis) : Redis := mkRedis k (rd_published r) (rd_tick r).

(** The expiry of a key. *)
Definition expire (k : string) (r : Redis) : Redis := with_keys (delete k (rd_keys r)) r.

(** ** Encoding *)

(** [json.Marshal] and [json.Unmarshal] of the stored values: a value that can be
    encoded decodes to itself; non-finite numbers cannot be encoded. *)
Class JsonCodec := {
  marshal_point : StatePoint → option string;
  unmarshal_point : string → option StatePoint;
  marshal_snapshot : MetricSnapshot → option string;
  unmarshal_snapshot : string → option MetricSnapshot;
  unmarshal_marshal_point : ∀ p s, marshal_point p = Some s → unmarshal_point s = Some p;
  unmarshal_marshal_snapshot : ∀ p s, marshal_snapshot p = Some s → unmarshal_snapshot s = Some p
}.

(** The order in which a [range] loop visits the digest's metrics. *)
Class MetricRange := {
  mrange : gmap MetricKey float64 → list (MetricKey * float64);
  mrange_Permutation : ∀ m, mrange m ≡ₚ map_to_list m
}.

(** ** The store *)

Record WindowStore := mkWindowStore {
  mw_keyPrefix : string;
  mw_maxPoints : Z;
  mw_windowTTL : Duration
}.

Definition NewMetricWindowStore (keyPrefix : string) (maxPoints : Z) (windowTTL : Duration) : WindowStore :=
  mkWindowStore (if str_empty keyPrefix then "gaoming:metrics" else keyPrefix)
    (if maxPoints <=? 0 then 3600 else maxPoints)
    (if windowTTL <=? 0 then 2 * Hour else windowTTL).

Definition metricKey (s : WindowStore) (hostUID : string) (key : MetricKey) : string :=
  mw_keyPrefix s +:+ ":" +:+ hostUID +:+ ":" +:+ key.
Definition snapshotKey (s : WindowStore) (hostUID : string) : string :=
  mw_keyPrefix s +:+ ":" +:+ hostUID +:+ ":snapshot".

Section store.
Context `{RedisEnv} `{JsonCodec} `{MetricRange}.

Definition exec_pipe (cs : list rcmd) (r : Redis) : res unit * Redis :=
  match redis_fault (rd_tick r) with
  | Some n => (Err errRedisIO, with_keys (run_cmds (take n cs) (rd_keys r)).2 (tickR r))
  | None =>
      let '(e, keys) := run_cmds cs (rd_keys r) in
      (match e with Some e => Err e | None => Ok () end, with_keys keys (tickR r))
  end.

(** The commands the loop over the metrics queues. *)
Fixpoint append_cmds (s : WindowStore) (hostUID : string) (now : Time) (l : list (MetricKey * float64)) : res (list rcmd) :=
  match l with
  | [] => Ok []
  | (key, value) :: l =>
      match marshal_point (mkStatePoint now value) with
      | None => Err ErrJSON
      | Some body =>
          rest ← append_cmds s hostUID now l;
          let redisKey := metricKey s hostUID key in
          Ok (LPush redisKey body :: LTrim redisKey 0 (mw_maxPoints s - 1) :: Expire redisKey (mw_windowTTL s) :: rest)
      end
  end.

Definition AppendHeartbeatMetrics (s : WindowStore) (hostUID : string) (now : Time) (digest : AgentDigest) (r : Redis)
    : res unit * Redis :=
  match append_cmds s hostUID now (mrange (DigestMetricValues digest)) with
  | Err e => (Err e, r)
  | Ok cs => exec_pipe cs r
  end.

Definition SaveMetricSnapshot (s : WindowStore) (hostUID : string) (snapshot : MetricSnapshot) (r : Redis) : res unit * Redis :=
  match marshal_snapshot snapshot with
  | None => (Err ErrJSON, r)
  | Some body =>
      match redis_fault (rd_tick r) with
      | Some n => (Err errRedisIO,
          with_keys (if (0 <? n)%nat then <[snapshotKey s hostUID := RString body]> (rd_keys r) else rd_keys r) (tickR r))
      | None => (Ok (), with_keys (<[snapshotKey s hostUID := RString body]> (rd_keys r)) (tickR r))
      end
  end.

Definition GetMetricSnapshot (s : WindowStore) (hostUID : string) (r : Redis) : res (option MetricSnapshot) * Redis :=
  match redis_fault (rd_tick r) with
  | Some _ => (Err errRedisIO, tickR r)
  | None =>
      (match rd_keys r !! snapshotKey s hostUID with
       | None => Ok None
       | Some (RList _) => Err errWrongType
       | Some (RString body) =>
           match unmarshal_snapshot body with
           | None => Err ErrJSON
           | Some snapshot => Ok (Some snapshot)
           end
       end, tickR r)
  end.

(** The loop runs over the raw values from the last to the first. *)
Fixpoint decode_all (raw : list string) : res (list StatePoint) :=
  match raw with
  | [] => Ok []
  | x :: raw =>
      match unmarshal_point x with
      | None => Err ErrJSON
      | Some point => points ← decode_all raw; Ok (point :: points)
      end
  end.
Definition decodeMetricPoints (raw : list string) : res (list StatePoint) := decode_all (reverse raw).

(** [LRANGE key 0 -1]. *)
Definition lrange_all (keys : gmap string rvalue) (key : string) : res (list string) :=
  match keys !! key with
  | None => Ok []
  | Some (RList l) => Ok l
  | Some (RString _) => Err errWrongType
  end.

Fixpoint lranges (s : WindowStore) (hostUID : string) (keys : gmap string rvalue) (ks : list MetricKey)
    : res (list (MetricKey * list string)) :=
  match ks with
  | [] => Ok []
  | k :: ks =>
      raw ← lrange_all keys (metricKey s hostUID k);
      rest ← lranges s hostUID keys ks;
      Ok ((k, raw) :: rest)
  end.

(** The loop that decodes the replies, [result] being the map built so far. *)
Fixpoint decode_history (result : gmap MetricKey (list StatePoint)) (l : list (MetricKey * list string))
    : res (gmap MetricKey (list StatePoint)) :=
  match l with
  | [] => Ok result
  | (key, raw) :: l =>
      points ← decodeMetricPoints raw;
      decode_history (match points with [] => result | _ :: _ => <[key := points]> result end) l
  end.

Definition GetHostMetricHistory (s : WindowStore) (hostUID : string) (r : Redis)
    : res (gmap MetricKey (list StatePoint)) * Redis :=
  match redis_fault (rd_tick r) with
  | Some _ => (Err errRedisIO, tickR r)
  | None => (lranges s hostUID (rd_keys r) MetricKeys ≫= decode_history ∅, tickR r)
  end.

Fixpoint all_histories (s : WindowStore) (result : gmap string (gmap MetricKey (list StatePoint)))
    (hostUIDs : list string) (r : Redis) : res (gmap string (gmap MetricKey (list StatePoint))) * Redis :=
  match hostUIDs with
  | [] => (Ok result, r)
  | hostUID :: hostUIDs =>
      match GetHostMetricHistory s hostUID r with
      | (Err e, r) => (Err e, r)
      | (Ok history, r) =>
          all_histories s (if bool_decide (history = ∅) then result else <[hostUID := history]> result) hostUIDs r
      end
  end.

Definition GetAllHostMetricHistory (s : WindowStore) (hostUIDs : list string) (r : Redis)
    : res (gmap string (gmap MetricKey (list StatePoint))) * Redis :=
  all_histories s ∅ hostUIDs r.

End store.

(** ** Keys

    Metric names contain no colon, so the host and the metric can be read back
    from a key: no two hosts, and no metric list and snapshot, share one. *)

Definition no_colon (k : string) : Prop := ":"%char ∉ bytes k.

Lemma split_last_sep {A} (x : A) l1 l2 k1 k2 :
  x ∉ k1 → x ∉ k2 → l1 ++ x :: k1 = l2 ++ x :: k2 → l1 = l2 ∧ k1 = k2.
Proof.
  revert l2. induction l1 as [|a l1 IH]; intros [|b l2] H1 H2 E; simpl in E.
  - by injection E as ->.
  - injection E as -> ->. destruct H1. set_solver.
  - injection E as -> <-. destruct H2. set_solver.
  - injection E as -> E. by destruct (IH l2 H1 H2 E) as [-> ->].
Qed.

Lemma key_inj pre h h' k k' :
  no_colon k → no_colon k' →
  (pre +:+ ":" +:+ h +:+ ":" +:+ k = pre +:+ ":" +:+ h' +:+ ":" +:+ k')%string → h = h' ∧ k = k'.
Proof.
  intros Hk Hk' E. apply (f_equal bytes) in E. rewrite !bytes_app in E.
  apply app_inv_head in E. apply app_inv_head in E.
  change (bytes ":") with [":"%char] in E. simpl in E.
  apply split_last_sep in E as [E1 E2]; [|done..]. split; by apply bytes_inj.
Qed.

Lemma MetricKeys_no_colon : Forall no_colon MetricKeys.
Proof. apply (bool_decide_unpack _). vm_compute. exact I. Qed.

Lemma snapshot_no_colon : no_colon "snapshot".
Proof. apply (bool_decide_unpack _). vm_compute. exact I. Qed.

Lemma metricKey_inj s h h' k k' :
  k ∈ MetricKeys → k' ∈ MetricKeys → metricKey s h k = metricKey s h' k' → h = h' ∧ k = k'.
Proof.
  intros Hk Hk'. pose proof MetricKeys_no_colon as Hall. rewrite list.Forall_forall in Hall.
  apply key_inj; auto.
Qed.

Lemma metricKey_not_snapshot s h h' k : k ∈ MetricKeys → metricKey s h k ≠ snapshotKey s h'.
Proof.
  intros Hk E. pose proof MetricKeys_no_colon as Hall. rewrite list.Forall_forall in Hall.
  apply (key_inj (mw_keyPrefix s) h h' k "snapshot") in E as [_ ->]; auto using snapshot_no_colon.
  assert (bool_decide ("snapshot" ∈ MetricKeys)%string = false) as Hb by (vm_compute; reflexivity).
  by apply bool_decide_eq_false in Hb.
Qed.

(** ** The window slides *)

Section window.
Context `{RedisEnv} `{JsonCodec} `{MetricRange}.

Definition window_ok (s : WindowStore) : Prop := 0 < mw_maxPoints s ∧ 0 < mw_windowTTL s.

Lemma NewMetricWindowStore_ok p m t : window_ok (NewMetricWindowStore p m t).
Proof.
  unfold window_ok, NewMetricWindowStore. simpl.
  destruct (m <=? 0) eqn:E1, (t <=? 0) eqn:E2; bool_to_prop; unfold Hour, Minute, Second; lia.
Qed.

Lemma ltrim_front l n : 0 < n → ltrim l 0 (n - 1) = take (Z.to_nat n) l.
Proof.
  intros Hn. unfold ltrim. simpl. replace (n - 1 <? 0) with false by (symmetry; apply Z.ltb_ge; lia).
  rewrite drop_0. f_equal. lia.
Qed.

(** The three commands of one metric push its value and cut the list. *)
Lemma run_append_one s key body cs keys keys' :
  window_ok s →
  run_cmds (LPush key body :: LTrim key 0 (mw_maxPoints s - 1) :: Expire key (mw_windowTTL s) :: cs) keys = (None, keys') →
  ∃ old, lrange_all keys key = Ok old ∧
    run_cmds cs (<[key := RList (take (Z.to_nat (mw_maxPoints s)) (body :: old))]> keys) = (None, keys').
Proof.
  intros [Hm Ht] E. unfold lrange_all.
  assert (∀ l, ∃ x l', ltrim (body :: l) 0 (mw_maxPoints s - 1) = x :: l' ∧ x :: l' = take (Z.to_nat (mw_maxPoints s)) (body :: l)) as Hl.
  { intros l. rewrite ltrim_front by done. destruct (Z.to_nat (mw_maxPoints s)) as [|n] eqn:En; [lia|]. simpl. eauto. }
  apply Z.leb_gt in Ht. destruct (keys !! key) as [[old|str]|] eqn:Ek.
  - exists old. split; [done|]. simpl in E. rewrite Ek in E. rewrite lookup_insert, decide_True in E by done.
    destruct (Hl old) as (x & l' & Hx & Hx'). rewrite Hx in E. rewrite Ht in E. rewrite insert_insert, decide_True in E by done. by rewrite <-Hx'.
  - simpl in E. by rewrite Ek in E.
  - exists []. split; [done|]. simpl in E. rewrite Ek in E. rewrite lookup_insert, decide_True in E by done.
    destruct (Hl []) as (x & l' & Hx & Hx'). rewrite Hx in E. rewrite Ht in E. rewrite insert_insert, decide_True in E by done. by rewrite <-Hx'.
Qed.

Lemma run_append s h now l cs keys keys' :
  window_ok s → NoDup l.*1 → Forall (λ k, k ∈ MetricKeys) l.*1 →
  append_cmds s h now l = Ok cs → run_cmds cs keys = (None, keys') →
  (∀ k v, (k, v) ∈ l → ∃ body old, marshal_point (mkStatePoint now v) = Some body ∧
     lrange_all keys (metricKey s h k) = Ok old ∧
     keys' !! metricKey s h k = Some (RList (take (Z.to_nat (mw_maxPoints s)) (body :: old)))) ∧
  (∀ key, (∀ k, k ∈ l.*1 → key ≠ metricKey s h k) → keys' !! key = keys !! key).
Proof.
  intros Hok. revert cs keys. induction l as [|[k v] l IH]; intros cs keys Hnd Hin Hcs Hrun; simpl in Hcs.
  { injection Hcs as <-. injection Hrun as <-. split; [set_solver|done]. }
  destruct (marshal_point _) as [body|] eqn:Eb; [|done].
  destruct (append_cmds s h now l) as [rest|] eqn:Er; [|done]. injection Hcs as <-.
  apply run_append_one in Hrun as (old & Hold & Hrun); [|done].
  rewrite fmap_cons, NoDup_cons in Hnd. destruct Hnd as [Hnk Hnd]. simpl in Hnk.
  rewrite fmap_cons, Forall_cons in Hin. destruct Hin as [Hk Hin]. simpl in Hk.
  destruct (IH rest _ Hnd Hin eq_refl Hrun) as [IH1 IH2]. rewrite list.Forall_forall in Hin.
  assert (∀ k', k' ∈ l.*1 → metricKey s h k ≠ metricKey s h k') as Hne.
  { intros k' Hk' E. apply metricKey_inj in E as [_ ->]; auto. }
  split.
  - intros k' v' [[= -> ->]|Hkv]%elem_of_cons.
    + exists body, old. split_and!; [done..|]. rewrite IH2 by done. by rewrite lookup_insert, decide_True.
    + destruct (IH1 _ _ Hkv) as (b' & old' & Hb' & Hold' & Hkeys). exists b', old'. split_and!; try done.
      unfold lrange_all in *. rewrite lookup_insert_ne in Hold'; [done|]. apply Hne.
      apply list_elem_of_fmap. by exists (k', v').
  - intros key Hkey. rewrite IH2 by (intros; apply Hkey; set_solver). rewrite lookup_insert_ne; [done|].
    intros <-. apply (Hkey k); [set_solver|done].
Qed.

(** What the store holds for a host and a metric, oldest first. *)
Definition stored_points (s : WindowStore) (keys : gmap string rvalue) (h : string) (k : MetricKey) : res (list StatePoint) :=
  lrange_all keys (metricKey s h k) ≫= decodeMetricPoints.

Lemma history_spec s keys h ks acc :
  NoDup ks →
  (∀ k, k ∈ ks → is_ok (stored_points s keys h k) = true) →
  ∃ hist, lranges s h keys ks ≫= decode_history acc = Ok hist ∧
    (∀ k pts, k ∈ ks → stored_points s keys h k = Ok pts →
       hist !! k = match pts with [] => acc !! k | _ :: _ => Some pts end) ∧
    (∀ k, k ∉ ks → hist !! k = acc !! k).
Proof.
  intros Hnd. revert acc. induction ks as [|k ks IH]; intros acc Hok; simpl.
  { exists acc. split_and!; [done|set_solver|done]. }
  apply NoDup_cons in Hnd as [Hk Hnd].
  assert (is_ok (stored_points s keys h k) = true) as Hk0 by (apply Hok; set_solver).
  unfold stored_points in Hk0. destruct (lrange_all keys (metricKey s h k)) as [raw|e] eqn:Er; [|done]. simpl in Hk0.
  destruct (decodeMetricPoints raw) as [pts|e] eqn:Ed; [|done]. simpl.
  destruct (IH Hnd (match pts with [] => acc | _ :: _ => <[k := pts]> acc end)) as (hist & Hh & Hin1 & Hout).
  { intros k' Hk'. apply Hok. set_solver. }
  destruct (lranges s h keys ks) as [rest|e]; [|done]. simpl in *. rewrite Ed. simpl.
  exists hist. split_and!; [done| |].
  - intros k' pts' Hin Hs. destruct (decide (k' = k)) as [->|Hne].
    + unfold stored_points in Hs. rewrite Er in Hs. simpl in Hs. rewrite Ed in Hs. injection Hs as <-.
      rewrite Hout by done. destruct pts; [done|]. by rewrite lookup_insert, decide_True.
    + rewrite (Hin1 k' pts') by (set_solver || done). destruct pts'; [|done].
      destruct pts; [done|]. by rewrite lookup_insert_ne.
  - intros k' Hk'. rewrite Hout by set_solver. destruct pts; [done|]. rewrite lookup_insert_ne; [done|set_solver].
Qed.

Lemma decode_all_app l k :
  decode_all (l ++ k) = (x ← decode_all l; y ← decode_all k; Ok (x ++ y)).
Proof.
  induction l as [|a l IH]; simpl; [by destruct (decode_all k)|].
  destruct (unmarshal_point a); [|done]. rewrite IH.
  destruct (decode_all l); simpl; [|done]. by destruct (decode_all k).
Qed.

(** A history that can be read has been decoded metric by metric. *)
Lemma history_ok s keys h ks acc hist :
  lranges s h keys ks ≫= decode_history acc = Ok hist → ∀ k, k ∈ ks → is_ok (stored_points s keys h k) = true.
Proof.
  revert acc. induction ks as [|k ks IH]; intros acc E k' Hk'; [by apply elem_of_nil in Hk'|]. simpl in E.
  unfold stored_points in *. destruct (lrange_all keys (metricKey s h k)) as [raw|] eqn:Er; [|done]. simpl in E.
  destruct (lranges s h keys ks) as [rest|] eqn:El; [|done]. simpl in E. destruct (decodeMetricPoints raw) as [pts|] eqn:Ed; [|done]. simpl in E.
  apply elem_of_cons in Hk' as [->|Hk']; [rewrite Er; simpl; by rewrite Ed|]. by eapply IH.
Qed.

(** The newest of the stored values is read as the last point. *)
Lemma stored_points_newest s keys h k body rest p :
  unmarshal_point body = Some p → keys !! metricKey s h k = Some (RList (body :: rest)) → is_ok (stored_points s keys h k) = true →
  ∃ pts, stored_points s keys h k = Ok (pts ++ [p]).
Proof.
  intros Hp Hk Hok. unfold stored_points, lrange_all in *. rewrite Hk in *. simpl in *. unfold decodeMetricPoints in *.
  rewrite reverse_cons, decode_all_app in *. destruct (decode_all (reverse rest)) as [pts|]; [|done]. simpl in *. rewrite Hp in *. by exists pts.
Qed.

Lemma decode_all_drop l pts n : decode_all l = Ok pts → decode_all (drop n l) = Ok (drop n pts).
Proof.
  revert pts n. induction l as [|a l IH]; intros pts n E; simpl in E.
  { injection E as <-. by rewrite !drop_nil. }
  destruct (unmarshal_point a) as [p|] eqn:Ea; [|done]. destruct (decode_all l) as [ps|] eqn:El; [|done].
  injection E as <-. destruct n as [|n]; simpl; [|by apply IH]. by rewrite Ea, El.
Qed.

Lemma decode_all_length l pts : decode_all l = Ok pts → length pts = length l.
Proof.
  revert pts. induction l as [|a l IH]; intros pts E; simpl in E; [by injection E as <-|].
  destruct (unmarshal_point a); [|done]. destruct (decode_all l) as [ps|]; [|done]. injection E as <-. simpl. by rewrite (IH ps).
Qed.

Lemma reverse_take {A} n (l : list A) : reverse (take n l) = drop (length l - n) (reverse l).
Proof.
  rewrite <-(take_drop n l) at 3. rewrite reverse_app, drop_app_ge; rewrite length_reverse, length_drop; [|lia].
  by replace (length l - n - (length l - n))%nat with 0%nat by lia.
Qed.

(** The points a metric has after one more: the newest [max] of them. *)
Definition slide (max : Z) (old : list StatePoint) (p : StatePoint) : list StatePoint :=
  drop (S (length old) - Z.to_nat max) (old ++ [p]).

Lemma stored_points_slide s keys keys' h k body old now v pts :
  marshal_point (mkStatePoint now v) = Some body →
  lrange_all keys (metricKey s h k) = Ok old → stored_points s keys h k = Ok pts →
  keys' !! metricKey s h k = Some (RList (take (Z.to_nat (mw_maxPoints s)) (body :: old))) →
  stored_points s keys' h k = Ok (slide (mw_maxPoints s) pts (mkStatePoint now v)).
Proof.
  intros Hb Hold Hpts Hk. unfold stored_points in *. rewrite Hold in Hpts. simpl in Hpts.
  unfold lrange_all at 1. rewrite Hk. simpl. unfold decodeMetricPoints in *. rewrite reverse_take.
  assert (decode_all (reverse (body :: old)) = Ok (pts ++ [mkStatePoint now v])) as Hd.
  { rewrite reverse_cons, decode_all_app, Hpts. simpl. by rewrite (unmarshal_marshal_point _ _ Hb). }
  apply decode_all_length in Hpts as Hlen. rewrite length_reverse in Hlen.
  rewrite (decode_all_drop _ _ _ Hd). unfold slide. simpl. by rewrite Hlen.
Qed.

Lemma slide_length max old p : 0 < max → (length (slide max old p) ≤ Z.to_nat max)%nat.
Proof. intros Hm. unfold slide. rewrite length_drop, length_app. simpl. lia. Qed.

Lemma slide_last max old p : 0 < max → last (slide max old p) = Some p.
Proof. intros Hm. unfold slide. rewrite drop_app_le by lia. apply last_snoc. Qed.

Lemma mrange_keys dg : NoDup (mrange (DigestMetricValues dg)).*1 ∧ (∀ k, k ∈ (mrange (DigestMetricValues dg)).*1 ↔ k ∈ MetricKeys).
Proof.
  split.
  - rewrite mrange_Permutation. apply NoDup_fst_map_to_list.
  - intros k. rewrite mrange_Permutation. rewrite list_elem_of_fmap. split.
    + intros ([k' v] & -> & Hin%elem_of_map_to_list). simpl. apply DigestMetricValues_lookup in Hin.
      rewrite <-(digest_metric_entries_keys dg). apply list_elem_of_fmap. by exists (k', v).
    + rewrite <-(digest_metric_entries_keys dg). intros ([k' v] & -> & Hin)%list_elem_of_fmap. exists (k', v).
      by rewrite elem_of_map_to_list, DigestMetricValues_lookup.
Qed.

Lemma append_ok s h now dg r r' :
  window_ok s → AppendHeartbeatMetrics s h now dg r = (Ok (), r') →
  (∀ k v, DigestMetricValues dg !! k = Some v → ∃ body old, marshal_point (mkStatePoint now v) = Some body ∧
     lrange_all (rd_keys r) (metricKey s h k) = Ok old ∧
     rd_keys r' !! metricKey s h k = Some (RList (take (Z.to_nat (mw_maxPoints s)) (body :: old)))) ∧
  (∀ key, (∀ k, k ∈ MetricKeys → key ≠ metricKey s h k) → rd_keys r' !! key = rd_keys r !! key).
Proof.
  intros Hok E. unfold AppendHeartbeatMetrics in E. destruct (append_cmds _ _ _ _) as [cs|] eqn:Ec; [|done].
  unfold exec_pipe in E. destruct (redis_fault _); [done|].
  destruct (run_cmds cs (rd_keys r)) as [[e|] keys'] eqn:Er; [done|]. injection E as <-. simpl.
  destruct (mrange_keys dg) as [Hnd Hks].
  destruct (run_append s h now _ cs (rd_keys r) keys' Hok Hnd) as [H3 H4]; [|done..|].
  { apply list.Forall_forall. intros k. apply Hks. }
  split.
  - intros k v Hkv. apply H3. rewrite mrange_Permutation. by apply elem_of_map_to_list.
  - intros key Hkey. apply H4. intros k Hk. apply Hkey. by apply Hks.
Qed.

(** The metric window slides.  When appending a host's metrics succeeds, each
    of the sixteen metrics of that host keeps the newest [maxPoints] of its
    stored points followed by the new one, so reading the history back returns
    them oldest first with the new point last and never more than [maxPoints];
    every key of another host and every snapshot is untouched. *)
Theorem window_append_history s h now dg r r' hist :
  window_ok s →
  (∀ k, k ∈ MetricKeys → is_ok (stored_points s (rd_keys r) h k) = true) →
  AppendHeartbeatMetrics s h now dg r = (Ok (), r') →
  (GetHostMetricHistory s h r').1 = Ok hist →
  (∀ k v, DigestMetricValues dg !! k = Some v → ∃ old pts,
     stored_points s (rd_keys r) h k = Ok old ∧ pts = slide (mw_maxPoints s) old (mkStatePoint now v) ∧
     hist !! k = Some pts ∧ last pts = Some (mkStatePoint now v) ∧ (length pts ≤ Z.to_nat (mw_maxPoints s))%nat) ∧
  (∀ h' k, h' ≠ h → k ∈ MetricKeys → rd_keys r' !! metricKey s h' k = rd_keys r !! metricKey s h' k) ∧
  (∀ h', rd_keys r' !! snapshotKey s h' = rd_keys r !! snapshotKey s h').
Proof.
  intros Hok Hst E Eh. destruct (append_ok s h now dg r r' Hok E) as [Happ Hrest].
  assert (∀ k v, DigestMetricValues dg !! k = Some v → k ∈ MetricKeys) as Hkeys.
  { intros k v Hkv. apply DigestMetricValues_lookup in Hkv. rewrite <-(digest_metric_entries_keys dg).
    apply list_elem_of_fmap. by exists (k, v). }
  assert (∀ k v, DigestMetricValues dg !! k = Some v → ∃ old, stored_points s (rd_keys r) h k = Ok old ∧
    stored_points s (rd_keys r') h k = Ok (slide (mw_maxPoints s) old (mkStatePoint now v))) as Hslide.
  { intros k v Hkv. destruct (Happ k v Hkv) as (body & old & Hb & Hold & Hk).
    specialize (Hst k (Hkeys k v Hkv)). destruct (stored_points s (rd_keys r) h k) as [pts|] eqn:Ep; [|done].
    exists pts. split; [done|]. by eapply stored_points_slide. }
  split_and!.
  - unfold GetHostMetricHistory in Eh. destruct (redis_fault _); [done|]. cbn [fst] in Eh.
    destruct (history_spec s (rd_keys r') h MetricKeys ∅ MetricKeys_NoDup) as (hist' & Hh & H1' & _).
    { intros k Hk. rewrite <-(digest_metric_entries_keys dg) in Hk. apply list_elem_of_fmap in Hk as ([k' v] & -> & Hin).
      apply DigestMetricValues_lookup in Hin. destruct (Hslide k' v Hin) as (old & _ & Hs). simpl. by rewrite Hs. }
    assert (hist' = hist) as -> by congruence. intros k v Hkv. destruct (Hslide k v Hkv) as (old & Hold & Hnew).
    exists old, (slide (mw_maxPoints s) old (mkStatePoint now v)). destruct Hok as [Hm _].
    split_and!; [done|done| |by apply slide_last|by apply slide_length].
    rewrite (H1' k _ (Hkeys k v Hkv) Hnew). pose proof (slide_last (mw_maxPoints s) old (mkStatePoint now v) Hm) as Hl.
    by destruct (slide _ _ _).
  - intros h' k Hne Hk. apply Hrest. intros k' Hk' Eq. apply metricKey_inj in Eq as [? _]; done.
  - intros h'. apply Hrest. intros k Hk Eq. symmetry in Eq. by apply metricKey_not_snapshot in Eq.
Qed.

(** A saved metric snapshot is what a later read returns for that host, as
    long as the key is kept, and saving it touches no other key. *)
Theorem window_snapshot_roundtrip s h snap r r' :
  SaveMetricSnapshot s h snap r = (Ok (), r') →
  (match (GetMetricSnapshot s h r').1 with Ok x => x = Some snap | Err e => e = errRedisIO end) ∧
  (∀ key, key ≠ snapshotKey s h → rd_keys r' !! key = rd_keys r !! key) ∧
  ((GetMetricSnapshot s h (expire (snapshotKey s h) r')).1 = Ok None ∨
   (GetMetricSnapshot s h (expire (snapshotKey s h) r')).1 = Err errRedisIO).
Proof.
  unfold SaveMetricSnapshot, GetMetricSnapshot. destruct (marshal_snapshot snap) as [body|] eqn:Em; [|done].
  destruct (redis_fault (rd_tick r)); [done|]. intros [= <-]. simpl.
  destruct (redis_fault (S (rd_tick r))); simpl.
  - split_and!; [done| |auto]. intros key Hkey. by rewrite lookup_insert_ne.
  - rewrite lookup_insert, decide_True by done. rewrite (unmarshal_marshal_snapshot _ _ Em).
    rewrite lookup_delete, decide_True by done. split_and!; [done| |auto]. intros key Hkey. by rewrite lookup_insert_ne.
Qed.

End window.

(** ** A concrete codec and server, for runs

    Any countable type has an injective encoding into strings of bits; it stands
    in for JSON in concrete runs. *)

Fixpoint pos_bits (p : positive) : string :=
  match p with
  | xH => ""
  | xO p => String "0" (pos_bits p)
  | xI p => String "1" (pos_bits p)
  end.
Fixpoint bits_pos (s : string) : option positive :=
  match s with
  | "" => Some xH
  | String c s => (λ p, if Ascii.eqb c "1" then xI p else xO p) <$> bits_pos s
  end%string.

Lemma bits_pos_bits p : bits_pos (pos_bits p) = Some p.
Proof. induction p as [p IH|p IH|]; simpl; rewrite ?IH; done. Qed.

#[local] Instance spec_float_eq_dec : EqDecision spec_float.
Proof. solve_decision. Defined.
#[local] Instance spec_float_countable : Countable spec_float.
Proof.
  refine (inj_countable' (λ x, match x with
    | S754_zero b => inl b | S754_infinity b => inr (inl b) | S754_nan => inr (inr (inl ()))
    | S754_finite b m e => inr (inr (inr (b, m, e))) end)
    (λ y, match y with
    | inl b => S754_zero b | inr (inl b) => S754_infinity b | inr (inr (inl _)) => S754_nan
    | inr (inr (inr (b, m, e))) => S754_finite b m e end) _). by intros [].
Defined.
#[local] Instance StatePoint_eq_dec : EqDecision StatePoint.
Proof. solve_decision. Defined.
#[local] Instance StatePoint_countable : Countable StatePoint.
Proof. refine (inj_countable' (λ p, (sp_TS p, sp_Value p)) (λ '(t, v), mkStatePoint t v) _). by intros []. Defined.
#[local] Instance MetricPoint_eq_dec : EqDecision MetricPoint.
Proof. solve_decision. Defined.
#[local] Instance MetricPoint_countable : Countable MetricPoint.
Proof.
  refine (inj_countable' (λ p, (mp_Name p, mp_Value p, mp_TS p, mp_Labels p)) (λ '(n, v, t, l), mkMetricPoint n v t l) _).
  by intros [].
Defined.
#[local] Instance CollectorStatus_eq_dec : EqDecision CollectorStatus.
Proof. solve_decision. Defined.
#[local] Instance CollectorStatus_countable : Countable CollectorStatus.
Proof.
  refine (inj_countable' (λ c, (cs_Name c, cs_State c, cs_MetricNames c, cs_DurationMicros c, cs_TimedOut c))
    (λ '(n, s, m, d, t), mkCollectorStatus n s m d t) _). by intros [].
Defined.
#[local] Instance MetricSnapshot_eq_dec : EqDecision MetricSnapshot.
Proof. solve_decision. Defined.
#[local] Instance MetricSnapshot_countable : Countable MetricSnapshot.
Proof.
  refine (inj_countable' (λ m, (ms_CollectedAt m, ms_Points m, ms_Collectors m)) (λ '(t, p, c), mkMetricSnapshot t p c) _).
  by intros [].
Defined.

Program Definition BitCodec : JsonCodec := {|
  marshal_point p := Some (pos_bits (encode p));
  unmarshal_point s := bits_pos s ≫= decode;
  marshal_snapshot p := Some (pos_bits (encode p));
  unmarshal_snapshot s := bits_pos s ≫= decode
|}.
Next Obligation. intros p s [= <-]. rewrite bits_pos_bits. simpl. apply decode_encode. Qed.
Next Obligation. intros p s [= <-]. rewrite bits_pos_bits. simpl. apply decode_encode. Qed.

Definition Redis_quiet : RedisEnv := {| redis_fault _ := None |}.
Program Definition MetricRange_keys : MetricRange := {| mrange m := map_to_list m |}.
Next Obligation. done. Qed.

Section examples.
#[local] Existing Instance BitCodec.
#[local] Existing Instance Redis_quiet.
#[local] Existing Instance MetricRange_keys.

Definition ex_window_store : WindowStore := NewMetricWindowStore "" 2 0.
Definition ex_redis : Redis := mkRedis ∅ [] 0.
Definition ex_filled : Redis :=
  (AppendHeartbeatMetrics ex_window_store "a" 2 zero_AgentDigest
    (AppendHeartbeatMetrics ex_window_store "a" 1 zero_AgentDigest ex_redis).2).2.

Lemma window_append_history_witness :
  match (GetHostMetricHistory ex_window_store "a" (AppendHeartbeatMetrics ex_window_store "a" 3 zero_AgentDigest ex_filled).2).1 with
  | Ok hist => ∃ pts, hist !! MetricLoad1 = Some pts ∧ last pts = Some (mkStatePoint 3 f64_zero)
  | Err _ => False
  end.
Proof.
  assert (forallb (λ k, is_ok (stored_points ex_window_store (rd_keys ex_filled) "a" k)) MetricKeys = true) as Hst by (vm_compute; reflexivity).
  assert (is_ok (AppendHeartbeatMetrics ex_window_store "a" 3 zero_AgentDigest ex_filled).1 = true) as Hk by (vm_compute; reflexivity).
  assert (is_ok (GetHostMetricHistory ex_window_store "a" (AppendHeartbeatMetrics ex_window_store "a" 3 zero_AgentDigest ex_filled).2).1 = true) as Hg
    by (vm_compute; reflexivity).
  destruct (AppendHeartbeatMetrics ex_window_store "a" 3 zero_AgentDigest ex_filled) as [[[]|e] r'] eqn:E; [|discriminate Hk].
  cbn [snd] in *.
  destruct (GetHostMetricHistory ex_window_store "a" r').1 as [hist|e] eqn:Eh; [|discriminate Hg].
  destruct (window_append_history ex_window_store "a" 3 zero_AgentDigest ex_filled r' hist
    (NewMetricWindowStore_ok _ _ _)
    (λ k Hk', proj1 (forallb_forall _ _) Hst k (proj1 (list_elem_of_In _ _) Hk')) E Eh) as [Hp _].
  destruct (Hp MetricLoad1 f64_zero eq_refl) as (old & pts & _ & _ & Hl & Hlast & _).
  exists pts. split; [exact Hl|exact Hlast].
Defined.

Lemma window_snapshot_roundtrip_witness :
  (GetMetricSnapshot ex_window_store "a"
    (SaveMetricSnapshot ex_window_store "a" (mkMetricSnapshot 1 [] []) ex_redis).2).1 = Ok (Some (mkMetricSnapshot 1 [] [])).
Proof.
  assert (is_ok (SaveMetricSnapshot ex_window_store "a" (mkMetricSnapshot 1 [] []) ex_redis).1 = true) as Hk by (vm_compute; reflexivity).
  assert (is_ok (GetMetricSnapshot ex_window_store "a"
    (SaveMetricSnapshot ex_window_store "a" (mkMetricSnapshot 1 [] []) ex_redis).2).1 = true) as Hg by (vm_compute; reflexivity).
  destruct (SaveMetricSnapshot ex_window_store "a" (mkMetricSnapshot 1 [] []) ex_redis) as [[[]|e] r'] eqn:E; [|discriminate Hk].
  cbn [snd] in *. pose proof (proj1 (window_snapshot_roundtrip ex_window_store "a" (mkMetricSnapshot 1 [] []) ex_redis r' E)) as Hr.
  destruct (GetMetricSnapshot ex_window_store "a" r').1 as [x|e]; [by rewrite Hr|discriminate Hg].
Defined.

End examples.
