(* ===== verification/EventBus.v ===== *)
(** * The host event bus

    Models [pkg/hostruntime/repository/redis/event_bus.go]: publishing an
    envelope on a Redis channel, and the goroutine that turns the messages of a
    subscription into host events on a channel of capacity 64.  The subscription
    is a step relation between the goroutine, its reader and cancellation. *)

From stdpp Require Import gmap strings list relations.
From Stdlib Require Import SpecFloat.
From S2P Require Import Prelude GoRuntime GoStrings Contracts MetricWindow.
Local Open Scope Z_scope.

(** [json.Marshal] and [json.Unmarshal] of [eventEnvelope], which has the fields
    of [HostEvent]. *)
Class EventCodec := {
  marshal_event : HostEvent → option string;
  unmarshal_event : string → option HostEvent;
  unmarshal_marshal_event : ∀ e s, marshal_event e = Some s → unmarshal_event s = Some e
}.

Definition NewEventBus (channel : string) : string :=
  if str_empty channel then "gaoming:master-api:host-events" else channel.

Section bus.
Context `{RedisEnv} `{EventCodec}.

Definition publish (channel body : string) (r : Redis) : res unit * Redis :=
  let sent := mkRedis (rd_keys r) (rd_published r ++ [(channel, body)]) (S (rd_tick r)) in
  match redis_fault (rd_tick r) with
  | Some n => (Err errRedisIO, if (0 <? n)%nat then sent else tickR r)
  | None => (Ok (), sent)
  end.

Definition PublishHostUpsert (channel : string) (snapshot : HostSnapshot) (r : Redis) : res unit * Redis :=
  match marshal_event (mkHostEvent HostEventUpsert (hs_HostUID snapshot) (Some snapshot)) with
  | None => (Err ErrJSON, r)
  | Some body => publish channel body r
  end.

Definition PublishHostDelete (channel : string) (hostUID : string) (r : Redis) : res unit * Redis :=
  match marshal_event (mkHostEvent HostEventDelete hostUID None) with
  | None => (Err ErrJSON, r)
  | Some body => publish channel body r
  end.

(** ** A subscription *)

Record Subscription := mkSubscription {
  sb_messages : list string;      (* payloads the server has for the subscriber *)
  sb_pending : option HostEvent;  (* decoded, waiting for room in [out] *)
  sb_out : list HostEvent;        (* the buffered channel *)
  sb_read : list HostEvent;       (* events the reader has taken, in order *)
  sb_closed : bool                (* the goroutine has returned *)
}.

Definition out_capacity : nat := 64.

Definition subscribed (messages : list string) : Subscription := mkSubscription messages None [] [] false.

(** The goroutine takes a message (dropping one that does not decode), sends its
    event when the channel has room, or returns on cancellation; the reader
    takes from the channel. *)
Inductive sub_step : Subscription → Subscription → Prop :=
| sub_receive m ms out rd e :
    unmarshal_event m = Some e →
    sub_step (mkSubscription (m :: ms) None out rd false) (mkSubscription ms (Some e) out rd false)
| sub_skip m ms out rd :
    unmarshal_event m = None →
    sub_step (mkSubscription (m :: ms) None out rd false) (mkSubscription ms None out rd false)
| sub_send ms e out rd :
    (length out < out_capacity)%nat →
    sub_step (mkSubscription ms (Some e) out rd false) (mkSubscription ms None (out ++ [e]) rd false)
| sub_read_one ms p e out rd c :
    sub_step (mkSubscription ms p (e :: out) rd c) (mkSubscription ms p out (rd ++ [e]) c)
| sub_cancel ms p out rd :
    sub_step (mkSubscription ms p out rd false) (mkSubscription ms None out rd true).

(** Events of a list of payloads, malformed ones left out. *)
Definition decoded (ms : list string) : list HostEvent := omap unmarshal_event ms.

Definition pending_events (s : Subscription) : list HostEvent :=
  match sb_pending s with Some e => [e] | None => [] end.

(** While the goroutine runs nothing is lost, duplicated or reordered; after it
    returns the reader still gets a prefix. *)
Definition sub_inv (all : list string) (s : Subscription) : Prop :=
  (length (sb_out s) ≤ out_capacity)%nat ∧
  if sb_closed s then sb_read s ++ sb_out s `prefix_of` decoded all
  else sb_read s ++ sb_out s ++ pending_events s ++ decoded (sb_messages s) = decoded all.

Lemma sub_inv_step all s s' : sub_inv all s → sub_step s s' → sub_inv all s'.
Proof.
  intros [Hlen Hinv] Hs. destruct Hs; unfold sub_inv, pending_events in *; simpl in *.
  - split; [done|]. unfold decoded in *. simpl in Hinv. rewrite H1 in Hinv. done.
  - split; [done|]. unfold decoded in *. simpl in Hinv. by rewrite H1 in Hinv.
  - split; [rewrite length_app; simpl; unfold out_capacity in *; lia|]. by rewrite <-Hinv, <-!app_assoc.
  - split; [unfold out_capacity in *; lia|]. destruct c; [|by rewrite <-!app_assoc]. by rewrite <-app_assoc.
  - split; [done|]. exists (match p with Some e => [e] | None => [] end ++ decoded ms). by rewrite <-Hinv, <-!app_assoc.
Qed.

(** A subscriber reads the published host events in order, without
    duplicates: at every moment what it has read is a prefix of the events the
    messages decode to, the buffer never holds more than 64, and as long as the
    subscription is not cancelled nothing is lost. *)
Theorem event_bus_in_order messages s :
  rtc sub_step (subscribed messages) s →
  sb_read s `prefix_of` decoded messages ∧ (length (sb_out s) ≤ 64)%nat ∧
  (sb_closed s = false →
   decoded messages = sb_read s ++ sb_out s ++ pending_events s ++ decoded (sb_messages s)).
Proof.
  intros Hr. assert (sub_inv messages s) as [Hlen Hinv].
  { assert (sub_inv messages (subscribed messages)) as H0' by (split; simpl; [unfold out_capacity; lia|done]).
    revert H0'. generalize (subscribed messages), Hr. clear Hr. intros s0 Hr.
    induction Hr as [|x y z Hxy _ IH]; [done|]. intros Hx. by apply IH, (sub_inv_step _ x). }
  split_and!; [|done|].
  - destruct (sb_closed s); [destruct Hinv as [k ->]; rewrite <-app_assoc; by eexists|]. rewrite <-Hinv. by eexists.
  - intros Hc. by rewrite Hc in Hinv.
Qed.

(** Publishing a host's snapshot makes a subscriber of the channel receive an
    upsert event with that host uid and that snapshot, after everything
    published before. *)
Theorem event_bus_publish_roundtrip channel snap r r' :
  PublishHostUpsert channel snap r = (Ok (), r') →
  rd_keys r' = rd_keys r ∧
  ∃ body, rd_published r' = rd_published r ++ [(channel, body)] ∧
    ∀ ms, decoded (ms ++ [body]) = decoded ms ++ [mkHostEvent HostEventUpsert (hs_HostUID snap) (Some snap)].
Proof.
  unfold PublishHostUpsert. destruct (marshal_event _) as [body|] eqn:Em; [|done].
  unfold publish. destruct (redis_fault _); [done|]. intros [= <-]. split; [done|].
  exists body. split; [done|]. intros ms. unfold decoded. rewrite omap_app. simpl.
  by rewrite (unmarshal_marshal_event _ _ Em).
Qed.

End bus.

Section examples.

#[local] Instance spec_float_dec : EqDecision spec_float.
Proof. solve_decision. Defined.
#[local] Instance HostSnapshot_dec : EqDecision HostSnapshot.
Proof. solve_decision. Defined.
#[local] Instance HostEvent_dec : EqDecision HostEvent.
Proof. solve_decision. Defined.

Definition ex_event : HostEvent := mkHostEvent HostEventUpsert "" (Some zero_HostSnapshot).

(** A codec that knows one event. *)
Program Definition OneEventCodec (ev : HostEvent) : EventCodec := {|
  marshal_event e := if decide (e = ev) then Some "x"%string else None;
  unmarshal_event s := if decide (s = "x"%string) then Some ev else None
|}.
Next Obligation. intros ev e s He. simpl in He. destruct (decide (e = ev)) as [->|]; [|done]. by injection He as <-. Qed.

#[local] Instance ex_codec : EventCodec := OneEventCodec ex_event.
#[local] Existing Instance Redis_quiet.

Lemma event_bus_in_order_witness :
  ∃ s, rtc sub_step (subscribed ["x"%string]) s ∧ sb_read s = [ex_event] ∧ sb_read s `prefix_of` decoded ["x"%string].
Proof.
  set (s := mkSubscription [] None [] [ex_event] false).
  assert (rtc sub_step (subscribed ["x"%string]) s) as Hr.
  { eapply rtc_l; [by apply (sub_receive "x" [] [] [] ex_event)|].
    eapply rtc_l; [apply sub_send; simpl; unfold out_capacity; lia|].
    eapply rtc_l; [apply (sub_read_one [] None ex_event [] [] false)|]. apply rtc_refl. }
  exists s. split; [exact Hr|]. split; [reflexivity|].
  exact (proj1 (event_bus_in_order ["x"%string] s Hr)).
Defined.

Lemma event_bus_publish_roundtrip_witness :
  rd_keys (PublishHostUpsert "c" zero_HostSnapshot ex_redis).2 = rd_keys ex_redis.
Proof.
  assert (is_ok (PublishHostUpsert "c" zero_HostSnapshot ex_redis).1 = true) as Hk by (vm_compute; reflexivity).
  destruct (PublishHostUpsert "c" zero_HostSnapshot ex_redis) as [[[]|e] r'] eqn:E; [|discriminate Hk].
  exact (proj1 (event_bus_publish_roundtrip "c" zero_HostSnapshot ex_redis r' E)).
Defined.

End examples.
