(* ===== verification/Interfaces.v ===== *)
(** * The interfaces between the services and their stores

    The services of the program are written against the interfaces of
    [pkg/hostruntime/repository/repository.go].  An interface is a class over the
    type [S] of everything outside the service; each method passes that state.
    [HostStoreLaws] is what the services rely on; the PostgreSQL store provides
    it. *)

From stdpp Require Import gmap strings list.
From S2P Require Import Prelude GoRuntime GoStrings Contracts Access Sql HostStore HostStoreProps.
Local Open Scope Z_scope.

(** Computations that pass a state and may fail. *)
Definition ST (S A : Type) : Type := S → res A * S.

#[export] Instance ST_ret S : MRet (ST S) := λ A a s, (Ok a, s).
#[export] Instance ST_bind S : MBind (ST S) := λ A B f m s,
  match m s with
  | (Ok a, s') => f a s'
  | (Err e, s') => (Err e, s')
  end.
Definition st_throw {S A} (e : error) : ST S A := λ s, (Err e, s).
Definition st_lift {S A} (r : res A) : ST S A := λ s, (r, s).

(** [HostStateStore]. *)
Class HostStateStore (S : Type) := {
  hss_AllocateTenant : ST S string;
  hss_RegisterAgent : RegisterAgentRequest → Time → ST S (HostSnapshot * AgentConfig * string);
  hss_Heartbeat : HeartbeatRequest → Time → ST S (HostSnapshot * AgentConfig);
  hss_ReportMetrics : PushMetricBatchRequest → AgentDigest → Time → ST S HostSnapshot;
  hss_ListHosts : string → ST S (list HostSnapshot);
  hss_GetHost : string → string → ST S (option HostSnapshot);
  hss_ReconcileOffline : Time → ST S (list HostSnapshot)
}.

(** [MetricWindowStore]. *)
Class MetricWindow (S : Type) := {
  mws_AppendHeartbeatMetrics : string → Time → AgentDigest → ST S unit;
  mws_SaveMetricSnapshot : string → MetricSnapshot → ST S unit;
  mws_GetMetricSnapshot : string → ST S (option MetricSnapshot);
  mws_GetHostMetricHistory : string → ST S (gmap MetricKey (list StatePoint));
  mws_GetAllHostMetricHistory : list string → ST S (gmap string (gmap MetricKey (list StatePoint)))
}.

(** The publishing half of [EventBus]. *)
Class EventPublisher (S : Type) := {
  eb_PublishHostUpsert : HostSnapshot → ST S unit;
  eb_PublishHostDelete : string → ST S unit
}.

(** The clock and [ids.New]. *)
Class Runtime (S : Type) := {
  rt_Now : S → Time * S;
  rt_NewID : string → S → string * S
}.

Definition clock_Now {S} `{Runtime S} : ST S Time := λ s, let '(t, s) := rt_Now s in (Ok t, s).
Definition ids_new {S} `{Runtime S} (prefix : string) : ST S string := λ s, let '(x, s) := rt_NewID prefix s in (Ok x, s).

(** What a reader may rely on, in the states that satisfy [hss_inv]: a listing of
    a tenant holds hosts of that tenant, with the uids they are fetched by, and
    fetching a host of the tenant is picking it from the listing. *)
Class HostStoreLaws (S : Type) `{HostStateStore S} := {
  hss_inv : S → Prop;
  hss_list_law : ∀ s code items s', hss_inv s → code ≠ ""%string →
    hss_ListHosts code s = (Ok items, s') →
    (∀ x, x ∈ items → hs_TenantCode x = code ∧ hs_HostUID x ≠ ""%string);
  hss_get_law : ∀ s code items s' uid x s1, hss_inv s → code ≠ ""%string → uid ≠ ""%string →
    hss_ListHosts code s = (Ok items, s') →
    hss_GetHost uid code s = (Ok x, s1) →
    match x with
    | Some x => x ∈ items ∧ hs_HostUID x = uid
    | None => ∀ y, y ∈ items → hs_HostUID y ≠ uid
    end
}.

(** ** The PostgreSQL store provides the interface *)

Section postgres.
Context `{Env} `{PgTypes} (st : PgStore).

#[export] Instance Postgres_HostStateStore : HostStateStore World := {|
  hss_AllocateTenant := AllocateTenant st;
  hss_RegisterAgent := RegisterAgent st;
  hss_Heartbeat := Heartbeat st;
  hss_ReportMetrics := ReportMetrics st;
  hss_ListHosts := ListHosts st;
  hss_GetHost := GetHost st;
  hss_ReconcileOffline := ReconcileOffline st
|}.

Lemma ListHosts_run code w items w' :
  ListHosts st code w = (Ok items, w') → items = listing (w_db w) "" code.
Proof.
  intros E. apply (WP_run _ (λ r _ _, match r with Ok l => l = listing (w_db w) "" code | Err _ => True end)) in E; [done|].
  by apply WP_listHosts.
Qed.

Lemma GetHost_run uid code w x w' :
  GetHost st uid code w = (Ok x, w') → x = head (listing (w_db w) uid code).
Proof.
  intros E. apply (WP_run _ (λ r _ _, match r with Ok l => l = head (listing (w_db w) uid code) | Err _ => True end)) in E; [done|].
  by apply WP_getHostByUID.
Qed.

#[export, refine] Instance Postgres_HostStoreLaws : HostStoreLaws World := {| hss_inv w := host_wf (w_db w) |}.
Proof.
  - intros w code items w' Hw Hc E x Hx. apply ListHosts_run in E as ->.
    apply elem_of_listing in Hx as (i & h & Hi & -> & _ & [?|(t & Ht & Htc)]); [done| |done].
    rewrite (snapshot_of_tenant _ _ _ Ht), snapshot_of_uid.
    by destruct (wf_host _ Hw _ _ Hi) as (_ & _ & ? & _).
  - intros w code items w' uid x w1 Hw Hc Hu E Eg. apply ListHosts_run in E as ->. apply GetHost_run in Eg as ->.
    destruct (head (listing (w_db w) uid code)) as [x|] eqn:Eh.
    + apply head_Some_elem_of in Eh. apply elem_of_listing in Eh as (i & h & Hi & -> & [?|Hhu] & Ht); [done| |done].
      rewrite snapshot_of_uid. split; [|done]. apply elem_of_listing; [done|]. exists i, h. auto.
    + intros y Hy Hyu. apply head_None in Eh.
      apply elem_of_listing in Hy as (i & h & Hi & -> & _ & Ht); [|done]. rewrite snapshot_of_uid in Hyu.
      assert (snapshot_of (w_db w) h ∈ listing (w_db w) uid code) as Hin; [|rewrite Eh in Hin; set_solver].
      apply elem_of_listing; [done|]. exists i, h. auto.
Defined.

#[export] Instance Postgres_Runtime : Runtime World := {|
  rt_Now w := (env_now (w_tick w), tick w);
  rt_NewID prefix w := (ids_New (env_nano (w_tick w)) (env_rand (w_tick w) 4) prefix, tick w)
|}.

End postgres.
