(* ===== verification/FloatFacts.v ===== *)
(** * Facts on binary64

    What the proofs need of [float64]: an integer below [2^53] passes through it
    unchanged, quotients keep the sign of their operands, and the duration in
    seconds of package [time]. *)

From stdpp Require Import gmap strings list.
From Stdlib Require Import SpecFloat.
From S2P Require Import Prelude GoRuntime.
Local Open Scope Z_scope.

(** [Duration.Seconds]: whole seconds and the rest as a fraction. *)
Definition duration_Seconds (d : Duration) : float64 :=
  f64_add (f64_of_int (Z.quot d Second)) (f64_div (f64_of_int (Z.rem d Second)) (f64_of_int Second)).

(** ** Integers below [2^53] *)

Lemma digits2_bounds m : 2 ^ (Z.pos (digits2_pos m) - 1) ≤ Z.pos m < 2 ^ Z.pos (digits2_pos m).
Proof.
  induction m as [m IH|m IH|]; cbn [digits2_pos]; [| |done].
  all: rewrite Pos2Z.inj_succ, Z.pow_succ_r by lia; unfold Z.succ; rewrite Z.add_simpl_r.
  all: replace (2 ^ Z.pos (digits2_pos m)) with (2 * 2 ^ (Z.pos (digits2_pos m) - 1)) in * by
    (rewrite <-Z.pow_succ_r by lia; f_equal; lia); lia.
Qed.

Lemma digits2_le m n : 0 ≤ n → Z.pos m < 2 ^ n → Z.pos (digits2_pos m) ≤ n.
Proof.
  intros Hn Hm. destruct (digits2_bounds m) as [Hl _].
  destruct (Z.le_gt_cases (Z.pos (digits2_pos m)) n) as [|Hgt]; [done|].
  assert (2 ^ n ≤ 2 ^ (Z.pos (digits2_pos m) - 1)) by (apply Z.pow_le_mono_r; lia). lia.
Qed.

Lemma iter_xO m d : Z.pos (Pos.iter xO m d) = Z.pos m * 2 ^ Z.pos d.
Proof.
  induction d as [|d IH] using Pos.peano_ind; [change (2 ^ 1) with 2; simpl Pos.iter; lia|].
  rewrite Pos.iter_succ, Pos2Z.inj_xO, IH, Pos2Z.inj_succ, Z.pow_succ_r by lia. lia.
Qed.

Lemma digits2_iter_xO m d : Z.pos (digits2_pos (Pos.iter xO m d)) = Z.pos (digits2_pos m) + Z.pos d.
Proof.
  induction d as [|d IH] using Pos.peano_ind; [simpl; lia|]. rewrite Pos.iter_succ. cbn [digits2_pos]. lia.
Qed.

Lemma round_exact s m e :
  Z.pos (digits2_pos m) = 53 → -1074 ≤ e ≤ 971 → binary_round_aux 53 1024 s (Z.pos m) e loc_Exact = S754_finite s m e.
Proof.
  intros Hd He.
  assert (shr_fexp 53 1024 (Z.pos m) e loc_Exact = (Build_shr_record (Z.pos m) false false, e)) as Hs.
  { unfold shr_fexp, shr, fexp, emin. cbn [Zdigits2 shr_record_of_loc]. rewrite Hd.
    replace (Z.max (53 + e - 53) (3 - 1024 - 53) - e) with 0 by lia. done. }
  unfold binary_round_aux. rewrite Hs. cbn [shr_m loc_of_shr_record round_nearest_even]. rewrite Hs. cbn [shr_m].
  by rewrite (proj2 (Z.leb_le e (1024 - 53)) ltac:(lia)).
Qed.

(** The float of a small integer: its digits shifted to the full precision. *)
Lemma binary_round_small s m :
  Z.pos m < 2 ^ 53 → ∃ mz e, binary_round 53 1024 s m 0 = S754_finite s mz e ∧ -52 ≤ e ≤ 0 ∧ Z.pos mz = Z.pos m * 2 ^ (- e).
Proof.
  intros Hm. apply digits2_le in Hm as Hd; [|done]. unfold binary_round, shl_align, fexp, emin.
  replace (Z.max (Z.pos (digits2_pos m) + 0 - 53) (3 - 1024 - 53) - 0) with (Z.pos (digits2_pos m) - 53) by lia.
  destruct (Z.pos (digits2_pos m) - 53) as [|p|p] eqn:E; [| lia |].
  - exists m, 0. rewrite round_exact by lia. split_and!; [done|lia|lia|]. change (2 ^ (- 0)) with 1. lia.
  - exists (Pos.iter xO m p), (Z.neg p).
    replace (Z.max (Z.pos (digits2_pos m) + 0 - 53) (3 - 1024 - 53)) with (Z.neg p) by lia.
    rewrite round_exact by (try rewrite digits2_iter_xO; lia). split_and!; [done|lia|lia|]. apply iter_xO.
Qed.

(** An integer of less than 53 binary digits is unchanged by [float64]. *)
Lemma f64_trunc_of_int z : Z.abs z < 2 ^ 53 → f64_trunc (f64_of_int z) = Some z.
Proof.
  intros Hz. unfold f64_of_int, binary_normalize. destruct z as [|m|m]; [done| |].
  1: destruct (binary_round_small false m) as (mz' & e' & -> & He' & Hm'); [lia|].
  2: destruct (binary_round_small true m) as (mz' & e' & -> & He' & Hm'); [lia|].
  all: unfold f64_trunc; destruct e' as [|p|p]; [change (2 ^ (- 0)) with 1 in Hm'; f_equal; lia|lia|].
  all: change (- Z.neg p) with (Z.pos p) in Hm'; rewrite Hm', Z.div_mul by (apply Z.pow_nonzero; lia); f_equal; lia.
Qed.

Lemma f64_int_roundtrip `{GoArch} z : Z.abs z < 2 ^ 53 → f64_to_int64 (f64_of_int z) = z.
Proof.
  intros Hz. unfold f64_to_int64. rewrite f64_trunc_of_int by done.
  by rewrite (proj2 (in_int64_spec z)) by (unfold int64_min, int64_max; lia).
Qed.

(** ** Signs *)

(** The sign bit is clear; NaN has no sign. *)
Definition nonneg (x : float64) : bool :=
  match x with S754_zero s | S754_infinity s | S754_finite s _ _ => negb s | S754_nan => true end.

Lemma round_aux_nonneg m e l : nonneg (binary_round_aux 53 1024 false m e l) = true.
Proof.
  unfold binary_round_aux. destruct (shr_fexp 53 1024 m e l) as [a e1].
  destruct (shr_fexp 53 1024 _ e1 loc_Exact) as [b e2]. destruct (shr_m b); [done| |done]. by destruct (_ <=? _).
Qed.

Lemma f64_of_int_nonneg z : 0 ≤ z → nonneg (f64_of_int z) = true.
Proof.
  intros Hz. unfold f64_of_int, binary_normalize. destruct z as [|m|m]; [done| |lia].
  unfold binary_round. destruct (shl_align _ _ _) as [mz ez]. apply round_aux_nonneg.
Qed.

Lemma f64_div_nonneg x y : nonneg x = true → nonneg y = true → nonneg (f64_div x y) = true.
Proof.
  unfold f64_div, SFdiv. destruct x as [[]|[]| |[] mx ex], y as [[]|[]| |[] my ey]; try done.
  intros _ _. destruct (SFdiv_core_binary _ _ _ _ _ _) as [[q e] l]. apply round_aux_nonneg.
Qed.

Lemma f64_add_nonneg x y : nonneg x = true → nonneg y = true → nonneg (f64_add x y) = true.
Proof.
  unfold f64_add, SFadd. destruct x as [[]|[]| |[] mx ex], y as [[]|[]| |[] my ey]; try done.
  intros _ _. cbn [cond_Zopp]. rewrite <-Pos2Z.inj_add. unfold binary_normalize, binary_round.
  destruct (shl_align _ _ (fexp _ _ _)) as [mz ez]. apply round_aux_nonneg.
Qed.

Lemma f64_trunc_nonneg x z : nonneg x = true → f64_trunc x = Some z → 0 ≤ z.
Proof.
  destruct x as [[]|[]| |[] m e]; simpl; try done; intros _ [= <-]; [lia|].
  destruct e as [|p|p]; [lia|lia|]. apply Z.div_pos; lia.
Qed.

Lemma duration_Seconds_nonneg d : 0 ≤ d → nonneg (duration_Seconds d) = true.
Proof.
  intros Hd. unfold duration_Seconds. apply f64_add_nonneg; [apply f64_of_int_nonneg, Z.quot_pos; [lia|done]|].
  apply f64_div_nonneg; apply f64_of_int_nonneg; [apply Z.rem_nonneg; [done|lia]|done].
Qed.

#[global] Arguments duration_Seconds : simpl never.
