(* ===== verification/GoText.v ===== *)
(** * More of Go's text packages

    What the agent and the configuration code use of [strings], [path/filepath],
    [unicode/utf8] and [net]: prefixes and suffixes, trimming, paths of a Unix
    system, iteration over runes, host and port. *)

From stdpp Require Import gmap strings list sorting pretty.
From Stdlib Require Import Ascii.
From S2P Require Import Prelude GoRuntime GoStrings.
Local Open Scope Z_scope.

(** ** Bytes *)

Definition is_byte (n : Z) (c : ascii) : bool := byte_val c =? n.
Definition digit (c : ascii) : bool := (48 <=? byte_val c) && (byte_val c <=? 57).
Definition slash : ascii → bool := is_byte 47.
Definition colon : ascii → bool := is_byte 58.
Definition newline : string := String "010" EmptyString.

Fixpoint drop_while (p : ascii → bool) (l : list ascii) : list ascii :=
  match l with [] => [] | c :: l' => if p c then drop_while p l' else l end.
Fixpoint take_while (p : ascii → bool) (l : list ascii) : list ascii :=
  match l with [] => [] | c :: l' => if p c then c :: take_while p l' else [] end.

Lemma take_drop_while p l : take_while p l ++ drop_while p l = l.
Proof. induction l as [|c l IH]; simpl; [done|]. destruct (p c); simpl; [by rewrite IH|done]. Qed.

Lemma drop_while_head p l c l' : drop_while p l = c :: l' → p c = false.
Proof. induction l as [|d l IH]; simpl; [done|]. destruct (p d) eqn:E; [done|]. by intros [= <- _]. Qed.

Lemma take_while_all p l : Forall (λ c, p c = true) (take_while p l).
Proof. induction l as [|c l IH]; simpl; [constructor|]. destruct (p c) eqn:E; constructor; auto. Qed.

(** ** Iteration over a map

    A [range] loop visits the entries of a map in some order. *)
Class MapOrder := {
  map_order : ∀ {A}, gmap string A → list (string * A);
  map_order_Permutation : ∀ A (m : gmap string A), map_order m ≡ₚ map_to_list m
}.

Program Definition MapOrder_keys : MapOrder := {| map_order A m := map_to_list m |}.
Next Obligation. done. Qed.

(** ** [strings] *)

Definition HasPrefix (s p : string) : bool := String.prefix p s.
Definition HasSuffix (s p : string) : bool :=
  bool_decide (drop (length (bytes s) - length (bytes p)) (bytes s) = bytes p).
(** [TrimRight(s, "/")] and [TrimLeft(s, "/")]. *)
Definition TrimRightSlash (s : string) : string := of_bytes (reverse (drop_while slash (reverse (bytes s)))).
Definition TrimLeftSlash (s : string) : string := of_bytes (drop_while slash (bytes s)).
(** [TrimPrefix(s, p)]. *)
Definition TrimPrefix (s p : string) : string :=
  if HasPrefix s p then of_bytes (drop (length (bytes p)) (bytes s)) else s.
(** [Trim(s, "[]")]. *)
Definition bracket (c : ascii) : bool := is_byte 91 c || is_byte 93 c.
Definition TrimBrackets (s : string) : string :=
  of_bytes (reverse (drop_while bracket (reverse (drop_while bracket (bytes s))))).
(** [Split(s, ",")[0]]. *)
Definition before_comma (s : string) : string := of_bytes (take_while (λ c, negb (is_byte 44 c)) (bytes s)).
(** [Contains(s, string(c))]. *)
Definition contains_byte (n : Z) (s : string) : bool := existsb (is_byte n) (bytes s).

(** ** [path/filepath] on Unix *)

(** [Base]: the last element without trailing slashes. *)
Definition Base (path : string) : string :=
  if str_empty path then "." else
  let last := reverse (take_while (λ c, negb (slash c)) (drop_while slash (reverse (bytes path)))) in
  if bool_decide (last = []) then "/" else of_bytes last.

(** [Clean]: the elements between slashes, without empty ones and [.], each [..]
    removing the element before it. *)
Fixpoint split_slash (cur : list ascii) (l : list ascii) : list (list ascii) :=
  match l with
  | [] => [reverse cur]
  | c :: l => if slash c then reverse cur :: split_slash [] l else split_slash (c :: cur) l
  end.
Definition dot : list ascii := bytes ".".
Definition dotdot : list ascii := bytes "..".

(** [out] holds the elements so far, the last one first. *)
Definition clean_step (rooted : bool) (out : list (list ascii)) (elem : list ascii) : list (list ascii) :=
  if bool_decide (elem = []) || bool_decide (elem = dot) then out else
  if bool_decide (elem = dotdot) then
    match out with
    | e :: out' => if bool_decide (e = dotdot) then elem :: out else out'
    | [] => if rooted then [] else [elem]
    end
  else elem :: out.

Definition join_slash (l : list (list ascii)) : list ascii :=
  match l with [] => [] | e :: l => foldl (λ acc e, acc ++ bytes "/" ++ e) e l end.

Definition Clean (path : string) : string :=
  let rooted := match bytes path with c :: _ => slash c | [] => false end in
  let out := reverse (foldl (clean_step rooted) [] (split_slash [] (bytes path))) in
  let s := (if rooted then bytes "/" else []) ++ join_slash out in
  if bool_decide (s = []) then "." else of_bytes s.

(** [filepath.Join] of a directory, not the empty string, and a name. *)
Definition path_in (root name : string) : string := Clean (root +:+ "/" +:+ name).

(** ** Runes *)

(** The runes a [range] loop yields: an invalid byte is the replacement rune. *)
Definition RuneError : Z := 65533.

Fixpoint range_runes (l : list Z) : list Z :=
  match l with
  | [] => []
  | a :: l1 =>
      if a <? 128 then a :: range_runes l1 else
      match l1 with
      | [] => RuneError :: range_runes l1
      | b :: l2 =>
          if (194 <=? a) && (a <=? 223) && utf8_cont b then ((a - 192) * 64 + (b - 128)) :: range_runes l2 else
          match l2 with
          | [] => RuneError :: range_runes l1
          | c :: l3 =>
              if (224 <=? a) && (a <=? 239) && utf8_cont b && utf8_cont c
                 && (if a =? 224 then 160 <=? b else true) && (if a =? 237 then b <=? 159 else true)
              then ((a - 224) * 4096 + (b - 128) * 64 + (c - 128)) :: range_runes l3 else
              match l3 with
              | [] => RuneError :: range_runes l1
              | d :: l4 =>
                  if (240 <=? a) && (a <=? 244) && utf8_cont b && utf8_cont c && utf8_cont d
                     && (if a =? 240 then 144 <=? b else true) && (if a =? 244 then b <=? 143 else true)
                  then ((a - 240) * 262144 + (b - 128) * 4096 + (c - 128) * 64 + (d - 128)) :: range_runes l4
                  else RuneError :: range_runes l1
              end
          end
      end
  end.

(** [WriteRune]. *)
Definition byte_of_Z (z : Z) : ascii := ascii_of_N (Z.to_N z).
Definition encode_rune (r : Z) : list ascii :=
  let r := if (r <? 0) || (1114111 <? r) || ((55296 <=? r) && (r <=? 57343)) then RuneError else r in
  byte_of_Z <$>
  (if r <? 128 then [r]
   else if r <? 2048 then [192 + r / 64; 128 + r mod 64]
   else if r <? 65536 then [224 + r / 4096; 128 + (r / 64) mod 64; 128 + r mod 64]
   else [240 + r / 262144; 128 + (r / 4096) mod 64; 128 + (r / 64) mod 64; 128 + r mod 64]).

(** [unicode.IsUpper] and [unicode.ToLower]: only their ASCII part is fixed. *)
Class UnicodeCase := {
  IsUpper : Z → bool;
  ToLowerRune : Z → Z;
  IsUpper_ascii : ∀ r, 0 ≤ r < 128 → IsUpper r = (65 <=? r) && (r <=? 90);
  ToLowerRune_ascii : ∀ r, 0 ≤ r < 128 → ToLowerRune r = if (65 <=? r) && (r <=? 90) then r + 32 else r
}.

Program Definition UnicodeCase_ascii : UnicodeCase := {|
  IsUpper r := (65 <=? r) && (r <=? 90);
  ToLowerRune r := if (65 <=? r) && (r <=? 90) then r + 32 else r
|}.
Next Obligation. done. Qed.
Next Obligation. done. Qed.

Program Definition StringsLower_bytes : StringsLower := {|
  ToLower s := of_bytes ((λ c, let x := byte_val c in if (65 <=? x) && (x <=? 90) then ascii_of_N (Z.to_N (x + 32)) else c) <$> bytes s)
|}.
Next Obligation. done. Qed.

(** ** [net]: host and port *)

Definition last_colon (l : list ascii) : option (list ascii * list ascii) :=
  let r := reverse l in
  match drop_while (λ c, negb (colon c)) r with
  | [] => None
  | _ :: before => Some (reverse before, reverse (take_while (λ c, negb (colon c)) r))
  end.

(** [SplitHostPort]; [None] is an error. *)
Definition SplitHostPort (hostport : string) : option (string * string) :=
  let l := bytes hostport in
  match last_colon l with
  | None => None                                         (* missing port *)
  | Some (before, port) =>
      if match l with c :: _ => is_byte 91 c | [] => false end then
        (* the first ']' must be right before the last colon *)
        let host := take_while (λ c, negb (is_byte 93 c)) (tail l) in
        match drop_while (λ c, negb (is_byte 93 c)) (tail l) with
        | [] => None                                     (* missing ']' *)
        | _ :: rest =>
            if negb (bool_decide (rest = bytes ":" ++ port)) then None else
            if existsb (is_byte 91) host || existsb bracket port then None else
            Some (of_bytes host, of_bytes port)
        end
      else
        if existsb colon before || existsb bracket l then None else
        Some (of_bytes before, of_bytes port)
  end.

(** [JoinHostPort]. *)
Definition JoinHostPort (host port : string) : string :=
  if contains_byte 58 host || contains_byte 37 host then ("[" +:+ host +:+ "]:" +:+ port) else (host +:+ ":" +:+ port).
