(* ===== verification/NetText.v ===== *)
(** * Addresses

    What the configuration code uses of [net], [net/netip] and [net/url]: parsing
    and printing of IP addresses as [ParseIP] and [IP.String] do it, and facts
    about host and port and about the elements of a path. *)

From stdpp Require Import gmap strings list sorting pretty.
From Stdlib Require Import Ascii.
From S2P Require Import Prelude GoRuntime GoStrings GoText.
Local Open Scope Z_scope.

(** ** Parsing

    An address is its sixteen bytes. *)

(** The loop of [parseIPv4Fields]: the value and the digits of the current field,
    and the fields before it.  A dot without digits before it is at the start or
    behind another dot. *)
Fixpoint ipv4_fields (val digLen : Z) (fields : list Z) (l : list ascii) : option (list Z) :=
  match l with
  | [] => if llen fields <? 3 then None else Some (fields ++ [val])
  | c :: l =>
      if digit c then
        if (digLen =? 1) && (val =? 0) then None else
        let val := val * 10 + (byte_val c - 48) in
        if 255 <? val then None else ipv4_fields val (digLen + 1) fields l
      else if is_byte 46 c then
        if (digLen =? 0) || bool_decide (l = []) then None else
        if llen fields =? 3 then None else ipv4_fields 0 0 (fields ++ [val]) l
      else None
  end.

Definition hex_val (c : ascii) : option Z :=
  let x := byte_val c in
  if digit c then Some (x - 48) else
  if (97 <=? x) && (x <=? 102) then Some (x - 87) else
  if (65 <=? x) && (x <=? 70) then Some (x - 55) else None.

(** The digits of a group: their number, their value and the rest. *)
Fixpoint hex_group (off acc : Z) (l : list ascii) : option (Z * Z * list ascii) :=
  match l with
  | [] => Some (off, acc, [])
  | c :: l' =>
      match hex_val c with
      | None => Some (off, acc, l)
      | Some d =>
          if (3 <? off) || (65535 <? acc * 16 + d) then None else hex_group (off + 1) (acc * 16 + d) l'
      end
  end.

(** The loop over the groups: at most eight, of two bytes each. *)
Fixpoint ipv6_loop (groups : nat) (ip : list Z) (ellipsis : option nat) (s : list ascii)
    : option (list Z * option nat * list ascii) :=
  match groups with
  | O => Some (ip, ellipsis, s)
  | S groups =>
      match hex_group 0 0 s with
      | None => None
      | Some (off, acc, rest) =>
          if off =? 0 then None else
          let saved := ip ++ [acc / 256; acc mod 256] in
          match rest with
          | [] => Some (saved, ellipsis, [])
          | c :: rest =>
              if is_byte 46 c then
                if bool_decide (ellipsis = None) && negb (llen ip =? 12) then None else
                if 16 <? llen ip + 4 then None else
                match ipv4_fields 0 0 [] s with
                | Some f => Some (ip ++ f, ellipsis, [])
                | None => None
                end
              else if negb (colon c) then None else
              match rest with
              | [] => None
              | d :: more =>
                  if colon d then
                    match ellipsis, more with
                    | Some _, _ => None
                    | None, [] => Some (saved, Some (length saved), [])
                    | None, _ => ipv6_loop groups saved (Some (length saved)) more
                    end
                  else ipv6_loop groups saved ellipsis rest
              end
          end
      end
  end.

(** What is missing is at the ellipsis; there must be something missing. *)
Definition expand (ip : list Z) (ellipsis : option nat) : option (list Z) :=
  match ellipsis with
  | None => if llen ip <? 16 then None else Some ip
  | Some e => if llen ip <? 16 then Some (take e ip ++ replicate (16 - length ip) 0 ++ drop e ip) else None
  end.

(** An address with a zone is not an [IP]. *)
Definition parseIPv6 (l : list ascii) : option (list Z) :=
  if existsb (is_byte 37) l then None else
  let '(ellipsis, s) := match l with
    | a :: b :: s => if colon a && colon b then (Some 0%nat, s) else (None, l)
    | _ => (None, l) end in
  match ellipsis, s with
  | Some _, [] => Some (replicate 16 0)
  | _, _ =>
      match ipv6_loop 8 [] ellipsis s with
      | Some (ip, ellipsis, []) => expand ip ellipsis
      | _ => None
      end
  end.

Definition v4_prefix : list Z := replicate 10 0 ++ [255; 255].

(** The first dot, colon or percent sign decides; the colon is [false]. *)
Fixpoint ip_kind (l : list ascii) : option bool :=
  match l with
  | [] => None
  | c :: l => if is_byte 46 c then Some true else if colon c then Some false else if is_byte 37 c then None else ip_kind l
  end.

Definition ParseIP (s : string) : option (list Z) :=
  match ip_kind (bytes s) with
  | Some true => (λ f, v4_prefix ++ f) <$> ipv4_fields 0 0 [] (bytes s)
  | Some false => parseIPv6 (bytes s)
  | None => None
  end.

(** ** Printing *)

Definition To4 (ip : list Z) : option (list Z) := if bool_decide (take 12 ip = v4_prefix) then Some (drop 12 ip) else None.

Definition IsLoopback (ip : list Z) : bool :=
  match To4 ip with
  | Some (a :: _) => a =? 127
  | Some [] => false
  | None => bool_decide (ip = replicate 15 0 ++ [1])
  end.

(** [appendDecimal] and [appendHex]. *)
Definition dec_digit (n : Z) : ascii := hex_digit (n mod 10).
Definition decimal8 (x : Z) : list ascii :=
  (if 100 <=? x then [dec_digit (x / 100)] else []) ++ (if 10 <=? x then [dec_digit (x / 10)] else []) ++ [dec_digit x].
Definition hex16 (x : Z) : list ascii :=
  (if 4096 <=? x then [hex_digit ((x / 4096) mod 16)] else []) ++ (if 256 <=? x then [hex_digit ((x / 256) mod 16)] else []) ++
  (if 16 <=? x then [hex_digit ((x / 16) mod 16)] else []) ++ [hex_digit (x mod 16)].

Fixpoint join_bytes (sep : list ascii) (l : list (list ascii)) : list ascii :=
  match l with [] => [] | [x] => x | x :: l => x ++ sep ++ join_bytes sep l end.

Fixpoint u16_groups (l : list Z) : list Z :=
  match l with a :: b :: l => (a * 256 + b) :: u16_groups l | _ => [] end.

Fixpoint zero_run (l : list Z) : nat :=
  match l with x :: l => if x =? 0 then S (zero_run l) else O | [] => O end.

(** The first longest run of at least two zero groups: its start and length. *)
Definition longest_run (groups : list Z) : nat * nat :=
  foldl (λ best i, let n := zero_run (drop i groups) in
    if (2 <=? n)%nat && (best.2 <? n)%nat then (i, n) else best) (0, 0)%nat (seq 0 8).

Definition ipv6_string (ip : list Z) : list ascii :=
  let groups := u16_groups ip in
  let '(start, n) := longest_run groups in
  if (n =? 0)%nat then join_bytes (bytes ":") (hex16 <$> groups)
  else join_bytes (bytes ":") (hex16 <$> take start groups) ++ bytes "::" ++ join_bytes (bytes ":") (hex16 <$> drop (start + n) groups).

Definition IP_String (ip : list Z) : string :=
  match To4 ip with
  | Some f => of_bytes (join_bytes (bytes ".") (decimal8 <$> f))
  | None => of_bytes (ipv6_string ip)
  end.

Example ParseIP_v4 : (IP_String <$> ParseIP "192.168.0.1") = Some "192.168.0.1"%string.
Proof. vm_compute. reflexivity. Qed.
Example ParseIP_v6 : (IP_String <$> ParseIP "2001:DB8:0:0:1:0:0:0") = Some "2001:db8:0:0:1::"%string.
Proof. vm_compute. reflexivity. Qed.
Example ParseIP_mapped : (IP_String <$> ParseIP "::ffff:10.0.0.7") = Some "10.0.0.7"%string.
Proof. vm_compute. reflexivity. Qed.
Example ParseIP_bad : omap ParseIP ["1.2.3"; "01.2.3.4"; "1.2.3.256"; "1::2::3"; ":1"; "fe80::1%eth0"; "abc"; ""; "1:2:3:4:5:6:7:8:9"]%string = [].
Proof. vm_compute. reflexivity. Qed.

(** ** URLs

    [url.Parse] is a parameter: the parts of a URL that the code looks at, or
    nothing on an error.  Nothing is assumed of it. *)
Record URL := mkURL { u_Scheme : string; u_User : bool; u_Host : string; u_Path : string; u_RawQuery : string; u_Fragment : string }.
Class UrlParse := { url_Parse : string → option URL }.

(** ** Facts about parsing *)

Definition colons (l : list ascii) : nat := length (filter (λ c, colon c = true) l).

Lemma colons_app l k : colons (l ++ k) = (colons l + colons k)%nat.
Proof. unfold colons. by rewrite filter_app, length_app. Qed.

Lemma colons_cons c l : colons (c :: l) = ((if colon c then 1 else 0) + colons l)%nat.
Proof. unfold colons. rewrite filter_cons. by destruct (colon c). Qed.

Lemma colons_zero l : colons l = 0%nat ↔ existsb colon l = false.
Proof.
  induction l as [|c l IH]; [done|]. rewrite colons_cons. simpl. destruct (colon c); simpl; [done|]. by rewrite IH.
Qed.

Lemma ipv4_fields_spec v d f l r :
  ipv4_fields v d f l = Some r → (length f ≤ 3)%nat → length r = 4%nat ∧ Forall (λ c, digit c || is_byte 46 c = true) l.
Proof.
  revert v d f. induction l as [|c l IH]; intros v d f; simpl; intros E Hf.
  - destruct (Z.ltb_spec (llen f) 3); [done|]. injection E as <-. rewrite length_app. simpl. unfold llen in *. split; [lia|constructor].
  - destruct (digit c) eqn:Ed.
    + repeat (case_match; [done|]). apply IH in E as [??]; [|done]. split; [done|]. constructor; [by rewrite Ed|done].
    + destruct (is_byte 46 c) eqn:Eb; [|done]. destruct (_ || _); [done|]. destruct (Z.eqb_spec (llen f) 3); [done|].
      apply IH in E as [??]; [|rewrite length_app; simpl; unfold llen in *; lia]. split; [done|]. constructor; [by rewrite Eb, orb_true_r|done].
Qed.

Lemma digit_not_colon c : digit c || is_byte 46 c = true → colon c = false.
Proof. unfold digit, colon, is_byte. intros Hc. apply Z.eqb_neq. intros E. by rewrite E in Hc. Qed.

Lemma ipv4_no_colon v d f l r : ipv4_fields v d f l = Some r → (length f ≤ 3)%nat → colons l = 0%nat.
Proof.
  intros E Hf. apply ipv4_fields_spec in E as [_ Hl]; [|done]. induction Hl as [|c l Hc _ IH]; [done|].
  by rewrite colons_cons, (digit_not_colon _ Hc), IH.
Qed.

Lemma hex_group_colons off acc l n v rest : hex_group off acc l = Some (n, v, rest) → colons rest = colons l.
Proof.
  revert off acc. induction l as [|c l IH]; intros off acc; simpl; [by intros [= _ _ <-]|].
  destruct (hex_val c) as [d|] eqn:Eh; [|by intros [= _ _ <-]]. destruct (_ || _); [done|]. intros ->%IH.
  rewrite colons_cons. unfold hex_val, digit, colon, is_byte in *. destruct (Z.eqb_spec (byte_val c) 58) as [E|]; [|done]. by rewrite E in Eh.
Qed.

(** A last group without a colon, and no ellipsis so far. *)
Lemma ipv6_last_group g ip s r : colons s = 0%nat → (length ip ≤ 10)%nat → ipv6_loop (S g) ip None s = Some r →
  ∃ ip', r = (ip', None, []) ∧ (length ip' < 16)%nat.
Proof.
  intros Hs Hi. simpl. destruct (hex_group 0 0 s) as [[[off acc] rest]|] eqn:Eg; [|done]. apply hex_group_colons in Eg as Hc.
  destruct (off =? 0); [done|]. destruct rest as [|c rest].
  - intros [= <-]. eexists. split; [done|]. rewrite length_app. simpl. lia.
  - rewrite Hs, colons_cons in Hc. destruct (colon c) eqn:Ec; [done|]. simpl. destruct (is_byte 46 c); [|done].
    destruct (Z.eqb_spec (llen ip) 12); [unfold llen in *; lia|done].
Qed.

(** One colon does not make an address. *)
Lemma parseIPv6_one_colon l : colons l = 1%nat → parseIPv6 l = None.
Proof.
  intros Hl. unfold parseIPv6. destruct (existsb _ l); [done|].
  assert ((match l with a :: b :: s => if colon a && colon b then (Some 0%nat, s) else (None, l) | _ => (None, l) end) = (None, l)) as ->.
  { destruct l as [|a [|b s]]; [done..|]. rewrite !colons_cons in Hl. by destruct (colon a), (colon b). }
  change 8%nat with (S 7). remember 7%nat as g eqn:Hg. simpl.
  destruct (hex_group 0 0 l) as [[[off acc] rest]|] eqn:Eg; [|done]. apply hex_group_colons in Eg as Hc. rewrite Hl in Hc.
  destruct (off =? 0); [done|]. destruct rest as [|c rest]; [done|]. rewrite colons_cons in Hc. destruct (is_byte 46 c); [done|].
  destruct (colon c) eqn:Ec; [|done]. simpl in *. destruct rest as [|d more]; [done|].
  assert (colons (d :: more) = 0%nat) as Hd by lia. rewrite colons_cons in Hd. destruct (colon d) eqn:Ed; [done|]. subst g.
  destruct (ipv6_loop 7 [acc / 256; acc mod 256] None (d :: more)) as [r|] eqn:E; [|done].
  apply ipv6_last_group in E as (ip' & -> & Hi); [|by rewrite colons_cons, Ed|simpl; lia].
  simpl. destruct (Z.ltb_spec (llen ip') 16); [done|unfold llen in *; lia].
Qed.

Lemma ParseIP_one_colon s : colons (bytes s) = 1%nat → ParseIP s = None.
Proof.
  intros Hs. unfold ParseIP. destruct (ip_kind (bytes s)) as [[]|]; [|by apply parseIPv6_one_colon|done].
  destruct (ipv4_fields 0 0 [] (bytes s)) eqn:E; [|done]. apply ipv4_no_colon in E; [congruence|simpl; lia].
Qed.

Lemma ipv6_loop_length g ip e s ip' e' s' :
  ipv6_loop g ip e s = Some (ip', e', s') → (length ip + 2 * g ≤ 16)%nat → (length ip' ≤ 16)%nat.
Proof.
  revert ip e s. induction g as [|g IH]; intros ip e s; simpl; [intros [= <- _ _]; lia|].
  destruct (hex_group 0 0 s) as [[[off acc] rest]|]; [|done]. destruct (off =? 0); [done|].
  assert (length (ip ++ [(acc / 256)%Z; (acc mod 256)%Z]) = length ip + 2)%nat as Hsv by (by rewrite length_app).
  intros E Hl. destruct rest as [|c rest]; [injection E as <- _ _; lia|]. destruct (is_byte 46 c).
  - destruct (_ && _); [done|]. destruct (Z.ltb_spec 16 (llen ip + 4)); [done|].
    destruct (ipv4_fields 0 0 [] s) as [f|] eqn:Ef; [|done]. apply ipv4_fields_spec in Ef as [Hf _]; [|simpl; lia].
    injection E as <- _ _. rewrite length_app. unfold llen in *. lia.
  - destruct (colon c); [|done]. simpl in E. destruct rest as [|d more]; [done|].
    destruct (colon d); [destruct e; [done|]; destruct more; [injection E as <- _ _; lia|]|]; apply IH in E; lia.
Qed.

Lemma parseIPv6_length l ip : parseIPv6 l = Some ip → length ip = 16%nat.
Proof.
  unfold parseIPv6. destruct (existsb _ l); [done|].
  destruct (match l with a :: b :: s => if colon a && colon b then (Some 0%nat, s) else (None, l) | _ => (None, l) end) as [e s].
  assert (∀ r, match ipv6_loop 8 [] e s with Some (ip, ellipsis, []) => expand ip ellipsis | _ => None end = Some r → length r = 16%nat) as Hx.
  { intros r E. destruct (ipv6_loop 8 [] e s) as [[[ip' e'] [|]]|] eqn:El; [|done..]. apply ipv6_loop_length in El; [|simpl; lia].
    unfold expand in E. destruct e' as [k|]; destruct (Z.ltb_spec (llen ip') 16); try done; injection E as <-; unfold llen in *; [|lia].
    rewrite !length_app, length_replicate, length_take, length_drop. lia. }
  destruct e as [|], s; try apply Hx. by intros [= <-].
Qed.

Lemma ParseIP_length s ip : ParseIP s = Some ip → length ip = 16%nat.
Proof.
  unfold ParseIP. destruct (ip_kind (bytes s)) as [[]|]; [|apply parseIPv6_length|done].
  destruct (ipv4_fields 0 0 [] (bytes s)) as [f|] eqn:E; [|done]. intros [= <-]. apply ipv4_fields_spec in E as [Hf _]; [|simpl; lia].
  simpl. by rewrite Hf.
Qed.

(** ** The text of an address *)

Definition ip_char (c : ascii) : bool :=
  digit c || ((97 <=? byte_val c) && (byte_val c <=? 102)) || is_byte 46 c || colon c.

Lemma hex_digit_char n : 0 ≤ n < 16 → ip_char (hex_digit n) = true.
Proof.
  intros Hn. assert (Forall (λ k, ip_char (hex_digit k) = true) (seqZ 0 16)) as Hall by (by repeat constructor).
  rewrite list.Forall_forall in Hall. apply Hall, elem_of_seqZ. lia.
Qed.

Lemma dec_digit_char n : ip_char (dec_digit n) = true.
Proof. unfold dec_digit. apply hex_digit_char. pose proof (Z.mod_pos_bound n 10). lia. Qed.
Lemma hex_mod_char n : ip_char (hex_digit (n mod 16)) = true.
Proof. apply hex_digit_char. pose proof (Z.mod_pos_bound n 16). lia. Qed.

Definition ip_text (l : list ascii) : Prop := Forall (λ c, ip_char c = true) l ∧ l ≠ [].

Lemma decimal8_text x : ip_text (decimal8 x).
Proof.
  unfold decimal8. split; [|intros E; apply (f_equal length) in E; rewrite !length_app in E; simpl in E; lia].
  repeat apply Forall_app_2; repeat case_match; repeat constructor; apply dec_digit_char.
Qed.

Lemma hex16_text x : ip_text (hex16 x).
Proof.
  unfold hex16. split; [|intros E; apply (f_equal length) in E; rewrite !length_app in E; simpl in E; lia].
  repeat apply Forall_app_2; repeat case_match; repeat constructor; apply hex_mod_char.
Qed.

Lemma join_text sep l : Forall (λ c, ip_char c = true) sep → Forall ip_text l → Forall (λ c, ip_char c = true) (join_bytes sep l).
Proof.
  intros Hs Hl. induction Hl as [|x l [Hx _] Hl IH]; [constructor|]. simpl. destruct l as [|y l]; [done|].
  repeat apply Forall_app_2; done.
Qed.

Lemma join_nonempty sep l : Forall ip_text l → l ≠ [] → join_bytes sep l ≠ [].
Proof.
  intros Hl Hn. destruct Hl as [|x l [_ Hx] Hl]; [done|]. destruct x; [done|]. by destruct l.
Qed.

Lemma texts {A} (f : A → list ascii) l : (∀ x, ip_text (f x)) → Forall ip_text (f <$> l).
Proof. intros Hf. apply Forall_fmap, list.Forall_forall. intros x _. apply Hf. Qed.

Lemma ipv6_text ip : (2 ≤ length ip)%nat → ip_text (ipv6_string ip).
Proof.
  intros Hl. unfold ipv6_string. destruct (longest_run (u16_groups ip)) as [start n].
  assert (∀ l, Forall (λ c, ip_char c = true) (join_bytes (bytes ":") (hex16 <$> l))) as Hj.
  { intros l. apply join_text; [by repeat constructor|]. apply texts, hex16_text. }
  destruct (n =? 0)%nat.
  - split; [apply Hj|]. apply join_nonempty; [apply texts, hex16_text|]. by destruct ip as [|a [|b ip]]; simpl in *; [lia..|].
  - split; [repeat apply Forall_app_2; [apply Hj|by repeat constructor|apply Hj]|]. intros E. apply (f_equal length) in E.
    rewrite !length_app in E. simpl in E. lia.
Qed.

Lemma IP_String_text ip : length ip = 16%nat → ip_text (bytes (IP_String ip)).
Proof.
  intros Hl. unfold IP_String, To4. case_bool_decide; rewrite bytes_of_bytes; [|apply ipv6_text; lia].
  assert (drop 12 ip ≠ []) as Hd by (intros E; apply (f_equal length) in E; rewrite length_drop in E; simpl in E; lia).
  split; [apply join_text|apply join_nonempty]; [by repeat constructor|apply texts, decimal8_text..|]. by destruct (drop 12 ip).
Qed.

(** ** Host and port *)

Lemma take_while_prefix p l c k : Forall (λ c, p c = true) l → p c = false → take_while p (l ++ c :: k) = l.
Proof. induction 1 as [|x l Hx _ IH]; simpl; intros Hc; [by rewrite Hc|]. by rewrite Hx, IH. Qed.
Lemma drop_while_prefix p l c k : Forall (λ c, p c = true) l → p c = false → drop_while p (l ++ c :: k) = c :: k.
Proof. induction 1 as [|x l Hx _ IH]; simpl; intros Hc; [by rewrite Hc|]. by rewrite Hx, IH. Qed.

Lemma existsb_Forall p (l : list ascii) : existsb p l = false ↔ Forall (λ c, negb (p c) = true) l.
Proof.
  induction l as [|c l IH]; simpl; [done|]. rewrite Forall_cons, orb_false_iff, IH, negb_true_iff. done.
Qed.

Lemma existsb_rev p (l : list ascii) : existsb p (reverse l) = existsb p l.
Proof.
  apply eq_bool_prop_intro. rewrite !Is_true_true, !existsb_exists. by setoid_rewrite <-list_elem_of_In; setoid_rewrite elem_of_reverse.
Qed.

Lemma last_colon_app l p : existsb colon p = false → last_colon (l ++ bytes ":" ++ p) = Some (l, p).
Proof.
  intros Hp. unfold last_colon. rewrite <-existsb_rev in Hp. apply existsb_Forall in Hp.
  assert (reverse (l ++ bytes ":" ++ p) = reverse p ++ ":"%char :: reverse l) as ->.
  { rewrite !reverse_app. change (reverse (bytes ":")) with [":"%char]. by rewrite <-(assoc_L (++)). }
  by rewrite drop_while_prefix, take_while_prefix, !reverse_involutive.
Qed.

Definition plain (l : list ascii) : Prop := existsb bracket l = false.

Lemma plain_parts l : plain l → existsb (is_byte 91) l = false ∧ existsb (is_byte 93) l = false.
Proof.
  unfold plain. induction l as [|c l IH]; simpl; [done|]. unfold bracket at 1. intros [[E1 E2]%orb_false_iff [-> ->]%IH]%orb_false_iff.
  by rewrite E1, E2.
Qed.

(** Splitting what was joined. *)
Lemma Split_Join host port :
  plain (bytes host) → plain (bytes port) → existsb colon (bytes port) = false →
  SplitHostPort (JoinHostPort host port) = Some (host, port).
Proof.
  intros Hh Hp Hc. unfold JoinHostPort. destruct (plain_parts _ Hh) as [H91 H93].
  destruct (contains_byte 58 host || contains_byte 37 host) eqn:Ej; unfold SplitHostPort.
  - assert (bytes ("[" +:+ host +:+ "]:" +:+ port) = ("["%char :: bytes host ++ bytes "]") ++ bytes ":" ++ bytes port) as ->.
    { rewrite !bytes_app. simpl. by rewrite <-!(assoc_L (++)). }
    rewrite last_colon_app by done. cbn [app]. change (is_byte 91 "["%char) with true. cbv iota. cbn [tail]. rewrite <-!(assoc_L (++)).
    change (bytes "]" ++ bytes ":" ++ bytes port) with ("]"%char :: bytes ":" ++ bytes port).
    apply existsb_Forall in H93 as H93'. rewrite drop_while_prefix, take_while_prefix by done.
    rewrite bool_decide_true by done. simpl. rewrite H91. unfold plain in Hp. rewrite Hp. simpl. by rewrite !of_bytes_bytes.
  - apply orb_false_iff in Ej as [Ej _]. unfold contains_byte in Ej.
    assert (bytes (host +:+ ":" +:+ port) = bytes host ++ bytes ":" ++ bytes port) as -> by (by rewrite !bytes_app).
    rewrite last_colon_app by done. assert (existsb bracket (bytes host ++ bytes ":" ++ bytes port) = false) as Eb.
    { unfold plain in *. by rewrite !existsb_app, Hh, Hp. }
    assert (match bytes host ++ bytes ":" ++ bytes port with c :: _ => is_byte 91 c | [] => false end = false) as ->.
    { destruct (bytes host) as [|c l]; [done|]. simpl in *. by apply orb_false_iff in H91 as [-> _]. }
    rewrite Eb. change (existsb colon (bytes host)) with (existsb (is_byte 58) (bytes host)). rewrite Ej. simpl. by rewrite !of_bytes_bytes.
Qed.

Lemma ip_text_plain l : ip_text l → plain l.
Proof.
  intros [Hl _]. unfold plain. induction Hl as [|c l Hc _ IH]; [done|]. simpl. rewrite IH, orb_false_r.
  unfold ip_char, digit, bracket, colon, is_byte in *. apply orb_false_iff. split; apply Z.eqb_neq; intros E; by rewrite E in Hc.
Qed.

(** ** Trimmed strings *)

Abbreviation starts_well := (no_space_start space1 space2 space3).
Definition ends_well (l : list ascii) : bool := no_space_start space1 (λ b a, space2 a b) (λ c b a, space3 a b c) (reverse l).

Lemma trimmed_iff s : TrimSpace s = s ↔ starts_well (bytes s) = true ∧ ends_well (bytes s) = true.
Proof.
  split.
  - intros E. apply (f_equal bytes) in E. unfold TrimSpace in E. rewrite bytes_of_bytes in E.
    set (l := trim_left (bytes s)) in E. rewrite <-E. split; unfold trim_right.
    + destruct (trim_start_suffix space1 (λ b a, space2 a b) (λ c b a, space3 a b c) (reverse l)) as [k Hk].
      apply (f_equal reverse) in Hk. rewrite reverse_involutive, reverse_app in Hk.
      eapply no_space_start_prefix. rewrite <-Hk. apply trim_start_no_space.
    + unfold ends_well. rewrite reverse_involutive. apply trim_start_no_space.
  - intros [Hs He]. unfold TrimSpace, trim_left, trim_right. rewrite (trim_start_id _ _ _ (bytes s)) by exact Hs. rewrite trim_start_id by exact He.
    by rewrite reverse_involutive, of_bytes_bytes.
Qed.

Lemma colon_no_space a b :
  space2 a ":"%char = false ∧ space3 a ":"%char b = false ∧ space3 a b ":"%char = false.
Proof.
  unfold space2, space3. change (byte_val ":"%char) with 58. simpl. split_and!.
  - apply andb_false_r.
  - by rewrite !andb_false_r.
  - by rewrite !andb_false_r.
Qed.

(** Text behind a good start that begins with a colon keeps it. *)
Lemma starts_app l k : starts_well l = true → l ≠ [] → starts_well (l ++ bytes ":" ++ k) = true.
Proof.
  destruct l as [|a [|b [|c l]]]; simpl; [done|..|done]; intros Hs _.
  - destruct k as [|c k]; simpl; rewrite Hs, (proj1 (colon_no_space a a)); [done|]. by rewrite (proj1 (proj2 (colon_no_space a c))).
  - by rewrite Hs, (proj2 (proj2 (colon_no_space a b))).
Qed.

Lemma ends_443 l : ends_well (l ++ bytes ":443") = true.
Proof. unfold ends_well. rewrite reverse_app. done. Qed.

Lemma starts_bracket k : starts_well (bytes "[" ++ k) = true.
Proof. by destruct k as [|a [|b k]]. Qed.

Lemma join_443_trimmed host : TrimSpace host = host → host ≠ ""%string → TrimSpace (JoinHostPort host "443") = JoinHostPort host "443".
Proof.
  intros [Hs _]%trimmed_iff Hn. apply trimmed_iff. unfold JoinHostPort. destruct (_ || _); split.
  - rewrite bytes_app. apply starts_bracket.
  - rewrite !bytes_app. change (bytes "]:" ++ bytes "443") with (bytes "]" ++ bytes ":443"). rewrite !(assoc_L (++)). apply ends_443.
  - rewrite !bytes_app. apply starts_app; [done|]. by destruct host.
  - rewrite !bytes_app. apply (ends_443 (bytes host)).
Qed.

Lemma ip_char_ascii c : ip_char c = true → space1 c = false ∧ byte_val c < 128 ∧ bracket c = false.
Proof. unfold ip_char, digit, space1, colon, bracket, is_byte. intros Hc. split_and!; [apply not_true_iff_false; intros E|..]; lia. Qed.

Lemma space2_high a b : space2 a b = true → 128 ≤ byte_val a ∧ 128 ≤ byte_val b.
Proof. unfold space2. lia. Qed.
Lemma space3_high a b c : space3 a b c = true → 128 ≤ byte_val a ∧ 128 ≤ byte_val c.
Proof. unfold space3. lia. Qed.

(** The text of an address neither starts nor ends with white space. *)
Lemma ip_text_trimmed l : ip_text l → starts_well l = true ∧ ends_well l = true.
Proof.
  intros [Hl _]. assert (∀ s2 s3 k, Forall (λ c, ip_char c = true) k → (∀ a b, s2 a b = true → 128 ≤ byte_val a) →
    (∀ a b c, s3 a b c = true → 128 ≤ byte_val a) → no_space_start space1 s2 s3 k = true) as Hgen.
  { intros s2 s3 k Hk H2 H3. destruct Hk as [|a k Ha _]; [done|]. apply ip_char_ascii in Ha as (E1 & E2 & _).
    assert (∀ b, s2 a b = false) as E3 by (intros b; apply not_true_iff_false; intros ?%H2; lia).
    assert (∀ b c, s3 a b c = false) as E4 by (intros b c; apply not_true_iff_false; intros ?%H3; lia).
    destruct k as [|b [|c k]]; simpl; by rewrite E1, ?E3, ?E4. }
  split; [apply Hgen|apply Hgen]; [done|..].
  - intros a b ?%space2_high. lia.
  - intros a b c ?%space3_high. lia.
  - by rewrite reverse_Permutation.
  - intros a b ?%space2_high. lia.
  - intros a b c ?%space3_high. lia.
Qed.

Lemma ip_text_brackets s : ip_text (bytes s) → TrimBrackets s = s.
Proof.
  intros [Hl _]. assert (∀ k, Forall (λ c, ip_char c = true) k → drop_while bracket k = k) as Hd.
  { intros k Hk. destruct Hk as [|c k Hc _]; [done|]. simpl. by apply ip_char_ascii in Hc as (_ & _ & ->). }
  unfold TrimBrackets. rewrite (Hd _ Hl), (Hd (reverse _)), reverse_involutive; [apply of_bytes_bytes|by rewrite reverse_Permutation].
Qed.

Lemma starts_ip l k : ip_text l → starts_well (l ++ bytes ":" ++ k) = true.
Proof. intros Hl. destruct (ip_text_trimmed l Hl) as [Hs _]. by apply starts_app; [|apply Hl]. Qed.

Lemma join_ip_trimmed s : ip_text (bytes s) → TrimSpace (JoinHostPort s "443") = JoinHostPort s "443".
Proof.
  intros Hs. apply trimmed_iff. unfold JoinHostPort. destruct (_ || _); split.
  - rewrite bytes_app. apply starts_bracket.
  - rewrite !bytes_app. change (bytes "]:" ++ bytes "443") with (bytes "]" ++ bytes ":443"). rewrite !(assoc_L (++)). apply ends_443.
  - rewrite !bytes_app. by apply starts_ip.
  - rewrite !bytes_app. apply (ends_443 (bytes s)).
Qed.

(** Trimming brackets drops no colon. *)
Lemma drop_brackets_colons l : colons (drop_while bracket l) = colons l.
Proof.
  induction l as [|c l IH]; [done|]. simpl. destruct (bracket c) eqn:E; [|done]. rewrite IH, colons_cons.
  unfold bracket, colon, is_byte in *. destruct (Z.eqb_spec (byte_val c) 58) as [Ec|]; [|done]. by rewrite Ec in E.
Qed.

Lemma colons_reverse l : colons (reverse l) = colons l.
Proof. unfold colons. apply Permutation_length. by rewrite reverse_Permutation. Qed.

Lemma TrimBrackets_colons s : colons (bytes (TrimBrackets s)) = colons (bytes s).
Proof. unfold TrimBrackets. by rewrite bytes_of_bytes, colons_reverse, drop_brackets_colons, colons_reverse, drop_brackets_colons. Qed.

(** ** Elements of paths *)

Lemma split_slash_no_slash cur l : existsb slash cur = false → Forall (λ seg, existsb slash seg = false) (split_slash cur l).
Proof.
  revert cur. induction l as [|c l IH]; intros cur Hc; simpl; [constructor; [by rewrite existsb_rev|constructor]|].
  destruct (slash c) eqn:E; [constructor; [by rewrite existsb_rev|by apply IH]|]. apply IH. simpl. by rewrite E.
Qed.

(** Behind text without a slash, the next element begins at the slash. *)
Lemma split_slash_app cur l k : existsb slash l = false → split_slash cur (l ++ bytes "/" ++ k) = (reverse cur ++ l) :: split_slash [] k.
Proof.
  revert cur. induction l as [|c l IH]; intros cur Hl; simpl in *; [by rewrite app_nil_r|].
  apply orb_false_iff in Hl as [-> Hl]. rewrite IH by done. f_equal. rewrite reverse_cons. by rewrite <-(assoc_L (++)).
Qed.
Lemma split_slash_end cur l : existsb slash l = false → split_slash cur l = [reverse cur ++ l].
Proof.
  revert cur. induction l as [|c l IH]; intros cur Hl; simpl in *; [by rewrite app_nil_r|].
  apply orb_false_iff in Hl as [-> Hl]. rewrite IH by done. f_equal. rewrite reverse_cons. by rewrite <-(assoc_L (++)).
Qed.

Fixpoint join_segs (l : list (list ascii)) : list ascii :=
  match l with [] => [] | [x] => x | x :: l => x ++ bytes "/" ++ join_segs l end.

Lemma join_slash_segs l : join_slash l = join_segs l.
Proof.
  destruct l as [|x l]; [done|]. simpl. revert x. induction l as [|y l IH]; intros x; [done|].
  cbn [foldl]. rewrite IH. simpl. destruct l; by rewrite <-?(assoc_L (++)).
Qed.

Lemma split_join l : l ≠ [] → Forall (λ seg, existsb slash seg = false) l → split_slash [] (join_segs l) = l.
Proof.
  intros Hn Hl. induction Hl as [|x l Hx Hl IH]; [done|]. destruct l as [|y l]; [by rewrite split_slash_end|].
  change (join_segs (x :: y :: l)) with (x ++ bytes "/" ++ join_segs (y :: l)). rewrite split_slash_app by done. f_equal. by apply IH.
Qed.
