(* ===== verification/Wire.v ===== *)
(** * The messages between agent and server

    Models [api/proto/monitor/v1/monitor.proto] as the generated Go code presents
    it: a nested message is a pointer that may be nil, here an option, and a
    getter of a nil message returns the zero value of the field.  Repeated fields
    are lists, maps are [gmap]s.  Fields of [AgentConfig] that no code sets are
    left out.  [timestamppb] of the protobuf library is a parameter with the one
    law the code relies on: converting a time there and back yields that time. *)

From stdpp Require Import gmap strings list.
From S2P Require Import Prelude GoRuntime GoStrings.
Local Open Scope Z_scope.

Module pb.

Record Timestamp := mkTimestamp { Timestamp_Seconds : Z; Timestamp_Nanos : Z }.

(** ** System metrics *)

Record HostMetrics := mkHostMetrics {
  HostMetrics_UptimeSeconds : Z; HostMetrics_BootTimeSeconds : Z; HostMetrics_ProcessCount : Z
}.

Record CpuCoreMetrics := mkCpuCoreMetrics {
  CpuCoreMetrics_Cpu : string; CpuCoreMetrics_UsagePct : float64; CpuCoreMetrics_UserSeconds : float64;
  CpuCoreMetrics_SystemSeconds : float64; CpuCoreMetrics_IdleSeconds : float64;
  CpuCoreMetrics_NiceSeconds : float64; CpuCoreMetrics_IowaitSeconds : float64; CpuCoreMetrics_IrqSeconds : float64;
  CpuCoreMetrics_SoftirqSeconds : float64; CpuCoreMetrics_StealSeconds : float64;
  CpuCoreMetrics_GuestSeconds : float64; CpuCoreMetrics_GuestNiceSeconds : float64;
  CpuCoreMetrics_FrequencyMhz : float64; CpuCoreMetrics_CacheSizeKib : Z
}.

Record CpuMetrics := mkCpuMetrics {
  CpuMetrics_UsagePct : float64; CpuMetrics_LogicalCount : Z; CpuMetrics_PhysicalCount : Z;
  CpuMetrics_Cores : list CpuCoreMetrics
}.

Record MemoryMetrics := mkMemoryMetrics {
  MemoryMetrics_TotalBytes : Z; MemoryMetrics_AvailableBytes : Z; MemoryMetrics_UsedBytes : Z;
  MemoryMetrics_UsedPct : float64; MemoryMetrics_FreeBytes : Z; MemoryMetrics_ActiveBytes : Z;
  MemoryMetrics_InactiveBytes : Z; MemoryMetrics_WiredBytes : Z; MemoryMetrics_LaundryBytes : Z;
  MemoryMetrics_BuffersBytes : Z; MemoryMetrics_CachedBytes : Z; MemoryMetrics_WritebackBytes : Z;
  MemoryMetrics_DirtyBytes : Z; MemoryMetrics_SharedBytes : Z; MemoryMetrics_SlabBytes : Z;
  MemoryMetrics_PageTablesBytes : Z; MemoryMetrics_SwapCachedBytes : Z; MemoryMetrics_CommitLimitBytes : Z;
  MemoryMetrics_CommittedAsBytes : Z; MemoryMetrics_MappedBytes : Z; MemoryMetrics_VmallocTotalBytes : Z;
  MemoryMetrics_VmallocUsedBytes : Z; MemoryMetrics_HugePagesTotal : Z; MemoryMetrics_HugePagesFree : Z;
  MemoryMetrics_HugePagesReserved : Z; MemoryMetrics_HugePagesSurplus : Z; MemoryMetrics_HugePageSizeBytes : Z;
  MemoryMetrics_AnonHugePagesBytes : Z; MemoryMetrics_WritebackTemporaryBytes : Z;
  MemoryMetrics_ReclaimableSlabBytes : Z; MemoryMetrics_UnreclaimableSlabBytes : Z;
  MemoryMetrics_HighTotalBytes : Z; MemoryMetrics_HighFreeBytes : Z; MemoryMetrics_LowTotalBytes : Z;
  MemoryMetrics_LowFreeBytes : Z; MemoryMetrics_SwapTotalBytes : Z; MemoryMetrics_SwapFreeBytes : Z;
  MemoryMetrics_VmallocChunkBytes : Z
}.

Record SwapMetrics := mkSwapMetrics {
  SwapMetrics_TotalBytes : Z; SwapMetrics_UsedBytes : Z; SwapMetrics_FreeBytes : Z; SwapMetrics_UsedPct : float64;
  SwapMetrics_BytesInTotal : Z; SwapMetrics_BytesOutTotal : Z; SwapMetrics_PagesInTotal : Z;
  SwapMetrics_PagesOutTotal : Z; SwapMetrics_PageFaultsTotal : Z; SwapMetrics_MajorPageFaultsTotal : Z
}.

Record LoadMetrics := mkLoadMetrics {
  LoadMetrics_Load1 : float64; LoadMetrics_Load5 : float64; LoadMetrics_Load15 : float64;
  LoadMetrics_ProcessesTotal : Z; LoadMetrics_ProcessesCreatedTotal : Z; LoadMetrics_ProcessesRunning : Z;
  LoadMetrics_ProcessesBlocked : Z; LoadMetrics_ContextSwitchesTotal : Z
}.

Record FilesystemMetrics := mkFilesystemMetrics {
  FilesystemMetrics_Device : string; FilesystemMetrics_Mountpoint : string;
  FilesystemMetrics_FilesystemType : string; FilesystemMetrics_TotalBytes : Z; FilesystemMetrics_UsedBytes : Z;
  FilesystemMetrics_FreeBytes : Z; FilesystemMetrics_UsedPct : float64; FilesystemMetrics_InodesTotal : Z;
  FilesystemMetrics_InodesUsed : Z; FilesystemMetrics_InodesFree : Z; FilesystemMetrics_InodesUsedPct : float64
}.

Record DiskIOMetrics := mkDiskIOMetrics {
  DiskIOMetrics_Device : string; DiskIOMetrics_ReadsTotal : Z; DiskIOMetrics_MergedReadsTotal : Z;
  DiskIOMetrics_WritesTotal : Z; DiskIOMetrics_MergedWritesTotal : Z; DiskIOMetrics_ReadBytesTotal : Z;
  DiskIOMetrics_WriteBytesTotal : Z; DiskIOMetrics_ReadMillisecondsTotal : Z;
  DiskIOMetrics_WriteMillisecondsTotal : Z; DiskIOMetrics_IoInProgress : Z; DiskIOMetrics_IoMillisecondsTotal : Z;
  DiskIOMetrics_WeightedIoMillisecondsTotal : Z
}.

Record NetworkInterfaceMetrics := mkNetworkInterfaceMetrics {
  NetworkInterfaceMetrics_Interface : string; NetworkInterfaceMetrics_Index : Z;
  NetworkInterfaceMetrics_MtuBytes : Z; NetworkInterfaceMetrics_BytesSentTotal : Z;
  NetworkInterfaceMetrics_BytesReceivedTotal : Z; NetworkInterfaceMetrics_PacketsSentTotal : Z;
  NetworkInterfaceMetrics_PacketsReceivedTotal : Z; NetworkInterfaceMetrics_ReceiveErrorsTotal : Z;
  NetworkInterfaceMetrics_TransmitErrorsTotal : Z; NetworkInterfaceMetrics_ReceiveDropsTotal : Z;
  NetworkInterfaceMetrics_TransmitDropsTotal : Z; NetworkInterfaceMetrics_ReceiveFifoErrorsTotal : Z;
  NetworkInterfaceMetrics_TransmitFifoErrorsTotal : Z
}.

Record NetworkProtocolMetrics := mkNetworkProtocolMetrics {
  NetworkProtocolMetrics_Protocol : string; NetworkProtocolMetrics_Counters : gmap string Z
}.

Record NetworkConntrackMetrics := mkNetworkConntrackMetrics {
  NetworkConntrackMetrics_Count : Z; NetworkConntrackMetrics_Maximum : Z; NetworkConntrackMetrics_Entries : Z;
  NetworkConntrackMetrics_SearchedTotal : Z; NetworkConntrackMetrics_FoundTotal : Z;
  NetworkConntrackMetrics_NewTotal : Z; NetworkConntrackMetrics_InvalidTotal : Z;
  NetworkConntrackMetrics_IgnoredTotal : Z; NetworkConntrackMetrics_DeletedTotal : Z;
  NetworkConntrackMetrics_InsertedTotal : Z; NetworkConntrackMetrics_InsertFailedTotal : Z;
  NetworkConntrackMetrics_DroppedTotal : Z; NetworkConntrackMetrics_EarlyDroppedTotal : Z;
  NetworkConntrackMetrics_SearchRestartsTotal : Z; NetworkConntrackMetrics_DeleteListTotal : Z;
  NetworkConntrackMetrics_IcmpErrorsTotal : Z; NetworkConntrackMetrics_ExpectedNewTotal : Z;
  NetworkConntrackMetrics_ExpectationsCreatedTotal : Z; NetworkConntrackMetrics_ExpectationsDeletedTotal : Z
}.

Record TemperatureMetrics := mkTemperatureMetrics {
  TemperatureMetrics_Sensor : string; TemperatureMetrics_CurrentCelsius : float64;
  TemperatureMetrics_HighCelsius : float64; TemperatureMetrics_CriticalCelsius : float64
}.

Record SystemMetrics := mkSystemMetrics {
  SystemMetrics_RuntimeUptimeSeconds : float64; SystemMetrics_Host : option HostMetrics;
  SystemMetrics_Cpu : option CpuMetrics; SystemMetrics_Memory : option MemoryMetrics;
  SystemMetrics_Swap : option SwapMetrics; SystemMetrics_Load : option LoadMetrics;
  SystemMetrics_Filesystems : list FilesystemMetrics; SystemMetrics_Disks : list DiskIOMetrics;
  SystemMetrics_NetworkInterfaces : list NetworkInterfaceMetrics;
  SystemMetrics_NetworkProtocols : list NetworkProtocolMetrics;
  SystemMetrics_NetworkConntrack : option NetworkConntrackMetrics;
  SystemMetrics_Temperatures : list TemperatureMetrics
}.

(** ** Control and ingestion *)

Record Ack := mkAck {
  Ack_RequestId : string; Ack_Code : Z; Ack_Message : string; Ack_ServerTime : option Timestamp
}.

Record HostIdentity := mkHostIdentity {
  HostIdentity_HostUid : string; HostIdentity_Hostname : string; HostIdentity_PrimaryIp : string;
  HostIdentity_Ips : list string; HostIdentity_OsType : string; HostIdentity_Arch : string;
  HostIdentity_Region : string; HostIdentity_Az : string; HostIdentity_Env : string; HostIdentity_Role : string;
  HostIdentity_Labels : gmap string string; HostIdentity_TenantCode : string
}.

Record AgentMetadata := mkAgentMetadata {
  AgentMetadata_AgentId : string; AgentMetadata_Version : string; AgentMetadata_Capabilities : list string;
  AgentMetadata_BootTime : option Timestamp
}.

Record AgentConfig := mkAgentConfig {
  AgentConfig_ConfigVersion : Z; AgentConfig_HeartbeatIntervalSec : Z; AgentConfig_MetricIntervalSec : Z;
  AgentConfig_StaticLabels : gmap string string
}.

Record MetricPoint := mkMetricPoint {
  MetricPoint_Name : string; MetricPoint_Value : float64; MetricPoint_Ts : option Timestamp;
  MetricPoint_Labels : gmap string string
}.

Record EventRecord := mkEventRecord {
  EventRecord_Type : string; EventRecord_Severity : Z; EventRecord_Message : string;
  EventRecord_Ts : option Timestamp; EventRecord_Attrs : gmap string string
}.

Record AgentDigest := mkAgentDigest {
  AgentDigest_CpuUsagePct : float64; AgentDigest_MemUsedPct : float64; AgentDigest_MemAvailableBytes : Z;
  AgentDigest_SwapUsedPct : float64; AgentDigest_DiskUsedPct : float64; AgentDigest_DiskFreeBytes : Z;
  AgentDigest_DiskInodesUsedPct : float64; AgentDigest_DiskReadBps : Z; AgentDigest_DiskWriteBps : Z;
  AgentDigest_DiskReadIops : Z; AgentDigest_DiskWriteIops : Z; AgentDigest_Load1 : float64;
  AgentDigest_NetRxBps : Z; AgentDigest_NetTxBps : Z; AgentDigest_NetRxPacketsPs : Z;
  AgentDigest_NetTxPacketsPs : Z; AgentDigest_QueueDepth : Z; AgentDigest_LastMetricBatchSeq : Z
}.

Record CollectorStatus := mkCollectorStatus {
  CollectorStatus_Name : string; CollectorStatus_State : Z; CollectorStatus_MetricNames : list string;
  CollectorStatus_DurationMicros : Z; CollectorStatus_TimedOut : bool
}.

Record RegisterAgentRequest := mkRegisterAgentRequest {
  RegisterAgentRequest_Host : option HostIdentity; RegisterAgentRequest_Agent : option AgentMetadata
}.

Record RegisterAgentResponse := mkRegisterAgentResponse {
  RegisterAgentResponse_Ack : option Ack; RegisterAgentResponse_HostUid : string;
  RegisterAgentResponse_Config : option AgentConfig; RegisterAgentResponse_TenantCode : string
}.

Record PushMetricBatchRequest := mkPushMetricBatchRequest {
  PushMetricBatchRequest_HostUid : string; PushMetricBatchRequest_AgentId : string;
  PushMetricBatchRequest_BatchSeq : Z; PushMetricBatchRequest_CollectedAt : option Timestamp;
  PushMetricBatchRequest_Points : list MetricPoint; PushMetricBatchRequest_Host : option HostIdentity;
  PushMetricBatchRequest_Agent : option AgentMetadata; PushMetricBatchRequest_Collectors : list CollectorStatus;
  PushMetricBatchRequest_SystemMetrics : option SystemMetrics; PushMetricBatchRequest_Digest : option AgentDigest
}.

Record PushEventBatchRequest := mkPushEventBatchRequest {
  PushEventBatchRequest_HostUid : string; PushEventBatchRequest_AgentId : string;
  PushEventBatchRequest_BatchSeq : Z; PushEventBatchRequest_Events : list EventRecord
}.

Record MetricBatchAck := mkMetricBatchAck {
  MetricBatchAck_Ack : option Ack; MetricBatchAck_BatchSeq : Z
}.

(** ** Zero values behind the getters *)

Definition zero_HostIdentity : HostIdentity := mkHostIdentity "" "" "" [] "" "" "" "" "" "" ∅ "".
Definition zero_AgentMetadata : AgentMetadata := mkAgentMetadata "" "" [] None.
Definition zero_Ack : Ack := mkAck "" 0 "" None.

(** [enum Severity]: the name of a value, its number when it has none. *)
Definition Severity_String (x : Z) : string :=
  if x =? 0 then "SEVERITY_UNSPECIFIED" else
  if x =? 1 then "SEVERITY_INFO" else
  if x =? 2 then "SEVERITY_WARN" else
  if x =? 3 then "SEVERITY_ERROR" else
  if x =? 4 then "SEVERITY_FATAL" else FormatInt x.

End pb.

(** [timestamppb.New] and [AsTime]. *)
Class TimestampPb := {
  timestamppb_New : Time → pb.Timestamp;
  AsTime : pb.Timestamp → Time;
  AsTime_New : ∀ t, AsTime (timestamppb_New t) = t
}.

(** Seconds since 1970 and nanoseconds, as the protobuf documentation has them. *)
Definition unix_epoch : Time := 62135596800 * Second.

#[local, refine] Instance TimestampPb_unix : TimestampPb := {|
  timestamppb_New t := pb.mkTimestamp ((t - unix_epoch) / Second) ((t - unix_epoch) mod Second);
  AsTime ts := unix_epoch + pb.Timestamp_Seconds ts * Second + pb.Timestamp_Nanos ts
|}.
Proof. intros t. simpl. pose proof (Z.div_mod (t - unix_epoch) Second ltac:(done)). lia. Defined.


(** A copy of a map; nil for an empty one. *)
Definition cloneStringMap (input : gmap string string) : gmap string string :=
  map_fold (λ k v out, <[k := v]> out) ∅ input.

Lemma cloneStringMap_id m : cloneStringMap m = m.
Proof.
  unfold cloneStringMap. apply (map_fold_weak_ind (λ r m, r = m)); [done|]. by intros k v m' r _ ->.
Qed.
