(* ===== verification/Sampler.v ===== *)
(** * The sampler of the agent

    Models [agent/internal/service/system_metrics.go] and
    [system_metrics_gopsutil.go]: from the counters of one collection and the
    baseline of the previous one to the summary of the host.  The path functions
    are those of a Unix system; [runtime.GOOS] is a parameter. *)

From stdpp Require Import gmap strings list sorting pretty.
From Stdlib Require Import SpecFloat Ascii.
From S2P Require Import Prelude GoRuntime GoStrings GoText FloatFacts Contracts Wire.
Local Open Scope Z_scope.

(** ** Disk names *)

Definition isAllDigits (value : string) : bool := negb (str_empty value) && forallb digit (bytes value).

(** [strings.LastIndex(name, "p")] splits the name before and after it. *)
Definition last_p (l : list ascii) : option (list ascii * list ascii) :=
  let r := reverse l in
  let after := take_while (λ c, negb (byte_val c =? 112)) r in
  match drop_while (λ c, negb (byte_val c =? 112)) r with
  | [] => None
  | _ :: before => Some (reverse before, reverse after)
  end.

Definition skipDiskCounter (name : string) : bool :=
  if str_empty name then true else
  if HasPrefix name "loop" then true else
  if HasPrefix name "ram" then true else
  if HasPrefix name "fd" then true else false.

Section names.
Context `{StringsLower} (GOOS : string).

Definition normalizeDiskName (name : string) : string :=
  let name := ToLower (TrimSpace (Base name)) in
  if negb (str_eqb GOOS "linux") then name else
  if HasPrefix name "nvme" || HasPrefix name "mmcblk" then
    match last_p (bytes name) with
    | Some (before, after) =>
        if (0 <? llen before) && isAllDigits (of_bytes after) then of_bytes before else name
    | None => name
    end
  else if HasPrefix name "sd" || HasPrefix name "vd" || HasPrefix name "xvd" || HasPrefix name "hd" then
    (* up to the last byte that is no digit; the prefix has one *)
    of_bytes (reverse (drop_while digit (reverse (bytes name))))
  else name.

(** [drive] is the trimmed value of [SystemDrive]. *)
Definition systemRootPath (drive : string) : string :=
  if str_eqb GOOS "windows" then (if str_empty drive then "C:\" else (drive ++ "\")%string) else "/".

End names.

(** ** Counters of disks *)

Record totals := mkTotals { td_readBytes : Z; td_writeBytes : Z; td_readOps : Z; td_writeOps : Z }.
Definition zero_totals : totals := mkTotals 0 0 0 0.

(** [if x > cur { cur = x }] *)
Definition raise (cur x : Z) : Z := if cur <? x then x else cur.

Definition raise_totals (cur : totals) (stat : pb.DiskIOMetrics) : totals :=
  mkTotals (raise (td_readBytes cur) (pb.DiskIOMetrics_ReadBytesTotal stat))
    (raise (td_writeBytes cur) (pb.DiskIOMetrics_WriteBytesTotal stat))
    (raise (td_readOps cur) (pb.DiskIOMetrics_ReadsTotal stat))
    (raise (td_writeOps cur) (pb.DiskIOMetrics_WritesTotal stat)).

Definition add_totals (a : totals) (b : totals) : totals :=
  mkTotals (to_uint64 (td_readBytes a + td_readBytes b)) (to_uint64 (td_writeBytes a + td_writeBytes b))
    (to_uint64 (td_readOps a + td_readOps b)) (to_uint64 (td_writeOps a + td_writeOps b)).

Section disks.
Context `{StringsLower} (GOOS : string) `{MapOrder}.

Definition count_disk (byDevice : gmap string totals) (stat : pb.DiskIOMetrics) : gmap string totals :=
  let name := normalizeDiskName GOOS (pb.DiskIOMetrics_Device stat) in
  if skipDiskCounter name then byDevice else
  <[name := raise_totals (default zero_totals (byDevice !! name)) stat]> byDevice.

Definition sumStructuredDiskCounters (stats : list pb.DiskIOMetrics) : totals :=
  foldl (λ sum x, add_totals sum x.2) zero_totals (map_order (foldl count_disk ∅ stats)).

End disks.

(** ** Rates and clamps *)

Definition calculateRate `{GoArch} (prevA prevB curA curB : Z) (prevAt now : Time) : Z * Z * Z * Z :=
  if time_IsZero prevAt || time_Before now prevAt || (curA <? prevA) || (curB <? prevB) then (0, 0, curA, curB) else
  let seconds := duration_Seconds (time_Sub now prevAt) in
  if f64_le seconds f64_zero then (0, 0, curA, curB) else
  let rateA := f64_to_int64 (f64_div (f64_of_int (to_uint64 (curA - prevA))) seconds) in
  let rateB := f64_to_int64 (f64_div (f64_of_int (to_uint64 (curB - prevB))) seconds) in
  (rateA, rateB, curA, curB).

Definition f64_hundred : float64 := f64_of_int 100.

Definition clampPercent (value : float64) : float64 :=
  if f64_lt value f64_zero then f64_zero else
  if f64_lt f64_hundred value then f64_hundred else value.

(** [^uint64(0) >> 1] is the largest [int64]. *)
Definition clampUint64ToInt64 (value : Z) : Z :=
  if int64_max <? value then int64_max else value.

(** ** A sample *)

Record systemMetrics := mkSystemMetrics {
  sm_CPUUsagePct : float64; sm_MemUsedPct : float64; sm_MemAvailableBytes : Z; sm_SwapUsedPct : float64;
  sm_DiskUsedPct : float64; sm_DiskFreeBytes : Z; sm_DiskInodesUsedPct : float64;
  sm_DiskReadBPS : Z; sm_DiskWriteBPS : Z; sm_DiskReadIOPS : Z; sm_DiskWriteIOPS : Z; sm_Load1 : float64;
  sm_NetRxBPS : Z; sm_NetTxBPS : Z; sm_NetRxPacketsPS : Z; sm_NetTxPacketsPS : Z;
  sm_ExtraPoints : list MetricPoint; sm_Capabilities : list string; sm_Collectors : list CollectorStatus;
  sm_Structured : option pb.SystemMetrics
}.

Record gopsutilSystemSampler := mkSampler {
  gs_prevNetRx : Z; gs_prevNetTx : Z; gs_prevNetPacketsIn : Z; gs_prevNetPacketsOut : Z;
  gs_prevDiskRead : Z; gs_prevDiskWrite : Z; gs_prevDiskReadOps : Z; gs_prevDiskWriteOps : Z;
  gs_prevNetAt : Time; gs_prevDiskAt : Time; gs_rootPath : string
}.

Definition newGopsutilSystemSampler (rootPath : string) : gopsutilSystemSampler :=
  mkSampler 0 0 0 0 0 0 0 0 time_zero time_zero rootPath.

(** The result of one collection: [collectExtendedMetrics]. *)
Record collection := mkCollection {
  co_points : list MetricPoint; co_collectors : list CollectorStatus; co_capabilities : list string;
  co_structured : option pb.SystemMetrics
}.

(** Sums over the interfaces, in [uint64]. *)
Definition sum_u64 {A} (f : A → Z) (l : list A) : Z := foldl (λ acc x, to_uint64 (acc + f x)) 0 l.

Section sample.
Context `{StringsLower} (GOOS : string) `{MapOrder} `{GoArch}.

(** The rates of the network and of the disks, with the new baselines. *)
Definition sampleNetwork (s : gopsutilSystemSampler) (now : Time) (nets : list pb.NetworkInterfaceMetrics)
    : (Z * Z * Z * Z) * gopsutilSystemSampler :=
  if llen nets =? 0 then ((0, 0, 0, 0), s) else
  let rxBytes := sum_u64 pb.NetworkInterfaceMetrics_BytesReceivedTotal nets in
  let txBytes := sum_u64 pb.NetworkInterfaceMetrics_BytesSentTotal nets in
  let rxPackets := sum_u64 pb.NetworkInterfaceMetrics_PacketsReceivedTotal nets in
  let txPackets := sum_u64 pb.NetworkInterfaceMetrics_PacketsSentTotal nets in
  let '(rx, tx, pRx, pTx) := calculateRate (gs_prevNetRx s) (gs_prevNetTx s) rxBytes txBytes (gs_prevNetAt s) now in
  let '(rxp, txp, pIn, pOut) :=
    calculateRate (gs_prevNetPacketsIn s) (gs_prevNetPacketsOut s) rxPackets txPackets (gs_prevNetAt s) now in
  ((rx, tx, rxp, txp),
   mkSampler pRx pTx pIn pOut (gs_prevDiskRead s) (gs_prevDiskWrite s) (gs_prevDiskReadOps s) (gs_prevDiskWriteOps s)
     now (gs_prevDiskAt s) (gs_rootPath s)).

Definition sampleDisks (s : gopsutilSystemSampler) (now : Time) (disks : list pb.DiskIOMetrics)
    : (Z * Z * Z * Z) * gopsutilSystemSampler :=
  if llen disks =? 0 then ((0, 0, 0, 0), s) else
  let t := sumStructuredDiskCounters GOOS disks in
  let '(rd, wr, pR, pW) :=
    calculateRate (gs_prevDiskRead s) (gs_prevDiskWrite s) (td_readBytes t) (td_writeBytes t) (gs_prevDiskAt s) now in
  let '(rio, wio, pRo, pWo) :=
    calculateRate (gs_prevDiskReadOps s) (gs_prevDiskWriteOps s) (td_readOps t) (td_writeOps t) (gs_prevDiskAt s) now in
  ((rd, wr, rio, wio),
   mkSampler (gs_prevNetRx s) (gs_prevNetTx s) (gs_prevNetPacketsIn s) (gs_prevNetPacketsOut s) pR pW pRo pWo
     (gs_prevNetAt s) now (gs_rootPath s)).

(** The first filesystem mounted at the root. *)
Definition rootFilesystem (s : gopsutilSystemSampler) (l : list pb.FilesystemMetrics) : option pb.FilesystemMetrics :=
  find_first (λ fs, str_eqb (Clean (pb.FilesystemMetrics_Mountpoint fs)) (Clean (gs_rootPath s))) l.

Definition Sample (s : gopsutilSystemSampler) (now : Time) (c : collection) : systemMetrics * gopsutilSystemSampler :=
  match co_structured c with
  | None => (mkSystemMetrics f64_zero f64_zero 0 f64_zero f64_zero 0 f64_zero 0 0 0 0 f64_zero 0 0 0 0
               (co_points c) (co_capabilities c) (co_collectors c) None, s)
  | Some st =>
      let cpu := match pb.SystemMetrics_Cpu st with Some x => clampPercent (pb.CpuMetrics_UsagePct x) | None => f64_zero end in
      let '(mem, memAvail) := match pb.SystemMetrics_Memory st with
        | Some x => (clampPercent (pb.MemoryMetrics_UsedPct x), clampUint64ToInt64 (pb.MemoryMetrics_AvailableBytes x))
        | None => (f64_zero, 0) end in
      let swap := match pb.SystemMetrics_Swap st with Some x => clampPercent (pb.SwapMetrics_UsedPct x) | None => f64_zero end in
      let load1 := match pb.SystemMetrics_Load st with
        | Some x => if f64_lt f64_zero (pb.LoadMetrics_Load1 x) then pb.LoadMetrics_Load1 x else f64_zero
        | None => f64_zero end in
      let '(disk, diskFree, inodes) := match rootFilesystem s (pb.SystemMetrics_Filesystems st) with
        | Some fs => (clampPercent (pb.FilesystemMetrics_UsedPct fs), clampUint64ToInt64 (pb.FilesystemMetrics_FreeBytes fs),
                      clampPercent (pb.FilesystemMetrics_InodesUsedPct fs))
        | None => (f64_zero, 0, f64_zero) end in
      let '((rx, tx, rxp, txp), s) := sampleNetwork s now (pb.SystemMetrics_NetworkInterfaces st) in
      let '((rd, wr, rio, wio), s) := sampleDisks s now (pb.SystemMetrics_Disks st) in
      (mkSystemMetrics cpu mem memAvail swap disk diskFree inodes rd wr rio wio load1 rx tx rxp txp
         (co_points c) (co_capabilities c) (co_collectors c) (Some st), s)
  end.

End sample.

(** ** Properties of the disk counters *)

Section disk_props.
Context `{StringsLower} (GOOS : string) `{MapOrder}.


Definition zsum (l : list Z) : Z := foldr Z.add 0 l.







Lemma to_uint64_add a b : to_uint64 (to_uint64 a + b) = to_uint64 (a + b).
Proof. unfold to_uint64. by rewrite Z.add_mod_idemp_l. Qed.

Lemma sum_totals l a b c d :
  foldl (λ sum (x : string * totals), add_totals sum x.2) (mkTotals (to_uint64 a) (to_uint64 b) (to_uint64 c) (to_uint64 d)) l =
  mkTotals (to_uint64 (a + zsum ((td_readBytes ∘ snd) <$> l))) (to_uint64 (b + zsum ((td_writeBytes ∘ snd) <$> l)))
    (to_uint64 (c + zsum ((td_readOps ∘ snd) <$> l))) (to_uint64 (d + zsum ((td_writeOps ∘ snd) <$> l))).
Proof.
  revert a b c d. induction l as [|x l IH]; intros a b c d; simpl; [by rewrite !Z.add_0_r|].
  unfold add_totals. simpl. rewrite !to_uint64_add, IH, <-!Z.add_assoc. done.
Qed.

Lemma sum_disks stats :
  let total (f : totals → Z) := to_uint64 (zsum ((f ∘ snd) <$> map_order (foldl (count_disk GOOS) ∅ stats))) in
  sumStructuredDiskCounters GOOS stats = mkTotals (total td_readBytes) (total td_writeBytes) (total td_readOps) (total td_writeOps).
Proof. apply (sum_totals _ 0 0 0 0). Qed.



End disk_props.

(** ** Properties of samples *)

Section sample_props.
Context `{StringsLower} (GOOS : string) `{MapOrder} `{GoArch}.

Definition rate_between (a b : Z) (t1 t2 : Time) : Z :=
  f64_to_int64 (f64_div (f64_of_int (b - a)) (duration_Seconds (t2 - t1))).

(** The rates of a pair of counters that went from [a], [b] to [a'], [b']: both
    are zero when one of the counters was reset. *)
Definition pair_rates (a b a' b' : Z) (t1 t2 : Time) (r r' : Z) : Prop :=
  if (a' <? a) || (b' <? b) then r = 0 ∧ r' = 0 else r = rate_between a a' t1 t2 ∧ r' = rate_between b b' t1 t2.

(** The distance of two samples is representable and positive. *)
Definition apart (t1 t2 : Time) : Prop :=
  t1 ≠ 0 ∧ t1 < t2 ∧ t2 - t1 ≤ int64_max ∧ f64_le (duration_Seconds (t2 - t1)) f64_zero = false.

Definition uint64_pair (a b : Z) : Prop := 0 ≤ a ≤ uint64_max ∧ 0 ≤ b ≤ uint64_max.

Lemma calculateRate_pair a b a' b' t1 t2 :
  apart t1 t2 → uint64_pair a b → uint64_pair a' b' →
  ∃ r r', calculateRate a b a' b' t1 t2 = (r, r', a', b') ∧ pair_rates a b a' b' t1 t2 r r'.
Proof.
  intros (Ht0 & Htt & Htd & Hsec) [Ha Hb] [Ha' Hb']. unfold calculateRate, pair_rates, time_IsZero, time_Before.
  rewrite (proj2 (Z.eqb_neq t1 0)) by done. rewrite (proj2 (Z.ltb_ge t2 t1)) by lia. simpl.
  destruct ((a' <? a) || (b' <? b)) eqn:E; [by exists 0, 0|]. apply orb_false_iff in E as [Ea%Z.ltb_ge Eb%Z.ltb_ge].
  assert (time_Sub t2 t1 = t2 - t1) as Hs by (unfold time_Sub, int64_min; lia). rewrite Hs, Hsec.
  rewrite !to_uint64_id by (unfold uint64_max in *; lia). by repeat eexists.
Qed.

Definition net_totals (l : list pb.NetworkInterfaceMetrics) : Z * Z * Z * Z :=
  (sum_u64 pb.NetworkInterfaceMetrics_BytesReceivedTotal l, sum_u64 pb.NetworkInterfaceMetrics_BytesSentTotal l,
   sum_u64 pb.NetworkInterfaceMetrics_PacketsReceivedTotal l, sum_u64 pb.NetworkInterfaceMetrics_PacketsSentTotal l).

Lemma sum_u64_range {A} (f : A → Z) l : 0 ≤ sum_u64 f l ≤ uint64_max.
Proof.
  unfold sum_u64. induction l as [|x l _] using rev_ind; [simpl; unfold uint64_max; lia|].
  rewrite foldl_snoc. apply to_uint64_range.
Qed.

(** The structured part of a collection that saw network and disks. *)
Definition saw (c : collection) (nets : list pb.NetworkInterfaceMetrics) (disks : list pb.DiskIOMetrics) : Prop :=
  nets ≠ [] ∧ disks ≠ [] ∧ ∃ st, co_structured c = Some st ∧
    pb.SystemMetrics_NetworkInterfaces st = nets ∧ pb.SystemMetrics_Disks st = disks.

Definition baseline_is (s : gopsutilSystemSampler) (t : Time) (nets : list pb.NetworkInterfaceMetrics)
    (disks : list pb.DiskIOMetrics) : Prop :=
  let '(rx, tx, rxp, txp) := net_totals nets in
  let d := sumStructuredDiskCounters GOOS disks in
  gs_prevNetRx s = rx ∧ gs_prevNetTx s = tx ∧ gs_prevNetPacketsIn s = rxp ∧ gs_prevNetPacketsOut s = txp ∧
  gs_prevDiskRead s = td_readBytes d ∧ gs_prevDiskWrite s = td_writeBytes d ∧ gs_prevDiskReadOps s = td_readOps d ∧
  gs_prevDiskWriteOps s = td_writeOps d ∧ gs_prevNetAt s = t ∧ gs_prevDiskAt s = t.

Lemma llen_nonempty {A} (l : list A) : l ≠ [] → (llen l =? 0) = false.
Proof. intros Hl. apply Z.eqb_neq. unfold llen. by destruct l. Qed.

(** The rates of a sample and its new state come from the two parts. *)
Lemma Sample_parts s t c st m s' :
  co_structured c = Some st → Sample GOOS s t c = (m, s') →
  ∃ s1, sampleNetwork s t (pb.SystemMetrics_NetworkInterfaces st) =
          ((sm_NetRxBPS m, sm_NetTxBPS m, sm_NetRxPacketsPS m, sm_NetTxPacketsPS m), s1) ∧
        sampleDisks GOOS s1 t (pb.SystemMetrics_Disks st) =
          ((sm_DiskReadBPS m, sm_DiskWriteBPS m, sm_DiskReadIOPS m, sm_DiskWriteIOPS m), s').
Proof.
  intros Hc. unfold Sample. rewrite Hc.
  destruct (match pb.SystemMetrics_Memory st with Some _ => _ | None => _ end) as [mem memAvail].
  destruct (match rootFilesystem s _ with Some _ => _ | None => _ end) as [[disk free] inodes].
  destruct (sampleNetwork s t _) as [[[[rx tx] rxp] txp] s1]. destruct (sampleDisks GOOS s1 t _) as [[[[rd wr] rio] wio] s2] eqn:E.
  intros [= <- <-]. by exists s1.
Qed.

(** A sample that saw network and disks leaves their totals as the baseline. *)
Lemma Sample_baseline s t c nets disks m s' :
  saw c nets disks → Sample GOOS s t c = (m, s') → baseline_is s' t nets disks.
Proof.
  intros (Hn & Hd & st & Hc & <- & <-) E. destruct (Sample_parts _ _ _ _ _ _ Hc E) as (s1 & En & Ed).
  unfold sampleNetwork in En. unfold sampleDisks in Ed. rewrite (llen_nonempty _ Hn) in En. rewrite (llen_nonempty _ Hd) in Ed.
  unfold calculateRate in *. unfold baseline_is, net_totals.
  repeat match type of En with context [if ?b then _ else _] => destruct b end; injection En as _ _ _ _ <-; simpl in Ed;
  repeat match type of Ed with context [if ?b then _ else _] => destruct b end; injection Ed as _ _ _ _ <-; by split_and!.
Qed.

(** The totals of the disks are [uint64]s. *)
Lemma disk_totals_range disks :
  let d := sumStructuredDiskCounters GOOS disks in
  uint64_pair (td_readBytes d) (td_writeBytes d) ∧ uint64_pair (td_readOps d) (td_writeOps d).
Proof. cbv zeta. rewrite sum_disks. simpl. split; split; apply to_uint64_range. Qed.

(** C34: A rate is the growth of a counter between two samples: when two samples
    in a row saw the network and the disks, the second one reports for each pair
    of counters the truncated quotient of their growth and of the seconds between
    the samples, or zero for both when one of them was reset, and leaves its own
    totals as the next baseline. *)
Theorem sampler_rates s t1 c1 nets1 disks1 m1 s1 t2 c2 nets2 disks2 m2 s2 :
  saw c1 nets1 disks1 → saw c2 nets2 disks2 → apart t1 t2 →
  Sample GOOS s t1 c1 = (m1, s1) → Sample GOOS s1 t2 c2 = (m2, s2) →
  let '(rx1, tx1, rxp1, txp1) := net_totals nets1 in
  let '(rx2, tx2, rxp2, txp2) := net_totals nets2 in
  let d1 := sumStructuredDiskCounters GOOS disks1 in
  let d2 := sumStructuredDiskCounters GOOS disks2 in
  pair_rates rx1 tx1 rx2 tx2 t1 t2 (sm_NetRxBPS m2) (sm_NetTxBPS m2) ∧
  pair_rates rxp1 txp1 rxp2 txp2 t1 t2 (sm_NetRxPacketsPS m2) (sm_NetTxPacketsPS m2) ∧
  pair_rates (td_readBytes d1) (td_writeBytes d1) (td_readBytes d2) (td_writeBytes d2) t1 t2 (sm_DiskReadBPS m2) (sm_DiskWriteBPS m2) ∧
  pair_rates (td_readOps d1) (td_writeOps d1) (td_readOps d2) (td_writeOps d2) t1 t2 (sm_DiskReadIOPS m2) (sm_DiskWriteIOPS m2) ∧
  baseline_is s2 t2 nets2 disks2.
Proof.
  intros Hs1 Hs2 Ht E1 E2. apply (Sample_baseline _ _ _ _ _ _ _ Hs1) in E1.
  pose proof (Sample_baseline _ _ _ _ _ _ _ Hs2 E2) as Hb. revert Hb. generalize (baseline_is s2 t2 nets2 disks2). intros Q HQ.
  unfold net_totals. destruct E1 as (B1 & B2 & B3 & B4 & B5 & B6 & B7 & B8 & B9 & B10).
  destruct (disk_totals_range disks1) as [R1 R2], (disk_totals_range disks2) as [R3 R4].
  destruct Hs2 as (Hn & Hd & st & Hc & <- & <-). destruct (Sample_parts _ _ _ _ _ _ Hc E2) as (s3 & En & Ed).
  unfold sampleNetwork in En. unfold sampleDisks in Ed. rewrite (llen_nonempty _ Hn) in En. rewrite (llen_nonempty _ Hd) in Ed.
  rewrite B1, B2, B3, B4, B9 in En.
  destruct (calculateRate_pair (sum_u64 pb.NetworkInterfaceMetrics_BytesReceivedTotal nets1) (sum_u64 pb.NetworkInterfaceMetrics_BytesSentTotal nets1)
    (sum_u64 pb.NetworkInterfaceMetrics_BytesReceivedTotal (pb.SystemMetrics_NetworkInterfaces st))
    (sum_u64 pb.NetworkInterfaceMetrics_BytesSentTotal (pb.SystemMetrics_NetworkInterfaces st)) t1 t2 Ht) as (r1 & r2 & F1 & G1);
    [split; apply sum_u64_range..|].
  destruct (calculateRate_pair (sum_u64 pb.NetworkInterfaceMetrics_PacketsReceivedTotal nets1) (sum_u64 pb.NetworkInterfaceMetrics_PacketsSentTotal nets1)
    (sum_u64 pb.NetworkInterfaceMetrics_PacketsReceivedTotal (pb.SystemMetrics_NetworkInterfaces st))
    (sum_u64 pb.NetworkInterfaceMetrics_PacketsSentTotal (pb.SystemMetrics_NetworkInterfaces st)) t1 t2 Ht) as (r3 & r4 & F2 & G2);
    [split; apply sum_u64_range..|].
  rewrite F1, F2 in En. injection En as -> -> -> -> <-. simpl in Ed. rewrite B5, B6, B7, B8, B10 in Ed.
  destruct (calculateRate_pair _ _ _ _ t1 t2 Ht R1 R3) as (r5 & r6 & F3 & G3).
  destruct (calculateRate_pair _ _ _ _ t1 t2 Ht R2 R4) as (r7 & r8 & F4 & G4).
  rewrite F3, F4 in Ed. injection Ed as -> -> -> -> <-. by split_and!.
Qed.

(** ** Bounds *)

(** A percentage, or the NaN the collector reported. *)
Definition pct_ok (x : float64) : Prop := is_nan x = true ∨ (f64_le f64_zero x = true ∧ f64_le x f64_hundred = true).
Definition bytes_ok (x : Z) : Prop := 0 ≤ x ≤ int64_max.
(** Not negative, unless the architecture made an [int64] of a quotient that has none. *)
Definition rate_ok (r : Z) : Prop :=
  r ≤ int64_max ∧ (0 ≤ r ∨ ∃ q, nonneg q = true ∧ r = f64_to_int64_out_of_range q).

Lemma clampPercent_ok x : pct_ok (clampPercent x).
Proof.
  unfold clampPercent, pct_ok. destruct (is_nan x) eqn:En; [left; destruct x; done|].
  destruct (f64_lt x f64_zero) eqn:E1; [right; done|].
  apply f64_not_lt_le in E1; [|done..]. destruct (f64_lt f64_hundred x) eqn:E2; [right; done|].
  apply f64_not_lt_le in E2; [|done..]. auto.
Qed.

Lemma clampUint64_ok x : 0 ≤ x → bytes_ok (clampUint64ToInt64 x).
Proof. unfold clampUint64ToInt64, bytes_ok. destruct (Z.ltb_spec int64_max x); unfold int64_max in *; lia. Qed.

Lemma quotient_ok d now prev : 0 ≤ now - prev → rate_ok (f64_to_int64 (f64_div (f64_of_int (to_uint64 d)) (duration_Seconds (time_Sub now prev)))).
Proof.
  intros Ht. split; [apply f64_to_int64_range|].
  set (q := f64_div _ _). assert (nonneg q = true) as Hq.
  { apply f64_div_nonneg; [apply f64_of_int_nonneg, to_uint64_range|]. apply duration_Seconds_nonneg. unfold time_Sub, int64_min, int64_max. lia. }
  unfold f64_to_int64. destruct (f64_trunc q) as [z|] eqn:E; [|eauto]. destruct (in_int64 z); [|eauto].
  left. by apply f64_trunc_nonneg in E.
Qed.

Lemma rate_ok_zero : rate_ok 0.
Proof. split; [done|by left]. Qed.

Lemma calculateRate_ok pa pb a b t1 t2 r r' a' b' : calculateRate pa pb a b t1 t2 = (r, r', a', b') → rate_ok r ∧ rate_ok r'.
Proof.
  unfold calculateRate. destruct (time_IsZero t1 || _ || _ || _) eqn:Eg.
  { intros [= <- <- _ _]. split; apply rate_ok_zero. }
  assert (0 ≤ t2 - t1). { unfold time_Before in Eg. apply orb_false_iff in Eg as [[[_ Hb%Z.ltb_ge]%orb_false_iff _]%orb_false_iff _]. lia. }
  cbv zeta. destruct (f64_le _ _); intros [= <- <- _ _]; split; auto using rate_ok_zero, quotient_ok.
Qed.

Lemma sampleNetwork_ok s t nets a b c d s' : sampleNetwork s t nets = ((a, b, c, d), s') → rate_ok a ∧ rate_ok b ∧ rate_ok c ∧ rate_ok d.
Proof.
  unfold sampleNetwork. destruct (_ =? 0); [intros [= <- <- <- <- _]; split_and!; apply rate_ok_zero|].
  destruct (calculateRate _ _ _ _ _ _) as [[[r1 r2] p1] p2] eqn:E1.
  destruct (calculateRate (gs_prevNetPacketsIn s) _ _ _ _ _) as [[[r3 r4] p3] p4] eqn:E2.
  apply calculateRate_ok in E1, E2. intros [= <- <- <- <- _]. naive_solver.
Qed.

Lemma sampleDisks_ok s t disks a b c d s' : sampleDisks GOOS s t disks = ((a, b, c, d), s') → rate_ok a ∧ rate_ok b ∧ rate_ok c ∧ rate_ok d.
Proof.
  unfold sampleDisks. destruct (_ =? 0); [intros [= <- <- <- <- _]; split_and!; apply rate_ok_zero|].
  destruct (calculateRate _ _ _ _ _ _) as [[[r1 r2] p1] p2] eqn:E1.
  destruct (calculateRate (gs_prevDiskReadOps s) _ _ _ _ _) as [[[r3 r4] p3] p4] eqn:E2.
  apply calculateRate_ok in E1, E2. intros [= <- <- <- <- _]. naive_solver.
Qed.

(** A list of goals for the elements of an explicit list. *)
Ltac all_of := repeat first [apply Forall_nil_2 | apply Forall_cons_2].

(** The byte counts of the collection are not negative, being [uint64]s. *)
Definition counts_ok (st : pb.SystemMetrics) : Prop :=
  (∀ x, pb.SystemMetrics_Memory st = Some x → 0 ≤ pb.MemoryMetrics_AvailableBytes x) ∧
  (∀ x, x ∈ pb.SystemMetrics_Filesystems st → 0 ≤ pb.FilesystemMetrics_FreeBytes x).

(** The summary of every sample is within bounds: percentages are between 0
    and 100 (or the NaN that was measured), byte counts are [int64]s that are not
    negative, the load is not negative, and the eight rates are not negative
    unless a quotient was too large for an [int64]. *)
Theorem sampler_bounds s t c m s' :
  (∀ st, co_structured c = Some st → counts_ok st) → Sample GOOS s t c = (m, s') →
  Forall pct_ok [sm_CPUUsagePct m; sm_MemUsedPct m; sm_SwapUsedPct m; sm_DiskUsedPct m; sm_DiskInodesUsedPct m] ∧
  Forall bytes_ok [sm_MemAvailableBytes m; sm_DiskFreeBytes m] ∧ f64_le f64_zero (sm_Load1 m) = true ∧
  Forall rate_ok [sm_NetRxBPS m; sm_NetTxBPS m; sm_NetRxPacketsPS m; sm_NetTxPacketsPS m;
                  sm_DiskReadBPS m; sm_DiskWriteBPS m; sm_DiskReadIOPS m; sm_DiskWriteIOPS m].
Proof.
  intros Hc. destruct (co_structured c) as [st|] eqn:Est.
  - destruct (Hc st eq_refl) as [Hm Hf]. intros E.
    destruct (Sample_parts _ _ _ _ _ _ Est E) as (s1 & (?&?&?&?)%sampleNetwork_ok & (?&?&?&?)%sampleDisks_ok).
    assert (∀ x, pct_ok (clampPercent x)) as Hp by apply clampPercent_ok. assert (pct_ok f64_zero) as H0p by (by right).
    assert (bytes_ok 0) as H0b by (unfold bytes_ok; by vm_compute).
    split_and!; [| | |by all_of]; clear - E Est Hm Hf Hp H0p H0b; unfold Sample in E; rewrite Est in E.
    all: destruct (sampleNetwork s t _) as [[[[rx tx] rxp] txp] s2], (rootFilesystem s _) as [fs|] eqn:Er,
      (pb.SystemMetrics_Memory st) as [mm|]; destruct (sampleDisks GOOS s2 t _) as [[[[rd wr] rio] wio] s3]; injection E as <- _; simpl.
    1-4: destruct (pb.SystemMetrics_Cpu st), (pb.SystemMetrics_Swap st); all_of; auto.
    1-4: all_of; auto; try (by apply clampUint64_ok, Hm); apply clampUint64_ok, Hf; by apply find_first_Some in Er as [? _].
    all: destruct (pb.SystemMetrics_Load st) as [l|]; [|done]; destruct (f64_lt f64_zero (pb.LoadMetrics_Load1 l)) eqn:El; [|done];
      unfold f64_lt, SFltb, f64_le, SFleb in *; by destruct (SFcompare _ _) as [[]|].
  - unfold Sample. rewrite Est. intros [= <- _]. simpl.
    split_and!; [all_of; by right|all_of; by vm_compute|done|all_of; apply rate_ok_zero].
Qed.

End sample_props.

(** ** Examples *)

Section examples.
#[local] Existing Instance StringsLower_bytes.
#[local] Existing Instance MapOrder_keys.
#[local] Existing Instance GoArch_amd64.

(** A disk with one partition, one interface and the root filesystem. *)
Definition ex_disk (device : string) (bytes ops : Z) : pb.DiskIOMetrics :=
  pb.mkDiskIOMetrics device ops 0 0 0 bytes 0 0 0 0 0 0.
Definition ex_net (rx tx : Z) : pb.NetworkInterfaceMetrics :=
  pb.mkNetworkInterfaceMetrics "eth0" 1 1500 tx rx 0 0 0 0 0 0 0 0.
Definition ex_round (n : Z) : collection :=
  mkCollection [] [] [] (Some (pb.mkSystemMetrics f64_zero None None None None None [] [ex_disk "sda" (100 * n) n; ex_disk "sda1" (90 * n) n]
    [ex_net (1000 * n) (10 * n)] [] None [])).
Definition ex_sampler : gopsutilSystemSampler := newGopsutilSystemSampler "/".
Definition ex_at (n : Z) : Time := n * 1000000000.

(** Two seconds apart; the partition is not counted beside its disk. *)
Lemma sampler_rates_witness :
  let m := (Sample "linux" (Sample "linux" ex_sampler (ex_at 10) (ex_round 10)).2 (ex_at 12) (ex_round 30)).1 in
  sm_NetRxBPS m = 10000 ∧ sm_DiskReadBPS m = 1000.
Proof.
  destruct (Sample "linux" ex_sampler (ex_at 10) (ex_round 10)) as [m1 s1] eqn:E1. cbn [snd].
  destruct (Sample "linux" s1 (ex_at 12) (ex_round 30)) as [m2 s2] eqn:E2. cbv zeta. cbn [fst].
  assert (∀ n, saw (ex_round n) [ex_net (1000 * n) (10 * n)] [ex_disk "sda" (100 * n) n; ex_disk "sda1" (90 * n) n]) as Hs.
  { intros n. split; [discriminate|]. split; [discriminate|]. eexists. repeat split. }
  assert (apart (ex_at 10) (ex_at 12)) as Ha by (repeat split; vm_compute; congruence).
  pose proof (sampler_rates "linux" ex_sampler _ _ _ _ m1 s1 _ _ _ _ m2 s2 (Hs 10) (Hs 30) Ha E1 E2) as Hr.
  revert Hr. generalize (sm_NetRxBPS m2), (sm_DiskReadBPS m2). intros x y Hr. vm_compute in Hr. destruct Hr as ((-> & _) & _ & (-> & _) & _). split; reflexivity.
Defined.

Lemma sampler_bounds_witness : rate_ok (sm_NetRxBPS (Sample "linux" ex_sampler (ex_at 10) (ex_round 10)).1).
Proof.
  destruct (Sample "linux" ex_sampler (ex_at 10) (ex_round 10)) as [m s'] eqn:E.
  destruct (sampler_bounds "linux" ex_sampler (ex_at 10) (ex_round 10) m s') as (_ & _ & _ & Hr); [|exact E|].
  - intros st [= <-]. split; [discriminate|]. intros x Hx. inversion Hx.
  - apply Forall_cons in Hr as [Hr _]. exact Hr.
Defined.

End examples.
