(* ===== verification/Collect.v ===== *)
(** * The collectors of the agent

    Models [agent/internal/service/system_metrics_extended.go]: nine collectors
    turn readings of the operating system into labelled points and into a part of
    the structured message; they run concurrently under a deadline and are put
    together in a fixed order.

    The readings come from the gopsutil library and are inputs: for each query
    its value, or none when it failed.  Where the code walks a structure by
    reflection ([appendNumericFields]) the reading carries the list of its fields
    as reflection shows them. *)

From stdpp Require Import gmap strings list sorting pretty.
From Stdlib Require Import SpecFloat Ascii.
From S2P Require Import Prelude GoRuntime GoStrings GoText FloatFacts Contracts Wire Sampler.
Local Open Scope Z_scope.

(** ** Readings *)

(** A field of a structure: its name, its json tag, and its value by kind. *)
Inductive FieldValue := FInt (z : Z) | FUint (z : Z) | FFloat (x : float64) | FOther.
Record StructField := mkStructField { sf_Name : string; sf_json : string; sf_value : FieldValue }.

Record HostInfoStat := mkHostInfoStat { hi_Uptime : Z; hi_BootTime : Z; hi_Procs : Z; hi_fields : list StructField }.
Record TimesStat := mkTimesStat {
  ts_CPU : string; ts_User : float64; ts_System : float64; ts_Idle : float64; ts_Nice : float64; ts_Iowait : float64;
  ts_Irq : float64; ts_Softirq : float64; ts_Steal : float64; ts_Guest : float64; ts_GuestNice : float64;
  ts_fields : list StructField
}.
Record CpuInfoStat := mkCpuInfoStat { ci_CPU : Z; ci_Mhz : float64; ci_CacheSize : Z }.
Record VirtualMemoryStat := mkVirtualMemoryStat {
  vm_Total : Z; vm_Available : Z; vm_Used : Z; vm_UsedPercent : float64; vm_Free : Z; vm_Active : Z;
  vm_Inactive : Z; vm_Wired : Z; vm_Laundry : Z; vm_Buffers : Z; vm_Cached : Z; vm_WriteBack : Z; vm_Dirty : Z;
  vm_Shared : Z; vm_Slab : Z; vm_PageTables : Z; vm_SwapCached : Z; vm_CommitLimit : Z; vm_CommittedAS : Z;
  vm_Mapped : Z; vm_VmallocTotal : Z; vm_VmallocUsed : Z; vm_HugePagesTotal : Z; vm_HugePagesFree : Z;
  vm_HugePagesRsvd : Z; vm_HugePagesSurp : Z; vm_HugePageSize : Z; vm_AnonHugePages : Z; vm_WriteBackTmp : Z;
  vm_Sreclaimable : Z; vm_Sunreclaim : Z; vm_HighTotal : Z; vm_HighFree : Z; vm_LowTotal : Z; vm_LowFree : Z;
  vm_SwapTotal : Z; vm_SwapFree : Z; vm_VmallocChunk : Z; vm_fields : list StructField
}.
Record SwapMemoryStat := mkSwapMemoryStat {
  sw_Total : Z; sw_Used : Z; sw_Free : Z; sw_UsedPercent : float64; sw_Sin : Z; sw_Sout : Z; sw_PgIn : Z; sw_PgOut : Z;
  sw_PgFault : Z; sw_PgMajFault : Z; sw_fields : list StructField
}.
Record AvgStat := mkAvgStat { av_Load1 : float64; av_Load5 : float64; av_Load15 : float64 }.
Record MiscStat := mkMiscStat {
  mi_ProcsTotal : Z; mi_ProcsCreated : Z; mi_ProcsRunning : Z; mi_ProcsBlocked : Z; mi_Ctxt : Z; mi_fields : list StructField
}.
Record PartitionStat := mkPartitionStat { pa_Device : string; pa_Mountpoint : string; pa_Fstype : string }.
Record UsageStat := mkUsageStat {
  us_Total : Z; us_Free : Z; us_Used : Z; us_UsedPercent : float64;
  us_InodesTotal : Z; us_InodesUsed : Z; us_InodesFree : Z; us_InodesUsedPercent : float64
}.
Record DiskIOStat := mkDiskIOStat {
  di_ReadCount : Z; di_MergedReadCount : Z; di_WriteCount : Z; di_MergedWriteCount : Z; di_ReadBytes : Z; di_WriteBytes : Z;
  di_ReadTime : Z; di_WriteTime : Z; di_IopsInProgress : Z; di_IoTime : Z; di_WeightedIO : Z; di_fields : list StructField
}.
Record NetIOStat := mkNetIOStat {
  ni_Name : string; ni_BytesSent : Z; ni_BytesRecv : Z; ni_PacketsSent : Z; ni_PacketsRecv : Z; ni_Errin : Z; ni_Errout : Z;
  ni_Dropin : Z; ni_Dropout : Z; ni_Fifoin : Z; ni_Fifoout : Z; ni_fields : list StructField
}.
Record InterfaceStat := mkInterfaceStat { if_Name : string; if_Index : Z; if_MTU : Z }.
Record ProtoStat := mkProtoStat { pc_Protocol : string; pc_Stats : gmap string Z }.
Record FilterStat := mkFilterStat { fl_ConnTrackCount : Z; fl_ConnTrackMax : Z; fl_fields : list StructField }.
Record ConntrackStat := mkConntrackStat {
  cn_Entries : Z; cn_Searched : Z; cn_Found : Z; cn_New : Z; cn_Invalid : Z; cn_Ignore : Z; cn_Delete : Z;
  cn_Insert : Z; cn_InsertFailed : Z; cn_Drop : Z; cn_EarlyDrop : Z; cn_SearchRestart : Z; cn_DeleteList : Z;
  cn_IcmpError : Z; cn_ExpectNew : Z; cn_ExpectCreate : Z; cn_ExpectDelete : Z; cn_fields : list StructField
}.
Record TemperatureStat := mkTemperatureStat {
  te_SensorKey : string; te_Temperature : float64; te_High : float64; te_Critical : float64; te_fields : list StructField
}.

(** One round of queries; a query that failed is [None]. *)
Record readings := mkReadings {
  gr_host : option HostInfoStat;
  gr_logical : option Z; gr_physical : option Z; gr_percent : option (list float64);
  gr_times : option (list TimesStat); gr_cpuinfo : option (list CpuInfoStat);
  gr_memory : option VirtualMemoryStat; gr_swap : option SwapMemoryStat;
  gr_avg : option AvgStat; gr_misc : option MiscStat;
  gr_partitions : option (list PartitionStat); gr_usage : string → option UsageStat;
  gr_disks : option (gmap string DiskIOStat);
  gr_net : option (list NetIOStat); gr_interfaces : option (list InterfaceStat); gr_protocols : option (list ProtoStat);
  gr_filters : option (list FilterStat); gr_conntrack : option (list ConntrackStat);
  gr_sensors : option (list TemperatureStat)
}.

(** ** Points *)

Definition appendPoint (points : list MetricPoint) (name : string) (value : float64) (lbl : labels) : list MetricPoint :=
  if str_empty name || is_nan value || is_inf value then points
  else points ++ [mkMetricPoint name value time_zero (cloneStringMap lbl)].

Definition numericValue (v : FieldValue) : option float64 :=
  match v with FInt z | FUint z => Some (f64_of_int z) | FFloat x => Some x | FOther => None end.

Section names.
Context `{UnicodeCase}.

Definition camelToSnake (name : string) : string :=
  of_bytes (concat (imap (λ i c, (if IsUpper c && (0 <? i)%nat then bytes "_" else []) ++ encode_rune (ToLowerRune c))
                      (range_runes (byte_val <$> bytes name)))).

Definition jsonFieldName (field : StructField) : string :=
  let name := before_comma (sf_json field) in
  camelToSnake (if str_empty name || str_eqb name "-" then sf_Name field else name).

Definition appendNumericFields (points : list MetricPoint) (prefix : string) (input : list StructField) (lbl : labels)
    (nameFunc : option (string → string)) : list MetricPoint :=
  foldl (λ points field,
    match numericValue (sf_value field) with
    | None => points
    | Some metricValue =>
        let name := jsonFieldName field in
        let name := match nameFunc with Some f => f name | None => (prefix +:+ name)%string end in
        appendPoint points name metricValue lbl
    end) points input.

End names.

(** The distinct names, sorted. *)
Definition uniqueMetricNames `{MapOrder} (points : list MetricPoint) : list string :=
  sort_by id ((map_order (foldl (λ seen (p : MetricPoint), <[mp_Name p := tt]> seen) ∅ points)).*1).

Definition cloneInt64Map (input : gmap string Z) : gmap string Z := map_fold (λ k v out, <[k := v]> out) ∅ input.

(** ** The structured message *)

Definition with_Host (x : pb.HostMetrics) (s : pb.SystemMetrics) : pb.SystemMetrics :=
  pb.mkSystemMetrics (pb.SystemMetrics_RuntimeUptimeSeconds s) (Some x) (pb.SystemMetrics_Cpu s) (pb.SystemMetrics_Memory s)
    (pb.SystemMetrics_Swap s) (pb.SystemMetrics_Load s) (pb.SystemMetrics_Filesystems s) (pb.SystemMetrics_Disks s)
    (pb.SystemMetrics_NetworkInterfaces s) (pb.SystemMetrics_NetworkProtocols s)
    (pb.SystemMetrics_NetworkConntrack s) (pb.SystemMetrics_Temperatures s).
Definition with_Cpu (x : pb.CpuMetrics) (s : pb.SystemMetrics) : pb.SystemMetrics :=
  pb.mkSystemMetrics (pb.SystemMetrics_RuntimeUptimeSeconds s) (pb.SystemMetrics_Host s) (Some x) (pb.SystemMetrics_Memory s)
    (pb.SystemMetrics_Swap s) (pb.SystemMetrics_Load s) (pb.SystemMetrics_Filesystems s) (pb.SystemMetrics_Disks s)
    (pb.SystemMetrics_NetworkInterfaces s) (pb.SystemMetrics_NetworkProtocols s)
    (pb.SystemMetrics_NetworkConntrack s) (pb.SystemMetrics_Temperatures s).
Definition with_Memory (x : pb.MemoryMetrics) (s : pb.SystemMetrics) : pb.SystemMetrics :=
  pb.mkSystemMetrics (pb.SystemMetrics_RuntimeUptimeSeconds s) (pb.SystemMetrics_Host s) (pb.SystemMetrics_Cpu s) (Some x)
    (pb.SystemMetrics_Swap s) (pb.SystemMetrics_Load s) (pb.SystemMetrics_Filesystems s) (pb.SystemMetrics_Disks s)
    (pb.SystemMetrics_NetworkInterfaces s) (pb.SystemMetrics_NetworkProtocols s)
    (pb.SystemMetrics_NetworkConntrack s) (pb.SystemMetrics_Temperatures s).
Definition with_Swap (x : pb.SwapMetrics) (s : pb.SystemMetrics) : pb.SystemMetrics :=
  pb.mkSystemMetrics (pb.SystemMetrics_RuntimeUptimeSeconds s) (pb.SystemMetrics_Host s) (pb.SystemMetrics_Cpu s)
    (pb.SystemMetrics_Memory s) (Some x) (pb.SystemMetrics_Load s) (pb.SystemMetrics_Filesystems s)
    (pb.SystemMetrics_Disks s) (pb.SystemMetrics_NetworkInterfaces s) (pb.SystemMetrics_NetworkProtocols s)
    (pb.SystemMetrics_NetworkConntrack s) (pb.SystemMetrics_Temperatures s).
Definition with_Load (x : pb.LoadMetrics) (s : pb.SystemMetrics) : pb.SystemMetrics :=
  pb.mkSystemMetrics (pb.SystemMetrics_RuntimeUptimeSeconds s) (pb.SystemMetrics_Host s) (pb.SystemMetrics_Cpu s)
    (pb.SystemMetrics_Memory s) (pb.SystemMetrics_Swap s) (Some x) (pb.SystemMetrics_Filesystems s)
    (pb.SystemMetrics_Disks s) (pb.SystemMetrics_NetworkInterfaces s) (pb.SystemMetrics_NetworkProtocols s)
    (pb.SystemMetrics_NetworkConntrack s) (pb.SystemMetrics_Temperatures s).
Definition with_Filesystems (x : list pb.FilesystemMetrics) (s : pb.SystemMetrics) : pb.SystemMetrics :=
  pb.mkSystemMetrics (pb.SystemMetrics_RuntimeUptimeSeconds s) (pb.SystemMetrics_Host s) (pb.SystemMetrics_Cpu s)
    (pb.SystemMetrics_Memory s) (pb.SystemMetrics_Swap s) (pb.SystemMetrics_Load s) x (pb.SystemMetrics_Disks s)
    (pb.SystemMetrics_NetworkInterfaces s) (pb.SystemMetrics_NetworkProtocols s)
    (pb.SystemMetrics_NetworkConntrack s) (pb.SystemMetrics_Temperatures s).
Definition with_Disks (x : list pb.DiskIOMetrics) (s : pb.SystemMetrics) : pb.SystemMetrics :=
  pb.mkSystemMetrics (pb.SystemMetrics_RuntimeUptimeSeconds s) (pb.SystemMetrics_Host s) (pb.SystemMetrics_Cpu s)
    (pb.SystemMetrics_Memory s) (pb.SystemMetrics_Swap s) (pb.SystemMetrics_Load s) (pb.SystemMetrics_Filesystems s)
    x (pb.SystemMetrics_NetworkInterfaces s) (pb.SystemMetrics_NetworkProtocols s)
    (pb.SystemMetrics_NetworkConntrack s) (pb.SystemMetrics_Temperatures s).
Definition with_Network (i : list pb.NetworkInterfaceMetrics) (p : list pb.NetworkProtocolMetrics)
    (c : pb.NetworkConntrackMetrics) (s : pb.SystemMetrics) : pb.SystemMetrics :=
  pb.mkSystemMetrics (pb.SystemMetrics_RuntimeUptimeSeconds s) (pb.SystemMetrics_Host s) (pb.SystemMetrics_Cpu s)
    (pb.SystemMetrics_Memory s) (pb.SystemMetrics_Swap s) (pb.SystemMetrics_Load s) (pb.SystemMetrics_Filesystems s)
    (pb.SystemMetrics_Disks s) i p (Some c) (pb.SystemMetrics_Temperatures s).
Definition with_Temperatures (x : list pb.TemperatureMetrics) (s : pb.SystemMetrics) : pb.SystemMetrics :=
  pb.mkSystemMetrics (pb.SystemMetrics_RuntimeUptimeSeconds s) (pb.SystemMetrics_Host s) (pb.SystemMetrics_Cpu s)
    (pb.SystemMetrics_Memory s) (pb.SystemMetrics_Swap s) (pb.SystemMetrics_Load s) (pb.SystemMetrics_Filesystems s)
    (pb.SystemMetrics_Disks s) (pb.SystemMetrics_NetworkInterfaces s) (pb.SystemMetrics_NetworkProtocols s)
    (pb.SystemMetrics_NetworkConntrack s) x.
Definition with_uptime (x : float64) (s : pb.SystemMetrics) : pb.SystemMetrics :=
  pb.mkSystemMetrics x (pb.SystemMetrics_Host s) (pb.SystemMetrics_Cpu s) (pb.SystemMetrics_Memory s) (pb.SystemMetrics_Swap s)
    (pb.SystemMetrics_Load s) (pb.SystemMetrics_Filesystems s) (pb.SystemMetrics_Disks s)
    (pb.SystemMetrics_NetworkInterfaces s) (pb.SystemMetrics_NetworkProtocols s)
    (pb.SystemMetrics_NetworkConntrack s) (pb.SystemMetrics_Temperatures s).
Definition empty_SystemMetrics : pb.SystemMetrics := pb.mkSystemMetrics f64_zero None None None None None [] [] [] [] None [].

Record collectorResult := mkCollectorResult {
  cr_name : string; cr_points : list MetricPoint; cr_failures : Z; cr_duration : Duration; cr_timedOut : bool;
  cr_apply : option (pb.SystemMetrics → pb.SystemMetrics)
}.

(** What a collector returns: the goroutine sets duration and deadline. *)
Definition collected (name : string) (points : list MetricPoint) (failures : Z)
    (apply : option (pb.SystemMetrics → pb.SystemMetrics)) : collectorResult :=
  mkCollectorResult name points failures 0 false apply.

Definition to_uint32 (z : Z) : Z := z mod 2 ^ 32.
Definition failed {A} (o : option A) : Z := match o with Some _ => 0 | None => 1 end.

(** ** The collectors *)

Section collectors.
Context `{UnicodeCase} `{MapOrder} (GOOS drive : string).

Definition host_name (name : string) : string :=
  if str_eqb name "uptime" then "host_uptime_seconds" else
  if str_eqb name "boot_time" then "host_boot_time_seconds" else
  if str_eqb name "procs" then "host_processes" else ("host_info_" +:+ name).

Definition collectHostMetrics (r : readings) : collectorResult :=
  match gr_host r with
  | None => collected "host" [] 1 None
  | Some stats =>
      collected "host" (appendNumericFields [] "host_info_" (hi_fields stats) ∅ (Some host_name)) 0
        (Some (with_Host (pb.mkHostMetrics (hi_Uptime stats) (hi_BootTime stats) (hi_Procs stats))))
  end.

(** The entry of a core, made when it is first named. *)
Definition new_core (name : string) : pb.CpuCoreMetrics :=
  pb.mkCpuCoreMetrics name f64_zero f64_zero f64_zero f64_zero f64_zero f64_zero f64_zero f64_zero f64_zero f64_zero f64_zero f64_zero 0.
Definition on_core (cores : gmap string pb.CpuCoreMetrics) (name : string) (f : pb.CpuCoreMetrics → pb.CpuCoreMetrics)
    : gmap string pb.CpuCoreMetrics :=
  <[name := f (default (new_core name) (cores !! name))]> cores.
Definition set_usage (usage : float64) (c : pb.CpuCoreMetrics) : pb.CpuCoreMetrics :=
  pb.mkCpuCoreMetrics (pb.CpuCoreMetrics_Cpu c) usage (pb.CpuCoreMetrics_UserSeconds c) (pb.CpuCoreMetrics_SystemSeconds c)
    (pb.CpuCoreMetrics_IdleSeconds c) (pb.CpuCoreMetrics_NiceSeconds c) (pb.CpuCoreMetrics_IowaitSeconds c)
    (pb.CpuCoreMetrics_IrqSeconds c) (pb.CpuCoreMetrics_SoftirqSeconds c) (pb.CpuCoreMetrics_StealSeconds c)
    (pb.CpuCoreMetrics_GuestSeconds c) (pb.CpuCoreMetrics_GuestNiceSeconds c) (pb.CpuCoreMetrics_FrequencyMhz c)
    (pb.CpuCoreMetrics_CacheSizeKib c).
Definition set_times (v : TimesStat) (c : pb.CpuCoreMetrics) : pb.CpuCoreMetrics :=
  pb.mkCpuCoreMetrics (pb.CpuCoreMetrics_Cpu c) (pb.CpuCoreMetrics_UsagePct c) (ts_User v) (ts_System v) (ts_Idle v) (ts_Nice v)
    (ts_Iowait v) (ts_Irq v) (ts_Softirq v) (ts_Steal v) (ts_Guest v) (ts_GuestNice v)
    (pb.CpuCoreMetrics_FrequencyMhz c) (pb.CpuCoreMetrics_CacheSizeKib c).
Definition set_frequency (mhz : float64) (c : pb.CpuCoreMetrics) : pb.CpuCoreMetrics :=
  pb.mkCpuCoreMetrics (pb.CpuCoreMetrics_Cpu c) (pb.CpuCoreMetrics_UsagePct c) (pb.CpuCoreMetrics_UserSeconds c)
    (pb.CpuCoreMetrics_SystemSeconds c) (pb.CpuCoreMetrics_IdleSeconds c) (pb.CpuCoreMetrics_NiceSeconds c)
    (pb.CpuCoreMetrics_IowaitSeconds c) (pb.CpuCoreMetrics_IrqSeconds c) (pb.CpuCoreMetrics_SoftirqSeconds c)
    (pb.CpuCoreMetrics_StealSeconds c) (pb.CpuCoreMetrics_GuestSeconds c) (pb.CpuCoreMetrics_GuestNiceSeconds c) mhz
    (pb.CpuCoreMetrics_CacheSizeKib c).
Definition set_cache (kib : Z) (c : pb.CpuCoreMetrics) : pb.CpuCoreMetrics :=
  pb.mkCpuCoreMetrics (pb.CpuCoreMetrics_Cpu c) (pb.CpuCoreMetrics_UsagePct c) (pb.CpuCoreMetrics_UserSeconds c)
    (pb.CpuCoreMetrics_SystemSeconds c) (pb.CpuCoreMetrics_IdleSeconds c) (pb.CpuCoreMetrics_NiceSeconds c)
    (pb.CpuCoreMetrics_IowaitSeconds c) (pb.CpuCoreMetrics_IrqSeconds c) (pb.CpuCoreMetrics_SoftirqSeconds c)
    (pb.CpuCoreMetrics_StealSeconds c) (pb.CpuCoreMetrics_GuestSeconds c) (pb.CpuCoreMetrics_GuestNiceSeconds c)
    (pb.CpuCoreMetrics_FrequencyMhz c) kib.

(** The state of the CPU collector. *)
Record cpu_state := mkCpu { cp_points : list MetricPoint; cp_cores : gmap string pb.CpuCoreMetrics; cp_total : float64 }.

Definition cpu_name (index : Z) : string := "cpu" +:+ FormatInt index.

Definition cpu_percent (s : cpu_state) (index : nat) (value : float64) : cpu_state :=
  let name := cpu_name (Z.of_nat index) in
  let usage := clampPercent value in
  mkCpu (appendPoint (cp_points s) "host_cpu_usage_pct" usage {["cpu"%string := name]})
    (on_core (cp_cores s) name (set_usage usage)) (f64_add (cp_total s) usage).

(** The loop over the values, the first one with index [i]. *)
Fixpoint cpu_percents (s : cpu_state) (i : nat) (l : list float64) : cpu_state :=
  match l with [] => s | v :: l => cpu_percents (cpu_percent s i v) (S i) l end.

Definition cpu_times (s : cpu_state) (v : TimesStat) : cpu_state :=
  mkCpu (appendNumericFields (cp_points s) "host_cpu_time_" (ts_fields v) {["cpu"%string := ts_CPU v]}
           (Some (λ name, "host_cpu_time_" +:+ name +:+ "_seconds")))
    (on_core (cp_cores s) (ts_CPU v) (set_times v)) (cp_total s).

Definition cpu_info (s : cpu_state) (v : CpuInfoStat) : cpu_state :=
  let name := cpu_name (ci_CPU v) in
  let lbl : labels := {["cpu"%string := name]} in
  let cores := on_core (cp_cores s) name id in
  let '(points, cores) := if f64_le f64_zero (ci_Mhz v)
    then (appendPoint (cp_points s) "host_cpu_frequency_mhz" (ci_Mhz v) lbl, on_core cores name (set_frequency (ci_Mhz v)))
    else (cp_points s, cores) in
  let '(points, cores) := if 0 <? ci_CacheSize v
    then (appendPoint points "host_cpu_cache_size_kib" (f64_of_int (ci_CacheSize v)) lbl, on_core cores name (set_cache (ci_CacheSize v)))
    else (points, cores) in
  mkCpu points cores (cp_total s).

Definition collectCPUMetrics (r : readings) : collectorResult :=
  let points := match gr_logical r with
    | Some count => appendPoint [] "host_cpu_logical_count" (f64_of_int count) ∅ | None => [] end in
  let points := match gr_physical r with
    | Some count => appendPoint points "host_cpu_physical_count" (f64_of_int count) ∅ | None => points end in
  let s := mkCpu points ∅ f64_zero in
  let s := match gr_percent r with Some values => cpu_percents s 0 values | None => s end in
  let usage := match gr_percent r with
    | Some ((_ :: _) as values) => f64_div (cp_total s) (f64_of_int (llen values)) | _ => f64_zero end in
  let s := match gr_times r with Some values => foldl cpu_times s values | None => s end in
  let s := match gr_cpuinfo r with Some values => foldl cpu_info s values | None => s end in
  let coreNames := sort_by id ((map_order (cp_cores s)).*1) in
  let cores := omap (λ name, cp_cores s !! name) coreNames in
  collected "cpu" (cp_points s)
    (failed (gr_logical r) + failed (gr_physical r) + failed (gr_percent r) + failed (gr_times r) + failed (gr_cpuinfo r))
    (Some (with_Cpu (pb.mkCpuMetrics usage (default 0 (to_uint32 <$> gr_logical r)) (default 0 (to_uint32 <$> gr_physical r)) cores))).

Definition memory_name (name : string) : string :=
  if str_eqb name "used_percent" then "host_mem_used_pct" else ("host_mem_" +:+ name +:+ "_bytes").

Definition collectMemoryMetrics (r : readings) : collectorResult :=
  match gr_memory r with
  | None => collected "memory" [] 1 None
  | Some stats =>
      collected "memory" (appendNumericFields [] "host_mem_" (vm_fields stats) ∅ (Some memory_name)) 0
        (Some (with_Memory (pb.mkMemoryMetrics (vm_Total stats) (vm_Available stats) (vm_Used stats) (vm_UsedPercent stats) (vm_Free stats) (vm_Active stats)
      (vm_Inactive stats) (vm_Wired stats) (vm_Laundry stats) (vm_Buffers stats) (vm_Cached stats)
      (vm_WriteBack stats) (vm_Dirty stats) (vm_Shared stats) (vm_Slab stats) (vm_PageTables stats)
      (vm_SwapCached stats) (vm_CommitLimit stats) (vm_CommittedAS stats) (vm_Mapped stats) (vm_VmallocTotal stats)
      (vm_VmallocUsed stats) (vm_HugePagesTotal stats) (vm_HugePagesFree stats) (vm_HugePagesRsvd stats)
      (vm_HugePagesSurp stats) (vm_HugePageSize stats) (vm_AnonHugePages stats) (vm_WriteBackTmp stats)
      (vm_Sreclaimable stats) (vm_Sunreclaim stats) (vm_HighTotal stats) (vm_HighFree stats) (vm_LowTotal stats)
      (vm_LowFree stats) (vm_SwapTotal stats) (vm_SwapFree stats) (vm_VmallocChunk stats))))
  end.

Definition swap_name (name : string) : string :=
  if str_eqb name "used_percent" then "host_swap_used_pct" else
  if existsb (str_eqb name) ["total"; "used"; "free"; "sin"; "sout"] then ("host_swap_" +:+ name +:+ "_bytes")
  else ("host_swap_" +:+ name +:+ "_total").

Definition collectSwapMetrics (r : readings) : collectorResult :=
  match gr_swap r with
  | None => collected "swap" [] 1 None
  | Some stats =>
      collected "swap" (appendNumericFields [] "host_swap_" (sw_fields stats) ∅ (Some swap_name)) 0
        (Some (with_Swap (pb.mkSwapMetrics (sw_Total stats) (sw_Used stats) (sw_Free stats) (sw_UsedPercent stats) (sw_Sin stats)
           (sw_Sout stats) (sw_PgIn stats) (sw_PgOut stats) (sw_PgFault stats) (sw_PgMajFault stats))))
  end.

Definition collectLoadMetrics (r : readings) : collectorResult :=
  let '(points, l1, l5, l15) := match gr_avg r with
    | Some stats =>
        (appendPoint (appendPoint (appendPoint [] "host_load1" (av_Load1 stats) ∅) "host_load5" (av_Load5 stats) ∅)
           "host_load15" (av_Load15 stats) ∅, av_Load1 stats, av_Load5 stats, av_Load15 stats)
    | None => ([], f64_zero, f64_zero, f64_zero) end in
  let '(points, metrics) := match gr_misc r with
    | Some stats => (appendNumericFields points "host_scheduler_" (mi_fields stats) ∅ None,
        pb.mkLoadMetrics l1 l5 l15 (mi_ProcsTotal stats) (mi_ProcsCreated stats) (mi_ProcsRunning stats) (mi_ProcsBlocked stats) (mi_Ctxt stats))
    | None => (points, pb.mkLoadMetrics l1 l5 l15 0 0 0 0 0) end in
  collected "load" points (failed (gr_avg r) + failed (gr_misc r)) (Some (with_Load metrics)).

Definition appendFilesystemUsage (points : list MetricPoint) (stats : UsageStat) (lbl : labels) : list MetricPoint :=
  let points := appendPoint points "host_filesystem_total_bytes" (f64_of_int (us_Total stats)) lbl in
  let points := appendPoint points "host_filesystem_used_bytes" (f64_of_int (us_Used stats)) lbl in
  let points := appendPoint points "host_filesystem_free_bytes" (f64_of_int (us_Free stats)) lbl in
  let points := appendPoint points "host_filesystem_used_pct" (us_UsedPercent stats) lbl in
  let points := appendPoint points "host_filesystem_inodes_total" (f64_of_int (us_InodesTotal stats)) lbl in
  let points := appendPoint points "host_filesystem_inodes_used" (f64_of_int (us_InodesUsed stats)) lbl in
  let points := appendPoint points "host_filesystem_inodes_free" (f64_of_int (us_InodesFree stats)) lbl in
  appendPoint points "host_filesystem_inodes_used_pct" (us_InodesUsedPercent stats) lbl.

(** The loop over the partitions: points, messages, failures, mount points seen. *)
Definition filesystem_step (r : readings) (acc : list MetricPoint * list pb.FilesystemMetrics * Z * gset string) (p : PartitionStat)
    : list MetricPoint * list pb.FilesystemMetrics * Z * gset string :=
  let '(points, metrics, failures, seen) := acc in
  if bool_decide (pa_Mountpoint p ∈ seen) then acc else
  let seen := {[pa_Mountpoint p]} ∪ seen in
  match gr_usage r (pa_Mountpoint p) with
  | None => (points, metrics, failures + 1, seen)
  | Some stats =>
      let lbl : labels := <["device"%string := pa_Device p]> (<["mountpoint"%string := pa_Mountpoint p]> {["fstype"%string := pa_Fstype p]}) in
      (appendFilesystemUsage points stats lbl,
       metrics ++ [pb.mkFilesystemMetrics (pa_Device p) (pa_Mountpoint p) (pa_Fstype p) (us_Total stats) (us_Used stats)
         (us_Free stats) (us_UsedPercent stats) (us_InodesTotal stats) (us_InodesUsed stats) (us_InodesFree stats)
         (us_InodesUsedPercent stats)], failures, seen)
  end.

Definition collectFilesystemMetrics (r : readings) : collectorResult :=
  match gr_partitions r with
  | None => collected "filesystem" [] 1 None
  | Some partitions =>
      let rootPath := systemRootPath GOOS drive in
      let hasRoot := existsb (λ p, str_eqb (Clean (pa_Mountpoint p)) (Clean rootPath)) partitions in
      let partitions := if hasRoot then partitions else partitions ++ [mkPartitionStat "" rootPath ""] in
      let '(points, metrics, failures, _) := foldl (filesystem_step r) ([], [], 0, ∅) partitions in
      collected "filesystem" points failures (Some (with_Filesystems metrics))
  end.

Definition disk_io_name (field : string) : string :=
  if HasSuffix field "_bytes" then ("host_disk_io_" +:+ field +:+ "_total") else
  if HasSuffix field "_time" || str_eqb field "io_time" || str_eqb field "weighted_io"
  then ("host_disk_io_" +:+ field +:+ "_milliseconds_total")
  else ("host_disk_io_" +:+ field +:+ "_total").

Definition disk_io_metrics (name : string) (v : DiskIOStat) : pb.DiskIOMetrics :=
  pb.mkDiskIOMetrics name (di_ReadCount v) (di_MergedReadCount v) (di_WriteCount v) (di_MergedWriteCount v) (di_ReadBytes v)
    (di_WriteBytes v) (di_ReadTime v) (di_WriteTime v) (di_IopsInProgress v) (di_IoTime v) (di_WeightedIO v).

Definition collectDiskIOMetrics (r : readings) : collectorResult :=
  match gr_disks r with
  | None => collected "disk_io" [] 1 None
  | Some stats =>
      let l := map_order stats in
      let points := foldl (λ points '(name, v),
        appendNumericFields points "host_disk_io_" (di_fields v) {["device"%string := name]} (Some disk_io_name)) [] l in
      let metrics := sort_by pb.DiskIOMetrics_Device ((λ '(name, v), disk_io_metrics name v) <$> l) in
      collected "disk_io" points 0 (Some (with_Disks metrics))
  end.

(** *** The network *)

Definition interface_metrics (v : NetIOStat) : pb.NetworkInterfaceMetrics :=
  pb.mkNetworkInterfaceMetrics (ni_Name v) 0 0 (ni_BytesSent v) (ni_BytesRecv v) (ni_PacketsSent v) (ni_PacketsRecv v)
    (ni_Errin v) (ni_Errout v) (ni_Dropin v) (ni_Dropout v) (ni_Fifoin v) (ni_Fifoout v).

Definition net_io_step (acc : list MetricPoint * gmap string pb.NetworkInterfaceMetrics) (v : NetIOStat)
    : list MetricPoint * gmap string pb.NetworkInterfaceMetrics :=
  (appendNumericFields acc.1 "host_net_" (ni_fields v) {["interface"%string := ni_Name v]} (Some (λ field, "host_net_" +:+ field +:+ "_total")),
   <[ni_Name v := interface_metrics v]> acc.2).

Definition set_interface (v : InterfaceStat) (m : pb.NetworkInterfaceMetrics) : pb.NetworkInterfaceMetrics :=
  pb.mkNetworkInterfaceMetrics (pb.NetworkInterfaceMetrics_Interface m) (if_Index v) (if_MTU v)
    (pb.NetworkInterfaceMetrics_BytesSentTotal m) (pb.NetworkInterfaceMetrics_BytesReceivedTotal m)
    (pb.NetworkInterfaceMetrics_PacketsSentTotal m) (pb.NetworkInterfaceMetrics_PacketsReceivedTotal m)
    (pb.NetworkInterfaceMetrics_ReceiveErrorsTotal m) (pb.NetworkInterfaceMetrics_TransmitErrorsTotal m)
    (pb.NetworkInterfaceMetrics_ReceiveDropsTotal m) (pb.NetworkInterfaceMetrics_TransmitDropsTotal m)
    (pb.NetworkInterfaceMetrics_ReceiveFifoErrorsTotal m) (pb.NetworkInterfaceMetrics_TransmitFifoErrorsTotal m).

Definition interface_step (acc : list MetricPoint * gmap string pb.NetworkInterfaceMetrics) (v : InterfaceStat)
    : list MetricPoint * gmap string pb.NetworkInterfaceMetrics :=
  let lbl : labels := {["interface"%string := if_Name v]} in
  (appendPoint (appendPoint acc.1 "host_net_interface_index" (f64_of_int (if_Index v)) lbl)
     "host_net_interface_mtu_bytes" (f64_of_int (if_MTU v)) lbl,
   <[if_Name v := set_interface v (default (pb.mkNetworkInterfaceMetrics (if_Name v) 0 0 0 0 0 0 0 0 0 0 0 0) (acc.2 !! if_Name v))]> acc.2).

Definition protocol_step (points : list MetricPoint) (p : ProtoStat) : list MetricPoint :=
  foldl (λ points '(name, value),
    appendPoint points ("host_net_protocol_" +:+ camelToSnake name +:+ "_total") (f64_of_int value) {["protocol"%string := pc_Protocol p]})
    points (map_order (pc_Stats p)).

Definition filter_step (acc : list MetricPoint * pb.NetworkConntrackMetrics) (value : FilterStat)
    : list MetricPoint * pb.NetworkConntrackMetrics :=
  let m := acc.2 in
  (appendNumericFields acc.1 "host_net_filter_" (fl_fields value) ∅ None,
   pb.mkNetworkConntrackMetrics (to_int64 (pb.NetworkConntrackMetrics_Count m + fl_ConnTrackCount value))
    (to_int64 (pb.NetworkConntrackMetrics_Maximum m + fl_ConnTrackMax value))
    (pb.NetworkConntrackMetrics_Entries m) (pb.NetworkConntrackMetrics_SearchedTotal m)
    (pb.NetworkConntrackMetrics_FoundTotal m) (pb.NetworkConntrackMetrics_NewTotal m)
    (pb.NetworkConntrackMetrics_InvalidTotal m) (pb.NetworkConntrackMetrics_IgnoredTotal m)
    (pb.NetworkConntrackMetrics_DeletedTotal m) (pb.NetworkConntrackMetrics_InsertedTotal m)
    (pb.NetworkConntrackMetrics_InsertFailedTotal m) (pb.NetworkConntrackMetrics_DroppedTotal m)
    (pb.NetworkConntrackMetrics_EarlyDroppedTotal m) (pb.NetworkConntrackMetrics_SearchRestartsTotal m)
    (pb.NetworkConntrackMetrics_DeleteListTotal m) (pb.NetworkConntrackMetrics_IcmpErrorsTotal m)
    (pb.NetworkConntrackMetrics_ExpectedNewTotal m) (pb.NetworkConntrackMetrics_ExpectationsCreatedTotal m)
    (pb.NetworkConntrackMetrics_ExpectationsDeletedTotal m)).

Definition conntrack_step (acc : list MetricPoint * pb.NetworkConntrackMetrics) (value : ConntrackStat)
    : list MetricPoint * pb.NetworkConntrackMetrics :=
  let m := acc.2 in
  (appendNumericFields acc.1 "host_net_conntrack_" (cn_fields value) ∅ (Some (λ field, "host_net_conntrack_" +:+ field +:+ "_total")),
   pb.mkNetworkConntrackMetrics (pb.NetworkConntrackMetrics_Count m) (pb.NetworkConntrackMetrics_Maximum m)
    (to_uint64 (pb.NetworkConntrackMetrics_Entries m + cn_Entries value))
    (to_uint64 (pb.NetworkConntrackMetrics_SearchedTotal m + cn_Searched value))
    (to_uint64 (pb.NetworkConntrackMetrics_FoundTotal m + cn_Found value))
    (to_uint64 (pb.NetworkConntrackMetrics_NewTotal m + cn_New value))
    (to_uint64 (pb.NetworkConntrackMetrics_InvalidTotal m + cn_Invalid value))
    (to_uint64 (pb.NetworkConntrackMetrics_IgnoredTotal m + cn_Ignore value))
    (to_uint64 (pb.NetworkConntrackMetrics_DeletedTotal m + cn_Delete value))
    (to_uint64 (pb.NetworkConntrackMetrics_InsertedTotal m + cn_Insert value))
    (to_uint64 (pb.NetworkConntrackMetrics_InsertFailedTotal m + cn_InsertFailed value))
    (to_uint64 (pb.NetworkConntrackMetrics_DroppedTotal m + cn_Drop value))
    (to_uint64 (pb.NetworkConntrackMetrics_EarlyDroppedTotal m + cn_EarlyDrop value))
    (to_uint64 (pb.NetworkConntrackMetrics_SearchRestartsTotal m + cn_SearchRestart value))
    (to_uint64 (pb.NetworkConntrackMetrics_DeleteListTotal m + cn_DeleteList value))
    (to_uint64 (pb.NetworkConntrackMetrics_IcmpErrorsTotal m + cn_IcmpError value))
    (to_uint64 (pb.NetworkConntrackMetrics_ExpectedNewTotal m + cn_ExpectNew value))
    (to_uint64 (pb.NetworkConntrackMetrics_ExpectationsCreatedTotal m + cn_ExpectCreate value))
    (to_uint64 (pb.NetworkConntrackMetrics_ExpectationsDeletedTotal m + cn_ExpectDelete value))).

Definition collectNetworkMetrics (r : readings) : collectorResult :=
  match gr_net r with
  | None => collected "network" [] 1 None
  | Some stats =>
      let '(points, byName) := foldl net_io_step ([], ∅) stats in
      let '(points, byName) := match gr_interfaces r with
        | Some interfaces => foldl interface_step (points, byName) interfaces | None => (points, byName) end in
      let '(points, protocols) := match gr_protocols r with
        | Some protocols => (foldl protocol_step points protocols,
            (λ p, pb.mkNetworkProtocolMetrics (pc_Protocol p) (cloneInt64Map (pc_Stats p))) <$> protocols)
        | None => (points, []) end in
      let zero := pb.mkNetworkConntrackMetrics 0 0 0 0 0 0 0 0 0 0 0 0 0 0 0 0 0 0 0 in
      let '(points, conntrack) := match gr_filters r with
        | Some values => foldl filter_step (points, zero) values | None => (points, zero) end in
      let '(points, conntrack) := match gr_conntrack r with
        | Some values => foldl conntrack_step (points, conntrack) values | None => (points, conntrack) end in
      let interfaceNames := sort_by id ((map_order byName).*1) in
      let interfaces := omap (λ name, byName !! name) interfaceNames in
      collected "network" points
        (failed (gr_interfaces r) + failed (gr_protocols r) + failed (gr_filters r) + failed (gr_conntrack r))
        (Some (with_Network interfaces (sort_by pb.NetworkProtocolMetrics_Protocol protocols) conntrack))
  end.

Definition sensor_name (field : string) : string :=
  if str_eqb field "temperature" then "host_sensor_temperature_celsius" else
  if str_eqb field "sensor_high" then "host_sensor_temperature_high_celsius" else
  if str_eqb field "sensor_critical" then "host_sensor_temperature_critical_celsius"
  else ("host_sensor_" +:+ field).

Definition collectSensorMetrics (r : readings) : collectorResult :=
  match gr_sensors r with
  | None => collected "sensors" [] 1 None
  | Some stats =>
      let points := foldl (λ points v,
        appendNumericFields points "host_sensor_" (te_fields v) {["sensor"%string := te_SensorKey v]} (Some sensor_name)) [] stats in
      let metrics := (λ v, pb.mkTemperatureMetrics (te_SensorKey v) (te_Temperature v) (te_High v) (te_Critical v)) <$> stats in
      collected "sensors" points 0 (Some (with_Temperatures metrics))
  end.

(** ** All of them *)

Definition collectors : list (string * (readings → collectorResult)) :=
  [("host", collectHostMetrics); ("cpu", collectCPUMetrics); ("memory", collectMemoryMetrics); ("swap", collectSwapMetrics);
   ("load", collectLoadMetrics); ("filesystem", collectFilesystemMetrics); ("disk_io", collectDiskIOMetrics);
   ("network", collectNetworkMetrics); ("sensors", collectSensorMetrics)]%string.
Definition collector_names : list string := collectors.*1.

(** What a goroutine sends: the result with its duration and whether the
    deadline had passed. *)
Definition timed (result : collectorResult) (duration : Duration) (late : bool) : collectorResult :=
  mkCollectorResult (cr_name result) (cr_points result) (cr_failures result) duration late (cr_apply result).

(** The arms of the [select]. *)
Inductive arm := Arrived (result : collectorResult) | DeadlineExceeded.

(** The first loop: until all are in or the deadline fires; [None] while it waits. *)
Fixpoint gather (byName : gmap string collectorResult) (l : list arm) : option (gmap string collectorResult) :=
  if Z.of_nat (size byName) <? llen collector_names then
    match l with
    | [] => None
    | DeadlineExceeded :: _ => Some byName
    | Arrived result :: l => gather (<[cr_name result := result]> byName) l
    end
  else Some byName.

(** The second loop, on the collector of the given name. *)
Definition collector_state (o : option collectorResult) : CollectorState :=
  match o with
  | None => CollectorStateUnavailable
  | Some result =>
      if llen (cr_points result) =? 0 then CollectorStateUnavailable else
      if 0 <? cr_failures result then CollectorStateDegraded else CollectorStateAvailable
  end.

Definition collector_status (name : string) (o : option collectorResult) : CollectorStatus :=
  mkCollectorStatus name (collector_state o)
    (uniqueMetricNames (match o with Some result => cr_points result | None => [] end))
    (Z.quot (match o with Some result => cr_duration result | None => 0 end) 1000)
    (match o with Some result => cr_timedOut result | None => true end).

Definition assemble_step (byName : gmap string collectorResult)
    (acc : list MetricPoint * list CollectorStatus * list string * pb.SystemMetrics) (name : string)
    : list MetricPoint * list CollectorStatus * list string * pb.SystemMetrics :=
  let '(points, statuses, capabilities, structured) := acc in
  let o := byName !! name in
  let statuses := statuses ++ [collector_status name o] in
  match o with
  | Some result =>
      if collector_state o =? CollectorStateUnavailable then (points, statuses, capabilities, structured) else
      (points ++ cr_points result, statuses, capabilities ++ [("collector:" +:+ cr_name result)%string],
       match cr_apply result with Some f => f structured | None => structured end)
  | None => (points, statuses, capabilities, structured)
  end.

Definition assemble (byName : gmap string collectorResult) : collection :=
  let '(points, statuses, capabilities, structured) :=
    foldl (assemble_step byName) ([], [], [], empty_SystemMetrics) collector_names in
  mkCollection points statuses capabilities (Some structured).

Definition collectExtendedMetrics (l : list arm) : option collection := assemble <$> gather ∅ l.

End collectors.

(** ** The assembled collection *)

Section assembly.
Context `{UnicodeCase} `{MapOrder} (GOOS drive : string).

#[local] Abbreviation collector_names := (collector_names GOOS drive).
#[local] Abbreviation collect_all := (collectExtendedMetrics GOOS drive).

(** The result of the collector of a given name, among those that arrived. *)
Definition result_of (rs : list collectorResult) (name : string) : option collectorResult :=
  find_first (λ r, str_eqb (cr_name r) name) rs.

(** A collector that is not unavailable contributes its points and its name. *)
Definition usable (rs : list collectorResult) (name : string) : option collectorResult :=
  match result_of rs name with
  | Some r => if llen (cr_points r) =? 0 then None else Some r
  | None => None
  end.

Definition by_name (rs : list collectorResult) : gmap string collectorResult :=
  foldl (λ m r, <[cr_name r := r]> m) ∅ rs.

Lemma by_name_lookup rs n : NoDup (cr_name <$> rs) → by_name rs !! n = result_of rs n.
Proof.
  unfold by_name, result_of. induction rs as [|r rs IH] using rev_ind; [done|].
  rewrite fmap_app. intros (Hrs & Hd & _)%NoDup_app. rewrite foldl_snoc.
  destruct (decide (n = cr_name r)) as [->|Hn].
  - rewrite lookup_insert, decide_True by done. symmetry. apply find_first_unique; [set_solver|by apply str_eqb_true|].
    intros y [Hy|Hy]%elem_of_app Hk; [|by apply list_elem_of_singleton in Hy]. apply str_eqb_true in Hk.
    destruct (Hd (cr_name y)); [by apply list_elem_of_fmap_2|]. rewrite Hk. by left.
  - rewrite lookup_insert_ne, IH by done. clear - Hn. induction rs as [|y rs IH]; simpl.
    + destruct (str_eqb (cr_name r) n) eqn:E; [|done]. apply str_eqb_true in E. congruence.
    + by rewrite IH.
Qed.

Lemma by_name_dom rs : dom (by_name rs) = list_to_set (cr_name <$> rs).
Proof.
  unfold by_name. induction rs as [|r rs IH] using rev_ind; [set_solver|].
  rewrite foldl_snoc, dom_insert_L, IH, fmap_app, list_to_set_app_L. set_solver.
Qed.

Lemma by_name_size rs : NoDup (cr_name <$> rs) → size (by_name rs) = length rs.
Proof. intros Hrs. rewrite <-size_dom, by_name_dom, size_list_to_set by done. by rewrite length_fmap. Qed.

Lemma collector_names_NoDup : NoDup collector_names.
Proof. apply (bool_decide_unpack _). vm_compute. exact I. Qed.

(** Results of distinct collectors are at most nine. *)
Lemma results_bound rs : NoDup (cr_name <$> rs) → (cr_name <$> rs) ⊆ collector_names → (length rs ≤ length collector_names)%nat.
Proof. intros Hd Hs. rewrite <-(length_fmap cr_name rs). by apply submseteq_length, NoDup_submseteq. Qed.

(** The first loop is done when all collectors are in, or at the deadline. *)
Definition concluded (rs : list collectorResult) (rest : list arm) : Prop :=
  length rs = length collector_names ∨ head rest = Some DeadlineExceeded.

Lemma gather_open rs :
  NoDup (cr_name <$> rs) → (Z.of_nat (size (by_name rs)) <? llen collector_names) = bool_decide (length rs < length collector_names)%nat.
Proof. intros Hd. rewrite by_name_size by done. unfold llen. case_bool_decide; [apply Z.ltb_lt|apply Z.ltb_ge]; lia. Qed.

(** It takes what arrives while it is not, *)
Lemma gather_arrived done rs rest :
  NoDup (cr_name <$> done ++ rs) → (cr_name <$> done ++ rs) ⊆ collector_names →
  gather GOOS drive (by_name done) ((Arrived <$> rs) ++ rest) = gather GOOS drive (by_name (done ++ rs)) rest.
Proof.
  revert done. induction rs as [|r rs IH]; intros done Hd Hs; [by rewrite app_nil_r|].
  pose proof (results_bound _ Hd Hs) as Hb. rewrite length_app, length_cons in Hb.
  cbn [gather fmap list_fmap app]. rewrite gather_open, bool_decide_true; [|lia|by rewrite fmap_app in Hd; apply NoDup_app in Hd as [? _]].
  replace (<[cr_name r := r]> (by_name done)) with (by_name (done ++ [r])) by (unfold by_name; by rewrite foldl_snoc).
  rewrite IH; by rewrite <-(assoc_L (++)).
Qed.

(** and then has what arrived. *)
Lemma gather_results rs rest :
  NoDup (cr_name <$> rs) → (cr_name <$> rs) ⊆ collector_names → concluded rs rest →
  gather GOOS drive ∅ ((Arrived <$> rs) ++ rest) = Some (by_name rs).
Proof.
  intros Hd Hs Hc. rewrite (gather_arrived []) by done. simpl. pose proof (gather_open rs Hd) as Ho.
  destruct Hc as [Hc|Hc].
  - rewrite bool_decide_false in Ho by lia. destruct rest; simpl; by rewrite Ho.
  - destruct rest as [|[]]; [done..|]. simpl in *. by case_match.
Qed.

Lemma gather_waits rs :
  NoDup (cr_name <$> rs) → (cr_name <$> rs) ⊆ collector_names → (length rs < length collector_names)%nat →
  gather GOOS drive ∅ (Arrived <$> rs) = None.
Proof.
  intros Hd Hs Hl. rewrite <-(app_nil_r (Arrived <$> rs)), (gather_arrived []) by done. simpl.
  by rewrite gather_open, bool_decide_true.
Qed.

(** What one collector adds. *)
Definition points_of (o : option collectorResult) : list MetricPoint :=
  match o with Some r => if llen (cr_points r) =? 0 then [] else cr_points r | None => [] end.
Definition capability_of (o : option collectorResult) : option string :=
  match o with Some r => if llen (cr_points r) =? 0 then None else Some ("collector:" +:+ cr_name r) | None => None end.

(** What it does to the message. *)
Definition applied (t : pb.SystemMetrics) (o : option collectorResult) : pb.SystemMetrics :=
  match o with
  | Some r => if llen (cr_points r) =? 0 then t else match cr_apply r with Some f => f t | None => t end
  | None => t
  end.

Lemma assemble_step_eq m p s c t n :
  assemble_step m (p, s, c, t) n =
    (p ++ points_of (m !! n), s ++ [collector_status n (m !! n)], c ++ option_list (capability_of (m !! n)), applied t (m !! n)).
Proof.
  unfold assemble_step, collector_state, points_of, capability_of, applied. destruct (m !! n) as [r|]; [|by rewrite !app_nil_r].
  destruct (llen (cr_points r) =? 0); [by rewrite !app_nil_r|]. by destruct (0 <? cr_failures r).
Qed.

Lemma assemble_fold m names p s c t :
  foldl (assemble_step m) (p, s, c, t) names =
    (p ++ concat ((λ n, points_of (m !! n)) <$> names), s ++ ((λ n, collector_status n (m !! n)) <$> names),
     c ++ omap (λ n, capability_of (m !! n)) names, foldl (λ t n, applied t (m !! n)) t names).
Proof.
  revert p s c t. induction names as [|n names IH]; intros p s c t; [by rewrite !app_nil_r|].
  cbn [foldl]. rewrite assemble_step_eq, IH. csimpl. rewrite <-!(assoc_L (++)). by destruct (capability_of (m !! n)).
Qed.

Lemma points_of_usable rs n : points_of (result_of rs n) = from_option cr_points [] (usable rs n).
Proof. unfold points_of, usable. destruct (result_of rs n) as [r|]; [|done]. by destruct (_ =? 0). Qed.
Lemma capability_of_usable rs n : capability_of (result_of rs n) = (λ r, "collector:" +:+ cr_name r) <$> usable rs n.
Proof. unfold capability_of, usable. destruct (result_of rs n) as [r|]; [|done]. by destruct (_ =? 0). Qed.
Lemma applied_usable rs n t :
  applied t (result_of rs n) = from_option (λ r, from_option (λ f, f t) t (cr_apply r)) t (usable rs n).
Proof.
  unfold applied, usable. destruct (result_of rs n) as [r|]; [|done]. destruct (_ =? 0); [done|]. simpl. by destruct (cr_apply r).
Qed.

(** The parts of a collection, from the results that were in. *)
Lemma collected_parts rs rest :
  NoDup (cr_name <$> rs) → (cr_name <$> rs) ⊆ collector_names → concluded rs rest →
  collect_all ((Arrived <$> rs) ++ rest) = Some (mkCollection
    (concat ((λ n, from_option cr_points [] (usable rs n)) <$> collector_names))
    ((λ n, collector_status n (result_of rs n)) <$> collector_names)
    (omap (λ n, (λ r, "collector:" +:+ cr_name r) <$> usable rs n) collector_names)
    (Some (foldl (λ t n, from_option (λ r, from_option (λ f, f t) t (cr_apply r)) t (usable rs n)) empty_SystemMetrics collector_names))).
Proof.
  intros Hd Hs Hc. unfold collectExtendedMetrics. rewrite gather_results by done. cbn [fmap option_fmap option_map].
  unfold assemble. rewrite assemble_fold, !app_nil_l. do 2 f_equal.
  - f_equal. apply list_fmap_ext. intros i n _. by rewrite by_name_lookup, points_of_usable.
  - apply list_fmap_ext. intros i n _. by rewrite by_name_lookup.
  - clear Hs Hc. induction collector_names as [|n l IH]; csimpl; [done|]. by rewrite IH, by_name_lookup, capability_of_usable.
  - f_equal. generalize empty_SystemMetrics. clear Hs Hc.
    induction collector_names as [|n l IH]; intros t; simpl; [done|]. by rewrite by_name_lookup, applied_usable, IH.
Qed.

(** C33: a collection ends as soon as all nine collectors are in, deadline or not,
    at the deadline with those that are in, and not before; and it depends only on
    which results were in, in whichever order they came: it has one status for
    each of the nine collectors, in the fixed order, with the state its result
    has; its points and the parts of its message are those of the collectors that
    delivered any points, again in the fixed order; and its capabilities name
    exactly these collectors. *)
Theorem collect_assembled rs rest :
  NoDup (cr_name <$> rs) → (cr_name <$> rs) ⊆ collector_names →
  ((length rs < 9)%nat → collect_all (Arrived <$> rs) = None) ∧
  (length rs = 9%nat ∨ head rest = Some DeadlineExceeded →
   ∃ c, collect_all ((Arrived <$> rs) ++ rest) = Some c ∧
     co_collectors c = (λ n, collector_status n (result_of rs n)) <$> collector_names ∧
     co_points c = concat ((λ n, from_option cr_points [] (usable rs n)) <$> collector_names) ∧
     co_capabilities c = omap (λ n, (λ r, "collector:" +:+ cr_name r) <$> usable rs n) collector_names ∧
     co_structured c = Some (foldl (λ t n, from_option (λ r, from_option (λ f, f t) t (cr_apply r)) t (usable rs n)) empty_SystemMetrics collector_names)).
Proof.
  intros Hd Hs. split.
  - intros Hl. unfold collectExtendedMetrics. by rewrite gather_waits.
  - intros Hc. rewrite collected_parts by done. eexists. split; [done|]. by repeat split.
Qed.

End assembly.

(** ** The points of the collectors *)

(** The metrics of the summary, as the ingest service names them. *)
Definition summary_names : list string :=
  ["host_cpu_usage_pct"; "host_mem_used_pct"; "host_mem_available_bytes"; "host_swap_used_pct"; "host_disk_used_pct";
   "host_disk_free_bytes"; "host_disk_inodes_used_pct"; "host_disk_read_bps"; "host_disk_write_bps"; "host_disk_read_iops";
   "host_disk_write_iops"; "host_load1"; "host_net_rx_bps"; "host_net_tx_bps"; "host_net_rx_packets_ps"; "host_net_tx_packets_ps"]%string.

(** A collected point has a name and a finite value and is not yet dated; [Q]
    restricts which labels go with which name. *)
Record collected_ok (Q : string → labels → Prop) (p : MetricPoint) : Prop := {
  po_name : mp_Name p ≠ ""%string;
  po_finite : is_finite (mp_Value p) = true;
  po_undated : mp_TS p = time_zero;
  po_labels : Q (mp_Name p) (mp_Labels p)
}.

Definition cpu_usage : string := "host_cpu_usage_pct".
(** Summary names go without labels, the usage of single processors apart, ... *)
Definition summary_ok (name : string) (lbl : labels) : Prop := name ∈ summary_names → lbl = ∅ ∨ name = cpu_usage.
(** ... which only the collector of the processors delivers. *)
Definition other_ok (name : string) (lbl : labels) : Prop := name ≠ cpu_usage ∧ (name ∈ summary_names → lbl = ∅).

(** A property of lists that every further point keeps is kept by what appends. *)
Definition snoc_closed (Q : string → labels → Prop) (P : list MetricPoint → Prop) : Prop :=
  ∀ points p, P points → collected_ok Q p → P (points ++ [p]).

Section closed_points.
Context (Q : string → labels → Prop) (P : list MetricPoint → Prop) (HP : snoc_closed Q P).

Lemma appendPoint_closed points name value lbl : P points → Q name lbl → P (appendPoint points name value lbl).
Proof.
  unfold appendPoint. intros Hp Hn. destruct (str_empty name) eqn:En; [done|]. simpl.
  destruct (is_nan value || is_inf value) eqn:Ev; [done|]. apply HP; [done|].
  apply orb_false_iff in Ev as [E1 E2]. split; simpl; [|unfold is_finite; by rewrite E1, E2|done|by rewrite cloneStringMap_id].
  intros ->. done.
Qed.

Lemma appendNumericFields_closed `{UnicodeCase} points prefix input lbl nameFunc :
  P points → (∀ n, Q (match nameFunc with Some f => f n | None => (prefix +:+ n)%string end) lbl) →
  P (appendNumericFields points prefix input lbl nameFunc).
Proof.
  intros Hp Hn. unfold appendNumericFields. revert points Hp. induction input as [|x l IH]; intros points Hp; simpl; [done|].
  apply IH. destruct (numericValue _); [by apply appendPoint_closed|done].
Qed.

End closed_points.

Lemma foldl_closed {A B} (P : A → Prop) (f : A → B → A) (a : A) (l : list B) :
  (∀ a b, P a → P (f a b)) → P a → P (foldl f a l).
Proof. intros Hf. revert a. induction l as [|b l IH]; intros a Ha; simpl; [done|]. apply IH. by apply Hf. Qed.

Lemma Forall_snoc_closed Q : snoc_closed Q (Forall (collected_ok Q)).
Proof. intros points p Hp Hq. apply Forall_app. split; [done|]. by constructor. Qed.

Section forall_points.
Context (Q : string → labels → Prop).

Lemma appendPoint_Forall points name value lbl :
  Forall (collected_ok Q) points → Q name lbl → Forall (collected_ok Q) (appendPoint points name value lbl).
Proof. apply (appendPoint_closed _ _ (Forall_snoc_closed Q)). Qed.

Lemma appendNumericFields_Forall `{UnicodeCase} points prefix input lbl nameFunc :
  Forall (collected_ok Q) points →
  (∀ n, Q (match nameFunc with Some f => f n | None => (prefix +:+ n)%string end) lbl) →
  Forall (collected_ok Q) (appendNumericFields points prefix input lbl nameFunc).
Proof. apply (appendNumericFields_closed _ _ (Forall_snoc_closed Q)). Qed.

Lemma foldl_Forall {A B} (f : A → B → A) (sel : A → list MetricPoint) (a : A) (l : list B) :
  (∀ a b, Forall (collected_ok Q) (sel a) → Forall (collected_ok Q) (sel (f a b))) →
  Forall (collected_ok Q) (sel a) → Forall (collected_ok Q) (sel (foldl f a l)).
Proof. apply (foldl_closed (λ a, Forall (collected_ok Q) (sel a))). Qed.

End forall_points.

(** *** Names *)

Definition last_byte (s : string) : option ascii := last (bytes s).
Lemma last_byte_app s t : t ≠ ""%string → last_byte (s +:+ t) = last_byte t.
Proof.
  intros Ht. unfold last_byte. rewrite bytes_app, last_app. destruct (last (bytes t)) eqn:E; [done|].
  apply last_None in E. by destruct t.
Qed.

Lemma other_name_ok name lbl : bool_decide (name ∈ summary_names) = false → other_ok name lbl.
Proof. intros Hn%bool_decide_eq_false. split; [|done]. intros ->. apply Hn. by left. Qed.

(** No summary metric ends in the letter of [_total]. *)
Lemma total_name_ok a b lbl : other_ok (a +:+ b +:+ "_total") lbl.
Proof.
  apply other_name_ok, bool_decide_eq_false. intros Hin. assert (last_byte (a +:+ b +:+ "_total") = Some "l"%char) as Hl.
  { rewrite last_byte_app; [by rewrite last_byte_app|]. destruct b; discriminate. }
  assert (Forall (λ n, last_byte n ≠ Some "l"%char) summary_names) as Hall by (apply (bool_decide_unpack _); vm_compute; exact I).
  rewrite list.Forall_forall in Hall. by apply Hall in Hin.
Qed.

Lemma prefix_append p rest : String.prefix p (p +:+ rest) = true.
Proof.
  induction p as [|c p IH]; [by destruct rest|]. change (String.prefix (String c p) (String c (p +:+ rest)) = true).
  simpl. by destruct (Ascii.ascii_dec c c).
Qed.

(** No summary metric begins like this. *)
Lemma prefix_name_ok p rest lbl : existsb (String.prefix p) summary_names = false → other_ok (p +:+ rest) lbl.
Proof.
  intros Hp. apply other_name_ok, bool_decide_eq_false. intros Hin. apply not_true_iff_false in Hp. apply Hp, existsb_exists.
  exists (p +:+ rest). split; [by apply list_elem_of_In|apply prefix_append].
Qed.

(** An unlabelled point must only not begin like the usage of processors. *)
Lemma unlabelled_prefix_ok p rest : String.prefix p cpu_usage = false → other_ok (p +:+ rest) ∅.
Proof. intros Hp. split; [|done]. intros E. by rewrite <-E, prefix_append in Hp. Qed.
Lemma unlabelled_ok name : str_eqb name cpu_usage = false → other_ok name ∅.
Proof. intros Hn. split; [|done]. intros ->. by rewrite str_eqb_refl in Hn. Qed.

Lemma other_summary name lbl : other_ok name lbl → summary_ok name lbl.
Proof. intros [_ Hn] Hin. auto. Qed.

(** Decides [other_ok] for a name of the source. *)
Ltac not_summary :=
  first [apply prefix_name_ok; vm_compute; reflexivity | apply other_name_ok; vm_compute; reflexivity
        | apply unlabelled_prefix_ok; vm_compute; reflexivity | apply unlabelled_ok; vm_compute; reflexivity | apply total_name_ok].

Ltac name_cases :=
  unfold host_name, memory_name, swap_name, disk_io_name, sensor_name; repeat case_match; not_summary.

Section points.
Context `{UnicodeCase} `{MapOrder} (GOOS drive : string) (r : readings).

Lemma host_points_ok : Forall (collected_ok other_ok) (cr_points (collectHostMetrics r)).
Proof.
  unfold collectHostMetrics. destruct (gr_host r); [|constructor]. simpl. apply appendNumericFields_Forall; [constructor|].
  intros n. name_cases.
Qed.

Lemma cpu_percents_ok s i l :
  Forall (collected_ok summary_ok) (cp_points s) → Forall (collected_ok summary_ok) (cp_points (cpu_percents s i l)).
Proof.
  revert s i. induction l as [|v l IH]; intros s i Hs; simpl; [done|]. apply IH. simpl.
  apply appendPoint_Forall; [done|]. by right.
Qed.

(** The counts before the usage and the details after it. *)
Definition cpu_counts : list MetricPoint :=
  let points := match gr_logical r with
    | Some count => appendPoint [] "host_cpu_logical_count" (f64_of_int count) ∅ | None => [] end in
  match gr_physical r with
  | Some count => appendPoint points "host_cpu_physical_count" (f64_of_int count) ∅ | None => points end.

Lemma cpu_counts_ok : Forall (collected_ok other_ok) cpu_counts.
Proof.
  unfold cpu_counts. destruct (gr_logical r), (gr_physical r); repeat first [constructor | apply appendPoint_Forall; [|not_summary]].
Qed.

Definition cpu_details (s : cpu_state) : cpu_state :=
  let s := match gr_times r with Some values => foldl cpu_times s values | None => s end in
  match gr_cpuinfo r with Some values => foldl cpu_info s values | None => s end.

Lemma cpu_details_closed P s : snoc_closed other_ok P → P (cp_points s) → P (cp_points (cpu_details s)).
Proof.
  intros HP Hs. unfold cpu_details.
  assert (∀ s v, P (cp_points s) → P (cp_points (cpu_info s v))) as Hi.
  { intros s' v Hs'. unfold cpu_info. destruct (f64_le _ _), (0 <? _); simpl; repeat (apply (appendPoint_closed _ _ HP); [|not_summary]); done. }
  assert (∀ s v, P (cp_points s) → P (cp_points (cpu_times s v))) as Ht.
  { intros s' v Hs'. simpl. apply (appendNumericFields_closed _ _ HP); [done|]. intros n. not_summary. }
  destruct (gr_cpuinfo r) as [ci|]; [apply (foldl_closed (P ∘ cp_points) cpu_info); [done|]|].
  all: destruct (gr_times r) as [ti|]; [by apply (foldl_closed (P ∘ cp_points) cpu_times)|done].
Qed.

(** The points of the collector in its stages. *)
Lemma cpu_points_stages :
  cr_points (collectCPUMetrics r) =
  cp_points (cpu_details (match gr_percent r with Some values => cpu_percents (mkCpu cpu_counts ∅ f64_zero) 0 values | None => mkCpu cpu_counts ∅ f64_zero end)).
Proof. done. Qed.

Lemma collected_ok_impl (Q R : string → labels → Prop) points :
  (∀ name lbl, Q name lbl → R name lbl) → Forall (collected_ok Q) points → Forall (collected_ok R) points.
Proof. intros HQR Hp. eapply list.Forall_impl; [done|]. intros p []. split; auto. Qed.

Lemma cpu_points_ok : Forall (collected_ok summary_ok) (cr_points (collectCPUMetrics r)).
Proof.
  rewrite cpu_points_stages. apply cpu_details_closed.
  { intros points p Hp Hq. apply Forall_app. split; [done|]. by apply (collected_ok_impl _ _ [p] other_summary), Forall_singleton. }
  pose proof (collected_ok_impl _ _ _ other_summary cpu_counts_ok) as Hc.
  destruct (gr_percent r) as [pc|]; [by apply cpu_percents_ok|done].
Qed.

(** The usage of the last processor is the last point of that name, behind the
    counts and the usage of the others. *)
Definition usage_point (i : nat) (v : float64) : MetricPoint :=
  mkMetricPoint cpu_usage (clampPercent v) time_zero {["cpu"%string := cpu_name (Z.of_nat i)]}.

Lemma clampPercent_finite v : is_nan v = false → is_finite (clampPercent v) = true.
Proof.
  intros Hv. unfold clampPercent. destruct (f64_lt v f64_zero) eqn:E1; [done|]. destruct (f64_lt f64_hundred v) eqn:E2; [done|].
  unfold is_finite. rewrite Hv. destruct v as [|[]| |]; done.
Qed.

Lemma cpu_percents_snoc s i l v : cpu_percents s i (l ++ [v]) = cpu_percent (cpu_percents s i l) (i + length l) v.
Proof.
  revert s i. induction l as [|x l IH]; intros s i; simpl; [by rewrite Nat.add_0_r|]. rewrite IH. f_equal. lia.
Qed.

Lemma cpu_percents_points s i l :
  ∃ e, cp_points (cpu_percents s i l) = cp_points s ++ e ∧ Forall (λ p, ∃ j v, (i ≤ j < i + length l)%nat ∧ p = usage_point j v) e.
Proof.
  induction l as [|v l IH] using rev_ind; [exists []; by rewrite app_nil_r|]. destruct IH as (e & E & He).
  rewrite cpu_percents_snoc. simpl. rewrite E, length_app. simpl.
  assert (Forall (λ p, ∃ j v, (i ≤ j < i + (length l + 1))%nat ∧ p = usage_point j v) e) as He'.
  { eapply list.Forall_impl; [done|]. intros p (j & x & Hj & ->). exists j, x. split; [lia|done]. }
  unfold appendPoint. simpl. destruct (is_nan (clampPercent v) || is_inf (clampPercent v)).
  - by exists e.
  - eexists (e ++ [_]). rewrite (assoc_L (++)). split; [done|]. apply Forall_app. split; [done|]. apply Forall_singleton.
    exists (i + length l)%nat, v. split; [lia|]. unfold usage_point. by rewrite cloneStringMap_id.
Qed.

Lemma cpu_last_usage vs v :
  gr_percent r = Some (vs ++ [v]) → is_nan v = false →
  ∃ e1 e2, cr_points (collectCPUMetrics r) = e1 ++ usage_point (length vs) v :: e2 ∧
    Forall (λ p, mp_Name p ≠ cpu_usage) e2 ∧
    Forall (λ p, (mp_Name p ≠ cpu_usage) ∨ ∃ j x, (j < length vs)%nat ∧ p = usage_point j x) e1.
Proof.
  intros Hr Hv. rewrite cpu_points_stages, Hr, cpu_percents_snoc. simpl Nat.add.
  destruct (cpu_percents_points (mkCpu cpu_counts ∅ f64_zero) 0 vs) as (e & E & He).
  set (s := cpu_percent _ _ _). assert (cp_points s = (cpu_counts ++ e) ++ [usage_point (length vs) v]) as Hs.
  { unfold s. simpl. rewrite E. simpl. unfold appendPoint. apply clampPercent_finite, andb_true_iff in Hv as [E1 E2].
    apply negb_true_iff in E1, E2. simpl. rewrite E1, E2. simpl. unfold usage_point. by rewrite cloneStringMap_id. }
  assert (∃ e2, cp_points (cpu_details s) = cp_points s ++ e2 ∧ Forall (collected_ok other_ok) e2) as (e2 & E2 & He2).
  { apply (cpu_details_closed (λ l, ∃ e2, l = cp_points s ++ e2 ∧ Forall (collected_ok other_ok) e2)); [|exists []; by rewrite app_nil_r].
    intros points p (e2 & -> & He2) Hp. exists (e2 ++ [p]). rewrite (assoc_L (++)). split; [done|]. by apply Forall_snoc_closed. }
  exists (cpu_counts ++ e), e2. rewrite E2, Hs, <-(assoc_L (++)). split_and!; [done| |].
  - eapply list.Forall_impl; [done|]. by intros p [_ _ _ [Hn _]].
  - apply Forall_app. split.
    + eapply list.Forall_impl; [apply cpu_counts_ok|]. intros p [_ _ _ [Hn _]]. by left.
    + eapply list.Forall_impl; [done|]. intros p (j & x & Hj & ->). right. exists j, x. split; [lia|done].
Qed.

Lemma memory_points_ok : Forall (collected_ok other_ok) (cr_points (collectMemoryMetrics r)).
Proof.
  unfold collectMemoryMetrics. destruct (gr_memory r); [|constructor]. simpl. apply appendNumericFields_Forall; [constructor|].
  intros n. name_cases.
Qed.

Lemma swap_points_ok : Forall (collected_ok other_ok) (cr_points (collectSwapMetrics r)).
Proof.
  unfold collectSwapMetrics. destruct (gr_swap r); [|constructor]. simpl. apply appendNumericFields_Forall; [constructor|].
  intros n. name_cases.
Qed.

Lemma load_points_ok : Forall (collected_ok other_ok) (cr_points (collectLoadMetrics r)).
Proof.
  unfold collectLoadMetrics. destruct (gr_avg r), (gr_misc r); cbn [cr_points collected];
    repeat first [constructor | apply appendNumericFields_Forall; [|intros; name_cases]
                 | apply appendPoint_Forall; [|not_summary]].
Qed.

Lemma filesystem_points_ok : Forall (collected_ok other_ok) (cr_points (collectFilesystemMetrics GOOS drive r)).
Proof.
  unfold collectFilesystemMetrics. destruct (gr_partitions r) as [l|]; [|constructor]. cbv zeta.
  set (ps := if existsb _ l then _ else _).
  pose proof (foldl_Forall other_ok (filesystem_step r) (λ a, a.1.1.1) ([], [], 0, ∅) ps) as Hf.
  destruct (foldl _ _ _) as [[[points metrics] failures] seen]. simpl in *. apply Hf; [|constructor].
  intros [[[pts ms] fl] sn] p Hp. unfold filesystem_step. case_bool_decide; [done|].
  destruct (gr_usage r _); [|done]. simpl. unfold appendFilesystemUsage.
  repeat (apply appendPoint_Forall; [|not_summary]). done.
Qed.

Lemma disk_io_points_ok : Forall (collected_ok other_ok) (cr_points (collectDiskIOMetrics r)).
Proof.
  unfold collectDiskIOMetrics. destruct (gr_disks r) as [m|]; [|constructor]. cbn [cr_points collected].
  apply (foldl_Forall _ _ id); [|constructor]. intros pts [n v] Hp. apply appendNumericFields_Forall; [done|].
  intros f. name_cases.
Qed.

Lemma network_points_ok : Forall (collected_ok other_ok) (cr_points (collectNetworkMetrics r)).
Proof.
  unfold collectNetworkMetrics. destruct (gr_net r) as [l|]; [|constructor]. cbv zeta.
  pose proof (foldl_Forall other_ok net_io_step fst ([], ∅) l) as H1. destruct (foldl net_io_step _ _) as [p1 m1]. simpl in H1.
  assert (Forall (collected_ok other_ok) p1) as Hp1.
  { apply H1; [|constructor]. intros a v Ha. simpl. apply appendNumericFields_Forall; [done|]. intros n. not_summary. }
  clear H1. destruct (match gr_interfaces r with Some _ => _ | None => _ end) as [p2 m2] eqn:E2.
  assert (Forall (collected_ok other_ok) p2) as Hp2.
  { destruct (gr_interfaces r) as [li|]; [|by injection E2 as <- _].
    pose proof (foldl_Forall other_ok interface_step fst (p1, m1) li) as H1. rewrite E2 in H1. apply H1; [|done].
    intros a v Ha. simpl. repeat (apply appendPoint_Forall; [|not_summary]). done. }
  clear E2. destruct (match gr_protocols r with Some _ => _ | None => _ end) as [p3 m3] eqn:E3.
  assert (Forall (collected_ok other_ok) p3) as Hp3.
  { destruct (gr_protocols r) as [lp|]; [|by injection E3 as <- _]. injection E3 as <- _.
    apply (foldl_Forall _ protocol_step id); [|done]. intros a b Ha. unfold protocol_step. apply (foldl_Forall _ _ id); [|done].
    intros a' [n v] Ha'. apply appendPoint_Forall; [done|]. not_summary. }
  clear E3. set (zero := pb.mkNetworkConntrackMetrics _ _ _ _ _ _ _ _ _ _ _ _ _ _ _ _ _ _ _).
  destruct (match gr_filters r with Some _ => _ | None => _ end) as [p4 m4] eqn:E4.
  assert (Forall (collected_ok other_ok) p4) as Hp4.
  { destruct (gr_filters r) as [lf|]; [|by injection E4 as <- _].
    pose proof (foldl_Forall other_ok filter_step fst (p3, zero) lf) as H1. rewrite E4 in H1. apply H1; [|done].
    intros a v Ha. simpl. apply appendNumericFields_Forall; [done|]. intros n. name_cases. }
  clear E4. destruct (match gr_conntrack r with Some _ => _ | None => _ end) as [p5 m5] eqn:E5.
  simpl. destruct (gr_conntrack r) as [lc|]; [|by injection E5 as <- _].
  pose proof (foldl_Forall other_ok conntrack_step fst (p4, m4) lc) as H1. rewrite E5 in H1. apply H1; [|done].
  intros a v Ha. simpl. apply appendNumericFields_Forall; [done|]. intros n. name_cases.
Qed.

Lemma sensor_points_ok : Forall (collected_ok other_ok) (cr_points (collectSensorMetrics r)).
Proof.
  unfold collectSensorMetrics. destruct (gr_sensors r) as [l|]; [|constructor]. cbn [cr_points collected].
  apply (foldl_Forall _ _ id); [|constructor]. intros pts v Hp. apply appendNumericFields_Forall; [done|].
  intros f. name_cases.
Qed.

(** Every collector but that of the processors keeps off their usage. *)
Lemma collector_points_ok name run :
  (name, run) ∈ collectors GOOS drive → Forall (collected_ok (if str_eqb name "cpu" then summary_ok else other_ok)) (cr_points (run r)).
Proof.
  unfold collectors. rewrite !elem_of_cons, elem_of_nil. intros Hin.
  repeat (destruct Hin as [Hin|Hin]; [injection Hin as -> ->|]); [..|done]; cbv [str_eqb]; rewrite ?bool_decide_false, ?bool_decide_true by done;
    auto using host_points_ok, cpu_points_ok, memory_points_ok, swap_points_ok, load_points_ok, filesystem_points_ok,
      disk_io_points_ok, network_points_ok, sensor_points_ok.
Qed.

Lemma collector_name_ok name run : (name, run) ∈ collectors GOOS drive → cr_name (run r) = name.
Proof.
  unfold collectors. rewrite !elem_of_cons, elem_of_nil. intros Hin.
  repeat (destruct Hin as [Hin|Hin]; [injection Hin as -> ->|]); [..|done];
    unfold collectHostMetrics, collectMemoryMetrics, collectSwapMetrics, collectFilesystemMetrics, collectDiskIOMetrics, collectNetworkMetrics,
      collectLoadMetrics, collectSensorMetrics; try done; repeat (case_match; simpl; try done).
Qed.

(** ** A collection of a round of readings

    The results are those of the collectors, whatever their duration. *)

Definition genuine (res : collectorResult) : Prop :=
  ∃ name run duration late, (name, run) ∈ collectors GOOS drive ∧ res = timed (run r) duration late.

Lemma usable_genuine rs n res :
  Forall genuine rs → usable rs n = Some res → n ≠ "cpu"%string → Forall (collected_ok other_ok) (cr_points res).
Proof.
  unfold usable, result_of. destruct (find_first _ rs) as [x|] eqn:E; [|done]. destruct (_ =? 0); [done|]. intros Hg [= ->] Hn.
  apply find_first_Some in E as [Hin Hx%str_eqb_true]. rewrite list.Forall_forall in Hg.
  destruct (Hg _ Hin) as (name & run & d & l & Hc & ->). simpl in *. pose proof (collector_points_ok _ _ Hc) as Hp.
  rewrite (collector_name_ok _ _ Hc) in Hx. subst n. unfold str_eqb in Hp. by rewrite bool_decide_false in Hp.
Qed.

Lemma usable_cpu rs d late :
  NoDup (cr_name <$> rs) → timed (collectCPUMetrics r) d late ∈ rs → cr_points (collectCPUMetrics r) ≠ [] →
  usable rs "cpu" = Some (timed (collectCPUMetrics r) d late).
Proof.
  intros Hd Hin Hne. unfold usable, result_of. rewrite (find_first_unique _ _ (timed (collectCPUMetrics r) d late)); [|done|done|].
  - cbn [cr_points timed]. by destruct (cr_points (collectCPUMetrics r)).
  - intros y Hy Hk%str_eqb_true. apply (NoDup_fmap_1 cr_name rs) in Hd as Hd'.
    apply list_elem_of_lookup in Hin as [i Hi], Hy as [j Hj]. apply (NoDup_lookup _ i j (cr_name y)) in Hd as <-; [congruence|..];
      rewrite list_lookup_fmap, ?Hi, ?Hj; simpl; by rewrite ?Hk.
Qed.

Definition later_names : list string := ["memory"; "swap"; "load"; "filesystem"; "disk_io"; "network"; "sensors"]%string.

(** The points of a collection that includes the processors. *)
Lemma collection_points rs rest c d late :
  Forall genuine rs → NoDup (cr_name <$> rs) → timed (collectCPUMetrics r) d late ∈ rs → cr_points (collectCPUMetrics r) ≠ [] →
  concluded GOOS drive rs rest → collectExtendedMetrics GOOS drive ((Arrived <$> rs) ++ rest) = Some c →
  ∃ before after, co_points c = before ++ cr_points (collectCPUMetrics r) ++ after ∧
    Forall (collected_ok other_ok) before ∧ Forall (collected_ok other_ok) after.
Proof.
  intros Hg Hd Hin Hne Hc E.
  assert ((cr_name <$> rs) ⊆ collector_names GOOS drive) as Hs.
  { intros x (res & -> & Hr)%list_elem_of_fmap. rewrite list.Forall_forall in Hg. destruct (Hg _ Hr) as (n & run & d' & l & Hc' & ->).
    simpl. rewrite (collector_name_ok _ _ Hc'). by apply (list_elem_of_fmap_2 fst) in Hc'. }
  rewrite (collected_parts _ _ _ _ Hd Hs Hc) in E. apply (inj Some) in E as <-. cbn [co_points]. set (f := λ n, from_option cr_points [] (usable rs n)).
  assert (∀ l, "cpu"%string ∉ l → Forall (collected_ok other_ok) (concat (f <$> l))) as Hf.
  { intros l Hl. apply Forall_concat, Forall_fmap, list.Forall_forall. intros n Hn. unfold f. simpl. destruct (usable rs n) as [res|] eqn:Eu; [|constructor].
    eapply usable_genuine; [done..|]. by intros ->. }
  exists (f "host"%string), (concat (f <$> later_names)).
  change (collector_names GOOS drive) with ("host" :: "cpu" :: later_names)%string.
  assert (f "cpu"%string = cr_points (collectCPUMetrics r)) as Ef by (unfold f; by rewrite (usable_cpu _ _ _ Hd Hin Hne)).
  rewrite !fmap_cons. cbn [concat]. rewrite Ef. split_and!; [done| |].
  - rewrite <-(app_nil_r (f "host"%string)). apply (Hf ["host"%string]), (bool_decide_unpack _). vm_compute. exact I.
  - apply Hf, (bool_decide_unpack _). vm_compute. exact I.
Qed.

End points.

(** ** Examples *)

Section examples.
#[local] Existing Instance UnicodeCase_ascii.
#[local] Existing Instance MapOrder_keys.

(** A machine with an idle and a busy processor; most queries fail. *)
Definition ex_readings : readings :=
  mkReadings None (Some 2) None (Some [f64_zero; f64_hundred]) None None None None
    (Some (mkAvgStat f64_hundred f64_zero f64_zero)) None None (λ _, None) None None None None None None None.

(** Two collectors are in, in the opposite order, when the deadline fires. *)
Definition ex_results : list collectorResult :=
  [timed (collectLoadMetrics ex_readings) 2000000 false; timed (collectCPUMetrics ex_readings) 5000000 false].
Definition ex_collection : option collection :=
  collectExtendedMetrics "linux" "" ((Arrived <$> ex_results) ++ [DeadlineExceeded]).

Lemma ex_results_ok : NoDup (cr_name <$> ex_results) ∧ (cr_name <$> ex_results) ⊆ collector_names "linux" "".
Proof. split; [apply (bool_decide_unpack _); vm_compute; exact I|]. apply (bool_decide_unpack _). vm_compute. exact I. Qed.

Lemma collect_assembled_witness :
  (λ c, (co_capabilities c, cs_State <$> take 3 (co_collectors c))) <$> ex_collection =
  Some (["collector:cpu"; "collector:load"]%string, [CollectorStateUnavailable; CollectorStateDegraded; CollectorStateUnavailable]).
Proof.
  destruct ex_results_ok as [Hd Hs].
  destruct (proj2 (collect_assembled "linux" "" ex_results [DeadlineExceeded] Hd Hs) (or_intror eq_refl)) as (c & E & Hc & _ & Hk & _). unfold ex_collection. rewrite E. simpl.
  rewrite Hc, Hk. vm_compute. reflexivity.
Defined.

End examples.
