(* ===== verification/Calendar.v ===== *)
(** * Dates

    What the program uses of [time.Time.Format]: the civil date of an instant and
    the layout RFC 3339, which the health checks of the servers print, with a
    reader for it.  The calendar is the proleptic Gregorian one, as in Go; day 0 is
    the first of January of the year 1, the zero of [time.Time]. *)

From stdpp Require Import list strings pretty.
From Stdlib Require Import Ascii.
From S2P Require Import Prelude GoRuntime GoStrings.
Local Open Scope Z_scope.

(** ** Civil dates *)

Record Date := mkDate { da_Year : Z; da_Month : Z; da_Day : Z }.

Definition is_leap (y : Z) : bool := (y mod 4 =? 0) && (negb (y mod 100 =? 0) || (y mod 400 =? 0)).
Definition year_days (y : Z) : Z := if is_leap y then 366 else 365.
Definition month_days (y : Z) : list Z := [31; if is_leap y then 29 else 28; 31; 30; 31; 30; 31; 31; 30; 31; 30; 31].

(** The year of a day and the day of the year, by cycles of 400, 100, 4 and 1
    years; the last year of a cycle can be a day longer. *)
Definition year_day (day : Z) : Z * Z :=
  let n400 := day / 146097 in let d := day - 146097 * n400 in
  let n100 := Z.min 3 (d / 36524) in let d := d - 36524 * n100 in
  let n4 := d / 1461 in let d := d - 1461 * n4 in
  let n1 := Z.min 3 (d / 365) in let d := d - 365 * n1 in
  (400 * n400 + 100 * n100 + 4 * n4 + n1 + 1, d).

Fixpoint month_day (months : list Z) (m d : Z) : Z * Z :=
  match months with
  | [] => (m, d)
  | n :: months => if d <? n then (m, d) else month_day months (m + 1) (d - n)
  end.

Definition date (day : Z) : Date :=
  let '(y, d) := year_day day in let '(m, d) := month_day (month_days y) 1 d in mkDate y m (d + 1).

(** The days before a year, and the day of a date. *)
Definition before_year (y : Z) : Z := 365 * (y - 1) + (y - 1) / 4 - (y - 1) / 100 + (y - 1) / 400.
Definition day_of (d : Date) : Z :=
  before_year (da_Year d) + foldr Z.add 0 (take (Z.to_nat (da_Month d - 1)) (month_days (da_Year d))) + da_Day d - 1.

Definition date_ok (d : Date) : Prop :=
  1 ≤ da_Month d ≤ 12 ∧ ∃ n, month_days (da_Year d) !! Z.to_nat (da_Month d - 1) = Some n ∧ 1 ≤ da_Day d ≤ n.

Lemma year_cycles a b c e :
  0 ≤ b ≤ 3 → 0 ≤ c ≤ 24 → 0 ≤ e ≤ 3 → let y := 400 * a + 100 * b + 4 * c + e + 1 in
  before_year y = 146097 * a + 36524 * b + 1461 * c + 365 * e ∧
  is_leap y = bool_decide (e = 3 ∧ (c = 24 → b = 3)).
Proof.
  intros Hb Hc He y. unfold before_year, is_leap, y. split.
  - replace (400 * a + 100 * b + 4 * c + e + 1 - 1) with (400 * a + 100 * b + 4 * c + e) by lia.
    assert ((400 * a + 100 * b + 4 * c + e) / 4 = 100 * a + 25 * b + c) as -> by (symmetry; apply Z.div_unique with e; lia).
    assert ((400 * a + 100 * b + 4 * c + e) / 100 = 4 * a + b) as -> by (symmetry; apply Z.div_unique with (4 * c + e); lia).
    assert ((400 * a + 100 * b + 4 * c + e) / 400 = a) as -> by (symmetry; apply Z.div_unique with (100 * b + 4 * c + e); lia). lia.
  - apply eq_true_iff_eq. rewrite andb_true_iff, orb_true_iff, negb_true_iff, !Z.eqb_eq, Z.eqb_neq, bool_decide_eq_true. Z.to_euclidean_division_equations. lia.
Qed.

(** One level of the cycles: [q] parts of [n] days, the last one up to a day longer. *)
Lemma cycle_spec d n k q :
  0 < n → 0 ≤ d ≤ n * (k + 1) → q = Z.min k (d / n) → 0 ≤ k →
  0 ≤ q ≤ k ∧ 0 ≤ d - n * q ≤ n ∧ (q < k → d - n * q < n).
Proof. intros Hn Hd -> Hk. pose proof (Z.div_mod d n ltac:(lia)). pose proof (Z.mod_pos_bound d n Hn). pose proof (Z.div_pos d n). nia. Qed.

Lemma year_day_spec day y d : year_day day = (y, d) → before_year y + d = day ∧ 0 ≤ d < year_days y.
Proof.
  unfold year_day. set (a := day / 146097). set (d1 := day - 146097 * a).
  assert (0 ≤ d1 < 146097) by (unfold d1, a; pose proof (Z.div_mod day 146097 ltac:(lia)); pose proof (Z.mod_pos_bound day 146097 ltac:(lia)); lia).
  destruct (cycle_spec d1 36524 3 (Z.min 3 (d1 / 36524))) as (Hb & Hd2 & Hb3); [lia..|done|lia|].
  set (b := Z.min 3 (d1 / 36524)) in *. set (d2 := d1 - 36524 * b) in *.
  assert (0 ≤ d2 / 1461 ≤ 24 ∧ 0 ≤ d2 - 1461 * (d2 / 1461) < 1461) as [Hc Hd3] by (pose proof (Z.div_mod d2 1461 ltac:(lia)); pose proof (Z.mod_pos_bound d2 1461 ltac:(lia)); lia).
  set (c := d2 / 1461) in *. set (d3 := d2 - 1461 * c) in *.
  destruct (cycle_spec d3 365 3 (Z.min 3 (d3 / 365))) as (He & Hd4 & He3); [lia..|done|lia|]. set (e := Z.min 3 (d3 / 365)) in *.
  intros [= <- <-]. destruct (year_cycles a b c e) as [-> Hl]; [lia..|]. unfold year_days. rewrite Hl. split; [lia|]. case_bool_decide; lia.
Qed.

Lemma month_day_spec months m0 d m r :
  month_day months m0 d = (m, r) → 0 ≤ d < foldr Z.add 0 months →
  m0 ≤ m < m0 + Z.of_nat (length months) ∧ foldr Z.add 0 (take (Z.to_nat (m - m0)) months) + r = d ∧
  ∃ n, months !! Z.to_nat (m - m0) = Some n ∧ 0 ≤ r < n.
Proof.
  revert m0 d. induction months as [|n months IH]; intros m0 d; simpl; [lia|].
  destruct (Z.ltb_spec d n); intros E Hd.
  - injection E as <- <-. rewrite Z.sub_diag. simpl. split_and!; [lia..|]. eauto with lia.
  - apply IH in E as (Hm & Hs & k & Hk & Hr); [|lia]. replace (Z.to_nat (m - m0)) with (S (Z.to_nat (m - (m0 + 1)))) by lia. simpl.
    split_and!; [lia..|]. eauto.
Qed.

Lemma month_days_sum y : foldr Z.add 0 (month_days y) = year_days y.
Proof. unfold month_days, year_days. by destruct (is_leap y). Qed.

(** The date of a day is a date, and it is that day's. *)
Theorem date_spec day : date_ok (date day) ∧ day_of (date day) = day.
Proof.
  unfold date. destruct (year_day day) as [y d] eqn:Ey. apply year_day_spec in Ey as [Hy Hd].
  destruct (month_day (month_days y) 1 d) as [m r] eqn:Em. rewrite <-month_days_sum in Hd.
  destruct (month_day_spec _ _ _ _ _ Em Hd) as (Hm & Hs & n & Hn & Hr). simpl in Hm.
  split; [|unfold day_of; cbn [da_Year da_Month da_Day]; lia]. split; simpl; [lia|]. exists n. split; [done|lia].
Qed.

Lemma month_days_le y i n : month_days y !! i = Some n → n ≤ 31.
Proof. intros Hn. unfold month_days in Hn. repeat (destruct i as [|i]; [injection Hn as <-; destruct (is_leap y); lia|]). done. Qed.

Lemma before_year_mono y y' : y ≤ y' → before_year y ≤ before_year y'.
Proof.
  intros Hy. unfold before_year. pose proof (Z.div_mod (y - 1) 4 ltac:(lia)). pose proof (Z.div_mod (y - 1) 100 ltac:(lia)). pose proof (Z.div_mod (y - 1) 400 ltac:(lia)).
  pose proof (Z.div_mod (y' - 1) 4 ltac:(lia)). pose proof (Z.div_mod (y' - 1) 100 ltac:(lia)). pose proof (Z.div_mod (y' - 1) 400 ltac:(lia)).
  pose proof (Z.mod_pos_bound (y - 1) 4 ltac:(lia)). pose proof (Z.mod_pos_bound (y - 1) 100 ltac:(lia)). pose proof (Z.mod_pos_bound (y - 1) 400 ltac:(lia)).
  pose proof (Z.mod_pos_bound (y' - 1) 4 ltac:(lia)). pose proof (Z.mod_pos_bound (y' - 1) 100 ltac:(lia)). pose proof (Z.mod_pos_bound (y' - 1) 400 ltac:(lia)).
  lia.
Qed.

(** The years 1 to 9999. *)
Lemma date_year day : 0 ≤ day < before_year 10000 → 1 ≤ da_Year (date day) < 10000.
Proof.
  intros Hd. unfold date. destruct (year_day day) as [y d] eqn:Ey. apply year_day_spec in Ey as [Hy Hr]. destruct (month_day _ _ _). simpl.
  assert (year_days y ≤ 366) by (unfold year_days; destruct (is_leap y); lia). split.
  - apply Z.nlt_ge. intros Hlt. pose proof (before_year_mono y 0 ltac:(lia)). change (before_year 0) with (-366) in *. lia.
  - apply Z.nle_gt. intros Hge. pose proof (before_year_mono 10000 y Hge). lia.
Qed.

(** ** The layout *)

Definition dec (n : Z) : ascii := hex_digit (n mod 10).
Fixpoint decimal (w : nat) (n : Z) : list ascii := match w with O => [] | S w => decimal w (n / 10) ++ [dec n] end.

(** [t.Format(time.RFC3339)] of an instant in UTC. *)
Definition FormatRFC3339 (t : Time) : string :=
  let sec := t / Second in
  let d := date (sec / 86400) in let s := sec mod 86400 in
  of_bytes ((if da_Year d <? 10000 then decimal 4 (da_Year d) else bytes (pretty (da_Year d))) ++ bytes "-" ++ decimal 2 (da_Month d) ++
    bytes "-" ++ decimal 2 (da_Day d) ++ bytes "T" ++ decimal 2 (s / 3600) ++ bytes ":" ++ decimal 2 (s mod 3600 / 60) ++ bytes ":" ++
    decimal 2 (s mod 60) ++ bytes "Z").

(** The health report of both servers, from the clock's reading. *)
Definition health_report (now : Time) : list (string * string) :=
  [("status", "ok"); ("time", FormatRFC3339 now)]%string.

(** A reader of what a monitor gets: a timestamp of that layout, in UTC. *)
Definition field (off len : nat) (l : list ascii) : option Z := parse_nat (take len (drop off l)).
Definition ReadRFC3339 (s : string) : option Time :=
  let l := bytes s in
  if bool_decide (length l = 20%nat ∧ take 1 (drop 4 l) = bytes "-" ∧ take 1 (drop 7 l) = bytes "-" ∧ take 1 (drop 10 l) = bytes "T" ∧
    take 1 (drop 13 l) = bytes ":" ∧ take 1 (drop 16 l) = bytes ":" ∧ drop 19 l = bytes "Z") then
    y ← field 0 4 l; m ← field 5 2 l; d ← field 8 2 l; hh ← field 11 2 l; mm ← field 14 2 l; ss ← field 17 2 l;
    Some ((day_of (mkDate y m d) * 86400 + hh * 3600 + mm * 60 + ss) * Second)
  else None.

Lemma parse_digits_app acc l l' : parse_digits acc (l ++ l') = parse_digits acc l ≫= λ a, parse_digits a l'.
Proof. revert acc. induction l as [|c l IH]; intros acc; simpl; [done|]. by destruct (_ && _). Qed.

Lemma dec_val n : byte_val (dec n) = 48 + n mod 10.
Proof.
  unfold dec. pose proof (Z.mod_pos_bound n 10 ltac:(lia)). generalize dependent (n mod 10). intros r Hr.
  assert (r = 0 ∨ r = 1 ∨ r = 2 ∨ r = 3 ∨ r = 4 ∨ r = 5 ∨ r = 6 ∨ r = 7 ∨ r = 8 ∨ r = 9) as Hc by lia.
  repeat (destruct Hc as [->|Hc]; [reflexivity|]). by subst r.
Qed.

Lemma parse_digits_decimal w n acc : 0 ≤ n < 10 ^ Z.of_nat w → parse_digits acc (decimal w n) = Some (10 ^ Z.of_nat w * acc + n).
Proof.
  revert n acc. induction w as [|w IH]; intros n acc Hn; cbn [decimal].
  - simpl in *. f_equal. lia.
  - pose proof (Z.div_mod n 10 ltac:(lia)). pose proof (Z.mod_pos_bound n 10 ltac:(lia)).
    rewrite Nat2Z.inj_succ, Z.pow_succ_r in * by lia. rewrite parse_digits_app, IH by lia. simpl. rewrite dec_val.
    destruct (Z.leb_spec 48 (48 + n mod 10)), (Z.leb_spec (48 + n mod 10) 57); simpl; [f_equal|..]; lia.
Qed.

Lemma parse_decimal w n : 0 ≤ n < 10 ^ Z.of_nat (S w) → parse_nat (decimal (S w) n) = Some n.
Proof.
  intros Hn. unfold parse_nat. destruct (decimal (S w) n) eqn:E; [simpl in E; by apply app_eq_nil in E as [_ E]|].
  rewrite <-E, parse_digits_decimal by done. f_equal. lia.
Qed.

(** A timestamp read back is the instant, to the second: within the years 1 to 9999
    the layout loses nothing else. *)
Theorem FormatRFC3339_read t :
  0 ≤ t < before_year 10000 * 86400 * Second → ReadRFC3339 (FormatRFC3339 t) = Some (t - t mod Second).
Proof.
  intros Ht. unfold FormatRFC3339. set (sec := t / Second).
  pose proof (Z.div_mod t Second ltac:(done)). pose proof (Z.mod_pos_bound t Second ltac:(done)).
  assert (0 ≤ sec < before_year 10000 * 86400) as Hsec by (change Second with 1000000000 in *; unfold sec; lia).
  pose proof (Z.div_mod sec 86400 ltac:(lia)). pose proof (Z.mod_pos_bound sec 86400 ltac:(lia)).
  set (s := sec mod 86400) in *. set (d := date (sec / 86400)).
  destruct (date_spec (sec / 86400)) as [(Hm & n & Hn & Hd) Hday]. fold d in Hm, Hn, Hd, Hday. pose proof (month_days_le _ _ _ Hn).
  assert (1 ≤ da_Year d < 10000) as Hy by (apply date_year; lia).
  pose proof (Z.div_mod s 3600 ltac:(lia)). pose proof (Z.mod_pos_bound s 3600 ltac:(lia)).
  pose proof (Z.div_mod (s mod 3600) 60 ltac:(lia)). pose proof (Z.mod_pos_bound (s mod 3600) 60 ltac:(lia)).
  assert (s mod 60 = s mod 3600 mod 60) as Hss by (symmetry; apply Z.mod_mod_divide; by exists 60).
  rewrite (proj2 (Z.ltb_lt _ _)) by lia. unfold ReadRFC3339. rewrite bytes_of_bytes. rewrite bool_decide_true by (split_and!; reflexivity).
  set (l := decimal 4 _ ++ _).
  assert (field 0 4 l = Some (da_Year d)) as -> by (apply (parse_decimal 3); lia).
  assert (field 5 2 l = Some (da_Month d)) as -> by (apply (parse_decimal 1); lia).
  assert (field 8 2 l = Some (da_Day d)) as -> by (apply (parse_decimal 1); lia).
  assert (field 11 2 l = Some (s / 3600)) as -> by (apply (parse_decimal 1); lia).
  assert (field 14 2 l = Some (s mod 3600 / 60)) as -> by (apply (parse_decimal 1); lia).
  assert (field 17 2 l = Some (s mod 60)) as -> by (apply (parse_decimal 1); lia).
  simpl. replace (mkDate (da_Year d) (da_Month d) (da_Day d)) with d by (by destruct d). rewrite Hday. f_equal. change Second with 1000000000 in *. lia.
Qed.

Example format_example : FormatRFC3339 ((before_year 2024 + 59) * 86400 * Second + 3661 * Second + 7) = "2024-02-29T01:01:01Z"%string.
Proof. vm_compute. reflexivity. Qed.
