(* ===== verification/Ingest.v ===== *)
(** * The ingest service

    Models [server/internal/ingest/service/service.go] against the interfaces:
    registration, tenant allocation, the pipeline of a metric batch, event and
    probe reports, the counters and the offline reconciliation. *)

From stdpp Require Import gmap strings list.
From S2P Require Import Prelude GoRuntime GoStrings Contracts Access Sql HostStore HostStoreProps MetricValidation MetricWindow.
From S2P Require Import EventBus Interfaces Calendar.
Local Open Scope Z_scope.

Record Counters := mkCounters {
  ct_MetricBatches : Z;
  ct_EventBatches : Z;
  ct_ProbeReports : Z
}.

(** The service's own state beside everything it talks to. *)
Record Svc (S : Type) := mkSvc { sv_env : S; sv_stats : Counters }.
Arguments mkSvc {S} _ _.
Arguments sv_env {S} _.
Arguments sv_stats {S} _.

(** A call of a store or of the bus. *)
Definition env {S A} (m : ST S A) : ST (Svc S) A := λ s,
  let '(r, e) := m (sv_env s) in (r, mkSvc e (sv_stats s)).
(** A locked update of the counters. *)
Definition count {S} (f : Counters → Counters) : ST (Svc S) unit := λ s,
  (Ok (), mkSvc (sv_env s) (f (sv_stats s))).

Definition incr_metrics (c : Counters) : Counters := mkCounters (int64_incr (ct_MetricBatches c)) (ct_EventBatches c) (ct_ProbeReports c).
Definition incr_events (c : Counters) : Counters := mkCounters (ct_MetricBatches c) (int64_incr (ct_EventBatches c)) (ct_ProbeReports c).
Definition incr_probes (c : Counters) : Counters := mkCounters (ct_MetricBatches c) (ct_EventBatches c) (int64_incr (ct_ProbeReports c)).

Section service.
Context {S : Type} `{HostStateStore S} `{MetricWindow S} `{EventPublisher S} `{Runtime S}.
Context `{UnicodeTables} `{MapRange} `{GoArch}.

Definition RegisterAgent (req : RegisterAgentRequest) : ST (Svc S) RegisterAgentResponse :=
  now ← env clock_Now;
  '(snapshot, config, tenantCode) ← env (hss_RegisterAgent req now);
  env (eb_PublishHostUpsert snapshot);;
  id ← env (ids_new "req");
  mret (mkRegisterAgentResponse id "registered" (hs_HostUID snapshot) tenantCode config).

Definition AllocateInstallTenant : ST (Svc S) AllocateInstallTenantResponse :=
  tenantCode ← env hss_AllocateTenant;
  id ← env (ids_new "req");
  mret (mkAllocateInstallTenantResponse id "tenant allocated" tenantCode).

Definition ack (message : string) : ST (Svc S) AckResponse :=
  id ← env (ids_new "req");
  now ← env clock_Now;
  mret (mkAckResponse id 0 message now).

(** The snapshot that is stored for the batch. *)
Definition batch_snapshot (req : PushMetricBatchRequest) (now : Time) : MetricSnapshot :=
  mkMetricSnapshot (if time_IsZero (pm_CollectedAt req) then now else pm_CollectedAt req)
    (pm_Points req) (pm_Collectors req).

Definition processMetricBatch (req : PushMetricBatchRequest) : ST (Svc S) AckResponse :=
  now ← env clock_Now;
  st_lift (validateMetricBatch req);;
  let digest := digestFromMetricBatch req in
  snapshot ← env (hss_ReportMetrics req digest now);
  env (mws_AppendHeartbeatMetrics (pm_HostUID req) now digest);;
  env (mws_SaveMetricSnapshot (pm_HostUID req) (batch_snapshot req now));;
  env (eb_PublishHostUpsert snapshot);;
  count incr_metrics;;
  ack "metrics accepted".

Definition PushMetricBatch (req : PushMetricBatchRequest) : ST (Svc S) AckResponse := processMetricBatch req.

Definition PushEventBatch (req : PushEventBatchRequest) : ST (Svc S) AckResponse :=
  count incr_events;; ack "events accepted".

Definition ReportProbeResults (req : ReportProbeResultsRequest) : ST (Svc S) AckResponse :=
  count incr_probes;; ack "probe results accepted".

Definition Health : ST (Svc S) (list (string * string)) := now ← env clock_Now; mret (health_report now).

Definition Stats : ST (Svc S) Counters := λ s, (Ok (sv_stats s), s).

Fixpoint publish_all (l : list HostSnapshot) : ST (Svc S) unit :=
  match l with
  | [] => mret ()
  | snapshot :: l => env (eb_PublishHostUpsert snapshot);; publish_all l
  end.

Definition ReconcileOfflineHosts : ST (Svc S) Z :=
  now ← env clock_Now;
  changed ← env (hss_ReconcileOffline now);
  publish_all changed;;
  mret (llen changed).

(** ** Properties *)

(** The environment after the clock has been read. *)
Definition after_clock (s : Svc S) : S := (rt_Now (sv_env s)).2.

(** A batch that fails validation is rejected before anything is called: no
    store, no metric window and no subscriber sees it and the counters stay. *)
Theorem ingest_invalid_batch_no_effect req e s :
  validateMetricBatch req = Err e →
  processMetricBatch req s = (Err e, mkSvc (after_clock s) (sv_stats s)).
Proof.
  intros Hv. unfold processMetricBatch, after_clock, mbind, ST_bind, env, clock_Now, st_lift.
  destruct (rt_Now (sv_env s)) as [now e0]. by rewrite Hv.
Qed.

Lemma env_stats {A} (m : ST S A) s r s' : env m s = (r, s') → sv_stats s' = sv_stats s ∧ m (sv_env s) = (r, sv_env s').
Proof. unfold env. destruct (m (sv_env s)) as [r0 e]. by intros [= <- <-]. Qed.

Lemma bind_inv {T A B} (m : ST T A) (f : A → ST T B) s r s' :
  (m ≫= f) s = (r, s') →
  (∃ a s1, m s = (Ok a, s1) ∧ f a s1 = (r, s')) ∨ (∃ e, m s = (Err e, s') ∧ r = Err e).
Proof.
  unfold mbind, ST_bind. destruct (m s) as [[a|e] s1]; [by eauto|]. intros [= <- <-]. eauto.
Qed.

Lemma ack_stats message s r s' : ack message s = (r, s') → is_ok r = true ∧ sv_stats s' = sv_stats s.
Proof.
  unfold ack, mbind, ST_bind, mret, ST_ret, env, ids_new, clock_Now.
  destruct (rt_NewID _ _) as [id e1]. simpl. destruct (rt_Now e1) as [t e2]. by intros [= <- <-].
Qed.

Lemma processMetricBatch_stats req s r s' :
  processMetricBatch req s = (r, s') →
  sv_stats s' = if is_ok r then incr_metrics (sv_stats s) else sv_stats s.
Proof.
  unfold processMetricBatch. intros E.
  apply bind_inv in E as [(now & s1 & [E1 _]%env_stats & E)|(e & [E1 _]%env_stats & ->)]; [|done].
  apply bind_inv in E as [([] & s2 & E2 & E)|(e & E2 & ->)]; unfold st_lift in E2; injection E2 as E2 <-; [|by simpl].
  cbv zeta in E.
  apply bind_inv in E as [(snap & s3 & [E3 _]%env_stats & E)|(e & [E3 _]%env_stats & ->)]; [|by rewrite E3].
  apply bind_inv in E as [([] & s4 & [E4 _]%env_stats & E)|(e & [E4 _]%env_stats & ->)]; [|by rewrite E4, E3].
  apply bind_inv in E as [([] & s5 & [E5 _]%env_stats & E)|(e & [E5 _]%env_stats & ->)]; [|by rewrite E5, E4, E3].
  apply bind_inv in E as [([] & s6 & [E6 _]%env_stats & E)|(e & [E6 _]%env_stats & ->)]; [|by rewrite E6, E5, E4, E3].
  apply bind_inv in E as [([] & s7 & E7 & E)|(e & E7 & ->)]; unfold count in E7; [|done]. injection E7 as <-.
  apply ack_stats in E as [-> ->]. simpl. by rewrite E6, E5, E4, E3, E1.
Qed.

(** ** Counting *)

Inductive request :=
| ReqMetrics (req : PushMetricBatchRequest)
| ReqEvents (req : PushEventBatchRequest)
| ReqProbes (req : ReportProbeResultsRequest).

Definition serve (q : request) : ST (Svc S) AckResponse :=
  match q with
  | ReqMetrics req => PushMetricBatch req
  | ReqEvents req => PushEventBatch req
  | ReqProbes req => ReportProbeResults req
  end.

(** The responses to a sequence of requests and the final state. *)
Fixpoint serve_all (qs : list request) (s : Svc S) : list (request * res AckResponse) * Svc S :=
  match qs with
  | [] => ([], s)
  | q :: qs =>
      let '(r, s) := serve q s in
      let '(rs, s) := serve_all qs s in ((q, r) :: rs, s)
  end.

Definition accepted_metrics (rs : list (request * res AckResponse)) : Z :=
  llen (select (λ '(q, r), match q with ReqMetrics _ => is_ok r | _ => false end) rs).
Definition event_requests (rs : list (request * res AckResponse)) : Z :=
  llen (select (λ '(q, r), match q with ReqEvents _ => true | _ => false end) rs).
Definition probe_requests (rs : list (request * res AckResponse)) : Z :=
  llen (select (λ '(q, r), match q with ReqProbes _ => true | _ => false end) rs).

Lemma serve_stats q s r s' :
  serve q s = (r, s') →
  sv_stats s' =
    match q with
    | ReqMetrics _ => if is_ok r then incr_metrics (sv_stats s) else sv_stats s
    | ReqEvents _ => incr_events (sv_stats s)
    | ReqProbes _ => incr_probes (sv_stats s)
    end.
Proof.
  destruct q; simpl.
  - apply processMetricBatch_stats.
  - unfold PushEventBatch. intros [([] & s1 & E & [_ ->]%ack_stats)|(e & E & _)]%bind_inv; unfold count in E; [|done]. by injection E as <-.
  - unfold ReportProbeResults. intros [([] & s1 & E & [_ ->]%ack_stats)|(e & E & _)]%bind_inv; unfold count in E; [|done]. by injection E as <-.
Qed.

Lemma to_int64_add a b : to_int64 (to_int64 a + b) = to_int64 (a + b).
Proof.
  unfold to_int64. f_equal.
  replace ((a + 2 ^ 63) mod 2 ^ 64 - 2 ^ 63 + b + 2 ^ 63) with ((a + 2 ^ 63) mod 2 ^ 64 + b) by lia.
  rewrite Z.add_mod_idemp_l by lia. f_equal. lia.
Qed.

Lemma int64_incr_add c n : to_int64 (int64_incr c + n) = to_int64 (c + (1 + n)).
Proof. unfold int64_incr. rewrite to_int64_add. f_equal. lia. Qed.

Definition counters_in_range (c : Counters) : Prop :=
  to_int64 (ct_MetricBatches c) = ct_MetricBatches c ∧ to_int64 (ct_EventBatches c) = ct_EventBatches c ∧
  to_int64 (ct_ProbeReports c) = ct_ProbeReports c.

Lemma int64_incr_range c : to_int64 (int64_incr c) = int64_incr c.
Proof. apply to_int64_id, to_int64_range. Qed.

(** The counters are exact: after any sequence of requests, with any failures,
    the metric counter has grown by the number of metric batches that were
    acknowledged, and the event and probe counters by the number of event and
    probe requests (modulo the width of an [int]). *)
Theorem ingest_counters_exact qs s rs s' :
  counters_in_range (sv_stats s) → serve_all qs s = (rs, s') →
  rs.*1 = qs ∧
  sv_stats s' = mkCounters (to_int64 (ct_MetricBatches (sv_stats s) + accepted_metrics rs))
    (to_int64 (ct_EventBatches (sv_stats s) + event_requests rs))
    (to_int64 (ct_ProbeReports (sv_stats s) + probe_requests rs)).
Proof.
  revert s rs. induction qs as [|q qs IH]; intros s rs (Hm & He & Hp) E; simpl in E.
  { injection E as <- <-. split; [done|]. unfold accepted_metrics, event_requests, probe_requests, llen; simpl.
    rewrite !Z.add_0_r, Hm, He, Hp. by destruct (sv_stats s). }
  destruct (serve q s) as [r s1] eqn:Es. destruct (serve_all qs s1) as [rs1 s2] eqn:Er. injection E as <- <-.
  apply serve_stats in Es.
  assert (counters_in_range (sv_stats s1)) as Hr1.
  { rewrite Es. destruct q; [destruct (is_ok r)|..]; unfold counters_in_range; simpl; rewrite ?int64_incr_range; done. }
  destruct (IH s1 rs1 Hr1 Er) as [<- ->]. split; [done|].
  unfold accepted_metrics, event_requests, probe_requests, llen. rewrite !select_cons, Es.
  destruct q; [destruct (is_ok r)|..]; simpl length; rewrite ?Nat2Z.inj_succ; unfold Z.succ; simpl;
    rewrite ?int64_incr_add; f_equal; f_equal; lia.
Qed.

End service.

(** ** The assembled service

    The application runs the service over the database and Redis together. *)

Record AppWorld := mkAppWorld { aw_sql : World; aw_redis : Redis }.

Section app.
Context `{Env} `{PgTypes} `{RedisEnv} `{JsonCodec} `{EventCodec} `{MetricRange}.
Context `{UnicodeTables} `{MapRange} `{GoArch}.
Context (st : PgStore) (ws : WindowStore) (channel : string).

Definition in_sql {A} (m : M A) : ST AppWorld A := λ a,
  let '(r, w) := m (aw_sql a) in (r, mkAppWorld w (aw_redis a)).
Definition in_redis {A} (m : ST Redis A) : ST AppWorld A := λ a,
  let '(r, x) := m (aw_redis a) in (r, mkAppWorld (aw_sql a) x).

#[local] Instance App_HostStateStore : HostStateStore AppWorld := {|
  hss_AllocateTenant := in_sql (AllocateTenant st);
  hss_RegisterAgent req now := in_sql (HostStore.RegisterAgent st req now);
  hss_Heartbeat req now := in_sql (Heartbeat st req now);
  hss_ReportMetrics req dg now := in_sql (ReportMetrics st req dg now);
  hss_ListHosts code := in_sql (ListHosts st code);
  hss_GetHost uid code := in_sql (GetHost st uid code);
  hss_ReconcileOffline now := in_sql (ReconcileOffline st now)
|}.
#[local] Instance App_MetricWindow : MetricWindow AppWorld := {|
  mws_AppendHeartbeatMetrics h now dg := in_redis (AppendHeartbeatMetrics ws h now dg);
  mws_SaveMetricSnapshot h snap := in_redis (SaveMetricSnapshot ws h snap);
  mws_GetMetricSnapshot h := in_redis (GetMetricSnapshot ws h);
  mws_GetHostMetricHistory h := in_redis (GetHostMetricHistory ws h);
  mws_GetAllHostMetricHistory hs := in_redis (GetAllHostMetricHistory ws hs)
|}.
#[local] Instance App_EventPublisher : EventPublisher AppWorld := {|
  eb_PublishHostUpsert snap := in_redis (PublishHostUpsert channel snap);
  eb_PublishHostDelete uid := in_redis (PublishHostDelete channel uid)
|}.
#[local] Instance App_Runtime : Runtime AppWorld := {|
  rt_Now a := (env_now (w_tick (aw_sql a)), mkAppWorld (tick (aw_sql a)) (aw_redis a));
  rt_NewID prefix a :=
    (ids_New (env_nano (w_tick (aw_sql a))) (env_rand (w_tick (aw_sql a)) 4) prefix,
     mkAppWorld (tick (aw_sql a)) (aw_redis a))
|}.

Definition app_db (s : Svc AppWorld) : DB := w_db (aw_sql (sv_env s)).
Definition app_seq (s : Svc AppWorld) : Seqs := w_seq (aw_sql (sv_env s)).
Definition app_keys (s : Svc AppWorld) : gmap string rvalue := rd_keys (aw_redis (sv_env s)).

Definition app_processMetricBatch (req : PushMetricBatchRequest) : ST (Svc AppWorld) AckResponse :=
  processMetricBatch req.

Lemma env_in_sql {A} (m : M A) s r s' :
  env (in_sql m) s = (r, s') →
  m (aw_sql (sv_env s)) = (r, aw_sql (sv_env s')) ∧ aw_redis (sv_env s') = aw_redis (sv_env s).
Proof. unfold env, in_sql. destruct (m _) as [r0 w]. by intros [= <- <-]. Qed.

Lemma env_in_redis {A} (m : ST Redis A) s r s' :
  env (in_redis m) s = (r, s') →
  m (aw_redis (sv_env s)) = (r, aw_redis (sv_env s')) ∧ aw_sql (sv_env s') = aw_sql (sv_env s).
Proof. unfold env, in_redis. destruct (m _) as [r0 w]. by intros [= <- <-]. Qed.

Lemma publish_keys snap r r' : PublishHostUpsert channel snap r = (Ok (), r') → rd_keys r' = rd_keys r.
Proof.
  unfold PublishHostUpsert. destruct (marshal_event _); [|done]. unfold publish.
  destruct (redis_fault _); [done|]. by intros [= <-].
Qed.

Lemma save_keys h snap r r' :
  SaveMetricSnapshot ws h snap r = (Ok (), r') →
  ∃ body, marshal_snapshot snap = Some body ∧ rd_keys r' = <[snapshotKey ws h := RString body]> (rd_keys r).
Proof.
  unfold SaveMetricSnapshot. destruct (marshal_snapshot snap) as [body|]; [|done].
  destruct (redis_fault _); [done|]. intros [= <-]. eauto.
Qed.

(** The bus carries what it is given and nothing else does. *)
Definition app_published (s : Svc AppWorld) : list (string * string) := rd_published (aw_redis (sv_env s)).

Lemma append_published h now dg r r' : AppendHeartbeatMetrics ws h now dg r = (Ok (), r') → rd_published r' = rd_published r.
Proof.
  unfold AppendHeartbeatMetrics. destruct (append_cmds _ _ _ _) as [cs|]; [|done]. unfold exec_pipe. destruct (redis_fault _); [done|].
  destruct (run_cmds cs _) as [[e|] keys]; [done|]. by intros [= <-].
Qed.
Lemma save_published h snap r r' : SaveMetricSnapshot ws h snap r = (Ok (), r') → rd_published r' = rd_published r.
Proof. unfold SaveMetricSnapshot. destruct (marshal_snapshot snap); [|done]. destruct (redis_fault _); [done|]. by intros [= <-]. Qed.

Lemma ack_env message s r s' :
  ack message s = (r, s') →
  w_db (aw_sql (sv_env s')) = w_db (aw_sql (sv_env s)) ∧ aw_redis (sv_env s') = aw_redis (sv_env s).
Proof. unfold ack, mbind, ST_bind, mret, ST_ret, env, ids_new, clock_Now. simpl. by intros [= <- <-]. Qed.

(** An acknowledged metric batch of a registered agent has been recorded
    everywhere, at one and the same time: it was valid, the host's status row
    holds its digest (and no other host's row changed), each of the sixteen
    metric windows of the host has the digest's value as its newest point and
    at most [maxPoints] points, the stored snapshot is the batch, and the host's
    new state was published, once. *)
Theorem ingest_batch_recorded req s ack s' :
  store_inv (app_db s) (app_seq s) → window_ok ws →
  pm_HostUID req ≠ ""%string → pm_AgentID req ≠ ""%string →
  known_agent (app_db s) (pm_HostUID req) (pm_AgentID req) →
  app_processMetricBatch req s = (Ok ack, s') →
  batch_ok req ∧
  ∃ now snap, let dg := digestFromMetricBatch req in
    digested dg now (app_db s) (pm_HostUID req) snap (app_db s') ∧
    (∀ k v, DigestMetricValues dg !! k = Some v → ∃ body rest,
       marshal_point (mkStatePoint now v) = Some body ∧
       app_keys s' !! metricKey ws (pm_HostUID req) k = Some (RList (body :: rest)) ∧
       (length (body :: rest) ≤ Z.to_nat (mw_maxPoints ws))%nat) ∧
    (∃ body, marshal_snapshot (batch_snapshot req now) = Some body ∧
      app_keys s' !! snapshotKey ws (pm_HostUID req) = Some (RString body)) ∧
    (∃ body, app_published s' = app_published s ++ [(channel, body)] ∧
      unmarshal_event body = Some (mkHostEvent HostEventUpsert (hs_HostUID snap) (Some snap))) ∧
    host_wf (app_db s').
Proof.
  intros HI Hws Hu Ha Hk E. unfold app_processMetricBatch, processMetricBatch in E.
  apply bind_inv in E as [(now & s1 & E1 & E)|(e & _ & ?)]; [|done].
  unfold env, clock_Now in E1. simpl in E1. injection E1 as <- <-.
  apply bind_inv in E as [([] & s2 & E2 & E)|(e & _ & ?)]; [|done]. unfold st_lift in E2. injection E2 as Hv <-.
  apply validateMetricBatch_ok in Hv. split; [done|]. cbv zeta in E. set (dg := digestFromMetricBatch req) in *.
  set (t := env_now _) in *.
  apply bind_inv in E as [(snap & s3 & E3 & E)|(e & _ & ?)]; [|done]. apply env_in_sql in E3 as [E3 R3]. simpl in E3, R3.
  apply bind_inv in E as [([] & s4 & E4 & E)|(e & _ & ?)]; [|done]. apply env_in_redis in E4 as [E4 D4]. rewrite R3 in E4.
  apply bind_inv in E as [([] & s5 & E5 & E)|(e & _ & ?)]; [|done]. apply env_in_redis in E5 as [E5 D5].
  apply bind_inv in E as [([] & s6 & E6 & E)|(e & _ & ?)]; [|done]. apply env_in_redis in E6 as [E6 D6].
  apply bind_inv in E as [([] & s7 & E7 & E)|(e & _ & ?)]; [|done]. unfold count in E7. injection E7 as <-.
  apply ack_env in E as [Ed Er]. simpl in Ed, Er.
  exists t, snap. cbv zeta.
  pose proof (append_published _ _ _ _ _ E4) as P4. pose proof (save_published _ _ _ _ E5) as P5.
  pose proof (event_bus_publish_roundtrip _ _ _ _ E6) as (_ & msg & P6 & Hmsg).
  apply publish_keys in E6. apply save_keys in E5 as (body & Hb & E5). apply append_ok in E4 as [E4 _]; [|done].
  assert (app_keys s' = <[snapshotKey ws (pm_HostUID req) := RString body]> (rd_keys (aw_redis (sv_env s4)))) as Hkeys.
  { unfold app_keys. rewrite Er, E6. exact E5. }
  split_and!.
  - apply (WP_run _ _ (tick (aw_sql (sv_env s))) _ _ (ReportMetrics_known st req dg t (app_db s) (app_seq s) HI Hu Ha Hk)) in E3.
    unfold app_db at 2. rewrite Ed, D6, D5, D4. exact E3.
  - intros k v Hkv. destruct (E4 k v Hkv) as (b & old & Hm & _ & Hl).
    assert (k ∈ MetricKeys) as Hin.
    { apply DigestMetricValues_lookup in Hkv. rewrite <-(digest_metric_entries_keys dg).
      apply list_elem_of_fmap. by exists (k, v). }
    destruct (Z.to_nat (mw_maxPoints ws)) as [|n] eqn:En; [destruct Hws; lia|]. simpl in Hl.
    exists b, (take n old). split_and!; [done| |].
    + rewrite Hkeys, lookup_insert_ne; [done|]. intros Eq. symmetry in Eq. by apply metricKey_not_snapshot in Eq.
    + simpl. rewrite length_take. lia.
  - exists body. split; [done|]. by rewrite Hkeys, lookup_insert, decide_True.
  - exists msg. split; [unfold app_published; by rewrite Er, P6, P5, P4|]. specialize (Hmsg []). unfold decoded in Hmsg. simpl in Hmsg.
    destruct (unmarshal_event msg); [|done]. by injection Hmsg as ->.
  - apply (WP_run _ _ (tick (aw_sql (sv_env s))) _ _ (keeps_ReportMetrics st req dg t (app_db s) (app_seq s) HI)) in E3.
    unfold app_db. rewrite Ed, D6, D5, D4. apply E3.
Qed.

End app.

(** ** Concrete runs *)

Program Definition MapRange_keys : MapRange := {| range m := map_to_list m |}.
Next Obligation. done. Qed.

Section examples.
#[local] Existing Instance Env_quiet.
#[local] Existing Instance PgTypes_exact.
#[local] Existing Instance BitCodec.
#[local] Existing Instance Redis_quiet.
#[local] Existing Instance MetricRange_keys.
#[local] Existing Instance MapRange_keys.

Definition ex_app : Svc AppWorld := mkSvc (mkAppWorld ex_world1 ex_redis) (mkCounters 0 0 0).
Definition ex_batch : PushMetricBatchRequest :=
  mkPushMetricBatchRequest "host-a" "agent-1" 6 0 (ex_identity "host-a" "acme") ex_agent
    [mkMetricPoint "host_load1" f64_zero 0 ∅] [] zero_AgentDigest.
Definition ex_bad_batch : PushMetricBatchRequest :=
  mkPushMetricBatchRequest "host-a" "agent-1" 6 0 (ex_identity "host-a" "acme") ex_agent
    [mkMetricPoint "host load" f64_zero 0 ∅] [] zero_AgentDigest.


(** The event the batch publishes, and a codec that knows it. *)
Definition ex_published : HostEvent :=
  match (ReportMetrics ex_store ex_batch (digestFromMetricBatch ex_batch) (env_now (w_tick ex_world1)) (tick ex_world1)).1 with
  | Ok snap => mkHostEvent HostEventUpsert (hs_HostUID snap) (Some snap)
  | Err _ => mkHostEvent HostEventDelete "" None
  end.
#[local] Instance ex_app_codec : EventCodec := OneEventCodec ex_published.

Definition ex_process (req : PushMetricBatchRequest) : res AckResponse * Svc AppWorld :=
  app_processMetricBatch ex_store ex_window_store "c" req ex_app.

Lemma ex_known : known_agent (app_db ex_app) "host-a" "agent-1".
Proof.
  destruct (db_hosts (app_db ex_app) !! 1) as [h|] eqn:Eh; [|vm_compute in Eh; discriminate Eh].
  destruct (db_agents (app_db ex_app) !! 1) as [a|] eqn:Ea; [|vm_compute in Ea; discriminate Ea].
  exists h, 1, a. vm_compute in Eh. vm_compute in Ea. injection Eh as <-. injection Ea as <-.
  split_and!; vm_compute; reflexivity.
Qed.

Lemma ingest_invalid_batch_no_effect_witness :
  is_ok (ex_process ex_bad_batch).1 = false ∧ aw_redis (sv_env (ex_process ex_bad_batch).2) = ex_redis.
Proof.
  assert (is_ok (validateMetricBatch ex_bad_batch) = false) as Hk by (vm_compute; reflexivity).
  destruct (validateMetricBatch ex_bad_batch) as [[]|e] eqn:E; [discriminate Hk|].
  unfold ex_process, app_processMetricBatch.
  rewrite (ingest_invalid_batch_no_effect ex_bad_batch e ex_app E). split; reflexivity.
Defined.

Lemma ingest_counters_exact_witness :
  ct_EventBatches (sv_stats
    (serve_all (H := App_HostStateStore ex_store) (H0 := App_MetricWindow ex_window_store) (H1 := App_EventPublisher "c")
       (H2 := App_Runtime) [ReqEvents (mkPushEventBatchRequest "h" "a" 0 []); ReqMetrics ex_bad_batch] ex_app).2) = 1.
Proof.
  destruct (serve_all (H := App_HostStateStore ex_store) (H0 := App_MetricWindow ex_window_store) (H1 := App_EventPublisher "c")
       (H2 := App_Runtime) [ReqEvents (mkPushEventBatchRequest "h" "a" 0 []); ReqMetrics ex_bad_batch] ex_app) as [rs s'] eqn:E.
  assert (counters_in_range (sv_stats ex_app)) as Hr by (repeat split; vm_compute; reflexivity).
  cbn [snd]. destruct (ingest_counters_exact _ ex_app rs s' Hr E) as [Hq ->].
  destruct rs as [|[q1 r1] [|[q2 r2] [|]]]; try discriminate Hq. injection Hq as -> ->. vm_compute. reflexivity.
Defined.

Lemma ingest_batch_recorded_witness :
  match ex_process ex_batch with
  | (Ok _, s') => ∃ now snap, digested (digestFromMetricBatch ex_batch) now (app_db ex_app) "host-a" snap (app_db s')
  | _ => False
  end.
Proof.
  assert (is_ok (ex_process ex_batch).1 = true) as Hk by (vm_compute; reflexivity).
  destruct (ex_process ex_batch) as [[a|e] s'] eqn:E; [|discriminate Hk].
  assert (pm_HostUID ex_batch ≠ ""%string ∧ pm_AgentID ex_batch ≠ ""%string) as [Hu Ha] by (split; discriminate).
  destruct (ingest_batch_recorded ex_store ex_window_store "c" ex_batch ex_app a s' ex_world1_inv
    (NewMetricWindowStore_ok _ _ _) Hu Ha ex_known E) as (_ & now & snap & Hd & _).
  exists now, snap. exact Hd.
Defined.

End examples.
