(* ===== verification/IngestTransport.v ===== *)
(** * The transports of the ingest service

    Models [server/internal/ingest/transport]: the gRPC server ([grpc/server.go]:
    conversions of the messages, the mapping of errors to status codes, the
    stream of metric batches) and the HTTP handlers ([http/server.go]).  The
    stream is a loop over what [Recv] and [Send] return; before each [Recv]
    returns, the rest of the system may have changed the state. *)

From stdpp Require Import gmap strings list.
From S2P Require Import Prelude GoRuntime GoStrings Contracts Access Sql HostStore HostStoreProps MetricValidation MetricWindow.
From S2P Require Import EventBus Interfaces Ingest Wire.
Local Open Scope Z_scope.

(** ** Conversions *)

Section conversions.
Context `{TimestampPb}.

Definition asTime (ts : option pb.Timestamp) : Time :=
  match ts with None => time_zero | Some ts => AsTime ts end.

Definition hostIdentity (h : option pb.HostIdentity) : HostIdentity :=
  let h := default pb.zero_HostIdentity h in
  mkHostIdentity (pb.HostIdentity_HostUid h) (pb.HostIdentity_TenantCode h) (pb.HostIdentity_Hostname h)
    (pb.HostIdentity_PrimaryIp h) (pb.HostIdentity_Ips h) (pb.HostIdentity_OsType h) (pb.HostIdentity_Arch h)
    (pb.HostIdentity_Region h) (pb.HostIdentity_Az h) (pb.HostIdentity_Env h) (pb.HostIdentity_Role h)
    (cloneStringMap (pb.HostIdentity_Labels h)).

Definition agentMetadata (a : option pb.AgentMetadata) : AgentMetadata :=
  let a := default pb.zero_AgentMetadata a in
  mkAgentMetadata (pb.AgentMetadata_AgentId a) (pb.AgentMetadata_Version a) (pb.AgentMetadata_Capabilities a)
    (asTime (pb.AgentMetadata_BootTime a)).

Definition fromProtoRegisterAgentRequest (req : pb.RegisterAgentRequest) : RegisterAgentRequest :=
  mkRegisterAgentRequest (hostIdentity (pb.RegisterAgentRequest_Host req)) (agentMetadata (pb.RegisterAgentRequest_Agent req)).

Definition fromProtoPoint (point : pb.MetricPoint) : MetricPoint :=
  mkMetricPoint (pb.MetricPoint_Name point) (pb.MetricPoint_Value point) (asTime (pb.MetricPoint_Ts point))
    (cloneStringMap (pb.MetricPoint_Labels point)).

Definition fromProtoCollector (collector : pb.CollectorStatus) : CollectorStatus :=
  mkCollectorStatus (pb.CollectorStatus_Name collector) (pb.CollectorStatus_State collector)
    (pb.CollectorStatus_MetricNames collector) (pb.CollectorStatus_DurationMicros collector)
    (pb.CollectorStatus_TimedOut collector).

Definition fromProtoPushMetricBatchRequest (req : pb.PushMetricBatchRequest) : PushMetricBatchRequest :=
  let hostUID := pb.PushMetricBatchRequest_HostUid req in
  let hostUID := if str_empty hostUID
    then pb.HostIdentity_HostUid (default pb.zero_HostIdentity (pb.PushMetricBatchRequest_Host req)) else hostUID in
  let agentID := pb.PushMetricBatchRequest_AgentId req in
  let agentID := if str_empty agentID
    then pb.AgentMetadata_AgentId (default pb.zero_AgentMetadata (pb.PushMetricBatchRequest_Agent req)) else agentID in
  mkPushMetricBatchRequest hostUID agentID (pb.PushMetricBatchRequest_BatchSeq req)
    (asTime (pb.PushMetricBatchRequest_CollectedAt req))
    (hostIdentity (pb.PushMetricBatchRequest_Host req)) (agentMetadata (pb.PushMetricBatchRequest_Agent req))
    (fromProtoPoint <$> pb.PushMetricBatchRequest_Points req)
    (fromProtoCollector <$> pb.PushMetricBatchRequest_Collectors req)
    zero_AgentDigest.

Definition fromProtoEvent (event : pb.EventRecord) : EventRecord :=
  mkEventRecord (pb.EventRecord_Type event) (pb.Severity_String (pb.EventRecord_Severity event))
    (pb.EventRecord_Message event) (asTime (pb.EventRecord_Ts event)) (cloneStringMap (pb.EventRecord_Attrs event)).

Definition fromProtoPushEventBatchRequest (req : pb.PushEventBatchRequest) : PushEventBatchRequest :=
  mkPushEventBatchRequest (pb.PushEventBatchRequest_HostUid req) (pb.PushEventBatchRequest_AgentId req)
    (pb.PushEventBatchRequest_BatchSeq req) (fromProtoEvent <$> pb.PushEventBatchRequest_Events req).

(** Conversion of an [int] to [int32]. *)
Definition to_int32 (z : Z) : Z := (z + 2 ^ 31) mod 2 ^ 32 - 2 ^ 31.

Definition toProtoAck (resp : AckResponse) : pb.Ack :=
  pb.mkAck (ack_RequestID resp) (to_int32 (ack_Code resp)) (ack_Message resp) (Some (timestamppb_New (ack_ServerTime resp))).

Definition toProtoAgentConfig (cfg : AgentConfig) : option pb.AgentConfig :=
  if (ac_ConfigVersion cfg =? 0) && (ac_HeartbeatIntervalSec cfg =? 0) && (ac_MetricIntervalSec cfg =? 0) &&
     bool_decide (size (ac_StaticLabels cfg) = 0%nat)
  then None
  else Some (pb.mkAgentConfig (ac_ConfigVersion cfg) (to_int32 (ac_HeartbeatIntervalSec cfg))
    (to_int32 (ac_MetricIntervalSec cfg)) (cloneStringMap (ac_StaticLabels cfg))).

(** [now] is the clock at the conversion. *)
Definition toProtoRegisterAgentResponse (resp : RegisterAgentResponse) (now : Time) : pb.RegisterAgentResponse :=
  pb.mkRegisterAgentResponse (Some (toProtoAck (mkAckResponse (rr_RequestID resp) 0 (rr_Message resp) now)))
    (rr_HostUID resp) (toProtoAgentConfig (rr_Config resp)) (rr_TenantCode resp).

End conversions.

(** ** The gRPC server *)

Inductive rpcCode := Canceled | InvalidArgument | NotFound | FailedPrecondition | Internal | OtherCode (n : Z).
#[export] Instance rpcCode_eq_dec : EqDecision rpcCode.
Proof. solve_decision. Defined.

(** The errors of a call: a status made from an error of the service, whose
    message is the text of that error, or a failure of the transport. *)
Inductive rpcError := StatusError (code : rpcCode) (cause : error) | TransportError (code : rpcCode).
Definition status_Code (e : rpcError) : rpcCode := match e with StatusError c _ => c | TransportError c => c end.

(** The codes of the errors of [PushMetricBatch]. *)
Definition metricStatus (e : error) : rpcError :=
  match e with
  | ErrInvalidMetricBatch _ => StatusError InvalidArgument e
  | ErrTenantNotFound => StatusError FailedPrecondition e
  | ErrHostNotFound => StatusError NotFound e
  | _ => StatusError Internal e
  end.

(** What [Recv] returns: a request, with what the [Send] of its acknowledgement
    will return, the end of the stream, a cancelled context, another failure. *)
Inductive received :=
| Incoming (req : pb.PushMetricBatchRequest) (sent : option rpcCode)
| RecvEOF
| RecvCanceled
| RecvError (code : rpcCode).

Section server.
Context {S : Type} `{HostStateStore S} `{MetricWindow S} `{EventPublisher S} `{Runtime S}.
Context `{UnicodeTables} `{MapRange} `{GoArch} `{TimestampPb}.

(** A method of the server, over the state of the service. *)
Abbreviation RPC A := (Svc S → result rpcError A * Svc S).

Definition grpc_RegisterAgent (req : pb.RegisterAgentRequest) : RPC pb.RegisterAgentResponse := λ s,
  match RegisterAgent (fromProtoRegisterAgentRequest req) s with
  | (Err e, s) => (Err (StatusError Internal e), s)
  | (Ok resp, s) => let '(now, e) := rt_Now (sv_env s) in
                    (Ok (toProtoRegisterAgentResponse resp now), mkSvc e (sv_stats s))
  end.

Definition grpc_PushMetricBatch (req : pb.PushMetricBatchRequest) : RPC pb.Ack := λ s,
  match PushMetricBatch (fromProtoPushMetricBatchRequest req) s with
  | (Err e, s) => (Err (metricStatus e), s)
  | (Ok resp, s) => (Ok (toProtoAck resp), s)
  end.

(** The loop: the acknowledgements sent, what it returned (nothing while it still
    waits; a nil error or an error), and the state. *)
Fixpoint StreamMetricBatches (l : list ((Svc S → Svc S) * received)) (s : Svc S)
    : list pb.MetricBatchAck * option (option rpcError) * Svc S :=
  match l with
  | [] => ([], None, s)
  | (others, r) :: l =>
      let s := others s in
      match r with
      | RecvEOF | RecvCanceled => ([], Some None, s)
      | RecvError code => ([], Some (if bool_decide (code = Canceled) then None else Some (TransportError code)), s)
      | Incoming req sent =>
          match PushMetricBatch (fromProtoPushMetricBatchRequest req) s with
          | (Err e, s) => ([], Some (Some (metricStatus e)), s)
          | (Ok resp, s) =>
              match sent with
              | Some code => ([], Some (Some (TransportError code)), s)
              | None =>
                  let '(acks, fin, s) := StreamMetricBatches l s in
                  (pb.mkMetricBatchAck (Some (toProtoAck resp)) (pb.PushMetricBatchRequest_BatchSeq req) :: acks, fin, s)
              end
          end
      end
  end.

(** [PushEventBatch] of the service does not fail. *)
Definition grpc_PushEventBatch (req : pb.PushEventBatchRequest) : RPC pb.Ack := λ s,
  match PushEventBatch (fromProtoPushEventBatchRequest req) s with
  | (Err e, s) => (Err (StatusError Internal e), s)
  | (Ok resp, s) => (Ok (toProtoAck resp), s)
  end.

(** ** The HTTP handlers

    The body is what the JSON decoder makes of it. *)

Inductive http_reply := BadRequest | AcceptedAck (resp : AckResponse) | CountersReply (c : Counters) | HealthReply (report : list (string * string)).

Definition handleEvents (body : option PushEventBatchRequest) : ST (Svc S) http_reply :=
  match body with None => mret BadRequest | Some req => resp ← PushEventBatch req; mret (AcceptedAck resp) end.
Definition handleProbes (body : option ReportProbeResultsRequest) : ST (Svc S) http_reply :=
  match body with None => mret BadRequest | Some req => resp ← ReportProbeResults req; mret (AcceptedAck resp) end.
Definition handleCounters : ST (Svc S) http_reply := c ← Stats; mret (CountersReply c).
Definition handleHealth : ST (Svc S) http_reply := report ← Ingest.Health; mret (HealthReply report).

(** The routes of [Handler], and what serves them. *)
Inductive ingestRoute := RouteHealth | RouteEvents (body : option PushEventBatchRequest) | RouteProbes (body : option ReportProbeResultsRequest) | RouteCounters.
Definition ingest_entry (r : ingestRoute) : string * string :=
  match r with
  | RouteHealth => ("GET", "/ingest/healthz")
  | RouteEvents _ => ("POST", "/ingest/api/v1/events")
  | RouteProbes _ => ("POST", "/ingest/api/v1/probes")
  | RouteCounters => ("GET", "/ingest/debug/counters")
  end%string.
Definition ingest_serve (r : ingestRoute) : ST (Svc S) http_reply :=
  match r with
  | RouteHealth => handleHealth
  | RouteEvents body => handleEvents body
  | RouteProbes body => handleProbes body
  | RouteCounters => handleCounters
  end.

(** A request to the HTTP side is answered and counts at most itself: the other
    counters stay, and beside the clock and the identifiers nothing is touched. *)
Theorem ingest_http_counts r s reply s' :
  ingest_serve r s = (reply, s') →
  is_ok reply = true ∧
  sv_stats s' = match r with RouteEvents (Some _) => incr_events (sv_stats s) | RouteProbes (Some _) => incr_probes (sv_stats s) | _ => sv_stats s end ∧
  ∃ now id e1, (sv_env s' = sv_env s) ∨ (rt_Now (sv_env s) = (now, sv_env s')) ∨ (rt_NewID "req" (sv_env s) = (id, e1) ∧ rt_Now e1 = (now, sv_env s')).
Proof.
  assert (∀ m s0, ∃ a s1, ack m s0 = (Ok a, s1) ∧ sv_stats s1 = sv_stats s0 ∧
    ∃ now id e1, rt_NewID "req" (sv_env s0) = (id, e1) ∧ rt_Now e1 = (now, sv_env s1)) as Hack.
  { intros m s0. unfold ack, mbind, ST_bind, env, ids_new, clock_Now. destruct (rt_NewID "req" (sv_env s0)) as [id e1] eqn:E1. simpl.
    destruct (rt_Now e1) as [now e2] eqn:E2. simpl. do 2 eexists. split; [done|]. simpl. split; [done|]. by exists now, id, e1. }
  destruct (rt_Now (sv_env s)) as [now0 e0] eqn:E0.
  destruct r as [|[req|]|[req|]|]; simpl; unfold handleHealth, Ingest.Health, handleCounters, PushEventBatch, ReportProbeResults, Stats, mbind, ST_bind, mret, ST_ret.
  - unfold env, clock_Now. rewrite E0. intros [= <- <-]. split_and!; [done..|]. exists now0, ""%string, e0. auto.
  - simpl. destruct (Hack "events accepted"%string (mkSvc (sv_env s) (incr_events (sv_stats s)))) as (a & s1 & -> & Hs & now & id & e1 & ?).
    intros [= <- <-]. split_and!; [done..|]. exists now, id, e1. auto.
  - intros [= <- <-]. split_and!; [done..|]. exists now0, ""%string, e0. auto.
  - simpl. destruct (Hack "probe results accepted"%string (mkSvc (sv_env s) (incr_probes (sv_stats s)))) as (a & s1 & -> & Hs & now & id & e1 & ?).
    intros [= <- <-]. split_and!; [done..|]. exists now, id, e1. auto.
  - intros [= <- <-]. split_and!; [done..|]. exists now0, ""%string, e0. auto.
  - intros [= <- <-]. split_and!; [done..|]. exists now0, ""%string, e0. auto.
Qed.

(** ** What a stream acknowledges *)

Definition ack_seqs (acks : list pb.MetricBatchAck) : list Z := pb.MetricBatchAck_BatchSeq <$> acks.
Definition received_seqs (l : list ((Svc S → Svc S) * received)) : list Z :=
  omap (λ x, match x.2 with Incoming req _ => Some (pb.PushMetricBatchRequest_BatchSeq req) | _ => None end) l.

Definition positive_ack (a : pb.MetricBatchAck) : Prop :=
  ∃ k, pb.MetricBatchAck_Ack a = Some k ∧ pb.Ack_Code k = 0 ∧ pb.Ack_Message k = "metrics accepted"%string.

(** The status code a client sees for an error of the service: one code for each
    of the three errors it can act on, [Internal] for every other error. *)
Definition status_of_error (e : error) (c : rpcCode) : Prop :=
  (c = InvalidArgument ↔ ∃ err, e = ErrInvalidMetricBatch err) ∧
  (c = FailedPrecondition ↔ e = ErrTenantNotFound) ∧
  (c = NotFound ↔ e = ErrHostNotFound) ∧
  (c = Internal ↔ (∀ err, e ≠ ErrInvalidMetricBatch err) ∧ e ≠ ErrTenantNotFound ∧ e ≠ ErrHostNotFound).

Lemma metricStatus_code e : ∃ c, metricStatus e = StatusError c e ∧ status_of_error e c.
Proof. unfold status_of_error. destruct e; eexists; (split; [reflexivity|]); split_and!; naive_solver. Qed.

(** The input that ended the stream, given what came before it. *)
Definition ended_by (s' : Svc S) (x : received) (fin : option rpcError) : Prop :=
  match fin with
  | None => x = RecvEOF ∨ x = RecvCanceled ∨ x = RecvError Canceled
  | Some (StatusError c e) => status_of_error e c ∧
      ∃ req sent s0, x = Incoming req sent ∧ PushMetricBatch (fromProtoPushMetricBatchRequest req) s0 = (Err e, s')
  | Some (TransportError c) => x = RecvError c ∨ ∃ req, x = Incoming req (Some c)
  end.

Lemma PushMetricBatch_ack req s resp s' :
  PushMetricBatch req s = (Ok resp, s') → ack_Code resp = 0 ∧ ack_Message resp = "metrics accepted"%string.
Proof.
  unfold PushMetricBatch, processMetricBatch.
  intros [(? & ? & _ & E)|(? & _ & [=])]%bind_inv. apply bind_inv in E as [(? & ? & _ & E)|(? & _ & [=])].
  cbv zeta in E. do 5 (apply bind_inv in E as [(? & ? & _ & E)|(? & _ & [=])]).
  unfold ack in E. do 2 (apply bind_inv in E as [(? & ? & _ & E)|(? & _ & [=])]). by injection E as <- _.
Qed.

Lemma stream_cases l s acks fin s' :
  StreamMetricBatches l s = (acks, fin, s') →
  Forall positive_ack acks ∧
  match fin with
  | None => ack_seqs acks = received_seqs l
  | Some fin => ∃ l1 x l2, l = l1 ++ x :: l2 ∧ ack_seqs acks = received_seqs l1 ∧ ended_by s' x.2 fin
  end.
Proof.
  revert s acks. induction l as [|[others r] l IH]; intros s acks E; simpl in E; [by injection E as <- <- _|].
  destruct r as [req sent| | |code].
  2-3: injection E as <- <- <-; split; [done|]; eexists [], _, l; split_and!; [done..|]; simpl; auto.
  2: { injection E as <- <- <-. split; [done|]. eexists [], _, l. split_and!; [done..|].
       case_bool_decide as Hc; simpl; [subst; auto|auto]. }
  destruct (PushMetricBatch _ _) as [[resp|e] s1] eqn:Ep.
  - apply PushMetricBatch_ack in Ep as Ha. destruct sent as [code|].
    { injection E as <- <- <-. split; [done|]. eexists [], _, l. split_and!; [done..|]. simpl. eauto. }
    destruct (StreamMetricBatches l s1) as [[acks1 fin1] s2] eqn:Es. injection E as <- <- <-.
    apply IH in Es as [Hp Hf]. split.
    { constructor; [|done]. destruct Ha as [Hc Hm]. eexists. split; [done|]. simpl. by rewrite Hc, Hm. }
    destruct fin1 as [fin|]; [|by simpl; f_equal]. destruct Hf as (l1 & x & l2 & -> & Hs & He).
    exists ((others, Incoming req None) :: l1), x, l2. split_and!; [done| |done]. by simpl; f_equal.
  - injection E as <- <- <-. split; [done|]. eexists [], _, l. split_and!; [done..|].
    destruct (metricStatus_code e) as (c & -> & Hc). simpl. eauto 10.
Qed.

(** The metric batches a run has had accepted: those acknowledged, and one more
    whose acknowledgement could not be sent. *)
Definition accepted (acks : list pb.MetricBatchAck) (unsent : bool) : Z := llen acks + (if unsent then 1 else 0).

Lemma stream_stats l s acks fin s' :
  Forall (λ x, x.1 = id) l → counters_in_range (sv_stats s) → StreamMetricBatches l s = (acks, fin, s') →
  ∃ unsent, (unsent = true → ∃ c, fin = Some (Some (TransportError c))) ∧
    sv_stats s' = mkCounters (to_int64 (ct_MetricBatches (sv_stats s) + accepted acks unsent))
      (ct_EventBatches (sv_stats s)) (ct_ProbeReports (sv_stats s)).
Proof.
  intros Hid. revert s acks. induction Hid as [|[others r] l Ho _ IH]; intros s acks Hr E; simpl in E.
  { injection E as <- <- <-. exists false. split; [done|]. destruct Hr as (Hm & _ & _). unfold accepted, llen; simpl.
    rewrite !Z.add_0_r, Hm. by destruct (sv_stats s). }
  simpl in Ho. subst others. unfold id in E.
  assert (sv_stats s = mkCounters (to_int64 (ct_MetricBatches (sv_stats s) + accepted [] false))
    (ct_EventBatches (sv_stats s)) (ct_ProbeReports (sv_stats s))) as H0s.
  { unfold accepted, llen; simpl. destruct Hr as (Hm & _ & _). rewrite !Z.add_0_r, Hm. by destruct (sv_stats s). }
  destruct r as [req sent| | |code]; [|injection E as <- <- <-; by exists false..].
  destruct (PushMetricBatch _ _) as [[resp|e] s1] eqn:Ep; apply processMetricBatch_stats in Ep; simpl in Ep.
  2: { injection E as <- <- <-. exists false. split; [done|]. by rewrite Ep. }
  destruct sent as [code|].
  { injection E as <- <- <-. exists true. split; [eauto|]. by rewrite Ep. }
  destruct (StreamMetricBatches l s1) as [[acks1 fin1] s2] eqn:Es. injection E as <- <- <-.
  apply IH in Es as (u & Hu & Hs); [|rewrite Ep; destruct Hr as (? & ? & ?); split_and!; simpl; auto using int64_incr_range].
  exists u. split; [done|]. rewrite Hs, Ep. unfold accepted, llen. simpl length. rewrite Nat2Z.inj_succ. simpl.
  f_equal. rewrite int64_incr_add. f_equal. lia.
Qed.

(** C28: A stream acknowledges exactly what was accepted, in order: the
    acknowledgements are positive and carry the sequence numbers of the first
    requests received; while the stream waits, of all of them; it ends at a
    closing or cancelled stream with success, at a failing transport with its
    error, and at the first batch the service rejects with the status that
    belongs to the error ([InvalidArgument] for an invalid batch,
    [FailedPrecondition] for an unknown tenant, [NotFound] for an unknown host,
    [Internal] for anything else), without touching anything after it.  Nothing else
    happening, the batch counter has grown by the number of acknowledgements, and
    by one more at most when an acknowledgement could not be sent. *)
Theorem grpc_stream_acks l s acks fin s' :
  counters_in_range (sv_stats s) → StreamMetricBatches l s = (acks, fin, s') →
  (Forall positive_ack acks ∧
   match fin with
   | None => ack_seqs acks = received_seqs l
   | Some fin => ∃ l1 x l2, l = l1 ++ x :: l2 ∧ ack_seqs acks = received_seqs l1 ∧ ended_by s' x.2 fin
   end) ∧
  (Forall (λ x, x.1 = id) l →
   ∃ unsent, (unsent = true → ∃ c, fin = Some (Some (TransportError c))) ∧
     sv_stats s' = mkCounters (to_int64 (ct_MetricBatches (sv_stats s) + accepted acks unsent))
       (ct_EventBatches (sv_stats s)) (ct_ProbeReports (sv_stats s))).
Proof. intros Hr E. split; [by eapply stream_cases|]. intros Hid. by eapply stream_stats. Qed.

End server.

(** ** A concrete stream *)

Section examples.
#[local] Existing Instance Env_quiet.
#[local] Existing Instance PgTypes_exact.
#[local] Existing Instance BitCodec.
#[local] Existing Instance Redis_quiet.
#[local] Existing Instance MetricRange_keys.
#[local] Existing Instance MapRange_keys.
#[local] Existing Instance ex_app_codec.
#[local] Existing Instance TimestampPb_unix.
#[local] Instance ex_grpc_hosts : HostStateStore AppWorld := App_HostStateStore ex_store.
#[local] Instance ex_grpc_window : MetricWindow AppWorld := App_MetricWindow ex_window_store.
#[local] Instance ex_grpc_events : EventPublisher AppWorld := App_EventPublisher "c".
#[local] Instance ex_grpc_runtime : Runtime AppWorld := App_Runtime.

Definition ex_pb_batch (name : string) : pb.PushMetricBatchRequest :=
  let h := ex_identity "host-a" "acme" in
  pb.mkPushMetricBatchRequest "" "" 6 None [pb.mkMetricPoint name f64_zero None ∅]
    (Some (pb.mkHostIdentity (hi_HostUID h) (hi_Hostname h) (hi_PrimaryIP h) (hi_IPs h) (hi_OSType h) (hi_Arch h) (hi_Region h)
       (hi_AZ h) (hi_Env h) (hi_Role h) (hi_Labels h) (hi_TenantCode h)))
    (Some (pb.mkAgentMetadata (am_AgentID ex_agent) (am_Version ex_agent) (am_Capabilities ex_agent)
       (Some (timestamppb_New (am_BootTime ex_agent))))) [] None None.

Definition ex_received : list ((Svc AppWorld → Svc AppWorld) * received) :=
  [(id, Incoming (ex_pb_batch "host_load1") None); (id, Incoming (ex_pb_batch "host load") None); (id, RecvEOF)].

Definition refusal (fin : option (option rpcError)) : option rpcCode :=
  match fin with Some (Some (StatusError c _)) => Some c | _ => None end.

(** The first batch is acknowledged, the second one ends the stream. *)
Lemma grpc_stream_acks_witness :
  match StreamMetricBatches ex_received ex_app with
  | (acks, fin, s') => ack_seqs acks = [6] ∧ refusal fin = Some InvalidArgument ∧ ct_MetricBatches (sv_stats s') = 1
  end.
Proof.
  assert ((λ o, match o with (acks, fin, _) => (ack_seqs acks, refusal fin) end)
    (StreamMetricBatches ex_received ex_app) = ([6], Some InvalidArgument)) as Hk by (vm_compute; reflexivity).
  destruct (StreamMetricBatches ex_received ex_app) as [[acks fin] s'] eqn:E.
  assert (counters_in_range (sv_stats ex_app)) as Hr by (repeat split; vm_compute; reflexivity).
  destruct (grpc_stream_acks ex_received ex_app acks fin s' Hr E) as [_ Hs].
  injection Hk as Hk1 Hk2. split; [exact Hk1|]. split; [exact Hk2|].
  destruct Hs as (u & Hu & ->); [repeat constructor|]. destruct acks as [|a [|b l]]; [discriminate Hk1| |discriminate Hk1].
  destruct u; [|vm_compute; reflexivity]. destruct (Hu eq_refl) as [c ->]. discriminate Hk2.
Defined.

End examples.
