(* ===== verification/HttpJson.v ===== *)
(** * JSON over HTTP

    Models [pkg/httpx/httpx.go] and the HTTP client of the agent, [postJSON] and
    [masterAPIURL] of [agent/internal/service/agent.go].  Neither is called by the
    rest of the program at this commit; they are two ends of one protocol, and
    are checked against each other.  The encoding is a parameter. *)

From stdpp Require Import gmap strings list pretty.
From Stdlib Require Import Ascii.
From S2P Require Import Prelude GoRuntime GoStrings GoText.
Local Open Scope Z_scope.

(** ** Encoding *)

(** [encoding/json] at a type: [Marshal], and [Decode] of a decoder, which reads
    the first value of the input, plain and with [DisallowUnknownFields].  What
    was encoded is read back, also when the encoder put a newline after it. *)
Class JsonOf (A : Type) := {
  json_Marshal : A → option string;
  json_Decode : string → option A;
  json_DecodeStrict : string → option A;
  json_Decode_Marshal : ∀ a s tail, json_Marshal a = Some s → tail = ""%string ∨ tail = newline → json_Decode (s +:+ tail) = Some a;
  json_DecodeStrict_Marshal : ∀ a s tail, json_Marshal a = Some s → tail = ""%string ∨ tail = newline → json_DecodeStrict (s +:+ tail) = Some a
}.

Record httpRequest := mkHttpRequest { hq_Method : string; hq_URL : string; hq_ContentType : string; hq_Body : option string }.
Record httpResponse := mkHttpResponse { hp_StatusCode : Z; hp_ContentType : string; hp_Body : string }.

(** ** [httpx] *)

Inductive readError := BodyEmpty | BodyInvalid.

Section httpx.

(** The status is written before the value is encoded: a value that cannot be
    encoded leaves the body empty. *)
Definition WriteJSON `{JsonOf A} (status : Z) (v : A) : httpResponse :=
  mkHttpResponse status "application/json" (match json_Marshal v with Some s => s +:+ newline | None => "" end).

Definition ReadJSON `{JsonOf A} (r : httpRequest) : result readError A :=
  match hq_Body r with
  | None => Err BodyEmpty
  | Some body => match json_DecodeStrict body with Some v => Ok v | None => Err BodyInvalid end
  end.

Definition Error `{JsonOf (gmap string string)} (status : Z) (message : string) : httpResponse :=
  WriteJSON status ({["error" := message]} : gmap string string).

End httpx.

(** ** The client *)

Record apiError := mkApiError { ae_StatusCode : Z; ae_Status : string }.
Definition apiError_Error (e : apiError) : string := "unexpected status: " +:+ ae_Status e.

Inductive clientError := MarshalFailed | InvalidURL | RequestFailed | StatusRefused (e : apiError) | DecodeFailed.

(** What a call did: the request it sent, whether it closed the body of an
    answer, and what it returned. *)
Record posted (O : Type) := mkPosted { po_Sent : option httpRequest; po_Closed : bool; po_Result : result clientError O }.
Arguments mkPosted {O}.
Arguments po_Sent {O}.
Arguments po_Closed {O}.
Arguments po_Result {O}.

Section client.
(** Whether [http.NewRequestWithContext] takes the URL, what the server answers,
    or [None] when the exchange fails, and the text of a status line. *)
Context (url_valid : string → bool) (do : httpRequest → option httpResponse) (status_line : Z → string).

Definition StatusBadRequest : Z := 400.

Definition postJSON {P O} `{JsonOf P} `{JsonOf O} (url : string) (payload : P) : posted O :=
  match json_Marshal payload with
  | None => mkPosted None false (Err MarshalFailed)
  | Some body =>
      if negb (url_valid url) then mkPosted None false (Err InvalidURL) else
      let req := mkHttpRequest "POST" url "application/json" (Some body) in
      match do req with
      | None => mkPosted (Some req) false (Err RequestFailed)
      | Some resp =>
          if StatusBadRequest <=? hp_StatusCode resp
          then mkPosted (Some req) true (Err (StatusRefused (mkApiError (hp_StatusCode resp) (status_line (hp_StatusCode resp)))))
          else mkPosted (Some req) true (match json_Decode (hp_Body resp) with Some out => Ok out | None => Err DecodeFailed end)
      end
  end.

Definition serviceAPIURL (base servicePrefix apiPrefix endpoint : string) : string :=
  let base := TrimRightSlash base in
  let endpoint := TrimLeftSlash endpoint in
  if HasSuffix base apiPrefix then base +:+ "/" +:+ endpoint else
  if HasSuffix base servicePrefix then base +:+ TrimPrefix apiPrefix servicePrefix +:+ "/" +:+ endpoint else
  if HasSuffix base "/api/v1" then base +:+ "/" +:+ endpoint else
  base +:+ apiPrefix +:+ "/" +:+ endpoint.

Definition masterAPIURL (base endpoint : string) : string := serviceAPIURL base "/master" "/master/api/v1" endpoint.

(** ** Properties of the client *)

(** A call that succeeds has sent exactly one request, a POST of the encoded
    payload, and returns the first value of an answer below 400; an answer from 400
    on is an error with its status and its body is not looked at; and the body of
    every answer is closed. *)
Theorem postJSON_spec {P O} `{JsonOf P} `{JsonOf O} url (payload : P) :
  let r := postJSON (O := O) url payload in
  (∀ req, po_Sent r = Some req ↔ ∃ body, json_Marshal payload = Some body ∧ url_valid url = true ∧
     req = mkHttpRequest "POST" url "application/json" (Some body)) ∧
  (po_Closed r = true ↔ ∃ req resp, po_Sent r = Some req ∧ do req = Some resp) ∧
  (∀ out, po_Result r = Ok out ↔ ∃ req resp, po_Sent r = Some req ∧ do req = Some resp ∧
     hp_StatusCode resp < StatusBadRequest ∧ json_Decode (hp_Body resp) = Some out) ∧
  (∀ e, po_Result r = Err (StatusRefused e) ↔ ∃ req resp, po_Sent r = Some req ∧ do req = Some resp ∧
     StatusBadRequest ≤ hp_StatusCode resp ∧ e = mkApiError (hp_StatusCode resp) (status_line (hp_StatusCode resp))).
Proof.
  unfold postJSON. simpl. destruct (json_Marshal payload) as [body|]; [|naive_solver]. destruct (url_valid url) eqn:Eu; simpl; [|naive_solver].
  destruct (do _) as [resp|] eqn:Ed; [|simpl; naive_solver]. destruct (Z.leb_spec StatusBadRequest (hp_StatusCode resp)); simpl.
  - split_and!; naive_solver lia.
  - split_and!; [naive_solver..| |].
    + intros out. destruct (json_Decode (hp_Body resp)) as [o|] eqn:Eo; naive_solver.
    + intros e. destruct (json_Decode (hp_Body resp)); naive_solver lia.
Qed.

End client.

(** ** The two ends together *)

(** A server that reads the request with [ReadJSON] and answers with [WriteJSON]. *)
Definition handler {P O} `{JsonOf P} `{JsonOf O} `{JsonOf (gmap string string)} (f : P → Z * O) (r : httpRequest) : option httpResponse :=
  match ReadJSON r with
  | Ok p => let '(status, out) := f p in Some (WriteJSON status out)
  | Err _ => Some (Error 400 "invalid request")
  end.

(** What the client posts is what the handler gets, and what the handler answers
    with a status below 400 is what the client returns; from 400 on the client
    returns the status. *)
Theorem post_handled {P O} `{JsonOf P} `{JsonOf O} `{JsonOf (gmap string string)}
    (url_valid : string → bool) (status_line : Z → string) (f : P → Z * O) url payload body :
  json_Marshal payload = Some body → url_valid url = true → is_Some (json_Marshal (f payload).2) →
  po_Result (postJSON url_valid (handler f) status_line url payload) =
    if StatusBadRequest <=? (f payload).1 then Err (StatusRefused (mkApiError (f payload).1 (status_line (f payload).1))) else Ok (f payload).2.
Proof.
  intros Hm Hu [s Hs]. unfold postJSON. rewrite Hm, Hu. simpl. unfold handler, ReadJSON. simpl.
  assert (json_DecodeStrict body = Some payload) as ->.
  { rewrite <-(json_DecodeStrict_Marshal payload body "" Hm (or_introl eq_refl)). f_equal. apply bytes_inj. rewrite bytes_app. by rewrite app_nil_r. }
  destruct (f payload) as [status out]. simpl in *. destruct (StatusBadRequest <=? status); simpl; [done|].
  rewrite Hs. by rewrite (json_Decode_Marshal out s newline Hs (or_intror eq_refl)).
Qed.

(** ** Base addresses *)

Lemma HasSuffix_bytes s p : HasSuffix s p = true ↔ bytes p `suffix_of` bytes s.
Proof.
  unfold HasSuffix. rewrite bool_decide_eq_true. split.
  - intros E. exists (take (length (bytes s) - length (bytes p)) (bytes s)). rewrite <-E at 2. by rewrite take_drop.
  - intros [k ->]. rewrite length_app. replace (length k + length (bytes p) - length (bytes p))%nat with (length k) by lia. apply drop_app_length.
Qed.

Lemma HasSuffix_app s p : HasSuffix (s +:+ p) p = true.
Proof. apply HasSuffix_bytes. rewrite bytes_app. by exists (bytes s). Qed.

Lemma HasSuffix_cancel s p t : HasSuffix (s +:+ t) (p +:+ t) = HasSuffix s p.
Proof.
  apply eq_true_iff_eq. rewrite !HasSuffix_bytes, !bytes_app. split; [|intros [k ->]; exists k; by rewrite app_assoc].
  intros [k E]. rewrite app_assoc in E. apply app_inv_tail in E. by exists k.
Qed.

Lemma HasSuffix_weaken s p t : HasSuffix s t = false → HasSuffix s (p +:+ t) = false.
Proof.
  rewrite <-!not_true_iff_false, !HasSuffix_bytes, bytes_app. intros Hn [k E]. apply Hn. exists (k ++ bytes p). by rewrite E, app_assoc.
Qed.

Lemma HasSuffix_last s t p c d :
  last (bytes t) = Some c → last (bytes p) = Some d → c ≠ d → HasSuffix (s +:+ t) p = false.
Proof.
  intros Hc Hd Hn. apply not_true_iff_false. rewrite HasSuffix_bytes, bytes_app. intros [k E]. apply Hn.
  apply (f_equal last) in E. rewrite !last_app, Hc, Hd in E. by injection E.
Qed.

Definition slashes (n : nat) : string := of_bytes (replicate n "/"%char).

(** A server address: it does not end with a slash. *)
Definition trimmed (s : string) : Prop := ∀ c, last (bytes s) = Some c → slash c = false.

Lemma TrimRightSlash_slashes s n : trimmed s → TrimRightSlash (s +:+ slashes n) = s.
Proof.
  intros Ht. unfold TrimRightSlash, slashes. rewrite bytes_app, bytes_of_bytes, reverse_app, reverse_replicate.
  assert (drop_while slash (replicate n "/"%char ++ reverse (bytes s)) = reverse (bytes s)) as ->.
  { induction n as [|n IH]; [|exact IH]. simpl. destruct (reverse (bytes s)) as [|c l] eqn:E; [done|]. simpl. rewrite (Ht c); [done|].
    rewrite <-(reverse_involutive (bytes s)), E, reverse_cons, last_snoc. done. }
  by rewrite reverse_involutive, of_bytes_bytes.
Qed.

Lemma trimmed_app s t c : last (bytes t) = Some c → slash c = false → trimmed (s +:+ t).
Proof. intros Hl Hc d. rewrite bytes_app, last_app, Hl. by intros [= <-]. Qed.

(** The base address may be that of the server, of the service or of its API, with
    any slashes behind it, and an endpoint may begin with slashes: the address of
    the endpoint is the same.  A base that ends with [/api/v1] but is not the
    service's API is used as it is. *)
Theorem masterAPIURL_bases b n endpoint :
  trimmed b → HasSuffix b "/master" = false → HasSuffix b "/api/v1" = false →
  let url := b +:+ "/master/api/v1/" +:+ TrimLeftSlash endpoint in
  masterAPIURL (b +:+ slashes n) endpoint = url ∧
  masterAPIURL ((b +:+ "/master") +:+ slashes n) endpoint = url ∧
  masterAPIURL ((b +:+ "/master/api/v1") +:+ slashes n) endpoint = url ∧
  masterAPIURL ((b +:+ "/api/v1") +:+ slashes n) endpoint = b +:+ "/api/v1/" +:+ TrimLeftSlash endpoint.
Proof.
  intros Ht Hm Ha url. unfold url, masterAPIURL, serviceAPIURL.
  rewrite !TrimRightSlash_slashes by first [done|by eapply trimmed_app]. rewrite !HasSuffix_app.
  rewrite (HasSuffix_weaken b "/master" "/api/v1" Ha : HasSuffix b "/master/api/v1" = false), Hm, Ha.
  rewrite (HasSuffix_last b "/master" "/master/api/v1" "r" "1") by done.
  rewrite (HasSuffix_last b "/api/v1" "/master" "1" "r") by done.
  rewrite (HasSuffix_cancel b "/master" "/api/v1" : HasSuffix (b +:+ "/api/v1") "/master/api/v1" = _), Hm.
  split_and!; apply bytes_inj; rewrite !bytes_app; by rewrite <-?app_assoc.
Qed.

(** ** Examples *)

(** A codec for strings of two letters, which stand for themselves. *)
Definition letter (c : ascii) : bool := is_byte 97 c || is_byte 98 c.
Definition letters (s : string) : option string :=
  if forallb letter (bytes s) then Some s else None.
Definition chomp (s : string) : string := of_bytes (take_while (λ c, negb (is_byte 10 c)) (bytes s)).

Lemma letters_chomp s tail : forallb letter (bytes s) = true → tail = ""%string ∨ tail = newline → letters (chomp (s +:+ tail)) = Some s.
Proof.
  intros Hl Ht. assert (chomp (s +:+ tail) = s) as ->; [|unfold letters; by rewrite Hl].
  unfold chomp. rewrite bytes_app. rewrite <-(of_bytes_bytes s) at 2. f_equal. revert Hl. generalize (bytes s).
  intros l. induction l as [|c l IH]; simpl; [by destruct Ht as [->| ->]|].
  intros [Hc Hl]%andb_true_iff. assert (is_byte 10 c = false) as ->.
  { unfold letter, is_byte in *. apply orb_true_iff in Hc as [Hc|Hc]; apply Z.eqb_eq in Hc; apply Z.eqb_neq; lia. }
  simpl. by rewrite IH.
Qed.

#[local] Program Instance JsonLetters : JsonOf string := {|
  json_Marshal := letters; json_Decode s := letters (chomp s); json_DecodeStrict s := letters (chomp s)
|}.
Next Obligation. intros a s tail. unfold letters at 1. destruct (forallb letter (bytes a)) eqn:E; [|done]. intros [= <-]. by apply letters_chomp. Qed.
Next Obligation. intros a s tail. unfold letters at 1. destruct (forallb letter (bytes a)) eqn:E; [|done]. intros [= <-]. by apply letters_chomp. Qed.

#[local] Program Instance JsonNone : JsonOf (gmap string string) := {| json_Marshal _ := None; json_Decode _ := None; json_DecodeStrict _ := None |}.
Next Obligation. done. Qed.
Next Obligation. done. Qed.

Lemma post_handled_witness :
  po_Result (postJSON (λ _, true) (handler (λ p : string, (200, p +:+ "b"))) pretty (masterAPIURL "http://h/master/" "/x") "ab"%string) = Ok "abb"%string.
Proof.
  rewrite (post_handled (λ _, true) pretty (λ p : string, (200, p +:+ "b")) (masterAPIURL "http://h/master/" "/x") "ab" "ab"); [reflexivity|reflexivity|reflexivity|].
  eexists. reflexivity.
Defined.

Lemma masterAPIURL_bases_witness : masterAPIURL "http://h/master/" "/hosts" = "http://h/master/api/v1/hosts"%string.
Proof.
  destruct (masterAPIURL_bases "http://h" 1 "/hosts") as (_ & H & _); [|reflexivity|reflexivity|exact H].
  intros c Hc. vm_compute in Hc. injection Hc as <-. reflexivity.
Defined.
