(* ===== verification/Agent.v ===== *)
(** * The agent

    Models [agent/internal/service/agent.go]: the batch of a cycle, its
    conversion to the wire, the stream to the ingest gateway and the loop that
    runs the cycles.  What the network and the clock do in a cycle is its input.
    The fields of the agent that hold connections are flags: whether the
    connection, the client and the stream exist.  The HTTP client of the file is
    in [HttpJson]. *)

From stdpp Require Import gmap strings list sorting pretty.
From Stdlib Require Import SpecFloat Ascii.
From S2P Require Import Prelude GoRuntime GoStrings GoText FloatFacts Contracts MetricValidation Wire Sampler Collect.
From S2P Require Import IngestTransport.
Local Open Scope Z_scope.

(** ** Points *)

Section points.
Context `{MapOrder}.

Definition nul : string := String "000"%char "".

Definition metricPointIdentity (point : MetricPoint) : string :=
  let keys := sort_by id ((map_order (mp_Labels point)).*1) in
  foldl (λ identity key, identity +:+ nul +:+ key +:+ "=" +:+ default ""%string (mp_Labels point !! key)) (mp_Name point) keys.

Definition dated (now : Time) (point : MetricPoint) : MetricPoint :=
  if time_IsZero (mp_TS point) then mkMetricPoint (mp_Name point) (mp_Value point) now (mp_Labels point) else point.

(** The second loop, with the identities seen. *)
Fixpoint append_unseen (seen : gset string) (dst extra : list MetricPoint) (now : Time) : list MetricPoint :=
  match extra with
  | [] => dst
  | point :: extra =>
      let point := dated now point in
      let identity := metricPointIdentity point in
      if bool_decide (identity ∈ seen) then append_unseen seen dst extra now
      else append_unseen ({[identity]} ∪ seen) (dst ++ [point]) extra now
  end.

Definition appendMetricPoints (dst extra : list MetricPoint) (now : Time) : list MetricPoint :=
  append_unseen (list_to_set (metricPointIdentity <$> dst)) dst extra now.

End points.

(** The points of the summary. *)
Definition summaryPoints (uptime : float64) (d : AgentDigest) (now : Time) : list MetricPoint :=
  (λ '(name, value), mkMetricPoint name value now ∅) <$>
  [("runtime_uptime_seconds", uptime);
   ("host_cpu_usage_pct", dg_CPUUsagePct d);
   ("host_mem_used_pct", dg_MemUsedPct d);
   ("host_mem_available_bytes", f64_of_int (dg_MemAvailableBytes d));
   ("host_swap_used_pct", dg_SwapUsedPct d);
   ("host_disk_used_pct", dg_DiskUsedPct d);
   ("host_disk_free_bytes", f64_of_int (dg_DiskFreeBytes d));
   ("host_disk_inodes_used_pct", dg_DiskInodesUsedPct d);
   ("host_disk_read_bps", f64_of_int (dg_DiskReadBPS d));
   ("host_disk_write_bps", f64_of_int (dg_DiskWriteBPS d));
   ("host_disk_read_iops", f64_of_int (dg_DiskReadIOPS d));
   ("host_disk_write_iops", f64_of_int (dg_DiskWriteIOPS d));
   ("host_load1", dg_Load1 d);
   ("host_net_rx_bps", f64_of_int (dg_NetRxBPS d));
   ("host_net_tx_bps", f64_of_int (dg_NetTxBPS d));
   ("host_net_rx_packets_ps", f64_of_int (dg_NetRxPacketsPS d));
   ("host_net_tx_packets_ps", f64_of_int (dg_NetTxPacketsPS d))]%string.

(** ** The wire *)

Section wire.
Context `{TimestampPb}.

Definition toProtoPoint (point : MetricPoint) : pb.MetricPoint :=
  pb.mkMetricPoint (mp_Name point) (mp_Value point) (Some (timestamppb_New (mp_TS point))) (cloneStringMap (mp_Labels point)).

Definition toProtoCollector (c : CollectorStatus) : pb.CollectorStatus :=
  pb.mkCollectorStatus (cs_Name c) (cs_State c) (cs_MetricNames c) (cs_DurationMicros c) (cs_TimedOut c).

Definition toProtoDigest (d : AgentDigest) : pb.AgentDigest :=
  pb.mkAgentDigest (dg_CPUUsagePct d) (dg_MemUsedPct d) (dg_MemAvailableBytes d) (dg_SwapUsedPct d) (dg_DiskUsedPct d)
    (dg_DiskFreeBytes d) (dg_DiskInodesUsedPct d) (dg_DiskReadBPS d) (dg_DiskWriteBPS d) (dg_DiskReadIOPS d) (dg_DiskWriteIOPS d)
    (dg_Load1 d) (dg_NetRxBPS d) (dg_NetTxBPS d) (dg_NetRxPacketsPS d) (dg_NetTxPacketsPS d) (dg_QueueDepth d)
    (dg_LastMetricBatchSeq d).

Definition toProtoPushMetricBatchRequest (req : PushMetricBatchRequest) : pb.PushMetricBatchRequest :=
  let h := pm_Host req in
  let a := pm_Agent req in
  pb.mkPushMetricBatchRequest (pm_HostUID req) (pm_AgentID req) (pm_BatchSeq req) (Some (timestamppb_New (pm_CollectedAt req)))
    (toProtoPoint <$> pm_Points req)
    (Some (pb.mkHostIdentity (hi_HostUID h) (hi_Hostname h) (hi_PrimaryIP h) (hi_IPs h) (hi_OSType h) (hi_Arch h) (hi_Region h)
       (hi_AZ h) (hi_Env h) (hi_Role h) (cloneStringMap (hi_Labels h)) (hi_TenantCode h)))
    (Some (pb.mkAgentMetadata (am_AgentID a) (am_Version a) (am_Capabilities a) (Some (timestamppb_New (am_BootTime a)))))
    (toProtoCollector <$> pm_Collectors req) None (Some (toProtoDigest (pm_Digest req))).

(** [request.SystemMetrics = systemMetrics]. *)
Definition with_system (req : pb.PushMetricBatchRequest) (sys : option pb.SystemMetrics) : pb.PushMetricBatchRequest :=
  pb.mkPushMetricBatchRequest (pb.PushMetricBatchRequest_HostUid req) (pb.PushMetricBatchRequest_AgentId req)
    (pb.PushMetricBatchRequest_BatchSeq req) (pb.PushMetricBatchRequest_CollectedAt req) (pb.PushMetricBatchRequest_Points req)
    (pb.PushMetricBatchRequest_Host req) (pb.PushMetricBatchRequest_Agent req) (pb.PushMetricBatchRequest_Collectors req) sys
    (pb.PushMetricBatchRequest_Digest req).

End wire.

(** ** State and inputs *)

Record Agent := mkAgent {
  ag_Host : HostIdentity; ag_agentID : string; ag_hostUID : string; ag_bootTime : Time; ag_metricSeq : Z;
  ag_sampler : gopsutilSystemSampler;
  ag_grpcConn : bool; ag_grpcIngest : bool; ag_metricSink : bool
}.

(** [New]: the identifier and the time of the start are given. *)
Definition New (host : HostIdentity) (agentID : string) (now : Time) (rootPath : string) : Agent :=
  mkAgent host agentID (hi_HostUID host) now 0 (newGopsutilSystemSampler rootPath) false false false.

Definition with_seq (a : Agent) (n : Z) : Agent :=
  mkAgent (ag_Host a) (ag_agentID a) (ag_hostUID a) (ag_bootTime a) n (ag_sampler a) (ag_grpcConn a) (ag_grpcIngest a) (ag_metricSink a).
Definition with_sampler (a : Agent) (s : gopsutilSystemSampler) : Agent :=
  mkAgent (ag_Host a) (ag_agentID a) (ag_hostUID a) (ag_bootTime a) (ag_metricSeq a) s (ag_grpcConn a) (ag_grpcIngest a) (ag_metricSink a).
Definition with_conn (a : Agent) (conn client sink : bool) : Agent :=
  mkAgent (ag_Host a) (ag_agentID a) (ag_hostUID a) (ag_bootTime a) (ag_metricSeq a) (ag_sampler a) conn client sink.

(** The errors of a cycle: a failed call, or an answer that is refused. *)
Inductive agentError :=
| CallFailed (code : rpcCode)
| BatchRejected (message : string)
| SeqMismatch (got want : Z).

(** [grpcstatus.Code]: an error without status is [Unknown]. *)
Definition error_Code (e : agentError) : rpcCode :=
  match e with CallFailed code => code | _ => OtherCode 2 end.
Definition isFatalMetricError (e : agentError) : bool := bool_decide (error_Code e = FailedPrecondition).

(** What happens around one cycle: the clock, the collection, the readings of the
    clock for the uptime, and what the calls of the gRPC library return. *)
Record cycle := mkCycle {
  cy_now : Time; cy_collection : collection; cy_since : Time; cy_since2 : Time;
  cy_dial : option rpcCode; cy_open : option rpcCode; cy_send : option rpcCode;
  cy_recv : result rpcCode pb.MetricBatchAck
}.

Section agent.
Context `{StringsLower} (GOOS : string) `{MapOrder} `{GoArch} `{TimestampPb}.

Definition digestFromMetrics (a : Agent) (m : systemMetrics) : AgentDigest :=
  mkAgentDigest (sm_CPUUsagePct m) (sm_MemUsedPct m) (sm_MemAvailableBytes m) (sm_SwapUsedPct m) (sm_DiskUsedPct m)
    (sm_DiskFreeBytes m) (sm_DiskInodesUsedPct m) (sm_DiskReadBPS m) (sm_DiskWriteBPS m) (sm_DiskReadIOPS m)
    (sm_DiskWriteIOPS m) (sm_Load1 m) (sm_NetRxBPS m) (sm_NetTxBPS m) (sm_NetRxPacketsPS m) (sm_NetTxPacketsPS m)
    0 (ag_metricSeq a).

(** ** The connection *)

Definition grpcConnOrDial (a : Agent) (cy : cycle) : result agentError unit * Agent :=
  if ag_grpcConn a then (Ok (), a) else
  match cy_dial cy with
  | Some code => (Err (CallFailed code), a)
  | None => (Ok (), with_conn a true (ag_grpcIngest a) (ag_metricSink a))
  end.

Definition grpcIngestClient (a : Agent) (cy : cycle) : result agentError unit * Agent :=
  if ag_grpcIngest a then (Ok (), a) else
  match grpcConnOrDial a cy with
  | (Err e, a) => (Err e, a)
  | (Ok _, a) => (Ok (), with_conn a (ag_grpcConn a) true (ag_metricSink a))
  end.

Definition metricStreamClient (a : Agent) (cy : cycle) : result agentError unit * Agent :=
  if ag_metricSink a then (Ok (), a) else
  match grpcIngestClient a cy with
  | (Err e, a) => (Err e, a)
  | (Ok _, a) =>
      match cy_open cy with
      | Some code => (Err (CallFailed code), a)
      | None => (Ok (), with_conn a (ag_grpcConn a) (ag_grpcIngest a) true)
      end
  end.

Definition resetMetricStream (a : Agent) : Agent := with_conn a (ag_grpcConn a) (ag_grpcIngest a) false.

(** ** A cycle

    The batch handed to [Send] is part of the result. *)

Definition pushMetricsGRPC (a : Agent) (payload : PushMetricBatchRequest) (systemMetrics : option pb.SystemMetrics) (cy : cycle)
    : result agentError unit * option pb.PushMetricBatchRequest * Agent :=
  match metricStreamClient a cy with
  | (Err e, a) => (Err e, None, a)
  | (Ok _, a) =>
      let request := with_system (toProtoPushMetricBatchRequest payload) systemMetrics in
      match cy_send cy with
      | Some code => (Err (CallFailed code), Some request, resetMetricStream a)
      | None =>
          match cy_recv cy with
          | Err code => (Err (CallFailed code), Some request, resetMetricStream a)
          | Ok ack =>
              let inner := default pb.zero_Ack (pb.MetricBatchAck_Ack ack) in
              if bool_decide (is_Some (pb.MetricBatchAck_Ack ack)) && negb (pb.Ack_Code inner =? 0)
              then (Err (BatchRejected (pb.Ack_Message inner)), Some request, a) else
              let batchSeq := pb.MetricBatchAck_BatchSeq ack in
              if negb (batchSeq =? 0) && negb (batchSeq =? pm_BatchSeq payload)
              then (Err (SeqMismatch batchSeq (pm_BatchSeq payload)), Some request, a)
              else (Ok (), Some request, a)
          end
      end
  end.

(** [time.Since(a.bootTime).Seconds()] at [t]. *)
Definition uptime (a : Agent) (t : Time) : float64 := duration_Seconds (time_Sub t (ag_bootTime a)).

(** The payload of a cycle; [a] has counted it already. *)
Definition batchPayload (a : Agent) (now since : Time) (digest : AgentDigest) (metrics : systemMetrics) : PushMetricBatchRequest :=
  mkPushMetricBatchRequest (ag_hostUID a) (ag_agentID a) (ag_metricSeq a) now (ag_Host a)
    (mkAgentMetadata (ag_agentID a) "v0.1.0" (["metrics"; "stream_metrics"; "adaptive_collectors"]%string ++ sm_Capabilities metrics)
       (ag_bootTime a))
    (appendMetricPoints (summaryPoints (uptime a since) digest now) (sm_ExtraPoints metrics) now)
    (sm_Collectors metrics) digest.

Definition pushMetrics (a : Agent) (now : Time) (digest : AgentDigest) (metrics : systemMetrics) (cy : cycle)
    : result agentError unit * option pb.PushMetricBatchRequest * Agent :=
  let a := with_seq a (int64_incr (ag_metricSeq a)) in
  let payload := batchPayload a now (cy_since cy) digest metrics in
  pushMetricsGRPC a payload (with_uptime (uptime a (cy_since2 cy)) <$> sm_Structured metrics) cy.

Definition sendCycle (a : Agent) (cy : cycle) : result agentError unit * option pb.PushMetricBatchRequest * Agent :=
  let now := cy_now cy in
  let '(metrics, sampler) := Sample GOOS (ag_sampler a) now (cy_collection cy) in
  let a := with_sampler a sampler in
  let digest := digestFromMetrics a metrics in
  pushMetrics a now digest metrics cy.

(** Functions that only tests call: a digest of a new sample, a batch of the
    summary points alone, and the client of the control service, which has a flag
    of its own. *)
Definition digest (a : Agent) (now : Time) (c : collection) : AgentDigest * Agent :=
  let '(metrics, sampler) := Sample GOOS (ag_sampler a) now c in
  let a := with_sampler a sampler in (digestFromMetrics a metrics, a).

Definition zero_systemMetrics : systemMetrics :=
  mkSystemMetrics f64_zero f64_zero 0 f64_zero f64_zero 0 f64_zero 0 0 0 0 f64_zero 0 0 0 0 [] [] [] None.

Definition pushMetricsWithDigest (a : Agent) (now : Time) (digest : AgentDigest) (cy : cycle)
    : result agentError unit * option pb.PushMetricBatchRequest * Agent :=
  pushMetrics a now digest zero_systemMetrics cy.

Definition grpcControlClient (a : Agent) (ctl : bool) (cy : cycle) : result agentError unit * Agent * bool :=
  if ctl then (Ok (), a, ctl) else
  match grpcConnOrDial a cy with
  | (Err e, a) => (Err e, a, false)
  | (Ok _, a) => (Ok (), a, true)
  end.

(** ** The loop

    [None] in the inputs is a cancelled context; the result has what was sent,
    what [Run] returned ([None] while it runs) and the agent. *)

Fixpoint runLoop (a : Agent) (l : list (option cycle))
    : list pb.PushMetricBatchRequest * option (option agentError) * Agent :=
  match l with
  | [] => ([], None, a)
  | None :: _ => ([], Some None, a)
  | Some cy :: l =>
      let '(r, sent, a) := sendCycle a cy in
      match r with
      | Err e =>
          if isFatalMetricError e then (option_list sent, Some (Some e), a) else
          let '(more, fin, a) := runLoop a l in (option_list sent ++ more, fin, a)
      | Ok _ => let '(more, fin, a) := runLoop a l in (option_list sent ++ more, fin, a)
      end
  end.

(** The first cycle runs before the loop waits. *)
Definition Run (a : Agent) (first : cycle) (l : list (option cycle))
    : list pb.PushMetricBatchRequest * option (option agentError) * Agent := runLoop a (Some first :: l).

(** [Close], by what it closes: the sending half of the stream, the connection. *)
Definition Close (a : Agent) : bool * bool := (ag_metricSink a, ag_grpcConn a).

(** The program: [Run] of [app.go], which closes the agent when it returns, under
    [main], which panics on an error.  [None]: it is still running. *)
Inductive agentExit := ExitZero | Panic (e : agentError).
Definition main_run (a : Agent) (first : cycle) (l : list (option cycle)) : list pb.PushMetricBatchRequest * option (agentExit * (bool * bool)) :=
  let '(sent, fin, a) := Run a first l in
  (sent, match fin with
         | None => None
         | Some r => Some (match r with None => ExitZero | Some e => Panic e end, Close a)
         end).

End agent.
