(* ===== verification/AgentProps.v ===== *)
(** * Properties of the agent

    The series of a batch, the conversion to the wire and back, what the ingest
    service makes of an agent's batch, and the loop of cycles. *)

From stdpp Require Import gmap strings list sorting pretty.
From Stdlib Require Import SpecFloat Ascii.
From S2P Require Import Prelude GoRuntime GoStrings GoText FloatFacts Contracts MetricValidation Wire Sampler Collect.
From S2P Require Import Access Sql HostStore HostStoreProps MetricWindow EventBus Interfaces Ingest IngestTransport Agent.
Local Open Scope Z_scope.

(** ** Identities *)

(** Two lists that agree, cut at the first separator, agree on both sides. *)
Lemma app_sep_inj {A} (x : A) l1 l2 k1 k2 :
  x ∉ l1 → x ∉ k1 → (l2 = [] ∨ head l2 = Some x) → (k2 = [] ∨ head k2 = Some x) →
  l1 ++ l2 = k1 ++ k2 → l1 = k1 ∧ l2 = k2.
Proof.
  revert k1. induction l1 as [|a l1 IH]; intros [|b k1] Hl Hk Hl2 Hk2 E; simpl in *; [done|..].
  - destruct Hl2 as [->|Hl2]; [done|]. rewrite E in Hl2. injection Hl2 as ->. set_solver.
  - destruct Hk2 as [->|Hk2]; [done|]. rewrite <-E in Hk2. injection Hk2 as ->. set_solver.
  - injection E as -> E. apply not_elem_of_cons in Hl as [_ Hl]. apply not_elem_of_cons in Hk as [_ Hk].
    by destruct (IH k1 Hl Hk Hl2 Hk2 E) as [-> ->].
Qed.

Definition nul_byte : ascii := "000"%char.
Definition eq_byte : ascii := "="%char.

(** A series whose parts do not contain the separators. *)
Definition clean_label (kv : string * string) : Prop :=
  (nul_byte ∉ bytes kv.1) ∧ (eq_byte ∉ bytes kv.1) ∧ (nul_byte ∉ bytes kv.2).
#[export] Instance clean_label_dec kv : Decision (clean_label kv) := ltac:(unfold clean_label; apply _).
Record clean (p : MetricPoint) : Prop := {
  cl_name : nul_byte ∉ bytes (mp_Name p);
  cl_labels : ∀ k v, mp_Labels p !! k = Some v → clean_label (k, v)
}.

Definition series (p : MetricPoint) : string * labels := (mp_Name p, mp_Labels p).

Section identity.
Context `{MapOrder}.

(** The labels in the order of the identity. *)
Definition sorted_labels (p : MetricPoint) : list (string * string) :=
  (λ k, (k, default ""%string (mp_Labels p !! k))) <$> sort_by id ((map_order (mp_Labels p)).*1).

Definition segment (kv : string * string) : list ascii := nul_byte :: bytes kv.1 ++ eq_byte :: bytes kv.2.

Lemma identity_bytes p : bytes (metricPointIdentity p) = bytes (mp_Name p) ++ concat (segment <$> sorted_labels p).
Proof.
  unfold metricPointIdentity, sorted_labels. generalize (sort_by id ((map_order (mp_Labels p)).*1)). intros keys.
  generalize (mp_Name p). induction keys as [|k keys IH]; intros acc; [by rewrite app_nil_r|].
  cbn [foldl]. rewrite IH, !bytes_app. csimpl. rewrite <-(assoc_L (++)). done.
Qed.

Lemma sorted_labels_Permutation p : sorted_labels p ≡ₚ map_to_list (mp_Labels p).
Proof.
  unfold sorted_labels. rewrite sort_by_Permutation, map_order_Permutation. rewrite <-list_fmap_compose.
  assert ((λ kv : string * string, (kv.1, default ""%string (mp_Labels p !! kv.1))) <$> map_to_list (mp_Labels p) = map_to_list (mp_Labels p)) as E.
  { rewrite <-(list_fmap_id (map_to_list (mp_Labels p))) at 2. apply list_fmap_ext. intros i [k v] Hi. simpl.
    apply list_elem_of_lookup_2, elem_of_map_to_list in Hi. by rewrite Hi. }
  by rewrite <-E at 2.
Qed.

Lemma segments_inj l1 l2 :
  Forall clean_label l1 → Forall clean_label l2 →
  concat (segment <$> l1) = concat (segment <$> l2) → l1 = l2.
Proof.
  intros H1. revert l2. induction H1 as [|[k v] l1 (Hn & He & Hv) _ IH]; intros [|[k' v'] l2] H2 E; [done..|].
  apply Forall_cons in H2 as [(Hn' & He' & Hv') H2]. csimpl in E. simpl in *. injection E as E. rewrite <-!(assoc_L (++)) in E. simpl in E.
  apply (app_sep_inj eq_byte) in E as [Ek%bytes_inj E]; [|done..|by right|by right]. injection E as E.
  apply (app_sep_inj nul_byte) in E as [Ev%bytes_inj E]; [|done..| |].
  - subst. f_equal. by apply IH.
  - destruct l1; [by left|by right].
  - destruct l2; [by left|by right].
Qed.

(** Identities of clean series are faithful. *)
Lemma identity_inj p q : clean p → clean q → metricPointIdentity p = metricPointIdentity q → series p = series q.
Proof.
  intros [Hn Hk] [Hn' Hk'] E. apply (f_equal bytes) in E. rewrite !identity_bytes in E.
  assert (∀ l : list (string * string), concat (segment <$> l) = [] ∨ head (concat (segment <$> l)) = Some nul_byte) as Hh.
  { intros [|kv l]; [by left|by right]. }
  apply (app_sep_inj nul_byte) in E as [En%bytes_inj E]; [|done..]. apply segments_inj in E.
  - unfold series. f_equal; [done|]. apply map_to_list_inj. by rewrite <-!sorted_labels_Permutation, E.
  - rewrite sorted_labels_Permutation. apply list.Forall_forall. intros [k v] Hkv%elem_of_map_to_list. by apply Hk.
  - rewrite sorted_labels_Permutation. apply list.Forall_forall. intros [k v] Hkv%elem_of_map_to_list. by apply Hk'.
Qed.

Lemma identity_unlabelled p : mp_Labels p = ∅ → metricPointIdentity p = mp_Name p.
Proof.
  intros E. unfold metricPointIdentity. rewrite E. assert (map_order (∅ : labels) = []) as ->; [|done].
  apply Permutation_nil_r. by rewrite map_order_Permutation, map_to_list_empty.
Qed.

Lemma identity_dated now p : metricPointIdentity (dated now p) = metricPointIdentity p.
Proof. unfold dated. by destruct (time_IsZero _). Qed.

(** ** Appending points *)

(** The extra points that are kept. *)
Fixpoint unseen (seen : gset string) (extra : list MetricPoint) : list MetricPoint :=
  match extra with
  | [] => []
  | p :: extra =>
      let i := metricPointIdentity p in
      if bool_decide (i ∈ seen) then unseen seen extra else p :: unseen ({[i]} ∪ seen) extra
  end.

Lemma append_unseen_eq seen dst extra now : append_unseen seen dst extra now = dst ++ (dated now <$> unseen seen extra).
Proof.
  revert seen dst. induction extra as [|p extra IH]; intros seen dst; simpl; [by rewrite app_nil_r|].
  rewrite identity_dated. case_bool_decide; rewrite IH; [done|]. csimpl. by rewrite <-(assoc_L (++)).
Qed.

Lemma appendMetricPoints_eq dst extra now :
  appendMetricPoints dst extra now = dst ++ (dated now <$> unseen (list_to_set (metricPointIdentity <$> dst)) extra).
Proof. apply append_unseen_eq. Qed.

Lemma unseen_sublist seen extra : unseen seen extra `sublist_of` extra.
Proof. revert seen. induction extra as [|p extra IH]; intros seen; simpl; [done|]. case_bool_decide; by constructor. Qed.

Lemma unseen_fresh seen extra p : p ∈ unseen seen extra → metricPointIdentity p ∉ seen.
Proof.
  revert seen. induction extra as [|q extra IH]; intros seen; simpl; [by intros ?%not_elem_of_nil|].
  case_bool_decide as Hq; [apply IH|]. intros [->|Hp]%elem_of_cons; [done|]. apply IH in Hp. set_solver.
Qed.

Lemma unseen_NoDup seen extra : NoDup (metricPointIdentity <$> unseen seen extra).
Proof.
  revert seen. induction extra as [|q extra IH]; intros seen; simpl; [constructor|]. case_bool_decide as Hq; [apply IH|]. csimpl.
  constructor; [|apply IH]. intros (p & E & Hp)%list_elem_of_fmap. apply unseen_fresh in Hp. set_solver.
Qed.

Lemma unseen_complete seen extra p :
  p ∈ extra → metricPointIdentity p ∈ seen ∨ metricPointIdentity p ∈ metricPointIdentity <$> unseen seen extra.
Proof.
  revert seen. induction extra as [|q extra IH]; intros seen; [by intros ?%not_elem_of_nil|].
  intros [<-|Hp]%elem_of_cons; simpl; case_bool_decide as Hq; csimpl; [by left|right; by left|by apply IH|].
  apply IH with (seen := {[metricPointIdentity q]} ∪ seen) in Hp as [Hp|Hp]; [|right; by right].
  apply elem_of_union in Hp as [Hp%elem_of_singleton|Hp]; [|by left]. right. rewrite Hp. by left.
Qed.

Lemma unseen_app seen e1 e2 : ∃ seen', unseen seen (e1 ++ e2) = unseen seen e1 ++ unseen seen' e2 ∧
  ∀ i, i ∈ seen' → i ∈ seen ∨ i ∈ metricPointIdentity <$> e1.
Proof.
  revert seen. induction e1 as [|q e1 IH]; intros seen; [exists seen; auto|]. simpl. case_bool_decide as Hq.
  - destruct (IH seen) as (s' & E & Hs). exists s'. rewrite E. split; [done|]. intros i Hi%Hs. csimpl. set_solver.
  - destruct (IH ({[metricPointIdentity q]} ∪ seen)) as (s' & E & Hs). exists s'. rewrite E. split; [done|].
    intros i Hi%Hs. csimpl. set_solver.
Qed.

(** A batch has each series once: appending keeps the summary in front and
    adds, dated, a selection of the extra points; no series occurs twice when the
    summary has none twice, and no series of the extra points is lost, as long as
    names and labels are free of the separators. *)
Theorem agent_series dst extra now :
  Forall clean (dst ++ extra) → NoDup (series <$> dst) →
  let res := appendMetricPoints dst extra now in
  (∃ kept, res = dst ++ (dated now <$> kept) ∧ kept `sublist_of` extra) ∧
  NoDup (series <$> res) ∧ ∀ p, p ∈ extra → series p ∈ series <$> res.
Proof.
  intros [Hd He]%Forall_app Hnd. cbv zeta. rewrite appendMetricPoints_eq. set (seen := list_to_set _).
  rewrite list.Forall_forall in Hd, He. pose proof (unseen_sublist seen extra) as Hsub.
  assert (∀ p, p ∈ unseen seen extra → clean p) as Hk.
  { intros p Hp. apply He. eapply elem_of_submseteq; [done|by apply sublist_submseteq]. }
  assert (∀ l : list MetricPoint, series <$> (dated now <$> l) = series <$> l) as Hser.
  { intros l. rewrite <-list_fmap_compose. apply list_fmap_ext. intros i p _. unfold series, dated. simpl. by destruct (time_IsZero _). }
  assert (∀ p q, clean p → clean q → series p = series q → metricPointIdentity p = metricPointIdentity q) as Hback.
  { intros p q _ _ [= En El]. apply bytes_inj. rewrite !identity_bytes. unfold sorted_labels. by rewrite En, El. }
  split_and!; [by eexists|..]; rewrite fmap_app, Hser.
  - apply NoDup_app. split_and!; [done| |].
    + intros x (p & -> & Hp)%list_elem_of_fmap (q & Eq & Hq)%list_elem_of_fmap. apply unseen_fresh in Hq as Hf. apply Hf.
      apply elem_of_list_to_set, list_elem_of_fmap. exists p. split; [|done]. symmetry. by apply Hback; [apply Hd|apply Hk|].
    + pose proof (unseen_NoDup seen extra) as Hu. revert Hu Hk. generalize (unseen seen extra). intros l.
      induction l as [|p l IH]; csimpl; [constructor|]. intros [Hp Hl]%NoDup_cons Hk. constructor; [|apply IH; [done|set_solver]].
      intros (q & Eq & Hq)%list_elem_of_fmap. apply Hp, list_elem_of_fmap. exists q. split; [|done].
      by apply Hback; [apply Hk; left|apply Hk; right|].
  - intros p Hp. apply elem_of_app. destruct (unseen_complete seen extra p Hp) as [Hi|Hi].
    + left. apply elem_of_list_to_set, list_elem_of_fmap in Hi as (q & E & Hq). apply identity_inj in E; [|auto..].
      rewrite E. by apply list_elem_of_fmap_2.
    + right. apply list_elem_of_fmap in Hi as (q & E & Hq). apply identity_inj in E; [|auto..]. rewrite E. by apply list_elem_of_fmap_2.
Qed.

End identity.

(** ** To the wire and back *)

Section roundtrip.
Context `{TimestampPb}.

(** What the server makes of a batch: all of it but the digest, which it computes
    itself; an empty identifier is taken from the identity or the metadata. *)
Definition received_batch (req : PushMetricBatchRequest) : PushMetricBatchRequest :=
  mkPushMetricBatchRequest
    (if str_empty (pm_HostUID req) then hi_HostUID (pm_Host req) else pm_HostUID req)
    (if str_empty (pm_AgentID req) then am_AgentID (pm_Agent req) else pm_AgentID req)
    (pm_BatchSeq req) (pm_CollectedAt req) (pm_Host req) (pm_Agent req) (pm_Points req) (pm_Collectors req) zero_AgentDigest.

Lemma fromProtoPoint_toProto p : fromProtoPoint (toProtoPoint p) = p.
Proof. destruct p. unfold fromProtoPoint, toProtoPoint. simpl. by rewrite !cloneStringMap_id, AsTime_New. Qed.

Lemma fromProtoCollector_toProto c : fromProtoCollector (toProtoCollector c) = c.
Proof. by destruct c. Qed.

Lemma fmap_inverse {A B} (f : A → B) (g : B → A) (l : list A) : (∀ x, g (f x) = x) → g <$> (f <$> l) = l.
Proof. intros Hgf. rewrite <-list_fmap_compose. rewrite <-(list_fmap_id l) at 2. apply list_fmap_ext. intros i x _. apply Hgf. Qed.

Lemma fromProto_toProto req sys :
  fromProtoPushMetricBatchRequest (with_system (toProtoPushMetricBatchRequest req) sys) = received_batch req.
Proof.
  destruct req as [u i n t [] [] points collectors d]. unfold fromProtoPushMetricBatchRequest, received_batch, hostIdentity, agentMetadata. simpl.
  rewrite !cloneStringMap_id, !AsTime_New, (fmap_inverse toProtoPoint fromProtoPoint) by apply fromProtoPoint_toProto.
  by rewrite (fmap_inverse toProtoCollector fromProtoCollector) by apply fromProtoCollector_toProto.
Qed.

(** C32: a metric batch survives the wire: what the server decodes from an agent's
    message is the agent's batch, point by point with names, values, times and
    labels, and with collectors, identity and metadata; only the digest is left
    to the server, and missing identifiers are filled in. *)
Theorem wire_batch_roundtrip req sys :
  fromProtoPushMetricBatchRequest (with_system (toProtoPushMetricBatchRequest req) sys) = received_batch req.
Proof. apply fromProto_toProto. Qed.

End roundtrip.

(** ** The digest the server computes *)

Lemma last_value_cat name a b :
  last_value name (a ++ b) = match last_value name b with Some v => Some v | None => last_value name a end.
Proof.
  unfold last_value. rewrite select_app, last_app. by destruct (last (select _ b)).
Qed.

Lemma last_value_none name points : Forall (λ p, mp_Name p ≠ name) points → last_value name points = None.
Proof.
  intros Hp. unfold last_value. rewrite select_none; [done|]. intros p Hin. rewrite list.Forall_forall in Hp.
  apply bool_decide_eq_false. by apply Hp.
Qed.

Lemma last_value_dated name now points : last_value name (dated now <$> points) = last_value name points.
Proof.
  induction points as [|p points IH] using rev_ind; [done|]. rewrite fmap_app. simpl. rewrite !last_value_app, IH.
  unfold dated. by destruct (time_IsZero _).
Qed.

Section digest.
Context `{MapOrder} `{GoArch}.

(** The identities of the summary are its names. *)
Lemma summary_identities u d now :
  (list_to_set (metricPointIdentity <$> summaryPoints u d now) : gset string) = list_to_set ("runtime_uptime_seconds"%string :: summary_names).
Proof.
  f_equal. unfold summaryPoints. rewrite <-list_fmap_compose. csimpl. by rewrite !identity_unlabelled.
Qed.

(** Points that carry summary names only where they may. *)
Definition extras_ok (extra : list MetricPoint) : Prop := Forall (λ p, summary_ok (mp_Name p) (mp_Labels p)) extra.

(** No kept point has the name of another summary metric. *)
Lemma kept_names u d now extra name :
  extras_ok extra → name ∈ summary_names → name ≠ cpu_usage →
  last_value name (unseen (list_to_set (metricPointIdentity <$> summaryPoints u d now)) extra) = None.
Proof.
  intros He Hin Hne. apply last_value_none, list.Forall_forall. intros p Hp E. rewrite summary_identities in Hp.
  pose proof (unseen_fresh _ _ _ Hp) as Hf. apply (elem_of_sublist _ extra) in Hp; [|apply unseen_sublist].
  unfold extras_ok in He. rewrite list.Forall_forall in He. destruct (He p Hp) as [Hl|Hc]; [by rewrite E|..].
  - apply Hf. rewrite identity_unlabelled, E by done. apply elem_of_list_to_set. by right.
  - by rewrite E in Hc.
Qed.

(** An integer of the digest travels as a [float64]. *)
Definition through_float (z : Z) : Z := f64_to_int64 (f64_of_int z).

(** The digest [d] of the agent as it arrives in a batch with extra points. *)
Definition arrived_digest (d : AgentDigest) (cpu : float64) (seq : Z) : AgentDigest :=
  mkAgentDigest cpu (dg_MemUsedPct d) (through_float (dg_MemAvailableBytes d)) (dg_SwapUsedPct d) (dg_DiskUsedPct d)
    (through_float (dg_DiskFreeBytes d)) (dg_DiskInodesUsedPct d) (through_float (dg_DiskReadBPS d))
    (through_float (dg_DiskWriteBPS d)) (through_float (dg_DiskReadIOPS d)) (through_float (dg_DiskWriteIOPS d)) (dg_Load1 d)
    (through_float (dg_NetRxBPS d)) (through_float (dg_NetTxBPS d)) (through_float (dg_NetRxPacketsPS d))
    (through_float (dg_NetTxPacketsPS d)) 0 seq.

Definition kept (u : float64) (d : AgentDigest) (now : Time) (extra : list MetricPoint) : list MetricPoint :=
  unseen (list_to_set (metricPointIdentity <$> summaryPoints u d now)) extra.

Lemma summary_digest u d now extra req :
  extras_ok extra → pm_Points req = appendMetricPoints (summaryPoints u d now) extra now →
  digestFromMetricBatch req =
    arrived_digest d (default (dg_CPUUsagePct d) (last_value cpu_usage (kept u d now extra))) (pm_BatchSeq req).
Proof.
  intros He Hp. unfold digestFromMetricBatch. rewrite digest_fold, Hp, appendMetricPoints_eq. fold (kept u d now extra).
  unfold digest_spec, metric_f, metric_i. rewrite !last_value_cat, !last_value_dated.
  assert (∀ name, name ∈ summary_names → name ≠ cpu_usage → last_value name (kept u d now extra) = None) as Hk by (intros; by apply kept_names).
  change "host_cpu_usage_pct"%string with cpu_usage.
  repeat match goal with |- context [last_value (String ?c ?s) (kept _ _ _ _)] =>
    rewrite (Hk (String c s)) by first [discriminate | apply (bool_decide_unpack _); vm_compute; exact I] end.
  unfold arrived_digest. f_equal. by destruct (last_value cpu_usage (kept u d now extra)).
Qed.

End digest.

(** ** What a cycle sends *)

Section cycle.
Context `{StringsLower} (GOOS : string) `{MapOrder} `{GoArch} `{TimestampPb}.

#[local] Abbreviation sendCycle := (sendCycle GOOS).

Lemma metricStreamClient_keeps a cy r a' :
  metricStreamClient a cy = (r, a') →
  ∃ c1 c2 c3, a' = with_conn a c1 c2 c3.
Proof.
  unfold metricStreamClient, grpcIngestClient, grpcConnOrDial. destruct a. intros E.
  repeat case_match; simplify_eq/=; by repeat eexists.
Qed.

Lemma pushMetricsGRPC_sent a payload sys cy r sent a' :
  pushMetricsGRPC a payload sys cy = (r, sent, a') →
  (sent = None ∨ sent = Some (with_system (toProtoPushMetricBatchRequest payload) sys)) ∧ ∃ c1 c2 c3, a' = with_conn a c1 c2 c3.
Proof.
  unfold pushMetricsGRPC. destruct (metricStreamClient a cy) as [[[]|e] a1] eqn:Em;
    apply metricStreamClient_keeps in Em as (c1 & c2 & c3 & ->); intros E.
  - repeat case_match; simplify_eq/=; (split; [by right|]); unfold resetMetricStream; by repeat eexists.
  - simplify_eq/=. split; [by left|]. by repeat eexists.
Qed.

(** The sample of the cycle and the digest the agent makes of it. *)
Definition cycle_metrics (a : Agent) (cy : cycle) : systemMetrics := (Sample GOOS (ag_sampler a) (cy_now cy) (cy_collection cy)).1.
Definition cycle_digest (a : Agent) (cy : cycle) : AgentDigest := digestFromMetrics a (cycle_metrics a cy).

(** A cycle counts a batch and sends at most that one. *)
Lemma sendCycle_sent a cy r sent a' :
  sendCycle a cy = (r, sent, a') →
  (∀ req, sent = Some req → ∃ sys, req = with_system (toProtoPushMetricBatchRequest
     (batchPayload (with_seq a (int64_incr (ag_metricSeq a))) (cy_now cy) (cy_since cy) (cycle_digest a cy) (cycle_metrics a cy))) sys) ∧
  ag_metricSeq a' = int64_incr (ag_metricSeq a) ∧ ag_hostUID a' = ag_hostUID a ∧ ag_agentID a' = ag_agentID a ∧ ag_Host a' = ag_Host a.
Proof.
  unfold Agent.sendCycle, cycle_digest, cycle_metrics. destruct (Sample _ _ _ _) as [m s]. unfold pushMetrics.
  intros (Hs & c1 & c2 & c3 & ->)%pushMetricsGRPC_sent. destruct a. simpl. split; [|done].
  intros req ->. destruct Hs as [Hs|Hs]; [done|]. injection Hs as ->. by eexists.
Qed.

Lemma Sample_extra s now c : sm_ExtraPoints (Sample GOOS s now c).1 = co_points c.
Proof.
  unfold Sample. destruct (co_structured c) as [st|]; [|done]. destruct (match pb.SystemMetrics_Memory st with Some _ => _ | None => _ end).
  destruct (match rootFilesystem s _ with Some _ => _ | None => _ end) as [[]].
  destruct (sampleNetwork s now _) as [[[[]]] sA]. by destruct (sampleDisks GOOS sA now _) as [[[[]]] sB].
Qed.

(** The digest that arrives with a batch. *)
Lemma sent_digest a cy r req a' :
  extras_ok (co_points (cy_collection cy)) → sendCycle a cy = (r, Some req, a') →
  ∃ u, digestFromMetricBatch (fromProtoPushMetricBatchRequest req) =
    arrived_digest (cycle_digest a cy)
      (default (dg_CPUUsagePct (cycle_digest a cy)) (last_value cpu_usage (kept u (cycle_digest a cy) (cy_now cy) (co_points (cy_collection cy)))))
      (int64_incr (ag_metricSeq a)).
Proof.
  intros He E. apply sendCycle_sent in E as [Hr _]. destruct (Hr req eq_refl) as [sys ->]. rewrite fromProto_toProto.
  exists (uptime (with_seq a (int64_incr (ag_metricSeq a))) (cy_since cy)).
  rewrite (summary_digest (uptime (with_seq a (int64_incr (ag_metricSeq a))) (cy_since cy)) (cycle_digest a cy) (cy_now cy)
    (co_points (cy_collection cy))); [done..|].
  unfold received_batch, batchPayload, cycle_metrics. simpl. by rewrite Sample_extra.
Qed.

Definition exact_int (z : Z) : Prop := Z.abs z < 2 ^ 53.
(** The integers of a digest that a [float64] holds exactly. *)
Definition digest_exact (d : AgentDigest) : Prop :=
  Forall exact_int [dg_MemAvailableBytes d; dg_DiskFreeBytes d; dg_DiskReadBPS d; dg_DiskWriteBPS d; dg_DiskReadIOPS d;
    dg_DiskWriteIOPS d; dg_NetRxBPS d; dg_NetTxBPS d; dg_NetRxPacketsPS d; dg_NetTxPacketsPS d].

Definition with_cpu (d : AgentDigest) (cpu : float64) (seq : Z) : AgentDigest :=
  mkAgentDigest cpu (dg_MemUsedPct d) (dg_MemAvailableBytes d) (dg_SwapUsedPct d) (dg_DiskUsedPct d) (dg_DiskFreeBytes d)
    (dg_DiskInodesUsedPct d) (dg_DiskReadBPS d) (dg_DiskWriteBPS d) (dg_DiskReadIOPS d) (dg_DiskWriteIOPS d) (dg_Load1 d)
    (dg_NetRxBPS d) (dg_NetTxBPS d) (dg_NetRxPacketsPS d) (dg_NetTxPacketsPS d) 0 seq.

Lemma arrived_exact d cpu seq : digest_exact d → arrived_digest d cpu seq = with_cpu d cpu seq.
Proof.
  intros Hd. unfold digest_exact in Hd. rewrite !Forall_cons in Hd. unfold arrived_digest, with_cpu, through_float.
  by rewrite !f64_int_roundtrip by apply Hd.
Qed.

(** From sample to server: the digest that the ingest service computes from
    the batch of a cycle is the digest the agent made of its sample, with the
    sequence number of the batch, as long as the integers are below [2^53] and no
    extra point claims a summary name with labels; only the usage of the
    processors is taken from the last extra point of that name that was kept,
    when there is one. *)
Theorem agent_digest_received a cy r req a' :
  extras_ok (co_points (cy_collection cy)) → digest_exact (cycle_digest a cy) → sendCycle a cy = (r, Some req, a') →
  ∃ u, digestFromMetricBatch (fromProtoPushMetricBatchRequest req) =
    with_cpu (cycle_digest a cy)
      (default (dg_CPUUsagePct (cycle_digest a cy)) (last_value cpu_usage (kept u (cycle_digest a cy) (cy_now cy) (co_points (cy_collection cy)))))
      (int64_incr (ag_metricSeq a)).
Proof. intros He Hd E. apply sent_digest in E as [u ->]; [|done]. exists u. by apply arrived_exact. Qed.

End cycle.


(** ** The usage of the processors *)

Section processors.
Context `{StringsLower} `{UnicodeCase} (GOOS drive : string) `{MapOrder} `{GoArch} `{TimestampPb}.

Lemma cpu_name_inj i j : cpu_name i = cpu_name j → i = j.
Proof. unfold cpu_name. intros E%(inj (String.append "cpu")). by apply (inj pretty). Qed.

Lemma usage_point_series i j x y : series (usage_point i x) = series (usage_point j y) → i = j.
Proof.
  unfold series, usage_point. intros E%(f_equal snd). simpl in E.
  apply (f_equal (lookup "cpu"%string)) in E. rewrite !lookup_singleton, !decide_True in E by done.
  apply (inj Some), cpu_name_inj in E. lia.
Qed.

Lemma summary_clean u d now : Forall clean (summaryPoints u d now).
Proof.
  unfold summaryPoints. apply list.Forall_forall. intros p (nv & -> & Hp)%list_elem_of_fmap. split.
  - destruct nv as [n v]. simpl. apply (list_elem_of_fmap_2 fst) in Hp. simpl in Hp. revert n Hp. apply list.Forall_forall.
    csimpl. repeat constructor; (apply (bool_decide_unpack _); vm_compute; exact I).
  - destruct nv as [n v]. simpl. intros k w Hk. by rewrite lookup_empty in Hk.
Qed.

Lemma summary_unlabelled u d now p : p ∈ summaryPoints u d now → mp_Labels p = ∅.
Proof. unfold summaryPoints. by intros ([n v] & -> & _)%list_elem_of_fmap. Qed.

(** The usage of the last processor is kept, and last. *)
Lemma kept_last_usage u d now e1 e2 i v :
  Forall clean (e1 ++ usage_point i v :: e2) →
  Forall (λ p, (mp_Name p ≠ cpu_usage) ∨ ∃ j x, (j < i)%nat ∧ p = usage_point j x) e1 → Forall (λ p, mp_Name p ≠ cpu_usage) e2 →
  last_value cpu_usage (kept u d now (e1 ++ usage_point i v :: e2)) = Some (clampPercent v).
Proof.
  intros [Hc1 [Hcp _]%Forall_cons]%Forall_app Hbef Haft. unfold kept. set (seen := list_to_set _).
  destruct (unseen_app seen e1 (usage_point i v :: e2)) as (seen' & -> & Hs). cbn [unseen].
  rewrite bool_decide_false, last_value_cat.
  - change (?p :: ?l) with ([p] ++ l). rewrite last_value_cat, last_value_none; [done|].
    apply list.Forall_forall. intros p Hp. apply (elem_of_sublist _ e2) in Hp; [|apply unseen_sublist].
    rewrite list.Forall_forall in Haft. by apply Haft.
  - intros [Hi|Hi]%Hs.
    + apply elem_of_list_to_set, list_elem_of_fmap in Hi as (q & E & Hq). apply identity_inj in E; [|done|by eapply list.Forall_forall; [apply summary_clean|]].
      apply (f_equal snd) in E. simpl in E. rewrite (summary_unlabelled _ _ _ _ Hq) in E. by apply map_non_empty_singleton in E.
    + apply list_elem_of_fmap in Hi as (q & E & Hq). rewrite list.Forall_forall in Hc1, Hbef. apply identity_inj in E; [|auto..].
      destruct (Hbef q Hq) as [Hn|(j & x & Hj & ->)].
      * by apply Hn; injection E.
      * apply usage_point_series in E. lia.
Qed.

(** The usage of the processors that the server records is that of the last
    processor alone: the collector sends one point per processor under the name
    of the summary metric, all of them are kept beside the mean, and the digest
    takes the last point of the name whatever its labels. *)
Theorem agent_cpu_last_core a cy r req a' rd rs rest d late vs v :
  Forall (genuine GOOS drive rd) rs → NoDup (cr_name <$> rs) → timed (collectCPUMetrics rd) d late ∈ rs →
  concluded GOOS drive rs rest → collectExtendedMetrics GOOS drive ((Arrived <$> rs) ++ rest) = Some (cy_collection cy) →
  Forall clean (co_points (cy_collection cy)) →
  gr_percent rd = Some (vs ++ [v]) → is_nan v = false →
  sendCycle GOOS a cy = (r, Some req, a') →
  dg_CPUUsagePct (digestFromMetricBatch (fromProtoPushMetricBatchRequest req)) = clampPercent v.
Proof.
  intros Hg Hd Hin Hco Hc Hcl Hp Hv Hs. destruct (cpu_last_usage rd vs v Hp Hv) as (e1 & e2 & Ep & He2 & He1).
  destruct (collection_points GOOS drive rd rs rest (cy_collection cy) d late Hg Hd Hin) as (before & after & Eq & Hb & Ha); [rewrite Ep; by destruct e1|done..|].
  assert (∀ l, Forall (collected_ok other_ok) l → Forall (λ p, mp_Name p ≠ cpu_usage) l) as Hne.
  { intros l Hl. eapply list.Forall_impl; [exact Hl|]. by intros p [_ _ _ [Hn _]]. }
  assert (extras_ok (co_points (cy_collection cy))) as He.
  { unfold extras_ok. assert (∀ l, Forall (collected_ok summary_ok) l → Forall (λ p, summary_ok (mp_Name p) (mp_Labels p)) l) as Hx.
    { intros l Hl. eapply list.Forall_impl; [exact Hl|]. by intros p []. }
    rewrite Eq. apply Forall_app. split; [|apply Forall_app; split]; apply Hx;
      [by apply (collected_ok_impl _ _ _ other_summary)|apply cpu_points_ok|by apply (collected_ok_impl _ _ _ other_summary)]. }
  destruct (sent_digest GOOS _ _ _ _ _ He Hs) as [u ->]. cbn [dg_CPUUsagePct arrived_digest].
  rewrite Ep in Eq. replace (before ++ (e1 ++ usage_point (length vs) v :: e2) ++ after)
    with ((before ++ e1) ++ usage_point (length vs) v :: (e2 ++ after)) in Eq by (by rewrite <-!(assoc_L (++))).
  rewrite Eq in Hcl |- *. rewrite kept_last_usage; [done|done|..]; apply Forall_app; split; auto.
  eapply list.Forall_impl; [by apply Hne|]. by left.
Qed.

End processors.

(** ** The loop *)

Section loop.
Context `{StringsLower} (GOOS : string) `{MapOrder} `{GoArch} `{TimestampPb}.

#[local] Abbreviation Run := (Run GOOS).
#[local] Abbreviation runLoop := (runLoop GOOS).
#[local] Abbreviation sendCycle := (sendCycle GOOS).

(** A batch of the agent with a sequence number in a range. *)
Definition numbered (a : Agent) (lo hi : Z) (req : pb.PushMetricBatchRequest) : Prop :=
  pb.PushMetricBatchRequest_HostUid req = ag_hostUID a ∧ pb.PushMetricBatchRequest_AgentId req = ag_agentID a ∧
  lo < pb.PushMetricBatchRequest_BatchSeq req ≤ hi.

Lemma numbered_weaken a a' lo lo' hi hi' out :
  ag_hostUID a' = ag_hostUID a → ag_agentID a' = ag_agentID a → lo ≤ lo' → hi' ≤ hi →
  Forall (numbered a' lo' hi') out → Forall (numbered a lo hi) out.
Proof. intros Hu Hi Hl Hh Ho. eapply list.Forall_impl; [done|]. intros req (Eu & Ei & Hr). split_and!; [congruence..|lia|lia]. Qed.

(** Why the loop ended, or that it has not. *)
Definition run_ended (l : list (option cycle)) (fin : option (option agentError)) (cycles : Z) : Prop :=
  match fin with
  | None => None ∉ l ∧ cycles = llen l
  | Some None => ∃ l1 l2, l = (Some <$> l1) ++ None :: l2 ∧ cycles = llen l1
  | Some (Some e) => e = CallFailed FailedPrecondition ∧ 1 ≤ cycles ≤ llen l
  end.

Lemma run_ended_cons cy l fin n : run_ended l fin n → run_ended (Some cy :: l) fin (n + 1).
Proof.
  destruct fin as [[e|]|]; simpl; unfold llen; simpl length.
  - intros [-> Hn]. split; [done|lia].
  - intros (l1 & l2 & -> & ->). exists (cy :: l1), l2. split; [done|]. simpl. lia.
  - intros [Hn ->]. split; [set_solver|lia].
Qed.

Lemma fatal_failed e : isFatalMetricError e = true → e = CallFailed FailedPrecondition.
Proof. unfold isFatalMetricError. intros He%bool_decide_eq_true. destruct e; simpl in He; congruence. Qed.

Lemma sendCycle_numbered a cy r sent a' :
  0 ≤ ag_metricSeq a < int64_max → sendCycle a cy = (r, sent, a') →
  ag_metricSeq a' = ag_metricSeq a + 1 ∧ ag_hostUID a' = ag_hostUID a ∧ ag_agentID a' = ag_agentID a ∧
  Forall (numbered a (ag_metricSeq a) (ag_metricSeq a + 1)) (option_list sent).
Proof.
  intros Hr (Hs & Hq & Hu & Hi & _)%sendCycle_sent. rewrite int64_incr_small in Hq by (unfold int64_min in *; lia).
  split_and!; [done..|]. destruct sent as [req|]; [|constructor]. simpl. apply Forall_singleton.
  destruct (Hs req eq_refl) as [sys ->]. unfold numbered. simpl. rewrite int64_incr_small by (unfold int64_min in *; lia).
  split_and!; [done..|lia|lia].
Qed.

Lemma runLoop_spec l a out fin a' :
  0 ≤ ag_metricSeq a → ag_metricSeq a + llen l ≤ int64_max → runLoop a l = (out, fin, a') →
  ag_hostUID a' = ag_hostUID a ∧ ag_agentID a' = ag_agentID a ∧ ag_metricSeq a ≤ ag_metricSeq a' ∧
  StronglySorted Z.lt (pb.PushMetricBatchRequest_BatchSeq <$> out) ∧
  Forall (numbered a (ag_metricSeq a) (ag_metricSeq a')) out ∧
  run_ended l fin (ag_metricSeq a' - ag_metricSeq a).
Proof.
  revert a out. induction l as [|[cy|] l IH]; intros a out H0' Hb E; simpl in E.
  { injection E as <- <- <-. split_and!; try done; [constructor|]. split; [set_solver|unfold llen; simpl; lia]. }
  2: { injection E as <- <- <-. split_and!; try done; [constructor|]. exists [], l. split; [done|unfold llen; simpl; lia]. }
  unfold llen in Hb. simpl length in Hb. destruct (sendCycle a cy) as [[r sent] a1] eqn:Es.
  apply sendCycle_numbered in Es as (Hq & Hu & Hi & Hn); [|lia].
  assert (StronglySorted Z.lt (pb.PushMetricBatchRequest_BatchSeq <$> option_list sent)) as Hsort.
  { destruct sent; repeat constructor. }
  destruct (runLoop a1 l) as [[more fin1] a2] eqn:El.
  assert ((∃ e, r = Err e ∧ isFatalMetricError e = true ∧ out = option_list sent ∧ fin = Some (Some e) ∧ a' = a1) ∨
          (out = option_list sent ++ more ∧ fin = fin1 ∧ a' = a2)) as [(e & -> & He & -> & -> & ->)|(-> & -> & ->)].
  { destruct r as [|e]; [|destruct (isFatalMetricError e) eqn:Ef]; injection E as <- <- <-; eauto 10. }
  - apply fatal_failed in He as ->. split_and!; [done..|lia|done| |].
    + by rewrite Hq.
    + rewrite Hq. simpl. split; [done|]. unfold llen. simpl length. lia.
  - apply IH in El as (Hu2 & Hi2 & Hle & Hs2 & Hn2 & He); [|lia|unfold llen; lia]. split_and!; [congruence..|lia| | |].
    + rewrite fmap_app. apply StronglySorted_app_2; [|done..]. intros x y (p & -> & Hp)%list_elem_of_fmap (q & -> & Hqq)%list_elem_of_fmap.
      rewrite list.Forall_forall in Hn, Hn2. destruct (Hn _ Hp) as (_ & _ & ?), (Hn2 _ Hqq) as (_ & _ & ?). lia.
    + apply Forall_app. split; [by apply (numbered_weaken a a (ag_metricSeq a) (ag_metricSeq a) _ (ag_metricSeq a + 1)); [..|lia|lia|]|].
      apply (numbered_weaken a a1 (ag_metricSeq a) (ag_metricSeq a1) _ (ag_metricSeq a2)); [done..|lia|lia|done].
    + apply run_ended_cons with (cy := cy) in He. rewrite Hq in He. by replace (ag_metricSeq a2 - ag_metricSeq a) with (ag_metricSeq a2 - (ag_metricSeq a + 1) + 1) by lia.
Qed.

(** C29: the loop numbers its batches: every batch sent carries the identity of
    the agent and a sequence number larger than those before it, no number is
    used twice even over failed cycles, and the loop ends only by cancellation or
    by a call that failed with [FailedPrecondition]; any other failure of a cycle
    leaves it running, so that without these every tick has had its cycle. *)
Theorem agent_run a first l out fin a' :
  0 ≤ ag_metricSeq a → ag_metricSeq a + llen (Some first :: l) ≤ int64_max → Run a first l = (out, fin, a') →
  StronglySorted Z.lt (pb.PushMetricBatchRequest_BatchSeq <$> out) ∧
  Forall (numbered a (ag_metricSeq a) (ag_metricSeq a')) out ∧
  run_ended (Some first :: l) fin (ag_metricSeq a' - ag_metricSeq a).
Proof. intros Ha Hl (_ & _ & _ & Hs & Hn & He)%runLoop_spec; done. Qed.

(** A stream exists only on a client, a client only on a connection. *)
Definition connected_ok (a : Agent) : Prop :=
  (ag_metricSink a = true → ag_grpcIngest a = true) ∧ (ag_grpcIngest a = true → ag_grpcConn a = true).

Lemma metricStreamClient_connected a cy r a' : connected_ok a → metricStreamClient a cy = (r, a') → connected_ok a'.
Proof.
  intros [Hs1 Hs2]. unfold metricStreamClient, grpcIngestClient, grpcConnOrDial, connected_ok.
  destruct (ag_metricSink a) eqn:Es; [intros [= <- <-]; rewrite Es; auto|].
  destruct (ag_grpcIngest a) eqn:Ei; [|destruct (ag_grpcConn a) eqn:Ec; [|destruct (cy_dial cy)]]; simpl;
    repeat (case_match; simpl in * ); intros; simplify_eq/=; rewrite ?Es, ?Ei, ?Ec; auto.
Qed.

Lemma sendCycle_connected a cy r sent a' : connected_ok a → sendCycle a cy = (r, sent, a') → connected_ok a'.
Proof.
  intros Ha. unfold Agent.sendCycle. destruct (Sample _ _ _ _) as [m sm]. unfold pushMetrics, pushMetricsGRPC.
  destruct (metricStreamClient _ cy) as [[[]|e] a1] eqn:Em; (apply metricStreamClient_connected in Em; [|done]); [|by intros [= _ _ <-]].
  assert (connected_ok (resetMetricStream a1)) as Hr by (destruct Em; by split).
  destruct (cy_send cy); [by intros [= _ _ <-]|]. destruct (cy_recv cy); [|by intros [= _ _ <-]].
  destruct (_ && _); [by intros [= _ _ <-]|]. destruct (_ && _); by intros [= _ _ <-].
Qed.

Lemma runLoop_exit l a out fin a' :
  connected_ok a → runLoop a l = (out, fin, a') → connected_ok a' ∧ ∀ e, fin = Some (Some e) → e = CallFailed FailedPrecondition.
Proof.
  revert a out fin a'. induction l as [|[cy|] l IH]; intros a out fin a' Ha E; simpl in E; [by injection E as <- <- <-| |by injection E as <- <- <-].
  destruct (sendCycle a cy) as [[r sent] a1] eqn:Es. apply sendCycle_connected in Es; [|done].
  destruct (runLoop a1 l) as [[more fin1] a2] eqn:El. apply IH in El; [|done].
  destruct r as [|e]; [by injection E as <- <- <-|]. destruct (isFatalMetricError e) eqn:Ef; [|by injection E as <- <- <-].
  injection E as <- <- <-. split; [done|]. intros e' [= <-]. by apply fatal_failed.
Qed.

(** The program of the agent ends with status zero when it is stopped and panics
    only when the gateway answers that the tenant does not exist; either way it
    closes its connection when it has one, so no stream is left behind. *)
Theorem agent_main_exit host agentID now rootPath first l sent x stream conn :
  main_run GOOS (New host agentID now rootPath) first l = (sent, Some (x, (stream, conn))) →
  (stream = true → conn = true) ∧ match x with ExitZero => True | Panic e => e = CallFailed FailedPrecondition end.
Proof.
  unfold main_run, Run. destruct (Agent.runLoop _ _ _) as [[out fin] a'] eqn:E. apply runLoop_exit in E as [[Hc1 Hc2] He]; [|done].
  destruct fin as [r|]; [|done]. intros [= _ <- <- <-]. split; [auto|]. destruct r as [e|]; [by apply He|done].
Qed.

End loop.

(** ** The agent and the server *)

Section connected.
Context `{StringsLower} (GOOS : string) `{MapOrder}.
Context {W : Type} `{HostStateStore W} `{MetricWindow W} `{EventPublisher W} `{Runtime W}.
Context `{UnicodeTables} `{MapRange} `{GoArch} `{TimestampPb}.

#[local] Abbreviation sendCycle := (sendCycle GOOS).

(** What the agent receives on an open stream after sending [req], and the
    server afterwards. *)
Definition server_reply (req : pb.PushMetricBatchRequest) (s : Svc W) : result rpcCode pb.MetricBatchAck * Svc W :=
  match StreamMetricBatches [(id, Incoming req None)] s with
  | (ack :: _, _, s) => (Ok ack, s)
  | ([], Some (Some e), s) => (Err (status_Code e), s)
  | ([], _, s) => (Err (OtherCode 2), s)
  end.

Lemma server_reply_eq req s :
  server_reply req s =
  match PushMetricBatch (fromProtoPushMetricBatchRequest req) s with
  | (Ok resp, s) => (Ok (pb.mkMetricBatchAck (Some (toProtoAck resp)) (pb.PushMetricBatchRequest_BatchSeq req)), s)
  | (Err e, s) => (Err (status_Code (metricStatus e)), s)
  end.
Proof. unfold server_reply. simpl. unfold id. by destruct (PushMetricBatch _ s) as [[]]. Qed.

Lemma metricStatus_fatal e : status_Code (metricStatus e) = FailedPrecondition ↔ e = ErrTenantNotFound.
Proof. by destruct e. Qed.

(** After [Send], the answer decides. *)
Lemma pushMetricsGRPC_answer a payload sys cy r req a' :
  pushMetricsGRPC a payload sys cy = (r, Some req, a') → cy_send cy = None →
  req = with_system (toProtoPushMetricBatchRequest payload) sys ∧
  match cy_recv cy with
  | Err code => r = Err (CallFailed code) ∧ ag_metricSink a' = false
  | Ok ack => (∀ inner, pb.MetricBatchAck_Ack ack = Some inner → pb.Ack_Code inner = 0) →
      pb.MetricBatchAck_BatchSeq ack = pm_BatchSeq payload → r = Ok () ∧ ag_metricSink a' = true
  end.
Proof.
  unfold pushMetricsGRPC. destruct (metricStreamClient a cy) as [[[]|e] a1] eqn:Em; [|done]. intros E Hs. rewrite Hs in E.
  assert (ag_metricSink a1 = true) as Hsink.
  { unfold metricStreamClient in Em. repeat case_match; simplify_eq/=; done. }
  destruct (cy_recv cy) as [ack|code]; [|by injection E as <- <- <-].
  destruct (bool_decide _ && _) eqn:Eb; [|destruct (negb _ && _) eqn:Es]; injection E as <- <- <-; (split; [done|]); intros Hc Hq; [..|done].
  - apply andb_true_iff in Eb as [[inner Hi]%bool_decide_eq_true Hn]. rewrite Hi in Hn. simpl in Hn. by rewrite (Hc inner Hi) in Hn.
  - rewrite Hq, Z.eqb_refl, andb_false_r in Es. done.
Qed.

(** The control client shares the connection of the stream: once a batch went out
    there is nothing to dial and it cannot fail. *)
Lemma control_shares_connection a payload sys cy cy' r req a' :
  connected_ok a → pushMetricsGRPC a payload sys cy = (r, Some req, a') → grpcControlClient a' false cy' = (Ok (), a', true).
Proof.
  intros Ha. unfold pushMetricsGRPC. destruct (metricStreamClient a cy) as [[[]|e] a1] eqn:Em; [|done].
  assert (ag_grpcConn a1 = true) as Hc.
  { pose proof (metricStreamClient_connected _ _ _ _ Ha Em) as [Hs1 Hs2]. apply Hs2, Hs1. unfold metricStreamClient in Em. repeat case_match; simplify_eq/=; done. }
  intros E. assert (ag_grpcConn a' = true) as Hc' by (repeat case_match; simplify_eq/=; done).
  unfold grpcControlClient, grpcConnOrDial. by rewrite Hc'.
Qed.

(** C30: an agent and its server agree on every batch: on a stream whose other end
    is the ingest service, a cycle succeeds exactly when the service accepted the
    batch, and then keeps the stream; when the service refuses it, the stream is
    dropped, and the failure stops the agent exactly when the tenant does not
    exist. *)
Theorem agent_server_cycle a cy r req a' s :
  sendCycle a cy = (r, Some req, a') → cy_send cy = None → cy_recv cy = (server_reply req s).1 →
  match PushMetricBatch (fromProtoPushMetricBatchRequest req) s with
  | (Ok _, _) => r = Ok () ∧ ag_metricSink a' = true
  | (Err e, _) => ag_metricSink a' = false ∧ ∃ x, r = Err x ∧ (isFatalMetricError x = true ↔ e = ErrTenantNotFound)
  end.
Proof.
  unfold Agent.sendCycle. destruct (Sample _ _ _ _) as [m sm]. unfold pushMetrics. intros E Hs Hr.
  apply pushMetricsGRPC_answer in E as [-> E]; [|done]. rewrite Hr, server_reply_eq in E.
  destruct (PushMetricBatch _ s) as [[resp|e] s'] eqn:Ep; simpl in E.
  - apply PushMetricBatch_ack in Ep as [Hc _]. apply E; [|done]. intros inner [= <-]. simpl. by rewrite Hc.
  - destruct E as [-> ->]. split; [done|]. eexists. split; [done|]. unfold isFatalMetricError. simpl.
    by rewrite bool_decide_eq_true, metricStatus_fatal.
Qed.

End connected.

(** ** Examples *)

Section examples.
#[local] Existing Instance StringsLower_bytes.
#[local] Existing Instance UnicodeCase_ascii.
#[local] Existing Instance MapOrder_keys.
#[local] Existing Instance GoArch_amd64.
#[local] Existing Instance TimestampPb_unix.

Definition ex_labelled (core : string) : MetricPoint := mkMetricPoint "m" f64_zero time_zero {["core"%string := core]}.

Lemma clean_labelled core : (nul_byte ∉ bytes core) → clean (ex_labelled core).
Proof.
  intros Hc. split; [apply (bool_decide_unpack _); vm_compute; exact I|]. intros k v Hk. cbn [mp_Labels ex_labelled] in Hk.
  apply lookup_singleton_Some in Hk as [<- <-].
  split_and!; [apply (bool_decide_unpack _); vm_compute; exact I..|exact Hc].
Qed.

Lemma agent_series_witness :
  NoDup (series <$> appendMetricPoints [] [ex_labelled "0"; ex_labelled "1"; ex_labelled "0"] (ex_at 1)).
Proof.
  destruct (agent_series [] [ex_labelled "0"; ex_labelled "1"; ex_labelled "0"] (ex_at 1)) as (_ & Hn & _); [|constructor|exact Hn].
  apply Forall_app. split; [constructor|].
  repeat (apply Forall_cons; split; [apply clean_labelled, (bool_decide_unpack _); vm_compute; exact I|]). constructor.
Defined.

Definition ex_host (tenant : string) : HostIdentity := mkHostIdentity "host-a" tenant "web-1" "10.0.0.1" [] "linux" "amd64" "eu" "" "" "" ∅.
Definition ex_ag (tenant : string) : Agent := New (ex_host tenant) "agent-1" (ex_at 5) "/".
Definition ex_coll : collection := default (mkCollection [] [] [] None) ex_collection.
Definition ex_ack (n : Z) : pb.MetricBatchAck := pb.mkMetricBatchAck (Some pb.zero_Ack) n.
Definition ex_cycle (recv : result rpcCode pb.MetricBatchAck) : cycle :=
  mkCycle (ex_at 10) ex_coll (ex_at 11) (ex_at 11) None None None recv.

Definition ex_sent : option pb.PushMetricBatchRequest := (sendCycle "linux" (ex_ag "acme") (ex_cycle (Ok (ex_ack 1)))).1.2.

Lemma ex_coll_clean : Forall clean (co_points ex_coll).
Proof.
  assert (Forall (λ p, (nul_byte ∉ bytes (mp_Name p)) ∧ Forall clean_label (map_to_list (mp_Labels p))) (co_points ex_coll)) as Hc.
  { apply (bool_decide_unpack _). vm_compute. exact I. }
  eapply list.Forall_impl; [exact Hc|]. intros p [Hn Hl]. split; [done|]. intros k v Hk%elem_of_map_to_list.
  rewrite list.Forall_forall in Hl. by apply (Hl (k, v)).
Qed.

(** An idle and a busy processor: the agent measured 50, the server records 100. *)
Lemma agent_cpu_last_core_witness :
  (λ req, dg_CPUUsagePct (digestFromMetricBatch (fromProtoPushMetricBatchRequest req))) <$> ex_sent = Some f64_hundred ∧
  dg_CPUUsagePct (cycle_digest "linux" (ex_ag "acme") (ex_cycle (Ok (ex_ack 1)))) = f64_of_int 50.
Proof.
  split; [|vm_compute; reflexivity]. unfold ex_sent.
  assert (is_Some (sendCycle "linux" (ex_ag "acme") (ex_cycle (Ok (ex_ack 1)))).1.2) as Hk by (vm_compute; by eexists).
  destruct (sendCycle "linux" (ex_ag "acme") (ex_cycle (Ok (ex_ack 1)))) as [[r sent] a'] eqn:E. simpl in *. destruct Hk as [req ->].
  cbn [fmap option_fmap option_map]. f_equal. change f64_hundred with (clampPercent f64_hundred).
  apply (agent_cpu_last_core "linux" "" (ex_ag "acme") (ex_cycle (Ok (ex_ack 1))) r req a' ex_readings ex_results [DeadlineExceeded] 5000000 false [f64_zero] f64_hundred).
  - constructor; [|constructor; [|constructor]]; eexists _, _, _, _; (split; [|reflexivity]).
    + by apply (list_elem_of_lookup_2 _ 4%nat).
    + by apply (list_elem_of_lookup_2 _ 1%nat).
  - apply ex_results_ok.
  - by apply (list_elem_of_lookup_2 _ 1%nat).
  - by right.
  - vm_compute. reflexivity.
  - apply ex_coll_clean.
  - reflexivity.
  - reflexivity.
  - exact E.
Defined.

Lemma agent_digest_received_witness :
  (λ req, dg_Load1 (digestFromMetricBatch (fromProtoPushMetricBatchRequest req))) <$> ex_sent = Some f64_hundred.
Proof.
  unfold ex_sent. assert (is_Some (sendCycle "linux" (ex_ag "acme") (ex_cycle (Ok (ex_ack 1)))).1.2) as Hk by (vm_compute; by eexists).
  destruct (sendCycle "linux" (ex_ag "acme") (ex_cycle (Ok (ex_ack 1)))) as [[r sent] a'] eqn:E. simpl in *. destruct Hk as [req ->].
  cbn [fmap option_fmap option_map]. f_equal.
  destruct (agent_digest_received "linux" (ex_ag "acme") (ex_cycle (Ok (ex_ack 1))) r req a') as [u ->]; [| |exact E|vm_compute; reflexivity].
  - unfold extras_ok, summary_ok. apply (bool_decide_unpack _). vm_compute. exact I.
  - unfold digest_exact, exact_int. repeat constructor.
Defined.

(** Three ticks: a failed receive does not stop the agent, a missing tenant does. *)
Lemma agent_run_witness :
  let '(out, fin, a') := Run "linux" (ex_ag "acme") (ex_cycle (Ok (ex_ack 1)))
    [Some (ex_cycle (Err Internal)); Some (ex_cycle (Err FailedPrecondition)); Some (ex_cycle (Ok (ex_ack 4)))] in
  fin = Some (Some (CallFailed FailedPrecondition)) ∧ StronglySorted Z.lt (pb.PushMetricBatchRequest_BatchSeq <$> out) ∧ length out = 3%nat.
Proof.
  assert ((λ x, (x.1.2, length x.1.1)) (Run "linux" (ex_ag "acme") (ex_cycle (Ok (ex_ack 1)))
    [Some (ex_cycle (Err Internal)); Some (ex_cycle (Err FailedPrecondition)); Some (ex_cycle (Ok (ex_ack 4)))]) =
    (Some (Some (CallFailed FailedPrecondition)), 3%nat)) as Hk by (vm_compute; reflexivity).
  destruct (Run "linux" _ _ _) as [[out fin] a'] eqn:E. injection Hk as Hf Hl.
  pose proof (λ Ha Hl, agent_run "linux" _ _ _ out fin a' Ha Hl E) as Hr.
  destruct Hr as (Hs & _ & _); [vm_compute; congruence..|]. auto.
Defined.

(** A server over the example stores, which know neither the host nor its tenant. *)
#[local] Existing Instance Env_quiet.
#[local] Existing Instance PgTypes_exact.
#[local] Existing Instance BitCodec.
#[local] Existing Instance Redis_quiet.
#[local] Existing Instance MetricRange_keys.
#[local] Existing Instance MapRange_keys.
#[local] Existing Instance ex_app_codec.
#[local] Instance ex_srv_hosts : HostStateStore AppWorld := App_HostStateStore ex_store.
#[local] Instance ex_srv_window : MetricWindow AppWorld := App_MetricWindow ex_window_store.
#[local] Instance ex_srv_events : EventPublisher AppWorld := App_EventPublisher "c".
#[local] Instance ex_srv_runtime : Runtime AppWorld := App_Runtime.

Definition ex_stranger : Agent := New (ex_identity "host-z" "nope") "agent-9" (ex_at 5) "/".
Definition ex_request : pb.PushMetricBatchRequest :=
  default (ex_pb_batch "m") (sendCycle "linux" ex_stranger (ex_cycle (Err Internal))).1.2.
Definition ex_answered : cycle := ex_cycle (server_reply ex_request ex_app).1.

Lemma agent_server_cycle_witness :
  match sendCycle "linux" ex_stranger ex_answered with (Err x, _, _) => isFatalMetricError x = true | _ => False end.
Proof.
  assert ((sendCycle "linux" ex_stranger ex_answered).1.2 = Some ex_request) as Hq by (vm_compute; reflexivity).
  destruct (sendCycle "linux" ex_stranger ex_answered) as [[r sent] a'] eqn:E. simpl in Hq. subst sent.
  pose proof (agent_server_cycle "linux" ex_stranger ex_answered r ex_request a' ex_app E eq_refl eq_refl) as Hs.
  assert ((PushMetricBatch (fromProtoPushMetricBatchRequest ex_request) ex_app).1 = Err ErrTenantNotFound) as Hp by (vm_compute; reflexivity).
  destruct (PushMetricBatch _ ex_app) as [r0 s0]. simpl in Hp. subst r0. destruct Hs as (_ & x & -> & Hx). by apply Hx.
Defined.

End examples.
