(* ===== verification/AgentConfig.v ===== *)
(** * Configuration and identity of the agent

    Models [agent/internal/config/config.go], [agent/internal/identity/hostinfo.go],
    [agent/internal/app/app.go] and the transport credentials of
    [agent/internal/service/agent.go].  The file is YAML through [yaml.v3], whose
    codec is a parameter with its round trip as law; [url.Parse] is a parameter;
    the files, the environment and the network interfaces are inputs. *)

From stdpp Require Import gmap strings list sorting pretty.
From Stdlib Require Import Ascii.
From S2P Require Import Prelude GoRuntime GoStrings GoText NetText Encoding Contracts Agent.
Local Open Scope Z_scope.

(** ** Data *)

Record Config := mkConfig {
  cf_IngestGatewayGRPCAddr : string; cf_Region : string; cf_Env : string; cf_Role : string; cf_Hostname : string;
  cf_TenantCode : string; cf_ConfigPath : string; cf_LoopIntervalSec : Z
}.

Record persistedConfig := mkPersisted {
  pc_MasterAPIURL : string; pc_LegacyIngestGatewayURL : string; pc_IngestGatewayGRPCAddr : string; pc_Region : string;
  pc_Env : string; pc_Role : string; pc_Hostname : string; pc_TenantCode : string; pc_LoopIntervalSec : Z
}.
#[export] Instance persisted_eq_dec : EqDecision persistedConfig.
Proof. solve_decision. Defined.
Definition zero_persisted : persistedConfig := mkPersisted "" "" "" "" "" "" "" "" 0.

(** [yaml.Marshal] and [yaml.Unmarshal] of a [persistedConfig]. *)
Class ConfigYaml := {
  yaml_Marshal : persistedConfig → option string;
  yaml_Unmarshal : string → option persistedConfig;
  yaml_roundtrip : ∀ c body, yaml_Marshal c = Some body → body ≠ ""%string ∧ yaml_Unmarshal body = Some c
}.

(** Files, and those that cannot be read. *)
Record disk := mkDisk { dk_files : gmap string string; dk_unreadable : gset string }.

Definition ReadFile (d : disk) (path : string) : option string :=
  if bool_decide (path ∈ dk_unreadable d) then None else dk_files d !! path.

(** What [os.WriteFile] does: it succeeds, fails to open the file, or fails after
    some bytes. *)
Inductive written := Written | Unopened | Partial (n : nat).

Definition WriteFile (d : disk) (path body : string) (w : written) : bool * disk :=
  match w with
  | Written => (true, mkDisk (<[path := body]> (dk_files d)) (dk_unreadable d))
  | Unopened => (false, d)
  | Partial n => (false, mkDisk (<[path := of_bytes (take n (bytes body))]> (dk_files d)) (dk_unreadable d))
  end.

Inductive configError := ReadConfig | ParseConfig | MakeDir | MarshalConfig | WriteConfig.

Section config.
Context `{ConfigYaml} `{UrlParse}.

Definition default_addr : string := "127.0.0.1:8091".

(** [URL.Hostname]: the host without its port and brackets. *)
Definition all_digits (l : list ascii) : bool := forallb digit l.
Definition Hostname (host : string) : string :=
  let h := match last_colon (bytes host) with
    | Some (before, port) => if all_digits port then before else bytes host
    | None => bytes host end in
  if HasPrefix (of_bytes h) "[" && HasSuffix (of_bytes h) "]" then of_bytes (take (length h - 2) (drop 1 h)) else of_bytes h.

Definition defaultGRPCAddrForURL (raw : string) : string :=
  match url_Parse (TrimSpace raw) with
  | None => default_addr
  | Some parsed =>
      if str_empty (u_Host parsed) then default_addr else
      let host := Hostname (u_Host parsed) in
      if str_empty host then default_addr else JoinHostPort host "8091"
  end.

Definition normalizeGRPCAddr (value : string) : string :=
  let value := TrimSpace value in
  if str_empty value then default_addr else
  let complete := match SplitHostPort value with
    | Some (host, port) => negb (str_empty host) && negb (str_empty port)
    | None => false end in
  if complete then value else
  match ParseIP (TrimBrackets value) with
  | Some ip => JoinHostPort (IP_String ip) "443"
  | None => if negb (contains_byte 58 value) then JoinHostPort value "443" else value
  end.

Definition fileString (value fallback : string) : string :=
  let value := TrimSpace value in if negb (str_empty value) then value else fallback.
Definition fileInt (value fallback : Z) : Z := if 0 <? value then value else fallback.

Definition loadConfigFile (d : disk) (path : string) : result configError persistedConfig :=
  match ReadFile d path with
  | None => Err ReadConfig
  | Some body =>
      if str_empty body then Ok zero_persisted else
      match yaml_Unmarshal body with
      | None => Err ParseConfig
      | Some cfg => Ok cfg
      end
  end.

(** The value of [GAOMING_AGENT_CONFIG] and the working directory, if it is known. *)
Definition defaultConfigPath (env : string) (wd : option string) : string :=
  let path := TrimSpace env in
  if negb (str_empty path) then path else
  match wd with
  | None => "agent-config.yaml"
  | Some wd => if str_empty wd then "agent-config.yaml" else Clean (wd +:+ "/" +:+ "agent-config.yaml")
  end.

(** The configuration that a file stands for. *)
Definition from_file (state : persistedConfig) (tenantCode path : string) : Config :=
  let addr := TrimSpace (pc_IngestGatewayGRPCAddr state) in
  let addr := if str_empty addr then defaultGRPCAddrForURL (pc_LegacyIngestGatewayURL state) else addr in
  mkConfig (normalizeGRPCAddr addr) (fileString (pc_Region state) "local") (fileString (pc_Env state) "dev")
    (fileString (pc_Role state) "node") (TrimSpace (pc_Hostname state)) tenantCode path (fileInt (pc_LoopIntervalSec state) 1).

Definition Load (env : string) (wd : option string) (d : disk) : result configError Config :=
  let configPath := defaultConfigPath env wd in
  match loadConfigFile d configPath with
  | Err e => Err e
  | Ok fileState => Ok (from_file fileState (TrimSpace (pc_TenantCode fileState)) configPath)
  end.

Definition renderConfigFile (cfg : persistedConfig) : option string :=
  yaml_Marshal (mkPersisted (TrimRightSlash (pc_MasterAPIURL cfg)) (pc_LegacyIngestGatewayURL cfg)
    (normalizeGRPCAddr (pc_IngestGatewayGRPCAddr cfg)) (pc_Region cfg) (pc_Env cfg) (pc_Role cfg) (pc_Hostname cfg)
    (pc_TenantCode cfg) (pc_LoopIntervalSec cfg)).

(** [made]: whether the directory could be made. *)
Definition Save (cfg : Config) (made : bool) (w : written) (d : disk) : result configError unit * disk :=
  if str_empty (cf_ConfigPath cfg) then (Ok (), d) else
  if negb made then (Err MakeDir, d) else
  match renderConfigFile (mkPersisted "" "" (normalizeGRPCAddr (cf_IngestGatewayGRPCAddr cfg)) (cf_Region cfg) (cf_Env cfg)
          (cf_Role cfg) (cf_Hostname cfg) (cf_TenantCode cfg) (cf_LoopIntervalSec cfg)) with
  | None => (Err MarshalConfig, d)
  | Some body =>
      let '(ok, d) := WriteFile d (cf_ConfigPath cfg) body w in
      (if ok then Ok () else Err WriteConfig, d)
  end.

Definition SaveTenant (path tenantCode : string) (made : bool) (w : written) (d : disk) : result configError unit * disk :=
  if str_empty path then (Ok (), d) else
  match loadConfigFile d path with
  | Err e => (Err e, d)
  | Ok state => Save (from_file state tenantCode path) made w d
  end.

(** ** Properties *)

Lemma default_addr_normal : normalizeGRPCAddr default_addr = default_addr.
Proof. vm_compute. reflexivity. Qed.

(** A complete address, trimmed, is left alone. *)
Lemma complete_normal value host port :
  TrimSpace value = value → value ≠ ""%string → SplitHostPort value = Some (host, port) → host ≠ ""%string → port ≠ ""%string →
  normalizeGRPCAddr value = value.
Proof.
  intros Ht Hn Hs Hh Hp. unfold normalizeGRPCAddr. rewrite Ht, (proj2 (str_empty_false _) Hn), Hs.
  by rewrite (proj2 (str_empty_false _) Hh), (proj2 (str_empty_false _) Hp).
Qed.

Lemma join_nonempty_str host port : JoinHostPort host port ≠ ""%string.
Proof.
  unfold JoinHostPort. destruct (_ || _); intros E; [discriminate E|]. apply str_app_nil_inv in E as [_ E]. discriminate E.
Qed.

Lemma no_colon_colons s : contains_byte 58 s = false → colons (bytes s) = 0%nat.
Proof. intros Hc. apply colons_zero. exact Hc. Qed.

(** A joined name without colon has one. *)
Lemma joined_colons host : contains_byte 58 host = false → colons (bytes (JoinHostPort host "443")) = 1%nat.
Proof.
  intros Hc%no_colon_colons. unfold JoinHostPort. destruct (_ || _); rewrite !bytes_app, !colons_app, Hc; done.
Qed.

Lemma colons_contains s : colons (bytes s) ≠ 0%nat → contains_byte 58 s = true.
Proof.
  intros Hc. destruct (contains_byte 58 s) eqn:E; [done|]. by apply no_colon_colons in E.
Qed.

Lemma normalizeGRPCAddr_idemp value : normalizeGRPCAddr (normalizeGRPCAddr value) = normalizeGRPCAddr value.
Proof.
  unfold normalizeGRPCAddr at 2 3. pose proof (TrimSpace_idemp value) as Ht. set (v := TrimSpace value) in *.
  destruct (str_empty v) eqn:Ev; [apply default_addr_normal|]. apply str_empty_false in Ev.
  destruct (SplitHostPort v) as [[host port]|] eqn:Es.
  1: destruct (str_empty host) eqn:Eh, (str_empty port) eqn:Ep; simpl.
  4: { apply str_empty_false in Eh, Ep. by eapply complete_normal. }
  all: destruct (ParseIP (TrimBrackets v)) as [ip|] eqn:Ei;
    [apply ParseIP_length, IP_String_text in Ei as Hx;
     eapply complete_normal; [by apply join_ip_trimmed|apply join_nonempty_str|apply Split_Join; [by apply ip_text_plain|done|done]| |done];
     intros E0; destruct Hx as [_ Hx]; by rewrite E0 in Hx|].
  all: destruct (contains_byte 58 v) eqn:Ec; cbn [negb];
    [unfold normalizeGRPCAddr; rewrite Ht, (proj2 (str_empty_false _) Ev), Es, Ei, Ec; by rewrite ?Eh, ?Ep|].
  all: unfold normalizeGRPCAddr; rewrite join_443_trimmed, (proj2 (str_empty_false _) (join_nonempty_str _ _)) by done;
    rewrite ParseIP_one_colon by (by rewrite TrimBrackets_colons, joined_colons);
    rewrite colons_contains by (by rewrite joined_colons); by destruct (match SplitHostPort _ with Some _ => _ | None => _ end).
Qed.

(** A configuration as [Load] makes it. *)
Record loaded (cfg : Config) : Prop := {
  ld_addr : normalizeGRPCAddr (cf_IngestGatewayGRPCAddr cfg) = cf_IngestGatewayGRPCAddr cfg;
  ld_addr_text : TrimSpace (cf_IngestGatewayGRPCAddr cfg) = cf_IngestGatewayGRPCAddr cfg ∧ cf_IngestGatewayGRPCAddr cfg ≠ ""%string;
  ld_names : Forall (λ v, TrimSpace v = v ∧ v ≠ ""%string) [cf_Region cfg; cf_Env cfg; cf_Role cfg];
  ld_hostname : TrimSpace (cf_Hostname cfg) = cf_Hostname cfg;
  ld_interval : 0 < cf_LoopIntervalSec cfg
}.

Lemma normalizeGRPCAddr_text value : TrimSpace (normalizeGRPCAddr value) = normalizeGRPCAddr value ∧ normalizeGRPCAddr value ≠ ""%string.
Proof.
  unfold normalizeGRPCAddr. pose proof (TrimSpace_idemp value) as Ht. set (v := TrimSpace value) in *.
  destruct (str_empty v) eqn:Ev; [by vm_compute|]. apply str_empty_false in Ev.
  destruct (match SplitHostPort v with Some _ => _ | None => _ end); [done|].
  destruct (ParseIP (TrimBrackets v)) as [ip|] eqn:Ei.
  - split; [|apply join_nonempty_str]. by eapply join_ip_trimmed, IP_String_text, ParseIP_length.
  - destruct (contains_byte 58 v); [done|]. split; [by apply join_443_trimmed|apply join_nonempty_str].
Qed.

Lemma fileString_text value fallback :
  TrimSpace fallback = fallback → fallback ≠ ""%string → TrimSpace (fileString value fallback) = fileString value fallback ∧ fileString value fallback ≠ ""%string.
Proof.
  intros Hf Hn. unfold fileString. destruct (str_empty (TrimSpace value)) eqn:E; [done|]. split; [apply TrimSpace_idemp|].
  by apply str_empty_false.
Qed.

Lemma fileString_id value fallback : TrimSpace value = value → value ≠ ""%string → fileString value fallback = value.
Proof. intros Ht Hn. unfold fileString. by rewrite Ht, (proj2 (str_empty_false _) Hn). Qed.

Lemma from_file_loaded state t path : loaded (from_file state t path).
Proof.
  unfold from_file. split; simpl.
  - apply normalizeGRPCAddr_idemp.
  - apply normalizeGRPCAddr_text.
  - repeat constructor; by apply fileString_text.
  - apply TrimSpace_idemp.
  - unfold fileInt. by destruct (Z.ltb_spec 0 (pc_LoopIntervalSec state)).
Qed.

(** What is written for a loaded configuration reads back as it. *)
Definition persisted (cfg : Config) : persistedConfig :=
  mkPersisted "" "" (cf_IngestGatewayGRPCAddr cfg) (cf_Region cfg) (cf_Env cfg) (cf_Role cfg) (cf_Hostname cfg) (cf_TenantCode cfg)
    (cf_LoopIntervalSec cfg).

Lemma from_file_persisted cfg :
  loaded cfg → from_file (persisted cfg) (TrimSpace (cf_TenantCode cfg)) (cf_ConfigPath cfg) =
    mkConfig (cf_IngestGatewayGRPCAddr cfg) (cf_Region cfg) (cf_Env cfg) (cf_Role cfg) (cf_Hostname cfg) (TrimSpace (cf_TenantCode cfg))
      (cf_ConfigPath cfg) (cf_LoopIntervalSec cfg).
Proof.
  intros [Ha [Hat Han] Hn Hh Hi]. rewrite !Forall_cons in Hn. destruct Hn as ([??] & [??] & [??] & _). unfold from_file, persisted. simpl.
  rewrite Hat, (proj2 (str_empty_false _) Han), Ha, Hh, !fileString_id by done. f_equal. unfold fileInt.
  destruct (Z.ltb_spec 0 (cf_LoopIntervalSec cfg)); [done|lia].
Qed.

(** A successful [Save] has written the file; a failed one has touched no other. *)
Lemma Save_spec cfg made w d r d' :
  loaded cfg → cf_ConfigPath cfg ≠ ""%string → Save cfg made w d = (r, d') →
  dk_unreadable d' = dk_unreadable d ∧ delete (cf_ConfigPath cfg) (dk_files d') = delete (cf_ConfigPath cfg) (dk_files d) ∧
  (r = Ok () → ∃ body, yaml_Marshal (persisted cfg) = Some body ∧ dk_files d' !! cf_ConfigPath cfg = Some body).
Proof.
  intros Hl Hn. unfold Save. rewrite (proj2 (str_empty_false _) Hn). destruct made; [|by intros [= <- <-]]. simpl.
  unfold renderConfigFile. simpl. change (TrimRightSlash "") with ""%string. rewrite !(ld_addr cfg Hl).
  fold (persisted cfg). destruct (yaml_Marshal (persisted cfg)) as [body|] eqn:Em; [|by intros [= <- <-]].
  destruct w; simpl; intros [= <- <-]; simpl; split_and!; try done; try apply delete_insert_eq.
  intros _. exists body. by rewrite lookup_insert, decide_True.
Qed.

Lemma defaultConfigPath_nonempty env wd : defaultConfigPath env wd ≠ ""%string.
Proof.
  unfold defaultConfigPath. destruct (str_empty (TrimSpace env)) eqn:E; [|by apply str_empty_false]. simpl. destruct wd as [wd|]; [|done].
  destruct (str_empty wd); [done|]. unfold Clean. case_bool_decide as Hb; [done|]. intros Hs. apply Hb. by rewrite <-(bytes_of_bytes (_ ++ _)), Hs.
Qed.

(** Loading after a successful save of a configuration for the same path. *)
Lemma Load_saved env wd cfg made w d d' :
  loaded cfg → cf_ConfigPath cfg = defaultConfigPath env wd → (defaultConfigPath env wd ∉ dk_unreadable d) →
  Save cfg made w d = (Ok (), d') →
  Load env wd d' = Ok (mkConfig (cf_IngestGatewayGRPCAddr cfg) (cf_Region cfg) (cf_Env cfg) (cf_Role cfg) (cf_Hostname cfg)
    (TrimSpace (cf_TenantCode cfg)) (cf_ConfigPath cfg) (cf_LoopIntervalSec cfg)).
Proof.
  intros Hl Hp Hr Hs. pose proof (defaultConfigPath_nonempty env wd) as Hn. rewrite <-Hp in Hn.
  apply Save_spec in Hs as (Hu & _ & Hb); [|done..]. destruct (Hb eq_refl) as (body & Hm & Hf).
  apply yaml_roundtrip in Hm as [Hne Hy]. unfold Load, loadConfigFile, ReadFile. rewrite Hu, bool_decide_false, <-Hp, Hf by done.
  rewrite (proj2 (str_empty_false _) Hne), Hy. f_equal. by rewrite <-(from_file_persisted cfg Hl).
Qed.

Lemma Load_file env wd d cfg :
  Load env wd d = Ok cfg → ∃ state, loadConfigFile d (defaultConfigPath env wd) = Ok state ∧
    cfg = from_file state (TrimSpace (pc_TenantCode state)) (defaultConfigPath env wd) ∧ (defaultConfigPath env wd ∉ dk_unreadable d).
Proof.
  unfold Load. destruct (loadConfigFile d (defaultConfigPath env wd)) as [state|] eqn:E; [|done]. intros [= <-]. exists state. split_and!; [done..|].
  unfold loadConfigFile, ReadFile in E. by case_bool_decide.
Qed.

Definition with_tenant (cfg : Config) (t : string) : Config :=
  mkConfig (cf_IngestGatewayGRPCAddr cfg) (cf_Region cfg) (cf_Env cfg) (cf_Role cfg) (cf_Hostname cfg) t (cf_ConfigPath cfg)
    (cf_LoopIntervalSec cfg).

(** C31: the configuration survives the file: saving a loaded configuration and
    loading it again yields the same one, saving a tenant changes the tenant and
    nothing else, also when the file still has the old gateway URL, and whatever
    fails, no other file is touched. *)
Theorem config_roundtrip env wd d cfg tenantCode made w :
  Load env wd d = Ok cfg →
  (∀ d', Save cfg made w d = (Ok (), d') → Load env wd d' = Ok cfg) ∧
  (∀ d', SaveTenant (cf_ConfigPath cfg) tenantCode made w d = (Ok (), d') → Load env wd d' = Ok (with_tenant cfg (TrimSpace tenantCode))) ∧
  (∀ r d', SaveTenant (cf_ConfigPath cfg) tenantCode made w d = (r, d') →
    delete (cf_ConfigPath cfg) (dk_files d') = delete (cf_ConfigPath cfg) (dk_files d)).
Proof.
  intros (state & Hf & -> & Hr)%Load_file. pose proof (defaultConfigPath_nonempty env wd) as Hn. split_and!.
  - intros d' Hs. rewrite (Load_saved env wd _ made w d d' (from_file_loaded _ _ _) eq_refl Hr Hs). simpl. by rewrite TrimSpace_idemp.
  - intros d' Hs. unfold SaveTenant in Hs. simpl in Hs. rewrite (proj2 (str_empty_false _) Hn), Hf in Hs.
    by rewrite (Load_saved env wd _ made w d d' (from_file_loaded _ _ _) eq_refl Hr Hs).
  - intros r d' Hs. unfold SaveTenant in Hs. simpl in Hs. rewrite (proj2 (str_empty_false _) Hn), Hf in Hs.
    by apply Save_spec in Hs as (_ & Hd & _); [|apply from_file_loaded|].
Qed.

End config.

(** ** Transport credentials *)

Inductive credentials := Insecure | TLS.

(** [strings.EqualFold(s, "localhost")]: the runes up to simple folding, under
    which an [s] also stands for U+017F and a [k] for U+212A. *)
Definition fold_rune (r : Z) : Z :=
  if (65 <=? r) && (r <=? 90) then r + 32 else if r =? 383 then 115 else if r =? 8490 then 107 else r.
Definition fold (s : string) : list Z := fold_rune <$> range_runes (byte_val <$> bytes s).
Definition EqualFold_localhost (s : string) : bool := bool_decide (fold s = fold "localhost").

Definition isLoopbackIP (host : string) : bool :=
  match ParseIP (TrimBrackets host) with Some ip => IsLoopback ip | None => false end.

Definition isLocalServiceHost (host : string) : bool :=
  let host := TrimBrackets (TrimSpace host) in
  if str_empty host then false else if contains_byte 46 host then false else true.

Definition grpcTransportCredentials (addr : string) : credentials :=
  match SplitHostPort (TrimSpace addr) with
  | Some (host, _) =>
      if EqualFold_localhost host then Insecure else
      if isLoopbackIP host then Insecure else
      if isLocalServiceHost host then Insecure else TLS
  | None => TLS
  end.

(** ** Identity *)

Record netAddr := mkNetAddr { na_IPNet : bool; na_IP : list Z }.
Record netInterface := mkNetInterface { nf_Loopback : bool; nf_HardwareAddr : list ascii }.

Definition listIPs (addrs : option (list netAddr)) : list string :=
  match addrs with
  | None => []
  | Some addrs =>
      omap (λ a, if negb (na_IPNet a) || IsLoopback (na_IP a) then None else
                 if bool_decide (is_Some (To4 (na_IP a))) then Some (IP_String (na_IP a)) else None) addrs
  end.

(** [HardwareAddr.String]. *)
Definition mac_string (l : list ascii) : string := of_bytes (join_bytes (bytes ":") ((λ b, bytes (hex_encode [b])) <$> l)).

Definition listMACs `{StringsLower} (ifaces : option (list netInterface)) : list string :=
  match ifaces with
  | None => []
  | Some ifaces =>
      sort_by id (omap (λ i, if nf_Loopback i then None else if bool_decide (nf_HardwareAddr i = []) then None else
                             Some (ToLower (mac_string (nf_HardwareAddr i)))) ifaces)
  end.

Definition machine_file (d : disk) (path : string) : string := default ""%string (TrimSpace <$> ReadFile d path).
Definition machineID (d : disk) : string :=
  let id := machine_file d "/etc/machine-id" in
  if negb (str_empty id) then id else machine_file d "/var/lib/dbus/machine-id".

Fixpoint join_str (sep : string) (l : list string) : string :=
  match l with [] => "" | [x] => x | x :: l => x +:+ sep +:+ join_str sep l end.

Section identity.
Context `{StringsLower} (GOOS GOARCH version : string).

Definition stableHostUID (hostname machineID : string) (macs : list string) : string :=
  let parts := (if negb (str_empty machineID) then ["machine-id=" +:+ machineID] else []) ++ ((λ mac, "mac=" +:+ mac) <$> macs) in
  let parts := if llen parts =? 0
    then (if negb (str_empty hostname) then ["hostname=" +:+ hostname] else []) ++ ["os=" +:+ GOOS; "arch=" +:+ GOARCH]
    else parts in
  "host-" +:+ hex_encode (take 8 (sha256 (bytes (join_str "|" parts)))).

(** What the machine tells about itself; a call that failed is [None]. *)
Record machine := mkMachine { mc_hostname : option string; mc_addrs : option (list netAddr); mc_ifaces : option (list netInterface) }.

Definition Discover (m : machine) (d : disk) (region env role : string) : HostIdentity :=
  let hostname := default "unknown-host"%string (mc_hostname m) in
  let ips := listIPs (mc_addrs m) in
  let primaryIP := match ips with ip :: _ => ip | [] => "127.0.0.1"%string end in
  mkHostIdentity (stableHostUID hostname (machineID d) (listMACs (mc_ifaces m))) "" hostname primaryIP ips GOOS GOARCH region "" env role
    {["runtime"%string := version]}.

Definition WithHostname (host : HostIdentity) (hostname : string) : HostIdentity :=
  let hostname := TrimSpace hostname in
  if str_empty hostname then host else
  mkHostIdentity (stableHostUID hostname "" []) (hi_TenantCode host) hostname (hi_PrimaryIP host) (hi_IPs host) (hi_OSType host)
    (hi_Arch host) (hi_Region host) (hi_AZ host) (hi_Env host) (hi_Role host) (hi_Labels host).

(** ** The application *)

Context `{ConfigYaml} `{UrlParse}.

Definition with_TenantCode (host : HostIdentity) (t : string) : HostIdentity :=
  mkHostIdentity (hi_HostUID host) t (hi_Hostname host) (hi_PrimaryIP host) (hi_IPs host) (hi_OSType host) (hi_Arch host)
    (hi_Region host) (hi_AZ host) (hi_Env host) (hi_Role host) (hi_Labels host).

(** [app.New]: the agent and the interval of its loop. *)
Definition app_New (env : string) (wd : option string) (d : disk) (m : machine) (agentID : string) (now : Time) (rootPath : string)
    : result configError (Agent * Duration) :=
  match Load env wd d with
  | Err e => Err e
  | Ok cfg =>
      let host := Discover m d (cf_Region cfg) (cf_Env cfg) (cf_Role cfg) in
      let host := WithHostname host (cf_Hostname cfg) in
      let host := with_TenantCode host (cf_TenantCode cfg) in
      Ok (New host agentID now rootPath, to_int64 (cf_LoopIntervalSec cfg * 1000000000))
  end.

End identity.

(** ** Properties of the credentials *)

Lemma hex_not_dot n : 0 ≤ n < 16 → is_byte 46 (hex_digit n) = false.
Proof.
  intros Hn. assert (Forall (λ k, is_byte 46 (hex_digit k) = false) (seqZ 0 16)) as Hall by (by repeat constructor).
  rewrite list.Forall_forall in Hall. apply Hall, elem_of_seqZ. lia.
Qed.

Lemma hex16_no_dot x : existsb (is_byte 46) (hex16 x) = false.
Proof.
  assert (∀ n, is_byte 46 (hex_digit (n mod 16)) = false) as Hd.
  { intros n. apply hex_not_dot. pose proof (Z.mod_pos_bound n 16). lia. }
  unfold hex16. rewrite !existsb_app. repeat case_match; cbn [existsb]; by rewrite !Hd.
Qed.

Lemma join_no_dot sep l : existsb (is_byte 46) sep = false → Forall (λ x, existsb (is_byte 46) x = false) l →
  existsb (is_byte 46) (join_bytes sep l) = false.
Proof.
  intros Hs Hl. induction Hl as [|x l Hx Hl IH]; [done|]. simpl. destruct l as [|y l]; [done|]. by rewrite !existsb_app, Hx, Hs, IH.
Qed.

Lemma ipv6_no_dot ip : existsb (is_byte 46) (ipv6_string ip) = false.
Proof.
  unfold ipv6_string. destruct (longest_run (u16_groups ip)) as [start n].
  assert (∀ l, existsb (is_byte 46) (join_bytes (bytes ":") (hex16 <$> l)) = false) as Hj.
  { intros l. apply join_no_dot; [done|]. apply Forall_fmap, list.Forall_forall. intros x _. apply hex16_no_dot. }
  destruct (n =? 0)%nat; [apply Hj|]. by rewrite !existsb_app, !Hj.
Qed.

(** Trimming spaces and brackets keeps a dot. *)
Definition no_dot (l : list ascii) : Prop := existsb (is_byte 46) l = false.

Lemma no_dot_app l k : no_dot (l ++ k) ↔ no_dot l ∧ no_dot k.
Proof. unfold no_dot. by rewrite existsb_app, orb_false_iff. Qed.

Lemma no_dot_reverse l : no_dot (reverse l) ↔ no_dot l.
Proof. unfold no_dot. by rewrite existsb_rev. Qed.

Lemma trim_start_dot s1 s2 s3 l :
  (∀ a, s1 a = true → is_byte 46 a = false) → (∀ a b, s2 a b = true → is_byte 46 a = false ∧ is_byte 46 b = false) →
  (∀ a b c, s3 a b c = true → is_byte 46 a = false ∧ is_byte 46 b = false ∧ is_byte 46 c = false) →
  no_dot (trim_start s1 s2 s3 l) → no_dot l.
Proof.
  intros H1 H2 H3. remember (length l) as n eqn:Hn. assert (length l ≤ n)%nat as Hl by lia. clear Hn. revert l Hl.
  unfold no_dot. induction n as [|n IH]; intros [|a l1] Hl; simpl in *; [done|lia|done|].
  destruct (s1 a) eqn:E1; [intros ->%IH; [by rewrite (H1 _ E1)|lia]|]. destruct l1 as [|b l2]; [done|].
  destruct (s2 a b) eqn:E2; [intros E%IH; [|simpl in *; lia]; destruct (H2 _ _ E2) as [-> Hb]; simpl; by rewrite Hb|].
  destruct l2 as [|c l3]; [done|]. destruct (s3 a b c) eqn:E3; [|done]. intros E%IH; [|simpl in *; lia].
  destruct (H3 _ _ _ E3) as (-> & Hb & Hc). simpl. by rewrite Hb, Hc.
Qed.

Lemma space_not_dot : (∀ a, space1 a = true → is_byte 46 a = false) ∧ (∀ a b, space2 a b = true → is_byte 46 a = false ∧ is_byte 46 b = false) ∧
  (∀ a b c, space3 a b c = true → is_byte 46 a = false ∧ is_byte 46 b = false ∧ is_byte 46 c = false).
Proof. unfold space1, space2, space3, is_byte. split_and!; intros; split_and?; lia. Qed.

Lemma TrimSpace_dot s : no_dot (bytes (TrimSpace s)) → no_dot (bytes s).
Proof.
  destruct space_not_dot as (H1 & H2 & H3). unfold TrimSpace, trim_right, trim_left. rewrite bytes_of_bytes, no_dot_reverse.
  intros E. apply trim_start_dot in E; [|done|intros a b ?%H2; tauto|intros a b c ?%H3; tauto]. rewrite no_dot_reverse in E.
  by apply trim_start_dot in E.
Qed.

Lemma drop_while_dot p l : (∀ c, p c = true → is_byte 46 c = false) → no_dot (drop_while p l) → no_dot l.
Proof.
  intros Hp. unfold no_dot. induction l as [|c l IH]; [done|]. simpl. destruct (p c) eqn:E; [|done]. intros ->%IH. by rewrite (Hp _ E).
Qed.

Lemma bracket_not_dot c : bracket c = true → is_byte 46 c = false.
Proof. unfold bracket, is_byte. lia. Qed.

Lemma TrimBrackets_dot s : no_dot (bytes (TrimBrackets s)) → no_dot (bytes s).
Proof.
  unfold TrimBrackets. rewrite bytes_of_bytes, no_dot_reverse. intros E%drop_while_dot; [|apply bracket_not_dot].
  rewrite no_dot_reverse in E. apply drop_while_dot in E; [done|apply bracket_not_dot].
Qed.

(** An ASCII byte is a rune of the text. *)
Lemma range_runes_ascii x l : x < 128 → x ∈ l → x ∈ range_runes l.
Proof.
  intros Hx. remember (length l) as n eqn:Hn. assert (length l ≤ n)%nat as Hl by lia. clear Hn. revert l Hl.
  induction n as [|n IH]; intros [|a l1] Hl Hin; simpl in Hl; [by apply not_elem_of_nil in Hin|lia|by apply not_elem_of_nil in Hin|].
  assert (∀ k, (length k ≤ n)%nat → x ∈ k → ∀ r, x ∈ r :: range_runes k) as Hk by (intros k Hkl Hkx r; right; by apply IH).
  assert (∀ b k, utf8_cont b = true → x ∈ b :: k → x ∈ k) as Hc.
  { intros b k Hb [->|?]%elem_of_cons; [|done]. unfold utf8_cont in Hb. lia. }
  cbn [range_runes]. destruct (Z.ltb_spec a 128) as [Ha|Ha].
  { apply elem_of_cons in Hin as [->|Hin]; [by left|]. apply Hk; [lia|done]. }
  apply elem_of_cons in Hin as [->|Hin]; [lia|]. destruct l1 as [|b l2]; [by apply not_elem_of_nil in Hin|]. simpl in Hl.
  destruct (_ && utf8_cont b) eqn:E2; [apply andb_true_iff in E2 as [_ Hb]; apply Hk; [lia|by eapply Hc]|]. clear E2.
  destruct l2 as [|c l3]; [apply Hk; [simpl; lia|done]|]. simpl in Hl.
  destruct (_ && _) eqn:E3.
  { apply Hk; [lia|]. bool_to_prop. eapply (Hc c); [done|]. by eapply (Hc b). }
  clear E3. destruct l3 as [|e l4]; [apply Hk; [simpl; lia|done]|]. simpl in Hl. destruct (_ && _) eqn:E4; [|apply Hk; [simpl; lia|done]].
  apply Hk; [lia|]. bool_to_prop. eapply (Hc e); [done|]. eapply (Hc c); [done|]. by eapply (Hc b).
Qed.

Lemma localhost_no_dot s : EqualFold_localhost s = true → no_dot (bytes s).
Proof.
  unfold EqualFold_localhost. intros E%bool_decide_eq_true. unfold no_dot. apply not_true_iff_false. intros (c & Hc%list_elem_of_In & Ed%Z.eqb_eq)%existsb_exists.
  apply (list_elem_of_fmap_2 byte_val) in Hc. rewrite Ed in Hc. apply range_runes_ascii in Hc; [|lia].
  apply (list_elem_of_fmap_2 fold_rune) in Hc. change (fold_rune 46) with 46 in Hc.
  change (46 ∈ fold s) in Hc. rewrite E in Hc.
  assert (bool_decide (46 ∈ fold "localhost") = false) as Hf by (vm_compute; reflexivity). by apply bool_decide_eq_false in Hf.
Qed.

(** Which gateways are dialled in plain text: a dotted host that is not a
    loopback address always gets TLS; but every IPv6 address does not, wherever
    it is, because a host without a dot counts as a local service name, although
    the default port of an address is that of TLS. *)
Theorem agent_transport :
  (∀ addr host port, SplitHostPort (TrimSpace addr) = Some (host, port) → contains_byte 46 host = true → isLoopbackIP host = false →
     grpcTransportCredentials addr = TLS) ∧
  (∀ ip, length ip = 16%nat → To4 ip = None → grpcTransportCredentials (JoinHostPort (IP_String ip) "443") = Insecure).
Proof.
  split.
  - intros addr host port Hs Hd Hl. unfold grpcTransportCredentials. rewrite Hs, Hl.
    destruct (EqualFold_localhost host) eqn:Ef; [apply localhost_no_dot in Ef; unfold contains_byte in Hd; by rewrite Ef in Hd|].
    unfold isLocalServiceHost. destruct (str_empty _); [done|].
    destruct (contains_byte 46 (TrimBrackets (TrimSpace host))) eqn:E; [done|]. apply TrimBrackets_dot, TrimSpace_dot in E.
    unfold no_dot in E. unfold contains_byte in Hd. by rewrite E in Hd.
  - intros ip Hl H4. apply IP_String_text in Hl as Ht. unfold grpcTransportCredentials.
    rewrite join_ip_trimmed, Split_Join by (done || by apply ip_text_plain). destruct (EqualFold_localhost _); [done|].
    destruct (isLoopbackIP _); [done|]. assert (isLocalServiceHost (IP_String ip) = true) as ->; [|done].
    unfold isLocalServiceHost. assert (TrimSpace (IP_String ip) = IP_String ip) as ->.
    { apply trimmed_iff. by apply ip_text_trimmed. }
    assert (TrimBrackets (IP_String ip) = IP_String ip) as -> by (by apply ip_text_brackets).
    destruct Ht as [_ Hn]. rewrite (proj2 (str_empty_false _)) by (intros E; by rewrite E in Hn).
    unfold contains_byte, IP_String. by rewrite H4, bytes_of_bytes, ipv6_no_dot.
Qed.

(** ** Properties of the identity *)

Section stable.
Context `{StringsLower} (GOOS GOARCH version : string) `{ConfigYaml} `{UrlParse}.

#[local] Abbreviation host_uid := (stableHostUID GOOS GOARCH).
#[local] Abbreviation start := (app_New GOOS GOARCH version).

Definition ifaces_perm (a b : option (list netInterface)) : Prop :=
  match a, b with Some l, Some k => l ≡ₚ k | None, None => True | _, _ => False end.

Lemma listMACs_perm a b : ifaces_perm a b → listMACs a = listMACs b.
Proof.
  destruct a as [l|], b as [k|]; simpl; try done. intros Hp. apply sort_by_unique; [by rewrite Hp|]. by intros x y _ _.
Qed.

Lemma stableHostUID_strong h1 h2 id macs : id ≠ ""%string ∨ macs ≠ [] → host_uid h1 id macs = host_uid h2 id macs.
Proof.
  intros Hs. unfold stableHostUID. cbv zeta. set (parts := (_ ++ _) : list string).
  destruct (Z.eqb_spec (llen parts) 0) as [E|E]; [|done]. exfalso. unfold llen in E. destruct parts eqn:Ep; [|simpl in E; lia]. unfold parts in Ep.
  apply app_nil in Ep as [E1 E2]. destruct Hs as [Hs|Hs].
  - by rewrite (proj2 (str_empty_false _) Hs) in E1.
  - by apply fmap_nil_inv in E2.
Qed.

Lemma stableHostUID_length h id macs : len (host_uid h id macs) = 21.
Proof.
  unfold stableHostUID, len. cbv zeta. change ("host-" +:+ ?s) with (String "h" (String "o" (String "s" (String "t" (String "-" s))))).
  cbn [String.length]. rewrite hex_encode_length, length_take, sha256_length. done.
Qed.

(** A host keeps its identity: two starts of the agent with the same files
    register the same host in the same tenant, whatever the host name, the
    addresses and the order of the interfaces were, as long as the machine has an
    identifier or an address of its network cards, or the host name is configured;
    the identifier has the fixed length of a hash. *)
Theorem identity_stable env wd d m1 m2 id1 id2 t1 t2 root a1 a2 i1 i2 cfg :
  Load env wd d = Ok cfg → ifaces_perm (mc_ifaces m1) (mc_ifaces m2) →
  machineID d ≠ ""%string ∨ listMACs (mc_ifaces m1) ≠ [] ∨ cf_Hostname cfg ≠ ""%string →
  start env wd d m1 id1 t1 root = Ok (a1, i1) → start env wd d m2 id2 t2 root = Ok (a2, i2) →
  ag_hostUID a1 = ag_hostUID a2 ∧ hi_HostUID (ag_Host a1) = hi_HostUID (ag_Host a2) ∧
  hi_TenantCode (ag_Host a1) = hi_TenantCode (ag_Host a2) ∧ len (ag_hostUID a1) = 21.
Proof.
  intros Hl Hp Hs. unfold app_New. rewrite Hl. intros [= <- _] [= <- _]. apply Load_file in Hl as (state & _ & -> & _).
  unfold WithHostname, Discover. simpl. rewrite TrimSpace_idemp. simpl in Hs. rewrite <-(listMACs_perm _ _ Hp).
  destruct (str_empty (TrimSpace (pc_Hostname state))) eqn:E; simpl; [|split_and!; auto using stableHostUID_length].
  apply str_empty_true in E. assert (machineID d ≠ ""%string ∨ listMACs (mc_ifaces m1) ≠ []) as Hs' by naive_solver.
  split_and!; auto using stableHostUID_length, stableHostUID_strong.
Qed.

End stable.

(** ** Examples *)

Section examples.
#[local] Existing Instance StringsLower_bytes.

Definition ex_persisted : persistedConfig := mkPersisted "" "http://gw.example:8090" " " "eu" "" "" "" " acme " 0.
(** A codec that knows the configuration of the example and what becomes of it. *)
Definition ex_written : persistedConfig := mkPersisted "" "" "gw.example:8091" "eu" "dev" "node" "" "acme" 1.
#[local, refine] Instance ex_yaml : ConfigYaml := {|
  yaml_Marshal c := if bool_decide (c = ex_written) then Some "new"%string else None;
  yaml_Unmarshal body := if str_eqb body "old" then Some ex_persisted else if str_eqb body "new" then Some ex_written else None
|}.
Proof. intros c body. case_bool_decide as E; [|done]. intros Eb. injection Eb as <-. by rewrite E. Defined.
#[local] Instance ex_url : UrlParse :=
  {| url_Parse s := if str_eqb s "http://gw.example:8090" then Some (mkURL "http" false "gw.example:8090" "" "" "") else None |}.

Definition ex_disk0 : disk := mkDisk {["/etc/agent.yaml"%string := "old"%string; "/etc/machine-id"%string := "4711"%string]} ∅.
Definition ex_config : Config := mkConfig "gw.example:8091" "eu" "dev" "node" "" "acme" "/etc/agent.yaml" 1.

Lemma config_roundtrip_witness :
  Load "/etc/agent.yaml" None ex_disk0 = Ok ex_config ∧
  Load "/etc/agent.yaml" None (Save ex_config true Written ex_disk0).2 = Ok ex_config.
Proof.
  assert (Load "/etc/agent.yaml" None ex_disk0 = Ok ex_config) as Hl by (vm_compute; reflexivity). split; [exact Hl|].
  destruct (config_roundtrip "/etc/agent.yaml" None ex_disk0 ex_config "" true Written Hl) as [Hs _].
  apply Hs. vm_compute. reflexivity.
Defined.

(** The machine before and after a card was added in front and renamed. *)
Definition ex_card (n : nat) : netInterface := mkNetInterface false [ascii_of_nat n; ascii_of_nat 1].
Definition ex_machine1 : machine := mkMachine (Some "web-1"%string) None (Some [ex_card 2; ex_card 3]).
Definition ex_machine2 : machine := mkMachine None None (Some [ex_card 3; ex_card 2]).

Lemma identity_stable_witness :
  ag_hostUID <$> (match app_New "linux" "amd64" "go1" "/etc/agent.yaml" None ex_disk0 ex_machine1 "a" 5 "/" with Ok (a, _) => Some a | _ => None end) =
  ag_hostUID <$> (match app_New "linux" "amd64" "go1" "/etc/agent.yaml" None ex_disk0 ex_machine2 "b" 9 "/" with Ok (a, _) => Some a | _ => None end).
Proof.
  assert (Load "/etc/agent.yaml" None ex_disk0 = Ok ex_config) as Hl by (vm_compute; reflexivity).
  destruct (app_New "linux" "amd64" "go1" "/etc/agent.yaml" None ex_disk0 ex_machine1 "a" 5 "/") as [[a1 i1]|] eqn:E1;
    [|unfold app_New in E1; rewrite Hl in E1; discriminate E1].
  destruct (app_New "linux" "amd64" "go1" "/etc/agent.yaml" None ex_disk0 ex_machine2 "b" 9 "/") as [[a2 i2]|] eqn:E2;
    [|unfold app_New in E2; rewrite Hl in E2; discriminate E2].
  destruct (identity_stable "linux" "amd64" "go1" "/etc/agent.yaml" None ex_disk0 ex_machine1 ex_machine2 "a" "b" 5 9 "/" a1 a2 i1 i2
    ex_config Hl) as [Hu _]; [apply perm_swap|left; vm_compute; discriminate|exact E1|exact E2|]. simpl. by rewrite Hu.
Defined.

End examples.
