(* ===== verification/AuthStore.v ===== *)
(** * Accounts and sessions

    Models [server/internal/master/auth]: the types, the password functions over
    a bcrypt parameter, the GORM store of users and sessions ([store.go],
    [local.go]) and the administrator created at start-up ([startup.go]). *)

From Stdlib Require Import Ascii.
From stdpp Require Import gmap strings list sorting pretty.
From S2P Require Import Prelude GoRuntime GoStrings Contracts Sql HostStore.
Local Open Scope Z_scope.

Definition UserRoleAdmin : string := "admin".
Definition UserRoleMember : string := "member".
Definition UserStatusActive : string := "active".
Definition UserStatusDisabled : string := "disabled".

(** [auth.User]. *)
Record AuthUser := mkAuthUser {
  user_ID : Z;
  user_TenantCode : string;
  user_DisplayName : string;
  user_AvatarURL : string;
  user_Role : string;
  user_Status : string;
  user_LastLoginAt : option Time;
  user_CreatedAt : Time;
  user_UpdatedAt : Time;
  user_Provider : string;
  user_ProviderUserID : string
}.
Definition zero_AuthUser : AuthUser := mkAuthUser 0 "" "" "" "" "" None 0 0 "" "".

Record UserUpdate := mkUserUpdate {
  up_DisplayName : option string;
  up_Role : option string;
  up_Status : option string
}.

(** [auth.Session] and [auth.SessionRecord]. *)
Record AuthSession := mkAuthSession { as_Token : string; as_ExpiresAt : Time; as_User : AuthUser }.
Record SessionRecord := mkSessionRecord { sn_ID : Z; sn_UserID : Z; sn_ExpiresAt : Time }.

Record LocalAccount := mkLocalAccount {
  la_TenantCode : string; la_Username : string; la_DisplayName : string; la_PasswordHash : string
}.

(** ** Passwords *)

(** [bcrypt.GenerateFromPassword] at cost 12, for the salt the random source
    delivers, and [bcrypt.CompareHashAndPassword]: a password matches its hash. *)
Class Bcrypt := {
  bcrypt_generate : option (list ascii) → string → option string;
  bcrypt_compare : string → string → bool;
  bcrypt_compare_generate : ∀ salt p h, bcrypt_generate salt p = Some h → bcrypt_compare h p = true
}.

Definition valueOrEmpty (value : option string) : string := default ""%string value.

Section auth.
Context `{Env} `{PgTypes} `{Bcrypt}.

Definition errPasswordLength : error := ErrMsg "password must contain 12 to 72 bytes".

Definition HashPassword (password : string) : M string :=
  if (len password <? 12) || (72 <? len password) then throw errPasswordLength else
  salt ← rand_read 16;
  lift (match bcrypt_generate salt password with Some h => Ok h | None => Err (ErrMsg "bcrypt") end).

(** [DummyPasswordHash]: the hash of a fixed password, made at the first call and
    kept; [once] is the package variable guarded by [sync.Once].  An error of
    [HashPassword] is dropped and leaves the empty string. *)
Definition placeholder_password : string := "unusable-placeholder-password".
Definition DummyPasswordHash (once : option string) : M (string * option string) :=
  match once with
  | Some h => mret (h, once)
  | None => λ w, let '(r, w') := HashPassword placeholder_password w in
      let h := match r with Ok h => h | Err _ => ""%string end in (Ok (h, Some h), w')
  end.

(** The dummy hash is made once, whether or not that worked, and making it touches
    no table. *)
Lemma DummyPasswordHash_once once w :
  ∃ h w', DummyPasswordHash once w = (Ok (h, Some h), w') ∧ w_db w' = w_db w ∧ w_seq w' = w_seq w ∧
  ∀ w2, DummyPasswordHash (Some h) w2 = (Ok (h, Some h), w2).
Proof.
  destruct once as [h|]; [by exists h, w|]. unfold DummyPasswordHash. destruct (HashPassword placeholder_password w) as [r w'] eqn:E.
  do 2 eexists. split; [done|]. split_and!; [..|done]; unfold HashPassword in E; simpl in E; unfold mbind, M_bind, rand_read, lift in E; simpl in E; by injection E as _ <-.
Qed.

Definition VerifyPassword (hash password : string) : bool :=
  (len password <=? 72) && bcrypt_compare hash password.

(** ** Conversions *)

Definition toUser (user : userModel) (tenantCode : string) (identity : userIdentityModel) : AuthUser :=
  mkAuthUser (u_ID user) tenantCode (u_DisplayName user) (valueOrEmpty (u_AvatarURL user)) (u_Role user) (u_Status user)
    (u_LastLoginAt user) (u_CreatedAt user) (u_UpdatedAt user) (id_Provider identity) (id_ProviderUserID identity).

(** [userJoinedRow.toUser] for a query without identity columns. *)
Definition joinedUser (user : userModel) (tenant : tenantModel) : AuthUser :=
  toUser user (t_TenantCode tenant) zero_userIdentityModel.

(** ** Statements *)

Definition put_user (u : userModel) (d : DB) : res DB :=
  if bool_decide (is_Some (db_tenants d !! u_TenantID u)) then Ok (set_users (<[u_ID u := u]> (db_users d)) d)
  else Err errForeignKey.
Definition insert_user (u : userModel) (d : DB) : res DB :=
  if bool_decide (is_Some (db_users d !! u_ID u)) then Err errUnique else put_user u d.

Definition insert_session (x : userSessionModel) (d : DB) : res DB :=
  if bool_decide (is_Some (db_sessions d !! us_ID x)) ||
     existsb (λ y, str_eqb (us_TokenHash y) (us_TokenHash x)) (rows (db_sessions d)) then Err errUnique
  else if bool_decide (is_Some (db_users d !! us_UserID x)) then Ok (set_sessions (<[us_ID x := x]> (db_sessions d)) d)
  else Err errForeignKey.

Definition insert_password (p : userPasswordRow) (d : DB) : res DB :=
  if bool_decide (is_Some (db_passwords d !! pw_UserID p)) ||
     existsb (λ q, (pw_TenantID q =? pw_TenantID p) && str_eqb (pw_Username q) (pw_Username p)) (rows (db_passwords d))
  then Err errUnique
  else match db_users d !! pw_UserID p with
       | Some u => if u_TenantID u =? pw_TenantID p then Ok (set_passwords (<[pw_UserID p := p]> (db_passwords d)) d) else Err errForeignKey
       | None => Err errForeignKey
       end.

(** [Take]: one row, or [gorm.ErrRecordNotFound]. *)
Definition takeRow {A} (f : DB → option A) : M A := firstOrNotFound f.

(** ** Sessions *)

(** What a login does to the row of its user. *)
Definition logged_in (now : Time) (u : userModel) : userModel :=
  mkUser (u_ID u) (u_TenantID u) (u_DisplayName u) (u_AvatarURL u) (u_Role u) (u_Status u)
    (Some (pg_timestamp now)) (u_CreatedAt u) (pg_timestamp now).

Definition CreateSession (userID : Z) (tokenHash : string) (expiresAt : Time) (ip userAgent : string) (now : Time) : M unit :=
  Transaction (
    exec (λ d, Ok (set_users (alter (logged_in now) userID (db_users d)) d));;
    insert_serial "user_sessions" (λ id, insert_session
      (mkSession id userID tokenHash (pg_timestamp expiresAt) (Some (pg_timestamp now)) (emptyStringPtr ip)
         (emptyStringPtr userAgent) (pg_timestamp now) (pg_timestamp now)));;
    mret ()).

(** The row of an existing user in an active tenant. *)
Definition user_in_active_tenant (userID : Z) (d : DB) : option (userModel * tenantModel) :=
  match db_users d !! userID with
  | Some u => match db_tenants d !! u_TenantID u with
              | Some t => if t_Status t =? 1 then Some (u, t) else None
              | None => None
              end
  | None => None
  end.

Definition GetUserBySessionTokenHash (tokenHash : string) (now : Time) : M (option (AuthUser * SessionRecord)) :=
  r ← attempt (takeRow (λ d, head (select (λ x, str_eqb (us_TokenHash x) tokenHash) (rows (db_sessions d)))));
  match r with
  | Err ErrRecordNotFound => mret None
  | Err e => throw e
  | Ok session =>
      if negb (time_After (us_ExpiresAt session) now) then mret None else
      r ← attempt (takeRow (user_in_active_tenant (us_UserID session)));
      match r with
      | Err ErrRecordNotFound => mret None
      | Err e => throw e
      | Ok (joined, tenant) =>
          if negb (str_eqb (u_Status joined) UserStatusActive) then mret None else
          autocommit (exec (λ d, Ok (set_sessions (alter (λ x : userSessionModel,
            mkSession (us_ID x) (us_UserID x) (us_TokenHash x) (us_ExpiresAt x) (Some (pg_timestamp now))
              (us_LastSeenIP x) (us_UserAgent x) (us_CreatedAt x) (pg_timestamp now)) (us_ID session) (db_sessions d)) d)));;
          mret (Some (joinedUser joined tenant, mkSessionRecord (us_ID session) (us_UserID session) (us_ExpiresAt session)))
      end
  end.

Definition DeleteSession (tokenHash : string) : M unit :=
  autocommit (exec (λ d, Ok (set_sessions (filter (λ '(_, x), str_eqb (us_TokenHash x) tokenHash = false) (db_sessions d)) d))).

(** ** Users *)

(** The identity with the smallest id of a user. *)
Definition first_identity (d : DB) (userID : Z) : option userIdentityModel :=
  first_by id_ID (λ i, id_UserID i =? userID) (rows (db_identities d)).

Definition ListUsers (tenantCode : string) : M (list AuthUser) :=
  query (λ d,
    omap (λ u, match db_tenants d !! u_TenantID u with
               | Some t => if str_eqb (t_TenantCode t) tenantCode
                           then Some (toUser u (t_TenantCode t) (default zero_userIdentityModel (first_identity d (u_ID u))))
                           else None
               | None => None
               end) (order_by u_CreatedAt (rows (db_users d)))).

(** The row [UpdateUser] saves over the one it has read. *)
Definition patched_user (patch : UserUpdate) (now : Time) (user : userModel) : userModel :=
  mkUser (u_ID user) (u_TenantID user) (default (u_DisplayName user) (up_DisplayName patch)) (u_AvatarURL user)
    (default (u_Role user) (up_Role patch)) (default (u_Status user) (up_Status patch))
    (u_LastLoginAt user) (u_CreatedAt user) now.

Definition UpdateUser (tenantCode : string) (userID : Z) (patch : UserUpdate) : M AuthUser :=
  Transaction (
    tenant ← takeRow (λ d, head (select (λ t, str_eqb (t_TenantCode t) tenantCode) (rows (db_tenants d))));
    user ← takeRow (λ d, match db_users d !! userID with
                      | Some u => if u_TenantID u =? t_ID tenant then Some u else None
                      | None => None
                      end);
    now ← time_now;
    exec (put_user (patched_user patch (pg_timestamp now) user));;
    let user := patched_user patch now user in
    identity ← attempt (takeRow (λ d, first_identity d (u_ID user)));
    mret (toUser user (t_TenantCode tenant)
            (match identity with Ok i => i | Err _ => zero_userIdentityModel end))).

(** ** Setup *)

Definition setup_available (d : DB) : bool :=
  bool_decide (db_bootstrap d = None) && bool_decide (db_users d = ∅).

Definition SetupAvailable : M bool := query setup_available.

Definition createLocalAdmin (account : LocalAccount) (now : Time) : M AuthUser :=
  (* INSERT .. ON CONFLICT(tenant_code) DO NOTHING; the default status is 1 *)
  id ← nextval "tenants";
  exec (λ d, if existsb (λ t, str_eqb (t_TenantCode t) (la_TenantCode account)) (rows (db_tenants d)) then Ok d
             else insert_tenant (mkTenant id (la_TenantCode account) (la_TenantCode account) 1) d);;
  tenant ← takeRow (λ d, head (select (λ t, str_eqb (t_TenantCode t) (la_TenantCode account) && (t_Status t =? 1)) (rows (db_tenants d))));
  userID ← insert_serial "users" (λ id, insert_user
    (mkUser id (t_ID tenant) (la_DisplayName account) None UserRoleAdmin UserStatusActive None (pg_timestamp now) (pg_timestamp now)));
  exec (insert_password (mkPassword userID (t_ID tenant) (la_Username account) (la_PasswordHash account)));;
  mret (toUser (mkUser userID (t_ID tenant) (la_DisplayName account) None UserRoleAdmin UserStatusActive None now now)
          (la_TenantCode account) zero_userIdentityModel).

(** [SELECT pg_advisory_xact_lock] and [LOCK TABLE]: statements without effect on
    the tables. *)
Definition lock_stmt : M unit := query (λ _, ()).

Definition BootstrapAdmin (account : LocalAccount) (now : Time) : M AuthUser :=
  Transaction (
    lock_stmt;;
    available ← query setup_available;
    if negb available then throw ErrSetupUnavailable else
    user ← createLocalAdmin account now;
    exec (λ d, match db_bootstrap d with
               | None => Ok (set_bootstrap (Some (pg_timestamp now)) d)
               | Some _ => Err errUnique
               end);;
    mret user).

Definition LocalCredentials (tenant username : string) : M (option (AuthUser * string)) :=
  r ← attempt (takeRow (λ d, head (omap (λ p,
        if str_eqb (pw_Username p) username then
          match user_in_active_tenant (pw_UserID p) d with
          | Some (u, t) => if (u_TenantID u =? pw_TenantID p) && str_eqb (t_TenantCode t) tenant
                           then Some (u, t, pw_PasswordHash p) else None
          | None => None
          end
        else None) (rows (db_passwords d)))));
  match r with
  | Err ErrRecordNotFound => mret None
  | Err e => throw e
  | Ok (u, t, hash) => mret (Some (joinedUser u t, hash))
  end.

Definition errStartupPassword : error := ErrMsg "startup administrator password must contain 1 to 72 bytes".

Definition EnsureStartupAdmin (password : string) (now : Time) : M bool :=
  Transaction (
    lock_stmt;; lock_stmt;;
    found ← query (λ d, negb (bool_decide (db_users d = ∅)));
    if (found : bool) then mret false else
    if (len password =? 0) || (72 <? len password) then throw errStartupPassword else
    salt ← rand_read 16;
    match bcrypt_generate salt password with
    | None => throw (ErrMsg "bcrypt")
    | Some hash =>
        createLocalAdmin (mkLocalAccount "default" "admin" "Administrator" hash) now;;
        exec (λ d, match db_bootstrap d with
                   | None => Ok (set_bootstrap (Some (pg_timestamp now)) d)
                   | Some _ => Ok d
                   end);;
        mret true
    end).

End auth.
