(* ===== verification/RowTransactions.v ===== *)
(** * Read-and-save transactions on a row

    A transaction of the stores that reads a row, computes a new one and saves all of
    it, under PostgreSQL's default level READ COMMITTED: a SELECT sees what is
    committed at that moment, an UPDATE waits until nobody else holds the row and holds
    it until the end of its transaction, and nothing is seen before it is committed.
    Some transactions write other rows before: an inner one, by name, and some an
    outer one before that; they hold those too.  [Isolation] says which transactions
    of the program these are. *)

From stdpp Require Import gmap strings list sorting pretty.
From S2P Require Import Prelude.
Local Open Scope Z_scope.

Section transactions.
(** The transactions on the row, what they lock before they read it (with the outer
    row, and the name of the inner one), and the row that the UPDATE makes of the row
    [seen] before and the [current] one, if there is an UPDATE. *)
Context {Row T : Type} (locks : T → option (bool * string)) (written : T → Row → Row → option Row).

(** The next statement of a transaction: the UPDATE of the outer row, of the inner
    row, the SELECT of the row, its UPDATE after [seen] was read, and the COMMIT. *)
Inductive point := AtOuter | AtInner | AtRead | AtWrite (seen : Row) | AtCommit (row : Row).

Definition inner_of (t : T) : option string := snd <$> locks t.
Definition start_at (t : T) : point :=
  match locks t with None => AtRead | Some (false, _) => AtInner | Some (true, _) => AtOuter end.

(** ** Locks *)

(** Past the lock of the inner row. *)
Definition past (x : T * point) : bool := match x.2 with AtRead | AtWrite _ | AtCommit _ => true | _ => false end.

Definition holds_outer (x : T * point) : bool := match locks x.1, x.2 with Some (true, _), AtOuter => false | Some (true, _), _ => true | _, _ => false end.
Definition holds_inner (name : string) (x : T * point) : bool := bool_decide (inner_of x.1 = Some name) && past x.
Definition holds_row (x : T * point) : bool := match x.2 with AtCommit _ => true | _ => false end.

(** ** The row *)

(** The committed row, the open transactions, and those that committed. *)
Record state := mkState { tx_Row : Row; tx_Open : list (T * point); tx_Done : list T }.

Definition quiet (r : Row) : state := mkState r [] [].

Definition free (holds : T * point → bool) (l : list (T * point)) : Prop := ∀ x, x ∈ l → holds x = false.

(** A statement of an open transaction. *)
Inductive advance : state → state → Prop :=
| adv_outer r l t l' d : free holds_outer (l ++ l') →
    advance (mkState r (l ++ (t, AtOuter) :: l') d) (mkState r (l ++ (t, AtInner) :: l') d)
| adv_inner r l t l' d a : inner_of t = Some a → free (holds_inner a) (l ++ l') →
    advance (mkState r (l ++ (t, AtInner) :: l') d) (mkState r (l ++ (t, AtRead) :: l') d)
| adv_read r l t l' d : advance (mkState r (l ++ (t, AtRead) :: l') d) (mkState r (l ++ (t, AtWrite r) :: l') d)
| adv_write r l t l' d seen r' : free holds_row (l ++ l') → written t seen r = Some r' →
    advance (mkState r (l ++ (t, AtWrite seen) :: l') d) (mkState r (l ++ (t, AtCommit r') :: l') d)
| adv_nothing r l t l' d seen : written t seen r = None →
    advance (mkState r (l ++ (t, AtWrite seen) :: l') d) (mkState r (l ++ l') d)
| adv_commit r l t l' d r' : advance (mkState r (l ++ (t, AtCommit r') :: l') d) (mkState r' (l ++ l') (d ++ [t])).

(** Transactions begin at any time, and can fail at any time. *)
Inductive iso_step : state → state → Prop :=
| iso_begin r l d t : iso_step (mkState r l d) (mkState r ((t, start_at t) :: l) d)
| iso_advance h h' : advance h h' → iso_step h h'
| iso_rollback r l x l' d : iso_step (mkState r (l ++ x :: l') d) (mkState r (l ++ l') d).

(** ** One after the other *)

Definition apply (r : Row) (t : T) : Row := default r (written t r r).

(** Steps that begin a transaction only beside transactions of its own group, and one
    without a group beside none. *)
Definition beside (group : T → option string) (h : state) (t : T) : Prop :=
  ∀ x, x ∈ tx_Open h → is_Some (group t) ∧ group x.1 = group t.

Inductive tame_step (group : T → option string) : state → state → Prop :=
| tame_begin r l d t : beside group (mkState r l d) t → tame_step group (mkState r l d) (mkState r ((t, start_at t) :: l) d)
| tame_advance h h' : advance h h' → tame_step group h h'
| tame_rollback r l x l' d : tame_step group (mkState r (l ++ x :: l') d) (mkState r (l ++ l') d).

(** At most one transaction is past the lock of the inner row, and what it has read is
    what is committed. *)
Record tame (r0 : Row) (h : state) : Prop := {
  tm_one : (length (select past (tx_Open h)) ≤ 1)%nat;
  tm_same : (∃ a, ∀ x, x ∈ tx_Open h → inner_of x.1 = Some a) ∨ (length (tx_Open h) ≤ 1)%nat;
  tm_seen : ∀ x, x ∈ tx_Open h → match x.2 with
    | AtWrite seen => seen = tx_Row h
    | AtCommit r => written x.1 (tx_Row h) (tx_Row h) = Some r
    | _ => True
    end;
  tm_row : tx_Row h = foldl apply r0 (tx_Done h)
}.

Lemma select_mid (l l' : list (T * point)) x :
  length (select past (l ++ x :: l')) = (length (select past (l ++ l')) + if past x then 1 else 0)%nat.
Proof. rewrite !select_app, !length_app. rewrite select_cons. destruct (past x); simpl; lia. Qed.

Lemma none_past (l : list (T * point)) : (length (select past l) ≤ 0)%nat → ∀ x, x ∈ l → past x = false.
Proof.
  intros Hl x Hx. destruct (past x) eqn:E; [|done]. assert (x ∈ select past l) as Hin by (by apply elem_of_select).
  destruct (select past l); [by apply not_elem_of_nil in Hin|simpl in Hl; lia].
Qed.

Lemma elem_of_mid {A} (l l' : list A) x y : x ∈ l ++ y :: l' ↔ x = y ∨ x ∈ l ++ l'.
Proof. set_solver. Qed.

(** A transaction that stays open moves on. *)
Lemma tame_move r0 r l l' d t p q :
  tame r0 (mkState r (l ++ (t, p) :: l') d) →
  ((if past (t, q) then 1 else 0) ≤ (if past (t, p) then 1 else 0))%nat ∨ (∀ x, x ∈ l ++ l' → past x = false) →
  match q with AtWrite seen => seen = r | AtCommit r' => written t r r = Some r' | _ => True end →
  tame r0 (mkState r (l ++ (t, q) :: l') d).
Proof.
  intros [Ho Hs Hseen Hr] Hp Hq. split; simpl in *; [| | |done].
  - rewrite select_mid in *. destruct Hp as [Hp|Hp]; [lia|]. rewrite (select_none past (l ++ l')) by done. simpl. destruct (past (t, q)); lia.
  - destruct Hs as [[a Ha]|Hs]; [left; exists a|right; by rewrite length_app in *].
    intros x [->|Hx]%elem_of_mid; [apply (Ha (t, p)), elem_of_mid; by left|apply Ha, elem_of_mid; by right].
  - intros x [->|Hx]%elem_of_mid; [done|]. apply Hseen, elem_of_mid. by right.
Qed.

(** A transaction that ends. *)
Lemma tame_end r0 r r' l l' d d' x :
  tame r0 (mkState r (l ++ x :: l') d) → r' = foldl apply r0 d' → r' = r ∨ past x = true → tame r0 (mkState r' (l ++ l') d').
Proof.
  intros [Ho Hs Hseen Hr] Hr' Hx. simpl in *. rewrite select_mid in Ho. split; simpl; [lia| | |done].
  - destruct Hs as [[a Ha]|Hs]; [left; exists a; intros y Hy; apply Ha, elem_of_mid; by right|right]. rewrite length_app in *. simpl in Hs. lia.
  - intros y Hy. destruct Hx as [->|Hx]; [apply Hseen, elem_of_mid; by right|]. rewrite Hx in Ho.
    assert (past y = false) as Hp by (eapply none_past; [|done]; lia). by destruct y as [t []].
Qed.

Lemma tame_step_inv group r0 h h' : (∀ t, group t = inner_of t) → tame_step group h h' → tame r0 h → tame r0 h'.
Proof.
  intros Hg [r l d t Hb|? ? Ha|r l x l' d] Ht.
  - unfold beside in Hb. setoid_rewrite Hg in Hb. destruct Ht as [Ho Hs Hseen Hr]. simpl in *. split; simpl; [| | |done].
    + rewrite select_cons. destruct l as [|y l]; [by destruct (past _)|].
      assert (past (t, start_at t) = false) as ->; [|done]. destruct (Hb y) as [[a Ht] _]; [set_solver|]. unfold start_at, inner_of in *. by destruct (locks t) as [[[] ?]|].
    + destruct l as [|y l]; [right; simpl; lia|]. left. destruct (Hb y) as [[a Ht] _]; [set_solver|]. exists a.
      intros z [->|Hz]%elem_of_cons; [done|]. rewrite <-Ht. by apply (Hb z).
    + intros x [->|Hx]%elem_of_cons; [unfold start_at; simpl; by destruct (locks t) as [[[] ?]|]|by apply Hseen].
  - destruct Ha as [r l t l' d Hf|r l t l' d a Hat Hf|r l t l' d|r l t l' d seen r' Hf Hwr|r l t l' d seen Hwr|r l t l' d r'].
    + apply (tame_move _ _ _ _ _ _ AtOuter); [done|left; simpl; lia|done].
    + apply (tame_move _ _ _ _ _ _ AtInner); [done| |done]. right. intros x Hx. destruct (tm_same _ _ Ht) as [[b Hb]|Hb]; simpl in *.
      * assert (b = a) as -> by (specialize (Hb (t, AtInner)); simpl in Hb; rewrite elem_of_mid in Hb; specialize (Hb (or_introl eq_refl)); congruence).
        specialize (Hf x Hx). unfold holds_inner in Hf. rewrite bool_decide_true in Hf; [done|]. apply Hb, elem_of_mid. by right.
      * rewrite length_app in Hb. simpl in Hb. destruct l, l'; simpl in Hb; [by apply not_elem_of_nil in Hx|lia..].
    + apply (tame_move _ _ _ _ _ _ AtRead); [done|left; simpl; lia|done].
    + apply (tame_move _ _ _ _ _ _ (AtWrite seen)); [done|left; simpl; lia|].
      pose proof (tm_seen _ _ Ht (t, AtWrite seen)) as Hw. simpl in Hw. rewrite elem_of_mid in Hw. by rewrite <-(Hw (or_introl eq_refl)) in Hwr |- *.
    + apply (tame_end _ _ _ _ _ _ _ _ Ht); [apply (tm_row _ _ Ht)|by left].
    + apply (tame_end _ _ _ _ _ _ _ _ Ht); [|by right]. rewrite foldl_app. pose proof (tm_row _ _ Ht) as Hrow. simpl in *. rewrite <-Hrow. unfold apply.
      pose proof (tm_seen _ _ Ht (t, AtCommit r')) as Hw. simpl in Hw. rewrite elem_of_mid in Hw. by rewrite (Hw (or_introl eq_refl)).
  - apply (tame_end _ _ _ _ _ _ _ _ Ht); [apply (tm_row _ _ Ht)|by left].
Qed.

(** When the transactions of a group write the same inner row first, and those that
    overlap belong to one group, they serialise in the order of their commits. *)
Lemma serialises group r0 h :
  (∀ t, group t = inner_of t) → rtc (tame_step group) (quiet r0) h →
  tx_Row h = foldl apply r0 (tx_Done h) ∧ ∀ t seen, (t, AtWrite seen) ∈ tx_Open h → seen = tx_Row h.
Proof.
  intros Hg Hr. assert (tame r0 h) as Ht.
  { assert (∀ x, rtc (tame_step group) x h → tame r0 x → tame r0 h) as Hs by (clear -Hg; induction 1; eauto using tame_step_inv).
    apply (Hs _ Hr). split; simpl; [lia|right; simpl; lia|set_solver|done]. }
  split; [apply (tm_row _ _ Ht)|]. intros t seen Hin. apply (tm_seen _ _ Ht _ Hin).
Qed.

(** ** Transactions do not deadlock *)

(** The statements a transaction has left. *)
Definition left (x : T * point) : nat :=
  match x.2 with AtOuter => 5 | AtInner => 4 | AtRead => 3 | AtWrite _ => 2 | AtCommit _ => 1 end.
Definition work (h : state) : nat := sum_list_with left (tx_Open h).

Lemma work_mid r l x l' d : work (mkState r (l ++ x :: l') d) = (left x + work (mkState r (l ++ l') d))%nat.
Proof. unfold work. simpl. rewrite !sum_list_with_app. simpl. lia. Qed.

Lemma advance_work h h' : advance h h' → (work h' < work h)%nat.
Proof. destruct 1; rewrite !work_mid; unfold work, left; simpl; lia. Qed.

(** Only a transaction with an inner row waits for one. *)
Definition placed (h : state) : Prop := ∀ t, (t, AtInner) ∈ tx_Open h → is_Some (inner_of t).

Lemma iso_step_placed h h' : iso_step h h' → placed h ∧ (∀ t, (t, AtOuter) ∈ tx_Open h → is_Some (inner_of t)) →
  placed h' ∧ ∀ t, (t, AtOuter) ∈ tx_Open h' → is_Some (inner_of t).
Proof.
  unfold placed. intros [r l d t|? ? []|r l x l' d] [Ha Hh]; simpl in *; split; intros u; rewrite ?elem_of_mid, ?elem_of_cons.
  1-2: intros [Hu|Hu]; [injection Hu as -> Hu; unfold start_at, inner_of in *; destruct (locks t) as [[[] ?]|]; (done || by eexists)|eauto].
  all: try (intros [Hu|Hu]; [try discriminate Hu; injection Hu as ->|]; first [apply Hh, elem_of_mid; by eauto|apply Ha, elem_of_mid; by eauto]).
  all: intros Hu; first [apply Ha, elem_of_mid; by right|apply Hh, elem_of_mid; by right].
Qed.

Lemma pick (f : T * point → bool) (l : list (T * point)) :
  (∃ l1 t p l2, l = l1 ++ (t, p) :: l2 ∧ f (t, p) = true) ∨ free f l.
Proof.
  induction l as [|[t p] l [(l1 & u & q & l2 & -> & Hf)|IH]]; [right; intros x Hx; by apply not_elem_of_nil in Hx|left; by exists ((t, p) :: l1), u, q, l2|].
  destruct (f (t, p)) eqn:E; [left; by exists [], t, p, l|right]. intros x [->|Hx]%elem_of_cons; [done|by apply IH].
Qed.

Lemma free_others f (l l' : list (T * point)) x : free f (l ++ x :: l') → free f (l ++ l').
Proof. intros Hf y Hy. apply Hf, elem_of_mid. by right. Qed.

Definition at_inner (x : T * point) : bool := match x.2 with AtInner => true | _ => false end.
Definition at_write (x : T * point) : bool := match x.2 with AtWrite _ => true | _ => false end.

(** Some open transaction can go on: one that commits, else one that writes, else
    one that reads, else one that waits for an inner row, else any. *)
Lemma advance_exists h : placed h → tx_Open h ≠ [] → ∃ h', advance h h'.
Proof.
  destruct h as [r open d]. intros Hp Hne. simpl in *.
  destruct (pick holds_row open) as [(l & t & p & l' & -> & Hx)|Hc]; [destruct p; try discriminate Hx; eexists; apply adv_commit|].
  destruct (pick at_write open) as [(l & t & p & l' & -> & Hx)|Hw].
  { destruct p as [| | |seen|]; try discriminate Hx. destruct (written t seen r) as [r'|] eqn:E; eexists; [|by apply adv_nothing].
    apply adv_write; [by eapply free_others|done]. }
  destruct (pick past open) as [(l & t & p & l' & -> & Hx)|Hr].
  { destruct p; try discriminate Hx; [eexists; apply adv_read|..].
    - by specialize (Hw (t, AtWrite seen) ltac:(set_solver)).
    - by specialize (Hc (t, AtCommit row) ltac:(set_solver)). }
  destruct (pick at_inner open) as [(l & t & p & l' & -> & Hx)|Ha].
  { destruct p; try discriminate Hx. destruct (Hp t) as [a Hat]; [simpl; set_solver|]. eexists. apply (adv_inner _ _ _ _ _ a Hat).
    intros x Hin. unfold holds_inner. by rewrite (free_others _ _ _ _ Hr x Hin), andb_false_r. }
  destruct open as [|[t p] open]; [done|]. assert (∀ u q, (u, q) ∈ (t, p) :: open → q = AtOuter) as Hall.
  { intros u q Hin. specialize (Hr _ Hin). specialize (Ha _ Hin). by destruct q. }
  rewrite (Hall t p ltac:(set_solver)). eexists. apply (adv_outer _ [] t open). intros [u q] Hin. rewrite (Hall u q ltac:(set_solver)). unfold holds_outer. simpl. by destruct (locks u) as [[[] ?]|].
Qed.

(** Whatever transactions are open, one of them can execute its next
    statement, and each statement leaves less to do: they cannot deadlock, because all
    of them lock the outer, the inner and the row itself in this order. *)
Lemma transactions_finish r0 h :
  rtc iso_step (quiet r0) h → ∃ h', rtc advance h h' ∧ tx_Open h' = [] ∧ tx_Done h `prefix_of` tx_Done h'.
Proof.
  intros Hr. assert (placed h ∧ ∀ t, (t, AtOuter) ∈ tx_Open h → is_Some (inner_of t)) as Hp.
  { assert (∀ x, rtc iso_step x h → placed x ∧ (∀ t, (t, AtOuter) ∈ tx_Open x → is_Some (inner_of t)) →
      placed h ∧ ∀ t, (t, AtOuter) ∈ tx_Open h → is_Some (inner_of t)) as Hg by (clear; induction 1; eauto using iso_step_placed).
    apply (Hg _ Hr). split; intros t Ht; by apply not_elem_of_nil in Ht. }
  clear Hr. remember (work h) as n eqn:Hn. revert h Hn Hp. induction n as [n IH] using lt_wf_ind. intros h -> Hp.
  destruct (decide (tx_Open h = [])) as [He|Hne]; [by exists h|].
  destruct (advance_exists h (proj1 Hp) Hne) as [h1 Ha]. destruct (IH (work h1)) with (h := h1) as (h' & Hr & He & Hd); [by apply advance_work|done| |].
  - by eapply iso_step_placed; [apply iso_advance|].
  - exists h'. split_and!; [by eapply rtc_l|done|]. etrans; [|done]. destruct Ha; simpl; (done || by apply prefix_app_r).
Qed.

(** ** Lost updates *)

(** A transaction without locks beside one that has read and is about to write. *)
Lemma beside_writer r x seen d t r' :
  (∀ a, inner_of t = Some a → inner_of x ≠ Some a) → (∀ a, locks t ≠ Some (true, a)) → written t r r = Some r' →
  rtc iso_step (mkState r [(x, AtWrite seen)] d) (mkState r' [(x, AtWrite seen)] (d ++ [t])).
Proof.
  intros Hx Ho Hw. set (o := [(x, AtWrite seen)]). eapply rtc_l; [apply (iso_begin r o d t)|].
  assert (rtc iso_step (mkState r ((t, start_at t) :: o) d) (mkState r ((t, AtRead) :: o) d)) as Hs.
  { unfold start_at. unfold inner_of in Hx. destruct (locks t) as [[[] a]|] eqn:El; [by destruct (Ho a)| |done].
    apply rtc_once, iso_advance, (adv_inner r [] t o d a); [unfold inner_of; by rewrite El|].
    intros y ->%list_elem_of_singleton. unfold holds_inner, inner_of. simpl. rewrite bool_decide_false; [done|]. by apply Hx. }
  etrans; [exact Hs|]. eapply rtc_l; [apply iso_advance, (adv_read r [] t o d)|]. simpl.
  eapply rtc_l; [apply iso_advance, (adv_write r [] t o d r r'); [by intros y ->%list_elem_of_singleton|done]|].
  apply rtc_once, iso_advance, (adv_commit r [] t o d).
Qed.

(** A transaction reads; whatever happens on the row until it is alone again, it then
    writes from what it read. *)
Lemma late_writer r0 x r d r' :
  rtc iso_step (mkState r0 [(x, AtWrite r0)] []) (mkState r [(x, AtWrite r0)] d) → written x r0 r = Some r' →
  rtc iso_step (quiet r0) (mkState r' [] (d ++ [x])).
Proof.
  intros Hr Hw. assert (∀ p, free p []) as Hf by (intros p y Hy; by apply not_elem_of_nil in Hy).
  eapply rtc_l; [apply (iso_begin r0 [] [] x)|].
  assert (rtc iso_step (mkState r0 [(x, start_at x)] []) (mkState r0 [(x, AtRead)] [])) as Hs.
  { unfold start_at. destruct (locks x) as [[[] a]|] eqn:El; [|..|done].
    - eapply rtc_l; [apply iso_advance, (adv_outer r0 [] x [] []), Hf|]. apply rtc_once, iso_advance, (adv_inner r0 [] x [] [] a); [unfold inner_of; by rewrite El|apply Hf].
    - apply rtc_once, iso_advance, (adv_inner r0 [] x [] [] a); [unfold inner_of; by rewrite El|apply Hf]. }
  etrans; [exact Hs|]. eapply rtc_l; [apply iso_advance, (adv_read r0 [] x [] [])|]. etrans; [exact Hr|].
  eapply rtc_l; [apply iso_advance, (adv_write r [] x [] d r0 r'); [apply Hf|done]|]. apply rtc_once, iso_advance, (adv_commit r [] x [] d).
Qed.

End transactions.
