(* ===== verification/Isolation.v ===== *)
(** * Transactions side by side

    [HostStore] and [AuthStore] take a transaction as one step.  Here the transactions
    that write the status row of a host that has one, and those that write the row of
    a user, are put into [RowTransactions].

    A registration ([repository/postgres/store.go]) saves the row of the host, then
    that of the agent, then reads and saves the status; a report or heartbeat updates
    the row of the agent first; the first report of an agent registers it before; the
    offline scan reads outside its transaction and updates four columns.  A change of a
    user ([master/auth/store.go]) reads and saves the row of the user; a login updates
    two columns of it.  The theorems say when taking a transaction as one step is
    right, and what happens when it is not. *)

From stdpp Require Import gmap strings list sorting pretty.
From S2P Require Import Prelude GoRuntime GoStrings Contracts Sql HostStore HostStoreProps AuthStore RowTransactions.
Local Open Scope Z_scope.

Abbreviation Row := hostStatusCurrentModel.

(** ** The status of a host *)

Inductive txn :=
| Register (agent : string) (now : Time)
| Report (agent : string) (digest : AgentDigest) (now : Time)
| FirstReport (agent : string) (digest : AgentDigest) (now : Time)
| Scan (now : Time).

(** Whether the transaction saves the row of the host, and the agent whose row it
    writes, before it reads the status. *)
Definition txn_locks (t : txn) : option (bool * string) :=
  match t with
  | Register agent _ | FirstReport agent _ _ => Some (true, agent)
  | Report agent _ _ => Some (false, agent)
  | Scan _ => None
  end.

(** The agent whose transaction it is; a scan is nobody's. *)
Definition txn_agent (t : txn) : option string :=
  match t with Register agent _ | Report agent _ _ | FirstReport agent _ _ => Some agent | Scan _ => None end.

Section isolation.
Context `{PgTypes}.

Definition report_write (digest : AgentDigest) (now : Time) (seen : Row) : option Row :=
  if st_Version seen =? 0 then None else Some (stored_status (digest_row digest now seen (int64_incr (st_Version seen)))).

(** The row an UPDATE makes of the row [seen] before and the [current] one; [None] when
    there is no such UPDATE: the offline scan did not select the row, or a report
    takes a version 0 for a missing row and fails. *)
Definition row_written (t : txn) (seen current : Row) : option Row :=
  match t with
  | Register _ now => Some (stored_status (registered_row now seen))
  | Report _ digest now => report_write digest now seen
  | FirstReport _ digest now => report_write digest now (stored_status (registered_row now seen))
  | Scan now => if stale_status now seen then Some (offline_row (int64_incr (st_Version seen)) now current) else None
  end.

(** C4: taking a transaction on a host as one step is right when the transactions
    that overlap belong to one agent.  However the statements of registrations,
    reports, first reports and offline scans on a host interleave, and wherever they
    fail, if a transaction never begins beside one of another agent and a scan runs
    beside none, the committed status row is what the committed transactions make of
    it one after the other, in the order of their commits; an open one has read
    nothing older than what is committed. *)
Theorem host_serialises r0 h :
  rtc (tame_step txn_locks row_written txn_agent) (quiet r0) h →
  tx_Row h = foldl (apply row_written) r0 (tx_Done h) ∧
  ∀ t seen, (t, AtWrite seen) ∈ tx_Open h → seen = tx_Row h.
Proof. apply serialises. by intros []. Qed.

(** Whatever transactions of a host are open, one of them can execute its next
    statement, and so all of them come to an end: they cannot deadlock, because all of
    them lock the rows of the host, the agent and the status in this order. *)
Theorem host_transactions_finish r0 h :
  rtc (iso_step txn_locks row_written) (quiet r0) h →
  ∃ h', rtc (advance txn_locks row_written) h h' ∧ tx_Open h' = [] ∧ tx_Done h `prefix_of` tx_Done h'.
Proof. apply transactions_finish. Qed.

(** ** Two agents of one host *)

Definition reports_of (reports : list (AgentDigest * Time)) : list txn := (λ x, Report "old" x.1 x.2) <$> reports.

Lemma report_applied r a digest now :
  0 < st_Version r < int64_max →
  row_written (Report a digest now) r r = Some (apply row_written r (Report a digest now)) ∧
  st_Version (apply row_written r (Report a digest now)) = st_Version r + 1.
Proof.
  intros Hv. unfold apply. simpl. unfold report_write. destruct (Z.eqb_spec (st_Version r) 0); [lia|]. simpl. split; [done|].
  apply int64_incr_small. unfold int64_min. lia.
Qed.

Lemma reports_beside r x seen d reports :
  inner_of txn_locks x ≠ Some "old"%string → 0 < st_Version r → st_Version r + llen reports < int64_max →
  rtc (iso_step txn_locks row_written) (mkState r [(x, AtWrite seen)] d)
    (mkState (foldl (apply row_written) r (reports_of reports)) [(x, AtWrite seen)] (d ++ reports_of reports)) ∧
  st_Version (foldl (apply row_written) r (reports_of reports)) = st_Version r + llen reports.
Proof.
  intros Hx. unfold llen. revert r d. induction reports as [|[dg n] reports IH]; intros r d Hr Hl; simpl in *; [rewrite app_nil_r; split; [done|lia]|].
  destruct (report_applied r "old" dg n) as [Hw Hn]; [lia|].
  destruct (IH (apply row_written r (Report "old" dg n)) (d ++ [Report "old" dg n])) as [H1 H2]; [lia..|].
  split; [|unfold reports_of in *; lia]. rewrite <-(assoc_L (++)) in H1. etrans; [|exact H1].
  apply (beside_writer txn_locks row_written); [by intros a [= <-]|done|done].
Qed.

(** Where they do not serialise.  A registration of a second agent of the host (the
    agent takes a new identifier at every start) that has read the status row writes
    all of it back after any number of reports of the first agent were committed and
    acknowledged: their values are gone, the row shows those from before, and its
    version, which they had counted up, goes back to the one after the row that was
    read. *)
Theorem reports_overwritten r0 (reports : list (AgentDigest * Time)) now :
  0 < st_Version r0 → st_Version r0 + llen reports < int64_max →
  ∃ h, rtc (iso_step txn_locks row_written) (quiet r0) h ∧ tx_Open h = [] ∧ tx_Done h = reports_of reports ++ [Register "new" now] ∧
    st_Metrics (tx_Row h) = stored_metrics (st_Metrics r0) ∧ st_LastMetricAt (tx_Row h) = pg_timestamp <$> st_LastMetricAt r0 ∧
    st_Version (tx_Row h) = st_Version r0 + 1 ∧ st_Version (foldl (apply row_written) r0 (reports_of reports)) = st_Version r0 + llen reports.
Proof.
  intros Hv Hb. destruct (reports_beside r0 (Register "new" now) r0 [] reports) as [Hr Hn]; [done..|].
  eexists. split; [by eapply late_writer; [exact Hr|]|]. split_and!; [done..| |exact Hn].
  simpl. apply int64_incr_small. unfold llen in Hb. unfold int64_min. lia.
Qed.

End isolation.

(** ** The statements of the store *)

Section statements.
Context `{Env} `{PgTypes}.

(** What the programs of the store do to a status row that exists is what [row_written]
    says of the row they have read. *)
Lemma upsertRegisteredStatus_written hid now a d s r :
  host_wf d → hid ≠ 0 → db_status d !! hid = Some r →
  WP (upsertRegisteredStatus hid now) (on_ok (λ _ d' _,
    ∃ r', row_written (Register a now) r r = Some r' ∧ d' = set_status (<[hid := r']> (db_status d)) d)) d s.
Proof.
  intros Hd Hn Hr. apply WP_bind, WP_attempt, WP_firstOrNotFound; [intros e [code ->]; by apply WP_throw|].
  rewrite find_status_lookup, Hr by done. destruct (wf_status _ Hd _ _ Hr) as (<- & _). apply WP_exec; [done|].
  destruct (put_status _ d) eqn:Ep; [|done]. apply put_status_inv in Ep as [-> _]. eexists. by split.
Qed.

Lemma upsertDigestStatus_written hid digest now a d s r :
  host_wf d → hid ≠ 0 → db_status d !! hid = Some r →
  WP (upsertDigestStatus hid digest now) (on_ok (λ _ d' _,
    ∃ r', row_written (Report a digest now) r r = Some r' ∧ d' = set_status (<[hid := r']> (db_status d)) d)) d s.
Proof.
  intros Hd Hn Hr. apply WP_bind, WP_attempt, WP_firstOrNotFound; [intros e [code ->]; by apply WP_bind, WP_throw|].
  rewrite find_status_lookup, Hr by done. destruct (wf_status _ Hd _ _ Hr) as (<- & _). apply WP_bind, WP_ret. cbv zeta.
  simpl. unfold report_write. destruct (st_Version r =? 0) eqn:Ev.
  - apply WP_exec; [done|]. destruct (insert_status _ d) eqn:Ep; [|done]. apply insert_status_put in Ep as [Hnone _]. simpl in Hnone. congruence.
  - apply WP_exec; [done|]. destruct (put_status _ d) eqn:Ep; [|done]. apply put_status_inv in Ep as [-> _]. eexists. by split.
Qed.

(** The update of the scan reads the other columns when it gets the row. *)
Lemma markOffline_written now seen d s r :
  host_wf d → st_HostID seen ≠ 0 → stale_status now seen = true → db_status d !! st_HostID seen = Some r →
  WP (markOffline now seen) (on_ok (λ _ d' _, db_status d' !! st_HostID seen = row_written (Scan now) seen r)) d s.
Proof.
  intros Hd Hn Hs Hr. apply WP_exec; [done|]. destruct (Z.eqb_spec (st_HostID seen) 0); [done|]. simpl. rewrite lookup_fmap, Hr. simpl.
  destruct (wf_status _ Hd _ _ Hr) as (Hid & _). rewrite cond_int_ne by done. rewrite Hid, Z.eqb_refl, Hs. done.
Qed.

End statements.

(** ** The row of a user *)

(** A change of the user, with the clock's reading, and what a login does. *)
Inductive user_txn :=
| ChangeUser (patch : UserUpdate) (now : Time)
| LoggedIn (now : Time).

(** Neither writes another row before. *)
Definition user_locks (_ : user_txn) : option (bool * string) := None.

Section users.
Context `{PgTypes}.

(** A change saves what it read; a login updates the times of the current row. *)
Definition user_written (t : user_txn) (seen current : userModel) : option userModel :=
  match t with
  | ChangeUser patch now => Some (patched_user patch (pg_timestamp now) seen)
  | LoggedIn now => Some (logged_in now current)
  end.

(** Two changes of a user at the same time: one administrator disables the user or
    takes a role away, another one changes the displayed name.  Both succeed, and when
    the second had read the row before the first was committed, the user has the old
    status and the old role again. *)
Theorem user_disable_undone u status role name now1 now2 :
  ∃ h, rtc (iso_step user_locks user_written) (quiet u) h ∧ tx_Open h = [] ∧
    tx_Done h = [ChangeUser (mkUserUpdate None (Some role) (Some status)) now1; ChangeUser (mkUserUpdate (Some name) None None) now2] ∧
    u_Status (tx_Row h) = u_Status u ∧ u_Role (tx_Row h) = u_Role u ∧ u_DisplayName (tx_Row h) = name ∧
    u_Status (foldl (apply user_written) u (tx_Done h)) = status ∧ u_Role (foldl (apply user_written) u (tx_Done h)) = role.
Proof.
  set (t := ChangeUser (mkUserUpdate None (Some role) (Some status)) now1).
  eexists. split; [eapply (late_writer _ _ u (ChangeUser (mkUserUpdate (Some name) None None) now2) _ [t]); [|reflexivity]|].
  - by apply (beside_writer user_locks user_written u _ u [] t (patched_user (mkUserUpdate None (Some role) (Some status)) (pg_timestamp now1) u)).
  - by split_and!.
Qed.

(** A login that began before a change and writes after it, on the other hand, leaves
    what the change wrote, as if it had begun after it: its UPDATE names its columns. *)
Theorem user_login_keeps patch now1 now2 u :
  let last := foldl (apply user_written) u in
  u_Status (last [ChangeUser patch now1; LoggedIn now2]) = default (u_Status u) (up_Status patch) ∧
  ∃ h, rtc (iso_step user_locks user_written) (quiet u) h ∧ tx_Open h = [] ∧ tx_Done h = [ChangeUser patch now1; LoggedIn now2] ∧
    tx_Row h = last [ChangeUser patch now1; LoggedIn now2].
Proof.
  split; [done|]. eexists. split; [eapply (late_writer _ _ u (LoggedIn now2) _ [ChangeUser patch now1]); [|reflexivity]|done].
  by apply (beside_writer user_locks user_written u _ u [] (ChangeUser patch now1) (patched_user patch (pg_timestamp now1) u)).
Qed.

End users.

(** ** Example *)

Section examples.
#[local] Existing Instance PgTypes_exact.

(** A report and a registration of one agent: the registration began while the report
    was open, and waits for it. *)
Definition ex_row : Row := mkStatus 1 Up Unknown Unknown Up zero_metricColumns (Some 5) None None 0 7 5.
Definition ex_report : txn := Report "agent-1" zero_AgentDigest 9.
Definition ex_waiting : state := mkState (apply row_written ex_row ex_report) [(Register "agent-1" 8, AtOuter)] [ex_report].

Lemma ex_waiting_reachable : rtc (tame_step txn_locks row_written txn_agent) (quiet ex_row) ex_waiting.
Proof.
  pose (o := [(Register "agent-1" 8, AtOuter)] : list (txn * point (Row := Row))).
  eapply rtc_l; [apply (tame_begin _ _ _ ex_row [] [] ex_report); intros x Hx; by apply not_elem_of_nil in Hx|].
  eapply rtc_l; [apply (tame_begin _ _ _ ex_row _ [] (Register "agent-1" 8)); intros x ->%list_elem_of_singleton; split; [by eexists|done]|].
  eapply rtc_l; [apply tame_advance, (adv_inner _ _ ex_row o ex_report [] [] "agent-1"); [done|]; by intros x ->%list_elem_of_singleton|].
  eapply rtc_l; [apply tame_advance, (adv_read _ _ ex_row o ex_report [] [])|].
  eapply rtc_l; [apply tame_advance, (adv_write _ _ ex_row o ex_report [] [] ex_row (apply row_written ex_row ex_report)); [by intros x ->%list_elem_of_singleton|reflexivity]|].
  apply rtc_once, tame_advance, (adv_commit _ _ ex_row o ex_report [] []).
Qed.

Lemma host_serialises_witness : st_Version (tx_Row ex_waiting) = 8 ∧ tx_Row ex_waiting = foldl (apply row_written) ex_row [ex_report].
Proof. split; [reflexivity|]. exact (proj1 (host_serialises ex_row ex_waiting ex_waiting_reachable)). Defined.

End examples.
