(* ===== verification/MasterService.v ===== *)
(** * The master service

    Models [server/internal/master/service]: reading hosts as a principal and
    projecting them ([shares.go], [projection.go]), registration, maintenance and
    alerts ([service.go]), shares, sessions and users ([auth.go]) and local login and
    setup ([login.go]).  A store that is not configured (a nil interface in the
    source) is a flag of the service. *)

From Stdlib Require Import Ascii.
From stdpp Require Import gmap strings list sorting pretty.
From Stdlib Require Import SpecFloat.
From S2P Require Import Prelude GoRuntime GoStrings Contracts Encoding Access Sql HostStore HostStoreProps Operations.
From S2P Require Import ShareStore AuthStore Interfaces Calendar.
Local Open Scope Z_scope.

Record AuthConfig := mkAuthConfig {
  auc_SessionTTL : Duration;
  auc_SessionCookieName : string;
  auc_SessionSecret : string;
  auc_SetupToken : string;
  auc_CookieSecure : bool;
  auc_AllowedOrigins : list string
}.

Record Service := mkService {
  svc_authStore : bool;
  svc_authConfig : AuthConfig;
  svc_shareStore : bool;
  svc_demo : Principal
}.

(** ** Reading hosts *)

Definition validReader (p : Principal) : bool :=
  negb (str_empty (p_TenantCode p)) &&
  (IsUser p || ((str_eqb (p_Kind p) Share || str_eqb (p_Kind p) Demo) &&
                (0 <? llen (p_AllowedHosts p)) && (0 <? llen (p_Fields p)))).

Section reads.
Context {S : Type} `{HostStateStore S}.

Definition ReadHosts (p : Principal) : ST S (list HostSnapshot) :=
  if negb (validReader p) then st_throw ErrServiceUnauthorized else
  items ← hss_ListHosts (p_TenantCode p);
  mret (select (λ item, AllowsHost p (hs_TenantCode item) (hs_HostUID item)) items).

Definition ReadHost (p : Principal) (uid : string) : ST S (option HostSnapshot) :=
  if negb (validReader p) then st_throw ErrServiceUnauthorized else
  if negb (AllowsHost p (p_TenantCode p) uid) then mret None else
  host ← hss_GetHost uid (p_TenantCode p);
  match host with
  | None => mret None
  | Some host =>
      if negb (AllowsHost p (hs_TenantCode host) (hs_HostUID host)) then mret None else mret (Some host)
  end.

End reads.

(** How often a stream checks its access again. *)
Definition ReadAccessRecheckInterval : Duration := Second.

(** ** Hosts: registration, reconciliation and plain reads *)

Section hosts.
Context {S : Type} `{HostStateStore S} `{MetricWindow S} `{EventPublisher S} `{Runtime S}.

Definition RegisterAgent (req : RegisterAgentRequest) : ST S RegisterAgentResponse :=
  now ← clock_Now;
  '(snapshot, config, tenantCode) ← hss_RegisterAgent req now;
  eb_PublishHostUpsert snapshot;;
  id ← ids_new "req";
  mret (mkRegisterAgentResponse id "registered" (hs_HostUID snapshot) tenantCode config).

Definition AllocateInstallTenant : ST S AllocateInstallTenantResponse :=
  tenantCode ← hss_AllocateTenant;
  id ← ids_new "req";
  mret (mkAllocateInstallTenantResponse id "tenant allocated" tenantCode).

Definition Health : ST S (list (string * string)) := now ← clock_Now; mret (health_report now).

Definition ListHosts (tenantCode : string) : ST S (list HostSnapshot) := hss_ListHosts tenantCode.
Definition GetHost (hostUID tenantCode : string) : ST S (option HostSnapshot) := hss_GetHost hostUID tenantCode.
Definition GetHostMetricHistory (hostUID : string) : ST S (gmap MetricKey (list StatePoint)) := mws_GetHostMetricHistory hostUID.
Definition GetAllHostMetricHistory (hostUIDs : list string) : ST S (gmap string (gmap MetricKey (list StatePoint))) :=
  mws_GetAllHostMetricHistory hostUIDs.
Definition GetMetricSnapshot (hostUID : string) : ST S (option MetricSnapshot) := mws_GetMetricSnapshot hostUID.

Fixpoint publish_all (l : list HostSnapshot) : ST S unit :=
  match l with
  | [] => mret ()
  | snapshot :: l => eb_PublishHostUpsert snapshot;; publish_all l
  end.

Definition ReconcileOfflineHosts : ST S Z :=
  now ← clock_Now;
  changed ← hss_ReconcileOffline now;
  publish_all changed;;
  mret (llen changed).

End hosts.

(** ** Projection *)

(** The values of a projected view. *)
Inductive jvalue :=
| JString (s : string)
| JCode (c : Code)
| JTime (t : Time)
| JInt (n : Z)
| JFloat (x : float64).

Inductive hostView := FullHost (h : HostSnapshot) | View (m : gmap string jvalue).

Definition digestFromSnapshot (h : HostSnapshot) : AgentDigest :=
  mkAgentDigest (hs_CPUUsagePct h) (hs_MemUsedPct h) (hs_MemAvailableBytes h) (hs_SwapUsedPct h) (hs_DiskUsedPct h)
    (hs_DiskFreeBytes h) (hs_DiskInodesUsedPct h) (hs_DiskReadBPS h) (hs_DiskWriteBPS h) (hs_DiskReadIOPS h)
    (hs_DiskWriteIOPS h) (hs_Load1 h) (hs_NetRxBPS h) (hs_NetTxBPS h) (hs_NetRxPacketsPS h) (hs_NetTxPacketsPS h) 0 0.

(** Assignments to a map, in order. *)
Definition assign (l : list (string * jvalue)) (m : gmap string jvalue) : gmap string jvalue :=
  foldl (λ m '(k, v), <[k := v]> m) m l.

Definition ProjectHost (p : Principal) (host : HostSnapshot) : hostView :=
  if IsUser p then FullHost host else
  let view : gmap string jvalue := {["host_uid"%string := JString (hs_HostUID host)]} in
  let view := if AllowsField p "hostname" then assign [("hostname"%string, JString (hs_Hostname host))] view else view in
  let view := if AllowsField p "status"
    then assign [("agent_state", JCode (hs_AgentState host)); ("reachability_state", JCode (hs_ReachabilityState host));
                 ("service_state", JCode (hs_ServiceState host)); ("overall_state", JCode (hs_OverallState host));
                 ("last_agent_seen_at", JTime (hs_LastAgentSeenAt host)); ("last_probe_at", JTime (hs_LastProbeAt host));
                 ("open_alert_count", JInt (hs_OpenAlertCount host)); ("version", JInt (hs_Version host))]%string view
    else view in
  let view := if AllowsField p "metrics" && negb (time_IsZero (hs_LastMetricAt host))
    then (JFloat <$> DigestMetricValues (digestFromSnapshot host)) ∪
         assign [("last_metric_at"%string, JTime (hs_LastMetricAt host))] view
    else view in
  View view.

Definition ProjectHosts (p : Principal) (hosts : list HostSnapshot) : list hostView := ProjectHost p <$> hosts.

(** ** Maintenance and alerts *)

Definition errMaintenance : error := ErrMsg "invalid maintenance scope, title or time range".

Section service.
Context `{Env} `{PgTypes} `{Bcrypt}.

(** [clock.Now()]. *)
Definition now_ : M Time := time_now.

Definition CreateMaintenance (p : Principal) (req : CreateMaintenanceWindowRequest) : M MaintenanceWindow :=
  if negb (IsAdmin p) then throw ErrServiceForbidden else
  let title := TrimSpace (cm_Title req) in
  let scopeRef := TrimSpace (cm_ScopeRef req) in
  let bad := str_empty title || (128 <? len title) || str_empty scopeRef || (128 <? len scopeRef) ||
             (4096 <? len (cm_Reason req)) || negb (time_After (cm_EndAt req) (cm_StartAt req)) ||
             (30 * 24 * Hour <? time_Sub (cm_EndAt req) (cm_StartAt req)) in
  if bad then throw errMaintenance else
  now ← now_;
  if negb (time_After (cm_EndAt req) now) then throw errMaintenance else
  Operations.CreateMaintenance p
    (mkCreateMaintenanceWindowRequest title (cm_ScopeType req) scopeRef (cm_StartAt req) (cm_EndAt req) (Actor p) (cm_Reason req)).

Definition AckAlert (p : Principal) (alertID : string) : M AckResponse :=
  if negb (IsUser p) then throw ErrServiceForbidden else
  now ← now_;
  Operations.AckAlert p alertID now;;
  id ← new_id "req";
  now ← now_;
  mret (mkAckResponse id 0 "acknowledged" now).

(** ** Shares *)

Definition CreateShare (s : Service) (p : Principal) (req : CreateShareRequest) : M (ShareRecord * string) :=
  if negb (IsAdmin p) then throw ErrServiceForbidden else
  if negb (svc_shareStore s) then throw ErrAuthNotConfigured else
  let req := mkCreateShareRequest (TrimSpace (cr_Title req)) (cr_HostUIDs req) (cr_Fields req) (cr_TTLSeconds req) in
  lift (ValidateShareRequest req);;
  buf ← rand_read 32;
  match NewToken buf with
  | Err _ => throw (ErrMsg "share creation unavailable")
  | Ok (token, hash) =>
      now ← now_;
      record ← ShareStore.CreateShare p req hash now;
      mret (record, token)
  end.

Definition ListShares (s : Service) (p : Principal) : M (list ShareRecord) :=
  if negb (IsAdmin p) then throw ErrServiceForbidden else
  if negb (svc_shareStore s) then throw ErrAuthNotConfigured else ShareStore.ListShares p.

Definition RevokeShare (s : Service) (p : Principal) (id : string) : M unit :=
  if negb (IsAdmin p) then throw ErrServiceForbidden else
  if negb (svc_shareStore s) then throw ErrAuthNotConfigured else
  now ← now_; ShareStore.RevokeShare p id now.

Definition ExchangeShare (s : Service) (token : string) : M ShareSession :=
  if negb (svc_shareStore s) then throw ErrServiceUnauthorized else
  now ← now_; ShareStore.ExchangeShare token now.

Definition AuthenticateShareSession (s : Service) (token : string) : M Principal :=
  if negb (svc_shareStore s) then throw ErrServiceUnauthorized else
  now ← now_; ShareStore.AuthenticateShareSession token now.

Definition DemoPrincipal (s : Service) : M Principal :=
  let d := svc_demo s in
  if negb (str_eqb (p_Kind d) Demo) || str_empty (p_TenantCode d) || (llen (p_AllowedHosts d) =? 0) || (llen (p_Fields d) =? 0)
  then throw ErrServiceForbidden else
  if negb (svc_shareStore s) then throw ErrServiceForbidden else
  ValidateDemo d;; mret d.

(** ** Sessions and users *)

Definition hashToken (rawToken : string) : string :=
  let rawToken := TrimSpace rawToken in
  if str_empty rawToken then "" else hex_encode (sha256 (bytes rawToken)).

Definition sessionTTL (s : Service) : Duration :=
  if auc_SessionTTL (svc_authConfig s) <=? 0 then 7 * 24 * Hour else auc_SessionTTL (svc_authConfig s).

Definition SessionCookieName (s : Service) : string := TrimSpace (auc_SessionCookieName (svc_authConfig s)).

Definition ResolveSessionUser (s : Service) (rawToken : string) : M (option (AuthUser * SessionRecord)) :=
  if negb (svc_authStore s) then mret None else
  let tokenHash := hashToken rawToken in
  if str_empty tokenHash then mret None else
  now ← now_; GetUserBySessionTokenHash tokenHash now.

(** [AuthSessionView]: the user when authenticated. *)
Definition GetSession (s : Service) (rawToken : string) : M (option AuthUser) :=
  r ← ResolveSessionUser s rawToken; mret (fst <$> r).

Definition Logout (s : Service) (rawToken : string) : M unit :=
  if negb (svc_authStore s) then mret () else
  let tokenHash := hashToken rawToken in
  if str_empty tokenHash then mret () else DeleteSession tokenHash.

Definition ListUsers (s : Service) (requester : AuthUser) : M (list AuthUser) :=
  if negb (str_eqb (user_Role requester) UserRoleAdmin) then throw ErrServiceForbidden else
  if negb (svc_authStore s) then throw ErrAuthNotConfigured else AuthStore.ListUsers (user_TenantCode requester).

Definition UpdateUser (s : Service) (requester : AuthUser) (userID : Z) (patch : UserUpdate) : M AuthUser :=
  if negb (str_eqb (user_Role requester) UserRoleAdmin) then throw ErrServiceForbidden else
  if match up_Role patch with Some r => negb (str_eqb r UserRoleAdmin) && negb (str_eqb r UserRoleMember) | None => false end
  then throw (ErrMsg "invalid role") else
  if match up_Status patch with Some r => negb (str_eqb r UserStatusActive) && negb (str_eqb r UserStatusDisabled) | None => false end
  then throw (ErrMsg "invalid status") else
  if negb (svc_authStore s) then throw ErrAuthNotConfigured else
  AuthStore.UpdateUser (user_TenantCode requester) userID patch.

Definition generateSessionToken : M (string * string) :=
  raw ← rand_read 32;
  match raw with
  | None => throw (ErrMsg "random source")
  | Some raw => let token := b64_encode raw in mret (token, hashToken token)
  end.

Definition createLoginSession (s : Service) (user : AuthUser) : M AuthSession :=
  r ← attempt generateSessionToken;
  match r with
  | Err _ => throw (ErrMsg "session creation failed")
  | Ok (value, hash) =>
      now ← now_;
      let expires := time_Add now (sessionTTL s) in
      r ← attempt (CreateSession (user_ID user) hash expires "" "" now);
      match r with
      | Err _ => throw (ErrMsg "session creation failed")
      | Ok _ => mret (mkAuthSession value expires user)
      end
  end.

(** ** Login and setup *)

Record LoginRequest := mkLoginRequest { lg_TenantCode : string; lg_Username : string; lg_Password : string }.
Record SetupRequest := mkSetupRequest {
  su_SetupToken : string; su_TenantCode : string; su_Username : string; su_DisplayName : string; su_Password : string
}.

Context `{StringsLower}.

Definition lower_digit (c : ascii) : bool :=
  let x := byte_val c in ((97 <=? x) && (x <=? 122)) || ((48 <=? x) && (x <=? 57)).
Definition upper (c : ascii) : bool := let x := byte_val c in (65 <=? x) && (x <=? 90).
Definition one_of (l : list ascii) (c : ascii) : bool := bool_decide (c ∈ l).

(** [^[a-z0-9][a-z0-9_.-]{2,63}$] and [^[a-zA-Z0-9][a-zA-Z0-9_-]{0,63}$]. *)
Definition usernamePattern (s : string) : bool :=
  match bytes s with
  | [] => false
  | c :: l => lower_digit c && forallb (λ c, lower_digit c || one_of ["_"; "."; "-"]%char c) l &&
              (2 <=? llen l) && (llen l <=? 63)
  end.
Definition tenantPattern (s : string) : bool :=
  match bytes s with
  | [] => false
  | c :: l => (lower_digit c || upper c) && forallb (λ c, lower_digit c || upper c || one_of ["_"; "-"]%char c) l &&
              (llen l <=? 63)
  end.

Definition localAccount (req : SetupRequest) : M LocalAccount :=
  let username := ToLower (TrimSpace (su_Username req)) in
  let tenant := TrimSpace (su_TenantCode req) in
  let displayName := TrimSpace (su_DisplayName req) in
  if negb (usernamePattern username) || negb (tenantPattern tenant) || (len displayName =? 0) || (128 <? len displayName)
  then throw (ErrMsg "invalid tenant, username or display name") else
  hash ← HashPassword (su_Password req);
  mret (mkLocalAccount tenant username displayName hash).

Definition setup_configured (s : Service) : bool :=
  svc_authStore s && negb (len (auc_SetupToken (svc_authConfig s)) <? 32).

Definition SetupAvailable (s : Service) : M bool :=
  if negb (setup_configured s) then mret false else AuthStore.SetupAvailable.

Definition Setup (s : Service) (req : SetupRequest) : M AuthSession :=
  if negb (setup_configured s) then throw ErrAuthNotConfigured else
  if negb (bool_decide (sha256 (bytes (su_SetupToken req)) = sha256 (bytes (auc_SetupToken (svc_authConfig s)))))
  then throw ErrServiceUnauthorized else
  account ← localAccount req;
  now ← now_;
  r ← attempt (BootstrapAdmin account now);
  match r with
  | Err ErrSetupUnavailable => throw ErrServiceForbidden
  | Err _ => throw (ErrMsg "administrator setup failed")
  | Ok user => createLoginSession s user
  end.

(** [DummyPasswordHash] is the hash of a fixed password, computed once. *)
Definition Login (s : Service) (dummyHash : string) (req : LoginRequest) : M AuthSession :=
  if negb (svc_authStore s) then throw ErrAuthNotConfigured else
  r ← attempt (LocalCredentials (TrimSpace (lg_TenantCode req)) (ToLower (TrimSpace (lg_Username req))));
  match r with
  | Err _ => throw (ErrMsg "login unavailable")
  | Ok found =>
      let hash := match found with Some (_, stored) => stored | None => dummyHash end in
      let verified := VerifyPassword hash (lg_Password req) in
      match found with
      | None => throw ErrServiceUnauthorized
      | Some (user, _) =>
          if negb verified || negb (str_eqb (user_Status user) UserStatusActive) then throw ErrServiceUnauthorized
          else createLoginSession s user
      end
  end.

End service.
