(* ===== verification/AuthProps.v ===== *)
(** * Properties of accounts, sessions and login

    What a session token and a login establish, that a logout ends a session and
    hardly anything else does, the first administrator and the single setup, and
    the isolation of tenants when an administrator changes users.  Statements are about runs of the programs
    of [AuthStore] and [MasterService] under any failures of the database. *)

From Stdlib Require Import Ascii.
From stdpp Require Import gmap strings list sorting pretty.
From S2P Require Import Prelude GoRuntime GoStrings Contracts Encoding Access Sql HostStore Operations ShareStore AuthStore.
From S2P Require Import Interfaces MasterService.
Local Open Scope Z_scope.

Section sessions.
Context `{Env} `{PgTypes} `{Bcrypt}.

Lemma user_in_active_tenant_spec uid d u t :
  user_in_active_tenant uid d = Some (u, t) ↔
  db_users d !! uid = Some u ∧ db_tenants d !! u_TenantID u = Some t ∧ t_Status t = 1.
Proof.
  unfold user_in_active_tenant. destruct (db_users d !! uid) as [u'|]; [|naive_solver].
  destruct (db_tenants d !! u_TenantID u') as [t'|] eqn:Et; [|naive_solver].
  destruct (_ =? 1) eqn:E; bool_to_prop; naive_solver congruence.
Qed.

(** The session row [x] lets its user in at [now]. *)
Definition session_valid (d : DB) (hash : string) (now : Time) (x : userSessionModel) (u : userModel) (t : tenantModel) : Prop :=
  (∃ k, db_sessions d !! k = Some x) ∧ us_TokenHash x = hash ∧ now < us_ExpiresAt x ∧
  db_users d !! us_UserID x = Some u ∧ u_Status u = UserStatusActive ∧
  db_tenants d !! u_TenantID u = Some t ∧ t_Status t = 1.

Lemma GetUserBySessionTokenHash_WP hash now d s :
  WP (GetUserBySessionTokenHash hash now) (λ r d' s', s' = s ∧
    match r with
    | Ok (Some (user, rec)) => ∃ x u t, session_valid d hash now x u t ∧
        user = joinedUser u t ∧ rec = mkSessionRecord (us_ID x) (us_UserID x) (us_ExpiresAt x) ∧
        ∃ X, d' = set_sessions X d
    | Ok None => d' = d ∧ ∀ x, head (select (λ x, str_eqb (us_TokenHash x) hash) (rows (db_sessions d))) = Some x →
        ∀ u t, ¬ session_valid d hash now x u t
    | Err e => driver_error e ∧ (d' = d ∨ ∃ X, d' = set_sessions X d)
    end) d s.
Proof.
  apply WP_bind, WP_attempt, WP_firstOrNotFound.
  { intros e [c ->]. apply WP_throw. split_and!; [done|by eexists|by left]. }
  destruct (head _) as [x|] eqn:E; [|apply WP_ret; done].
  apply head_Some_elem_of in E as Ex. rewrite elem_of_select, elem_of_rows in Ex. destruct Ex as [Hh%str_eqb_true Hk].
  destruct (negb _) eqn:En.
  { apply WP_ret. split; [done|]. split; [done|]. intros x' [= <-] u t (_ & _ & Hx & _).
    unfold time_After in En. bool_to_prop. lia. }
  unfold time_After in En. bool_to_prop. apply WP_bind, WP_attempt, WP_firstOrNotFound.
  { intros e [c ->]. apply WP_throw. split_and!; [done|by eexists|by left]. }
  destruct (user_in_active_tenant _ d) as [[u t]|] eqn:Eu.
  - apply user_in_active_tenant_spec in Eu as (Hu & Ht & Hs). destruct (negb _) eqn:Ea; bool_to_prop.
    + apply WP_ret. split; [done|]. split; [done|]. intros x' [= <-] u' t' (_ & _ & _ & Hu' & Ha' & _).
      apply str_eqb_false in Ea. naive_solver congruence.
    + apply str_eqb_true in Ea. apply WP_bind, WP_autocommit; [apply WP_exec; [by auto 10|]|by auto].
      split; [apply WP_ret; split; [done|]; exists x, u, t; split_and!; try done; by eexists|].
      intros e He. split_and!; eauto.
  - apply WP_ret. split; [done|]. split; [done|]. intros x' [= <-] u' t' (_ & _ & _ & Hu' & _ & Ht' & Hs').
    assert (user_in_active_tenant (us_UserID x) d = Some (u', t')) as Hc by by apply user_in_active_tenant_spec. congruence.
Qed.

(** A session token identifies a user only through a stored session with its
    hash that has not expired, of a user who is active now, in a tenant that is
    active now; the lookup writes nothing but the session's last use, and
    nothing at all when it finds no user. *)
Theorem auth_session_sound hash now w r w' :
  GetUserBySessionTokenHash hash now w = (r, w') →
  match r with
  | Ok (Some (user, rec)) => ∃ x u t, session_valid (w_db w) hash now x u t ∧ user = joinedUser u t ∧
      rec = mkSessionRecord (us_ID x) (us_UserID x) (us_ExpiresAt x) ∧ ∃ X, w_db w' = set_sessions X (w_db w)
  | Ok None => w_db w' = w_db w
  | Err e => driver_error e ∧ (w_db w' = w_db w ∨ ∃ X, w_db w' = set_sessions X (w_db w))
  end.
Proof.
  intros E. apply (WP_run _ _ _ _ _ (GetUserBySessionTokenHash_WP hash now _ _)) in E as [_ E].
  destruct r as [[[user rec]|]|e]; naive_solver.
Qed.

(** ** Creating sessions *)

Definition touch_login (now : Time) (u : userModel) : userModel :=
  mkUser (u_ID u) (u_TenantID u) (u_DisplayName u) (u_AvatarURL u) (u_Role u) (u_Status u)
    (Some (pg_timestamp now)) (u_CreatedAt u) (pg_timestamp now).

(** A session under the hash was opened for the user. *)
Definition session_added (d d' : DB) (uid : Z) (hash : string) (expires : Time) : Prop :=
  ∃ now id x, d' = set_sessions (<[id := x]> (db_sessions d)) (set_users (alter (touch_login now) uid (db_users d)) d) ∧
    us_UserID x = uid ∧ us_TokenHash x = hash ∧ us_ExpiresAt x = pg_timestamp expires ∧
    (∀ k y, db_sessions d !! k = Some y → us_TokenHash y ≠ hash) ∧ is_Some (db_users d !! uid).

Lemma CreateSession_WP uid hash expires ip ua now d s :
  WP (CreateSession uid hash expires ip ua now) (λ r d' _,
    match r with
    | Ok _ => session_added d d' uid hash expires
    | Err e => all_or_nothing (λ d', session_added d d' uid hash expires) d e d' ∧ driver_error e
    end) d s.
Proof.
  assert (∀ e, driver_error e → all_or_nothing (λ d', session_added d d' uid hash expires) d e d ∧ driver_error e) as Herr by (by split; [left|]).
  apply WP_Transaction_err; [|done]. apply WP_bind, WP_exec; [done|].
  apply WP_bind, WP_bind, WP_nextval; [done|]. cbv beta iota. apply WP_bind, WP_exec; [done|].
  unfold insert_session. simpl. destruct (_ || _) eqn:E; [apply Herr; by eexists|].
  destruct (bool_decide (is_Some (alter _ _ _ !! _))) eqn:Eu; [|apply Herr; by eexists].
  apply bool_decide_eq_true in Eu. apply WP_ret, WP_ret.
  match goal with |- ?P ∧ _ => assert P as Hok end.
  { eexists now, _, _. split; [done|]. simpl. apply orb_false_iff in E as [_ E]. split_and!; try done.
    - intros k y Hk Hy. assert (existsb (λ y, str_eqb (us_TokenHash y) hash) (rows (db_sessions d)) = true); [|congruence].
      apply existsb_exists. exists y. split; [apply list_elem_of_In, elem_of_rows; eauto|by apply str_eqb_true].
    - apply lookup_alter_is_Some in Eu. done. }
  split; [exact Hok|]. intros e He. split; [by apply Herr|]. split; [by right|done].
Qed.

End sessions.


(** ** Login *)

(** A stored password [p] of the active user [u] of the active tenant [t], under
    the tenant code and user name that are given at login. *)
Definition credential (d : DB) (tenant username : string) (p : userPasswordRow) (u : userModel) (t : tenantModel) : Prop :=
  (∃ k, db_passwords d !! k = Some p) ∧ pw_Username p = username ∧
  db_users d !! pw_UserID p = Some u ∧ u_TenantID u = pw_TenantID p ∧
  db_tenants d !! u_TenantID u = Some t ∧ t_Status t = 1 ∧ t_TenantCode t = tenant.

Section login.
Context `{Env} `{PgTypes} `{Bcrypt} `{StringsLower}.

Definition credential_row (tenant username : string) (d : DB) (p : userPasswordRow) : option (userModel * tenantModel * string) :=
  if str_eqb (pw_Username p) username then
    match user_in_active_tenant (pw_UserID p) d with
    | Some (u, t) => if (u_TenantID u =? pw_TenantID p) && str_eqb (t_TenantCode t) tenant
                     then Some (u, t, pw_PasswordHash p) else None
    | None => None
    end
  else None.

Lemma credential_row_spec tenant username d p u t h :
  (∃ k, db_passwords d !! k = Some p) →
  credential_row tenant username d p = Some (u, t, h) ↔
  credential d tenant username p u t ∧ h = pw_PasswordHash p.
Proof.
  intros Hk. unfold credential_row, credential. destruct (str_eqb _ username) eqn:En.
  2:{ apply str_eqb_false in En. naive_solver. }
  apply str_eqb_true in En. destruct (user_in_active_tenant _ d) as [[u' t']|] eqn:Eu.
  - apply user_in_active_tenant_spec in Eu as (Hu & Ht & Hs).
    destruct (_ && _) eqn:E; bool_to_prop.
    + rename select (str_eqb _ _ = true) into Hc. apply str_eqb_true in Hc. naive_solver congruence.
    + split; [done|]. intros [(_ & _ & Hu' & Hte & Ht' & _ & Hc) _]. simplify_eq.
      destruct E as [E|E]; [bool_to_prop; done|apply str_eqb_false in E; done].
  - split; [done|]. intros [(_ & _ & Hu' & Hte & Ht' & Hs & Hc) _].
    assert (user_in_active_tenant (pw_UserID p) d = Some (u, t)) by (by apply user_in_active_tenant_spec). congruence.
Qed.

Lemma LocalCredentials_WP tenant username d s :
  WP (LocalCredentials tenant username) (λ r d' s', d' = d ∧ s' = s ∧
    match r with
    | Ok (Some (user, hash)) => ∃ p u t, credential d tenant username p u t ∧ user = joinedUser u t ∧ hash = pw_PasswordHash p
    | Ok None => ∀ p u t, ¬ credential d tenant username p u t
    | Err e => driver_error e
    end) d s.
Proof.
  apply WP_bind, WP_attempt, WP_firstOrNotFound.
  { intros e [c ->]. apply WP_throw. split_and!; try done. by eexists. }
  fold (credential_row tenant username d). destruct (head _) as [[[u t] h]|] eqn:E.
  - apply WP_ret. split_and!; [done..|]. apply head_Some_elem_of, list_elem_of_omap in E as (p & Hp%elem_of_rows & Hr).
    apply credential_row_spec in Hr as [Hr ->]; [|done]. eauto 7.
  - apply WP_ret. split_and!; [done..|]. intros p u t Hc. apply head_None in E.
    assert ((u, t, pw_PasswordHash p) ∈ omap (credential_row tenant username d) (rows (db_passwords d))) as Hin.
    { apply list_elem_of_omap. exists p. destruct Hc as [Hk Hc]. split; [by apply elem_of_rows|]. by apply credential_row_spec. }
    rewrite E in Hin. by apply not_elem_of_nil in Hin.
Qed.

(** The tables after a session was opened for the user [uid]. *)
Definition session_opened (d d' : DB) (uid : Z) (token : string) (expires : Time) : Prop :=
  session_added d d' uid (hashToken token) expires.

Lemma hashToken_encode buf : length buf = 32%nat → hashToken (b64_encode buf) ≠ ""%string.
Proof.
  intros Hl. unfold hashToken. rewrite TrimSpace_b64_encode.
  assert (b64_encode buf ≠ ""%string) as Hn.
  { intros E. pose proof (b64_encode_length_32 buf Hl) as Hx. by rewrite E in Hx. }
  apply str_empty_false in Hn. rewrite Hn. intros E.
  pose proof (sha256_hex_length (bytes (b64_encode buf))) as Hx. by rewrite E in Hx.
Qed.

Definition errSession : error := ErrMsg "session creation failed".

(** An error leaves the tables alone, or a session for a token nobody was given. *)
Lemma createLoginSession_WP sv user d s :
  WP (createLoginSession sv user) (λ r d' s',
    match r with
    | Ok sess => as_User sess = user ∧ hashToken (as_Token sess) ≠ ""%string ∧ TrimSpace (as_Token sess) = as_Token sess ∧
        session_opened d d' (user_ID user) (as_Token sess) (as_ExpiresAt sess)
    | Err e => e = errSession ∧ (d' = d ∨ ∃ token expires, session_opened d d' (user_ID user) token expires)
    end) d s.
Proof.
  apply WP_bind, WP_attempt, WP_bind, WP_rand_read. intros [raw|] Hr; [|apply WP_throw, WP_throw; auto].
  specialize (Hr raw eq_refl). apply WP_ret. cbv beta iota. apply WP_bind, WP_time_now. intros now. cbv zeta.
  apply WP_bind, WP_attempt. eapply WP_mono; [apply CreateSession_WP|]. intros [[]|e] d' s'; simpl.
  - intros Hx. apply WP_ret. split_and!; [done|by apply hashToken_encode|apply TrimSpace_b64_encode|done].
  - intros [Hd _]. apply WP_throw. split; [done|]. destruct Hd as [->|[_ Hd]]; [by left|right; do 2 eexists; exact Hd].
Qed.

(** A login is accepted: the account exists, is active, and the password matches. *)
Definition login_accepted (d : DB) (req : LoginRequest) (p : userPasswordRow) (u : userModel) (t : tenantModel) : Prop :=
  credential d (TrimSpace (lg_TenantCode req)) (ToLower (TrimSpace (lg_Username req))) p u t ∧
  u_Status u = UserStatusActive ∧ VerifyPassword (pw_PasswordHash p) (lg_Password req) = true.

Lemma Login_WP sv dummy req d s :
  WP (Login sv dummy req) (λ r d' s',
    match r with
    | Ok sess => ∃ p u t, login_accepted d req p u t ∧
        as_User sess = joinedUser u t ∧ hashToken (as_Token sess) ≠ ""%string ∧ TrimSpace (as_Token sess) = as_Token sess ∧
        session_opened d d' (u_ID u) (as_Token sess) (as_ExpiresAt sess)
    | Err e =>
        (d' = d ∨ e = errSession ∧ ∃ p u t token expires, login_accepted d req p u t ∧ session_opened d d' (u_ID u) token expires) ∧
        (svc_authStore sv = true → e = ErrServiceUnauthorized ∨ e = errSession ∨ e = ErrMsg "login unavailable")
    end) d s.
Proof.
  unfold Login. destruct (svc_authStore sv) eqn:Es; simpl; [|apply WP_throw; split; [by left|done]].
  apply WP_bind, WP_attempt. eapply WP_mono; [apply LocalCredentials_WP|].
  intros [[[user hash]|]|e] d' s' (-> & -> & Hr); cbv beta iota zeta; [|apply WP_throw; split; auto..].
  destruct Hr as (p & u & t & Hc & -> & ->). destruct (_ || _) eqn:E; bool_to_prop; [apply WP_throw; split; auto|].
  rename select (str_eqb _ _ = true) into Ha. apply str_eqb_true in Ha.
  assert (login_accepted d req p u t) as Hacc by done.
  eapply WP_mono; [apply createLoginSession_WP|]. intros [sess|e] d' s''.
  - intros (? & ? & ? & Hs). exists p, u, t. by split_and!.
  - intros [-> Hd]. split; [|auto]. destruct Hd as [->|(token & expires & Ho)]; [by left|right]. split; [done|]. by exists p, u, t, token, expires.
Qed.

(** How the attempt of a login goes on from what the store says of the account. *)
Lemma Login_run sv dummy req w :
  svc_authStore sv = true →
  Login sv dummy req w =
    match LocalCredentials (TrimSpace (lg_TenantCode req)) (ToLower (TrimSpace (lg_Username req))) w with
    | (Err _, w1) => (Err (ErrMsg "login unavailable"), w1)
    | (Ok None, w1) => (Err ErrServiceUnauthorized, w1)
    | (Ok (Some (user, stored)), w1) =>
        if negb (VerifyPassword stored (lg_Password req)) || negb (str_eqb (user_Status user) UserStatusActive)
        then (Err ErrServiceUnauthorized, w1) else createLoginSession sv user w1
    end.
Proof.
  intros Hs. unfold Login. rewrite Hs. simpl. unfold mbind, ST_bind, M_bind, attempt.
  destruct (LocalCredentials _ _ w) as [[[[user stored]|]|e] w1]; [|done..]. by destruct (_ || _).
Qed.

(** C11: a login succeeds only with the stored password of the named user name in
    the named tenant, for a user and a tenant that are active now, and then adds
    exactly one session for that user under the hash of the returned token, which
    no session used before.  A login that is not to be accepted is refused without
    effect and with one and the same error, whether the account is unknown, the
    password wrong or the user disabled; the error says "unavailable", then for
    every request alike, exactly when the database failed to look the account up;
    and when the account was good but no session could be made, that is the error,
    and the tables are as before or hold a session whose token nobody was given. *)
Theorem auth_login_sound sv dummy req w r w' :
  svc_authStore sv = true → Login sv dummy req w = (r, w') →
  let looked_up := is_ok (LocalCredentials (TrimSpace (lg_TenantCode req)) (ToLower (TrimSpace (lg_Username req))) w).1 in
  (∀ sess, r = Ok sess → ∃ p u t, login_accepted (w_db w) req p u t ∧
     as_User sess = joinedUser u t ∧ session_opened (w_db w) (w_db w') (u_ID u) (as_Token sess) (as_ExpiresAt sess)) ∧
  (looked_up = false → r = Err (ErrMsg "login unavailable") ∧ w_db w' = w_db w) ∧
  (looked_up = true → (∀ p u t, ¬ login_accepted (w_db w) req p u t) → r = Err ErrServiceUnauthorized ∧ w_db w' = w_db w) ∧
  (∀ e, looked_up = true → r = Err e →
     (e = ErrServiceUnauthorized ∧ w_db w' = w_db w) ∨
     (e = errSession ∧ ∃ p u t, login_accepted (w_db w) req p u t ∧
        (w_db w' = w_db w ∨ ∃ token expires, session_opened (w_db w) (w_db w') (u_ID u) token expires))).
Proof.
  intros Hs E. cbv zeta. split.
  { intros sess ->. apply (WP_run _ _ _ _ _ (Login_WP sv dummy req _ _)) in E. destruct E as (p & u & t & ? & ? & _ & _ & ?). by exists p, u, t. }
  rewrite Login_run in E by done. destruct (LocalCredentials _ _ w) as [found w1] eqn:El.
  apply (WP_run _ _ _ _ _ (LocalCredentials_WP _ _ _ _)) in El as (Hd & _ & Hf). simpl.
  destruct found as [[[user stored]|]|e0]; simplify_eq; (split; [by intros|]); [|by split; [|intros; simplify_eq; auto]|by split].
  destruct Hf as (p & u & t & Hc & -> & ->). destruct (_ || _) eqn:Ev; simplify_eq; [by split; [|intros; simplify_eq; auto]|]. bool_to_prop.
  rename select (str_eqb _ _ = true) into Ha. apply str_eqb_true in Ha.
  assert (login_accepted (w_db w) req p u t) as Hacc by done. split; [by intros _ Hn; destruct (Hn _ _ _ Hacc)|]. intros e _ ->.
  apply (WP_run _ _ _ _ _ (createLoginSession_WP _ _ _ _)) in E as [-> Hx]. rewrite Hd in Hx. right. split; [done|]. by exists p, u, t.
Qed.

End login.

(** ** From login to logout *)

(** Keys of the user table are the ids of the rows. *)
Definition users_wf (d : DB) : Prop := ∀ k u, db_users d !! k = Some u → u_ID u = k.

Section lifecycle.
Context `{Env} `{PgTypes} `{Bcrypt} `{StringsLower}.

Lemma ResolveSessionUser_run sv token w :
  svc_authStore sv = true → hashToken token ≠ ""%string →
  ResolveSessionUser sv token w = GetUserBySessionTokenHash (hashToken token) (env_now (w_tick w)) (tick w).
Proof.
  intros Hs Hh%str_empty_false. unfold ResolveSessionUser. rewrite Hs. simpl. rewrite Hh. done.
Qed.

(** C13: a logout removes the sessions of the token and no other; afterwards the
    token identifies nobody, in every state with the tables it left. *)
Theorem auth_logout_final sv token w w1 :
  svc_authStore sv = true → hashToken token ≠ ""%string → Logout sv token w = (Ok (), w1) →
  (∀ k x, db_sessions (w_db w1) !! k = Some x ↔ db_sessions (w_db w) !! k = Some x ∧ us_TokenHash x ≠ hashToken token) ∧
  (∀ w2 found w3, w_db w2 = w_db w1 → ResolveSessionUser sv token w2 = (Ok found, w3) → found = None).
Proof.
  intros Hs Hh E.
  assert (∀ k x, db_sessions (w_db w1) !! k = Some x ↔ db_sessions (w_db w) !! k = Some x ∧ us_TokenHash x ≠ hashToken token) as Hf.
  { unfold Logout in E. rewrite Hs in E. simpl in E. rewrite (proj2 (str_empty_false _) Hh) in E.
    assert (WP (DeleteSession (hashToken token)) (on_ok (λ _ d' _, ∀ k x, db_sessions d' !! k = Some x ↔
      db_sessions (w_db w) !! k = Some x ∧ us_TokenHash x ≠ hashToken token)) (w_db w) (w_seq w)) as Hw.
    { apply WP_autocommit_ok, WP_exec; [done..|]. simpl. intros k x. by rewrite map_lookup_filter_Some, str_eqb_false. }
    exact (WP_run _ _ _ _ _ Hw E). }
  split; [done|]. intros w2 found w3 Hd E2. rewrite ResolveSessionUser_run in E2 by done.
  apply (WP_run _ _ _ _ _ (GetUserBySessionTokenHash_WP _ _ _ _)) in E2 as [_ E2].
  change (w_db (tick w2)) with (w_db w2) in E2. rewrite Hd in E2.
  destruct found as [[user rec]|]; [|done]. destruct E2 as (x & u & t & ([k Hk] & Hx & _) & _). apply Hf in Hk. naive_solver.
Qed.

End lifecycle.

(** ** The first administrator *)

Definition tenants_wf (d : DB) : Prop := ∀ k t, db_tenants d !! k = Some t → t_ID t = k.

(** [user] is a new administrator with the account's credentials: active, in an
    active tenant with the account's code, the only addition to the users. *)
Definition admin_created (d d' : DB) (account : LocalAccount) (uid : Z) : Prop :=
  ∃ p u t, credential d' (la_TenantCode account) (la_Username account) p u t ∧
    pw_PasswordHash p = la_PasswordHash account ∧ pw_UserID p = uid ∧ u_ID u = uid ∧
    u_Role u = UserRoleAdmin ∧ u_Status u = UserStatusActive ∧ u_DisplayName u = la_DisplayName account ∧
    db_users d !! uid = None ∧ db_users d' = <[uid := u]> (db_users d) ∧
    (∀ k t, db_tenants d !! k = Some t → db_tenants d' !! k = Some t) ∧
    db_sessions d' = db_sessions d.

Section setup.
Context `{Env} `{PgTypes} `{Bcrypt} `{StringsLower}.

Lemma createLocalAdmin_WP account now d s :
  tenants_wf d →
  WP (createLocalAdmin account now) (on_ok (λ user d' s',
    admin_created d d' account (user_ID user) ∧ db_bootstrap d' = db_bootstrap d)) d s.
Proof.
  intros Hwf. eapply WP_bind_ok with (Φ := λ _ d1 _, d1 = d).
  { by apply WP_nextval. }
  intros id d1 s1 ->. eapply WP_bind_ok with (Φ := λ _ d1 _, tenants_wf d1 ∧ db_users d1 = db_users d ∧ db_passwords d1 = db_passwords d ∧
    db_sessions d1 = db_sessions d ∧ db_bootstrap d1 = db_bootstrap d ∧ ∀ k t, db_tenants d !! k = Some t → db_tenants d1 !! k = Some t).
  { apply WP_exec; [done|]. destruct (existsb _ _); [done|]. destruct (insert_tenant _ d) as [d1|] eqn:E; [|done].
    apply insert_tenant_put in E as [Hn E]. unfold put_tenant in E. case_match; simplify_eq. simpl. split_and!; try done.
    - intros k t Hk. simpl in Hk. apply lookup_insert_Some in Hk as [[<- <-]|[_ Hk]]; [done|]. by apply Hwf.
    - intros k t Hk. rewrite lookup_insert_ne; [done|]. intros <-. simpl in Hn. congruence. }
  intros _ d1 s2 (Hwf1 & Hus & Hpw & Hse & Hb & Hte). eapply WP_bind_ok with (Φ := λ t d2 _, d2 = d1 ∧ db_tenants d1 !! t_ID t = Some t ∧
    t_TenantCode t = la_TenantCode account ∧ t_Status t = 1).
  { apply WP_firstOrNotFound; [done|]. destruct (head _) as [t|] eqn:E; [|done].
    apply head_Some_elem_of in E. rewrite elem_of_select, elem_of_rows in E. destruct E as [E [k Hk]]. bool_to_prop.
    rename select (str_eqb _ _ = true) into Hc. apply str_eqb_true in Hc. split_and!; try done.
    by rewrite (Hwf1 _ _ Hk). }
  intros t d2 s3 (-> & Ht & Hc & Hs). eapply WP_bind_ok with (Φ := λ uid d3 _, db_users d !! uid = None ∧
    d3 = set_users (<[uid := mkUser uid (t_ID t) (la_DisplayName account) None UserRoleAdmin UserStatusActive None (pg_timestamp now) (pg_timestamp now)]> (db_users d)) d1).
  { apply WP_insert_serial; [done|]. unfold insert_user, put_user. simpl. case_bool_decide as Eu; [done|].
    case_bool_decide; [|done]. simpl. rewrite <-Hus. by rewrite eq_None_not_Some. }
  intros uid d3 s4 [Hn ->]. eapply WP_bind_ok with (Φ := λ _ d4 _, d4 = set_passwords (<[uid := mkPassword uid (t_ID t) (la_Username account)
      (la_PasswordHash account)]> (db_passwords d)) (set_users (<[uid := mkUser uid (t_ID t) (la_DisplayName account) None UserRoleAdmin
      UserStatusActive None (pg_timestamp now) (pg_timestamp now)]> (db_users d)) d1)).
  { apply WP_exec; [done|]. unfold insert_password. destruct (_ || _); [done|]. cbn [db_users set_users pw_UserID pw_TenantID].
    rewrite lookup_insert, decide_True by done. simpl. rewrite Z.eqb_refl. simpl. by rewrite Hpw. }
  intros _ d4 s5 ->. apply WP_ret. simpl. split; [|done]. eexists (mkPassword uid (t_ID t) (la_Username account) (la_PasswordHash account)),
    (mkUser uid (t_ID t) (la_DisplayName account) None UserRoleAdmin UserStatusActive None (pg_timestamp now) (pg_timestamp now)), t.
  unfold credential. simpl. split_and!; try done; [exists uid|]; by rewrite lookup_insert, decide_True.
Qed.

Lemma setup_available_spec d : setup_available d = true ↔ db_bootstrap d = None ∧ db_users d = ∅.
Proof. unfold setup_available. by rewrite andb_true_iff, !bool_decide_eq_true. Qed.

Lemma set_bootstrap_created d d' account uid x :
  admin_created d d' account uid → admin_created d (set_bootstrap x d') account uid.
Proof. done. Qed.

(** The setup was free and is done: the administrator exists and it is on record. *)
Definition bootstrapped (d d' : DB) (account : LocalAccount) (uid : Z) : Prop :=
  setup_available d = true ∧ admin_created d d' account uid ∧ is_Some (db_bootstrap d').

Lemma BootstrapAdmin_WP account now d s :
  tenants_wf d →
  WP (BootstrapAdmin account now) (λ r d' s',
    match r with
    | Ok user => bootstrapped d d' account (user_ID user)
    | Err e => all_or_nothing (λ d', ∃ uid, bootstrapped d d' account uid) d e d'
    end) d s.
Proof.
  intros Hwf. apply WP_Transaction; [|by left].
  apply (WP_mono _ (on_ok (λ user d' _, bootstrapped d d' account (user_ID user)))).
  2:{ intros [user|e] d' s' Hx; [|done]. split; [done|]. intros e He. right. split; [done|]. by exists (user_ID user). }
  apply WP_bind_ok with (Φ := λ _ d1 _, d1 = d); [by apply WP_query|]. intros _ d1 s1 ->.
  apply WP_bind_ok with (Φ := λ b d1 _, d1 = d ∧ b = setup_available d); [by apply WP_query|]. intros b d1 s2 [-> ->].
  destruct (setup_available d) eqn:Ea; simpl; [|by apply WP_throw].
  eapply WP_bind_ok; [by apply createLocalAdmin_WP|]. intros user d1 s3 [Hc Hb].
  apply WP_bind_ok with (Φ := λ _ d2 _, d2 = set_bootstrap (Some (pg_timestamp now)) d1).
  { apply WP_exec; [done|]. apply setup_available_spec in Ea as [Ea _]. by rewrite Hb, Ea. }
  intros _ d2 s4 ->. apply WP_ret. simpl. split_and!; [done|by apply set_bootstrap_created|done].
Qed.

(** Without a free setup the bootstrap is refused. *)
Lemma BootstrapAdmin_refused account now d s :
  setup_available d = false →
  WP (BootstrapAdmin account now) (λ r d' s', d' = d ∧ ∃ e, r = Err e ∧ (e = ErrSetupUnavailable ∨ driver_error e)) d s.
Proof.
  intros Ha. apply WP_Transaction_err; [|naive_solver].
  apply WP_bind, WP_query; [naive_solver|]. apply WP_bind, WP_query; [naive_solver|]. rewrite Ha. simpl.
  apply WP_throw. naive_solver.
Qed.

(** What the start of an empty installation leaves: one user, the administrator. *)
Definition startup_admin (d : DB) (password : string) (d' : DB) : Prop :=
  db_users d = ∅ ∧ setup_available d' = false ∧
  ∃ p u t, credential d' "default" "admin" p u t ∧ db_users d' = {[u_ID u := u]} ∧
    u_Role u = UserRoleAdmin ∧ u_Status u = UserStatusActive ∧ VerifyPassword (pw_PasswordHash p) password = true ∧
    (∀ k x, db_tenants d !! k = Some x → db_tenants d' !! k = Some x).

Lemma EnsureStartupAdmin_WP password now d s :
  tenants_wf d →
  WP (EnsureStartupAdmin password now) (λ r d' _,
    match r with
    | Ok false => d' = d ∧ db_users d ≠ ∅
    | Ok true => startup_admin d password d'
    | Err e => all_or_nothing (startup_admin d password) d e d'
    end) d s.
Proof.
  intros Hwf. apply WP_Transaction; [|by left].
  apply WP_bind, WP_query; [done|]. apply WP_bind, WP_query; [done|]. apply WP_bind, WP_query; [done|].
  case_bool_decide as Eu; simpl; [|apply WP_ret; split; [done|by left]].
  destruct (_ || _) eqn:El; [by apply WP_throw|]. bool_to_prop.
  apply WP_bind, WP_rand_read. intros salt _. destruct (bcrypt_generate salt password) as [hash|] eqn:Eh; [|by apply WP_throw].
  apply WP_bind. eapply WP_mono; [by apply createLocalAdmin_WP|]. intros [user|e] d1 s1; [|done]. intros [Hc Hb]. simpl.
  apply WP_bind, WP_exec; [done|].
  assert (∀ x, setup_available (set_bootstrap x d1) = false ∧ ∃ p u t, credential (set_bootstrap x d1) "default" "admin" p u t ∧
    db_users (set_bootstrap x d1) = {[u_ID u := u]} ∧
    u_Role u = UserRoleAdmin ∧ u_Status u = UserStatusActive ∧ VerifyPassword (pw_PasswordHash p) password = true ∧
    (∀ k y, db_tenants d !! k = Some y → db_tenants (set_bootstrap x d1) !! k = Some y)) as Hx.
  { intros x. destruct Hc as (p & u & t & Hcr & Hh & _ & Hid & Hr & Hst & _ & _ & Hus & Hte & _). rewrite Eu in Hus. split.
    - apply not_true_iff_false. intros [_ Hn]%setup_available_spec. simpl in Hn. rewrite Hus in Hn. by apply insert_non_empty in Hn.
    - exists p, u, t. rewrite Hid. split_and!; try done. unfold VerifyPassword. rewrite Hh. simpl.
      rewrite (bcrypt_compare_generate _ _ _ Eh), andb_true_r. apply Z.leb_le. lia. }
  assert (∀ x, startup_admin d password (set_bootstrap x d1)) as Ha by (intros x; split; [done|apply Hx]).
  destruct (db_bootstrap d1) eqn:Ed; apply WP_ret; [|split; [apply Ha|by right]].
  replace d1 with (set_bootstrap (db_bootstrap d1) d1) by (by destruct d1). split; [apply Ha|by right].
Qed.

(** The administrator of an empty installation is created at start-up once:
    with users present nothing changes; otherwise the call creates one active
    administrator "admin" of the active tenant "default" whose stored password
    is the configured one, and records the setup as done.  On an error the
    tables are as before, or only the acknowledgement of all this was lost. *)
Theorem auth_startup_admin password now w r w' :
  tenants_wf (w_db w) → EnsureStartupAdmin password now w = (r, w') →
  match r with
  | Ok false => w_db w' = w_db w ∧ db_users (w_db w) ≠ ∅
  | Ok true => startup_admin (w_db w) password (w_db w')
  | Err e => all_or_nothing (startup_admin (w_db w) password) (w_db w) e (w_db w')
  end.
Proof. intros Hwf E. exact (WP_run _ _ _ _ _ (EnsureStartupAdmin_WP password now _ _ Hwf) E). Qed.

(** The operations on accounts and sessions, and their effect. *)
Inductive auth_op :=
| OpLogin (req : LoginRequest)
| OpSetup (req : SetupRequest)
| OpLogout (token : string)
| OpResolve (token : string)
| OpListUsers (requester : AuthUser)
| OpUpdateUser (requester : AuthUser) (userID : Z) (patch : UserUpdate)
| OpStartup (password : string) (now : Time).

Definition run_auth_op (sv : Service) (dummy : string) (op : auth_op) (w : World) : World :=
  match op with
  | OpLogin req => (Login sv dummy req w).2
  | OpSetup req => (Setup sv req w).2
  | OpLogout token => (Logout sv token w).2
  | OpResolve token => (ResolveSessionUser sv token w).2
  | OpListUsers requester => (MasterService.ListUsers sv requester w).2
  | OpUpdateUser requester userID patch => (MasterService.UpdateUser sv requester userID patch w).2
  | OpStartup password now => (EnsureStartupAdmin password now w).2
  end.
Definition run_auth_ops (sv : Service) (dummy : string) (ops : list auth_op) (w : World) : World :=
  foldl (λ w op, run_auth_op sv dummy op w) w ops.

(** The checks of an update before the store is asked. *)
Definition valid_patch (patch : UserUpdate) : Prop :=
  (∀ x, up_Role patch = Some x → x = UserRoleAdmin ∨ x = UserRoleMember) ∧
  (∀ x, up_Status patch = Some x → x = UserStatusActive ∨ x = UserStatusDisabled).

Lemma UpdateUser_valid sv requester uid patch :
  (∀ w, ∃ e, MasterService.UpdateUser sv requester uid patch w = (Err e, w)) ∨
  MasterService.UpdateUser sv requester uid patch = AuthStore.UpdateUser (user_TenantCode requester) uid patch ∧
  user_Role requester = UserRoleAdmin ∧ valid_patch patch.
Proof.
  unfold MasterService.UpdateUser, valid_patch. destruct (negb _) eqn:Ea; [left; intros w; by eexists|]. bool_to_prop. apply str_eqb_true in Ea.
  destruct (match up_Role patch with Some _ => _ | None => _ end) eqn:Er; [left; intros w; by eexists|].
  destruct (match up_Status patch with Some _ => _ | None => _ end) eqn:Es; [left; intros w; by eexists|].
  destruct (negb (svc_authStore sv)); [left; intros w; by eexists|]. right. split_and!; [done|done|intros x Hx..].
  - rewrite Hx in Er. bool_to_prop. destruct Er as [Er|Er]; bool_to_prop; apply str_eqb_true in Er; auto.
  - rewrite Hx in Es. bool_to_prop. destruct Es as [Es|Es]; bool_to_prop; apply str_eqb_true in Es; auto.
Qed.

(** The writes of the component: every operation's effect on the tables is a
    sequence of these, whatever fails.  Deletions are those of a logout, changes
    of a user those of its update. *)
Inductive auth_write : auth_op → relation DB :=
| W_login op now uid d : auth_write op d (set_users (alter (logged_in now) uid (db_users d)) d)
| W_session op x d d' : insert_session x d = Ok d' → auth_write op d d'
| W_use op id now d :
    auth_write op d (set_sessions (alter (λ x, mkSession (us_ID x) (us_UserID x) (us_TokenHash x) (us_ExpiresAt x)
      (Some (pg_timestamp now)) (us_LastSeenIP x) (us_UserAgent x) (us_CreatedAt x) (pg_timestamp now)) id (db_sessions d)) d)
| W_logout token d :
    auth_write (OpLogout token) d
      (set_sessions (filter (λ '(_, x), str_eqb (us_TokenHash x) (hashToken token) = false) (db_sessions d)) d)
| W_update requester uid patch now u d d' :
    valid_patch patch → db_users d !! uid = Some u → put_user (patched_user patch now u) d = Ok d' →
    auth_write (OpUpdateUser requester uid patch) d d'
| W_tenant op x d d' : insert_tenant x d = Ok d' → auth_write op d d'
| W_user op x d d' : insert_user x d = Ok d' → auth_write op d d'
| W_password op x d d' : insert_password x d = Ok d' → auth_write op d d'
| W_bootstrap op now d : auth_write op d (set_bootstrap (Some now) d).
Hint Constructors auth_write : core.

Section writes.
Context (op : auth_op) (d0 : DB).
Let written (d : DB) (_ : Seqs) : Prop := rtc (auth_write op) d0 d.

Lemma written_exec f : (∀ d d', f d = Ok d' → d' = d ∨ auth_write op d d') → keeps written (exec f).
Proof. intros Hf. apply keeps_exec. intros d s d' Hd [->|]%Hf; [done|by eapply rtc_r]. Qed.

Lemma written_serial t f : (∀ id d d', f id d = Ok d' → auth_write op d d') → keeps written (insert_serial t f).
Proof. intros Hf. apply keeps_insert_serial; [done|]. intros d s d' Hd E%Hf. by eapply rtc_r. Qed.

Lemma written_CreateSession uid h e ip ua now : keeps written (CreateSession uid h e ip ua now).
Proof.
  apply keeps_Transaction; [done|]. keeps.
  - apply written_exec. intros d d' [= <-]. right. apply W_login.
  - apply written_serial. eauto.
Qed.
Hint Resolve written_CreateSession : keeps.

Lemma written_createLoginSession sv user : keeps written (createLoginSession sv user).
Proof. unfold createLoginSession, generateSessionToken, now_. keeps. Qed.
Hint Resolve written_createLoginSession : keeps.

Lemma written_createLocalAdmin account now : keeps written (createLocalAdmin account now).
Proof.
  unfold createLocalAdmin, takeRow. repeat keeps_step.
  - intros d s Hd. by apply WP_nextval.
  - apply written_exec. intros d d'. case_match; [intros [= <-]|]; eauto.
  - apply written_serial. eauto.
  - apply written_exec. eauto.
Qed.
Hint Resolve written_createLocalAdmin : keeps.

Lemma written_BootstrapAdmin account now : keeps written (BootstrapAdmin account now).
Proof.
  apply keeps_Transaction; [done|]. unfold lock_stmt. keeps.
  apply written_exec. intros d d'. case_match; intros [= <-]. eauto.
Qed.
Hint Resolve written_BootstrapAdmin : keeps.

Lemma written_Startup password now : keeps written (EnsureStartupAdmin password now).
Proof.
  apply keeps_Transaction; [done|]. unfold lock_stmt. keeps.
  apply written_exec. intros d d'. case_match; intros [= <-]; eauto.
Qed.

Lemma written_GetUser h now : keeps written (GetUserBySessionTokenHash h now).
Proof.
  unfold GetUserBySessionTokenHash, takeRow. keeps. apply keeps_autocommit; [done|].
  apply written_exec. intros d d' [= <-]. right. apply W_use.
Qed.
Hint Resolve written_GetUser : keeps.

Lemma written_store_UpdateUser requester code uid patch :
  op = OpUpdateUser requester uid patch → valid_patch patch → keeps written (AuthStore.UpdateUser code uid patch).
Proof.
  intros Ho Hv. apply keeps_Transaction; [done|]. unfold takeRow. apply keeps_bind; [keeps|]. intros tenant d s Hd.
  apply WP_bind, WP_firstOrNotFound; [done|]. destruct (db_users d !! uid) as [u|] eqn:Eu; [|done]. destruct (_ =? _); [|done].
  apply WP_bind, WP_time_now. intros now. cbv zeta. apply WP_bind, WP_exec; [done|].
  destruct (put_user _ d) as [d'|] eqn:Ep; [|done].
  assert (written d' s) as Hw; [|by refine (keeps_bind written _ _ (keeps_attempt _ _ (keeps_firstOrNotFound _ _)) (λ _, keeps_ret _ _) _ _ Hw)].
  eapply rtc_r; [exact Hd|]. rewrite Ho. exact (W_update _ _ _ _ _ _ _ Hv Eu Ep).
Qed.
End writes.

Lemma writes_run {A} op (m : M A) w : (∀ d0, keeps (λ d _, rtc (auth_write op) d0 d) m) → rtc (auth_write op) (w_db w) (w_db (m w).2).
Proof. intros Hm. specialize (Hm (w_db w) (w_db w) (w_seq w) (rtc_refl _ _) w eq_refl eq_refl). by destruct (m w). Qed.

Hint Resolve written_createLoginSession written_BootstrapAdmin written_GetUser : keeps.

(** Every operation is a sequence of its writes. *)
Lemma run_auth_op_writes sv dummy op w : rtc (auth_write op) (w_db w) (w_db (run_auth_op sv dummy op w)).
Proof.
  destruct op as [req|req|token|token|requester|requester uid patch|password now]; simpl.
  - apply writes_run. intros d0. unfold Login, LocalCredentials, takeRow. keeps.
  - apply writes_run. intros d0. unfold Setup, localAccount, HashPassword, now_. keeps.
  - apply writes_run. intros d0. unfold Logout, DeleteSession. keeps. apply keeps_autocommit; [done|].
    apply written_exec. intros d d' [= <-]. right. apply W_logout.
  - apply writes_run. intros d0. unfold ResolveSessionUser, now_. keeps.
  - apply writes_run. intros d0. unfold MasterService.ListUsers, AuthStore.ListUsers. keeps.
  - destruct (UpdateUser_valid sv requester uid patch) as [Hx|(-> & _ & Hv)]; [destruct (Hx w) as [e ->]; apply rtc_refl|].
    apply writes_run. intros d0. by eapply written_store_UpdateUser.
  - apply writes_run. intros d0. apply written_Startup.
Qed.

(** A setup stays done. *)
Lemma auth_write_setup op d d' : auth_write op d d' → is_Some (db_bootstrap d) → is_Some (db_bootstrap d').
Proof.
  destruct 1 as [| ? x d d' E| | |? ? ? ? u d d' _ _ E|? x d d' E|? x d d' E|? x d d' E|]; try done;
    unfold insert_session, put_user, insert_tenant, put_tenant, insert_user, put_user, insert_password in E; repeat case_match; by simplify_eq.
Qed.

Lemma run_auth_ops_setup sv dummy ops w :
  is_Some (db_bootstrap (w_db w)) → is_Some (db_bootstrap (w_db (run_auth_ops sv dummy ops w))).
Proof.
  revert w. induction ops as [|op ops IH]; intros w Hw; [done|]. apply IH.
  pose proof (run_auth_op_writes sv dummy op w) as Hr. revert Hw. induction Hr; [done|]. eauto using auth_write_setup.
Qed.

End setup.

(** ** A session lasts *)

Section lasts.
Context `{Env} `{PgTypes} `{Bcrypt} `{StringsLower}.

(** A session with the hash exists, every session with the hash is the user's and
    expires then, and the user is active in an active tenant. *)
Definition identified (d : DB) (hash : string) (uid : Z) (expires : Time) (tenant : string) : Prop :=
  users_wf d ∧ (∃ k x, db_sessions d !! k = Some x ∧ us_TokenHash x = hash) ∧
  (∀ k x, db_sessions d !! k = Some x → us_TokenHash x = hash → us_UserID x = uid ∧ us_ExpiresAt x = expires) ∧
  ∃ u t, db_users d !! uid = Some u ∧ u_Status u = UserStatusActive ∧
    db_tenants d !! u_TenantID u = Some t ∧ t_Status t = 1 ∧ t_TenantCode t = tenant.

(** What does not end the session: any operation but a logout with its token and
    the user being disabled. *)
Definition spares (hash : string) (uid : Z) (op : auth_op) : Prop :=
  match op with
  | OpLogout token => hashToken token ≠ hash
  | OpUpdateUser _ userID patch => userID ≠ uid ∨ up_Status patch ≠ Some UserStatusDisabled
  | _ => True
  end.

(** Other components add, rename and activate tenants, and touch neither users
    nor sessions. *)
Definition elsewhere (d d' : DB) : Prop :=
  db_users d' = db_users d ∧ db_sessions d' = db_sessions d ∧
  ∀ k t, db_tenants d !! k = Some t → ∃ t', db_tenants d' !! k = Some t' ∧ (t_Status t = 1 → t_Status t' = 1) ∧ t_TenantCode t' = t_TenantCode t.

Lemma identified_elsewhere d d' hash uid expires tenant :
  elsewhere d d' → identified d hash uid expires tenant → identified d' hash uid expires tenant.
Proof.
  unfold identified, users_wf. intros (-> & -> & Ht) (Hwf & Hx & Ha & u & t & Hu & Hs & Hk & Hs1 & Hc). split_and!; [done..|].
  destruct (Ht _ _ Hk) as (t' & Hk' & Hs' & Hc'). exists u, t'. split_and!; try done; [auto|congruence].
Qed.

(** Rows of users are only ever rewritten with the same key, tenant and status. *)
Lemma identified_users d d' hash uid expires tenant :
  db_sessions d' = db_sessions d → db_tenants d' = db_tenants d →
  (∀ k u', db_users d' !! k = Some u' → u_ID u' = k) →
  (∀ u, db_users d !! uid = Some u → u_Status u = UserStatusActive →
     ∃ u', db_users d' !! uid = Some u' ∧ u_TenantID u' = u_TenantID u ∧ u_Status u' = UserStatusActive) →
  identified d hash uid expires tenant → identified d' hash uid expires tenant.
Proof.
  intros Hse Hte Hwf Hu (_ & Hx & Ha & u & t & Hk & Hs & Ht & Hs1 & Hc). unfold identified. rewrite Hse, Hte.
  split; [exact Hwf|]. split; [exact Hx|]. split; [exact Ha|].
  destruct (Hu _ Hk Hs) as (u' & Hk' & Hid & Hs'). exists u', t. rewrite Hid. by split_and!.
Qed.

Lemma identified_sessions d X hash uid expires tenant :
  (∃ k x, X !! k = Some x ∧ us_TokenHash x = hash) →
  (∀ k x, X !! k = Some x → us_TokenHash x = hash → us_UserID x = uid ∧ us_ExpiresAt x = expires) →
  identified d hash uid expires tenant → identified (set_sessions X d) hash uid expires tenant.
Proof. intros ?? (? & _ & _ & ?). by split_and!. Qed.

Lemma identified_write op d d' hash uid expires tenant :
  spares hash uid op → auth_write op d d' →
  identified d hash uid expires tenant → identified d' hash uid expires tenant.
Proof.
  intros Hsp Hw Hi. pose proof Hi as (Hwf & (k0 & x0 & Hk0 & Hh0) & Ha & u0 & t0 & Hu0 & Hs0 & Ht0).
  destruct Hw as [op now id d|op x d d' E|op id now d|token d|rq id patch now u d d' Hv Hu E|op x d d' E|op x d d' E|op x d d' E|op now d].
  - revert Hi. apply identified_users; [done|done|..]; simpl.
    + intros k u' Hk. apply lookup_alter_Some in Hk as [(<- & u & Hk & ->)|[_ Hk]]; simpl; by apply Hwf.
    + intros u Hu Hs. destruct (decide (id = uid)) as [->|Hn]; [rewrite lookup_alter, decide_True, Hu by done|rewrite lookup_alter_ne by done]; eauto.
  - unfold insert_session in E. repeat case_match; simplify_eq. bool_to_prop. revert Hi. apply identified_sessions.
    + exists k0, x0. split; [|done]. rewrite lookup_insert_ne; [done|]. intros Hn. rewrite Hn in *. naive_solver.
    + intros k y Hk Hy. apply lookup_insert_Some in Hk as [[_ <-]|[_ Hk]]; [|by eapply Ha].
      exfalso. rename select (existsb _ _ = false) into Hex.
      eapply existsb_rows_false in Hex; [|exact Hk0]. apply str_eqb_false in Hex. congruence.
  - revert Hi. apply identified_sessions.
    + destruct (decide (id = k0)) as [->|Hn]; [do 2 eexists; rewrite lookup_alter, decide_True, Hk0 by done; by split|].
      exists k0, x0. by rewrite lookup_alter_ne.
    + intros k y Hk Hy. apply lookup_alter_Some in Hk as [(<- & z & Hk & ->)|[_ Hk]]; simpl in *; by eapply Ha.
  - simpl in Hsp. revert Hi. apply identified_sessions.
    + exists k0, x0. rewrite map_lookup_filter_Some, str_eqb_false. naive_solver.
    + intros k y Hk. apply map_lookup_filter_Some in Hk as [Hk _]. by eapply Ha.
  - unfold put_user in E. case_bool_decide; [|done]. injection E as <-. pose proof (Hwf _ _ Hu) as Hid.
    revert Hi. apply identified_users; [done|done|..]; simpl; rewrite Hid.
    + intros k u' Hk. apply lookup_insert_Some in Hk as [[<- <-]|[_ Hk]]; [done|by apply Hwf].
    + intros u' Hu' Hs'. destruct (decide (id = uid)) as [->|Hn]; [|rewrite lookup_insert_ne by done; eauto].
      rewrite lookup_insert, decide_True by done. eexists. split; [done|]. simplify_eq. split; [done|]. simpl.
      destruct (up_Status patch) as [y|] eqn:Ey; [|done]. simpl in *. destruct (proj2 Hv _ Ey) as [->| ->]; [done|]. naive_solver.
  - apply insert_tenant_put in E as [Hn [-> _]%put_tenant_inv]. revert Hi. apply identified_elsewhere. split; [done|]. split; [done|].
    intros k t Hk. exists t. simpl. rewrite lookup_insert_ne; [done|]. intros <-. congruence.
  - unfold insert_user, put_user in E. repeat case_bool_decide; simplify_eq.
    revert Hi. apply identified_users; [done|done|..]; simpl.
    + intros k u' Hk. apply lookup_insert_Some in Hk as [[<- <-]|[_ Hk]]; [done|by apply Hwf].
    + intros u Hu Hs. exists u. rewrite lookup_insert_ne; [done|]. intros Hn. rewrite Hn in *. naive_solver.
  - unfold insert_password in E. repeat case_match; simplify_eq. exact Hi.
  - exact Hi.
Qed.

(** The states after a login: operations on accounts and sessions that spare the
    session, and whatever the other components do in between. *)
Inductive later (sv : Service) (dummy hash : string) (uid : Z) : relation World :=
| later_auth op w : spares hash uid op → later sv dummy hash uid w (run_auth_op sv dummy op w)
| later_elsewhere w w' : elsewhere (w_db w) (w_db w') → later sv dummy hash uid w w'.

Lemma identified_later sv dummy hash uid expires tenant w w' :
  rtc (later sv dummy hash uid) w w' →
  identified (w_db w) hash uid expires tenant → identified (w_db w') hash uid expires tenant.
Proof.
  induction 1 as [|w w1 w' Hs _ IH]; [done|]. intros Hi. apply IH. destruct Hs as [op w Hsp|w w1 He]; [|by eapply identified_elsewhere].
  pose proof (run_auth_op_writes sv dummy op w) as Hr. revert Hi. induction Hr; [done|]. eauto using identified_write.
Qed.

Lemma session_opened_identified d d' req p u t token expires :
  users_wf d → login_accepted d req p u t → session_opened d d' (u_ID u) token expires →
  identified d' (hashToken token) (u_ID u) (pg_timestamp expires) (t_TenantCode t).
Proof.
  intros Hwf [(_ & _ & Hu & _ & Ht & Hs & _) [Ha _]] (n & id & x & -> & Hid & Hh & Hexp & Hf & _).
  pose proof (Hwf _ _ Hu) as Huid. split_and!.
  - intros k u' Hk. simpl in Hk. apply lookup_alter_Some in Hk as [(<- & u2 & Hk & ->)|[_ Hk]]; simpl; by apply Hwf.
  - exists id, x. simpl. by rewrite lookup_insert, decide_True.
  - intros k y Hk Hy. simpl in Hk. apply lookup_insert_Some in Hk as [[_ <-]|[_ Hk]]; [done|]. by apply Hf in Hk.
  - exists (touch_login n u), t. simpl. rewrite Huid, lookup_alter, decide_True, Hu by done. by split_and!.
Qed.

Lemma identified_resolves d hash uid expires tenant now s :
  identified d hash uid expires tenant → now < expires →
  WP (GetUserBySessionTokenHash hash now) (λ r _ _,
    match r with
    | Ok found => ∃ user rec, found = Some (user, rec) ∧ user_ID user = uid ∧ user_TenantCode user = tenant ∧
        sn_UserID rec = uid ∧ sn_ExpiresAt rec = expires
    | Err e => driver_error e
    end) d s.
Proof.
  intros (Hwf & (k0 & x0 & Hk0 & Hh0) & Ha & u & t & Hu & Hs & Ht & Hs1 & Hc) Hnow.
  eapply WP_mono; [apply GetUserBySessionTokenHash_WP|]. intros [[[user rec]|]|e] d' s' [_ Hr]; [| |by destruct Hr].
  - destruct Hr as (x & u' & t' & ([k Hk] & Hh & _ & Hu' & _ & Ht' & _) & -> & -> & _).
    destruct (Ha _ _ Hk Hh) as [Hid Hx]. rewrite Hid in Hu'. simplify_eq. do 2 eexists. split; [done|]. simpl. split_and!; try done. by apply Hwf.
  - exfalso. destruct Hr as [_ Hr].
    assert (x0 ∈ select (λ x, str_eqb (us_TokenHash x) hash) (rows (db_sessions d))) as Hin.
    { rewrite elem_of_select, elem_of_rows, str_eqb_true. eauto. }
    destruct (select _ _) as [|y l] eqn:E; [by apply not_elem_of_nil in Hin|].
    assert (y ∈ select (λ x, str_eqb (us_TokenHash x) hash) (rows (db_sessions d))) as Hy by (rewrite E; left).
    rewrite elem_of_select, elem_of_rows, str_eqb_true in Hy. destruct Hy as [Hh [k Hk]]. destruct (Ha _ _ Hk Hh) as [Hid Hx].
    apply (Hr y eq_refl u t). unfold session_valid. rewrite Hid, Hx. split_and!; eauto.
Qed.

(** C12: the token a login returns identifies its user, in that tenant, until the
    session expires: in every state that is reached by operations on accounts and
    sessions, other than a logout with the token and the user being disabled, and
    by whatever other components do to tables that are not these, the token is
    resolved to the user and the session's expiry, unless the database fails. *)
Theorem auth_login_resolves sv dummy req w sess w1 w2 r w3 :
  users_wf (w_db w) → svc_authStore sv = true →
  Login sv dummy req w = (Ok sess, w1) →
  rtc (later sv dummy (hashToken (as_Token sess)) (user_ID (as_User sess))) w1 w2 →
  env_now (w_tick w2) < pg_timestamp (as_ExpiresAt sess) →
  ResolveSessionUser sv (as_Token sess) w2 = (r, w3) →
  match r with
  | Ok found => ∃ user rec, found = Some (user, rec) ∧ user_ID user = user_ID (as_User sess) ∧
      user_TenantCode user = user_TenantCode (as_User sess) ∧ sn_UserID rec = user_ID user ∧
      sn_ExpiresAt rec = pg_timestamp (as_ExpiresAt sess)
  | Err e => driver_error e
  end.
Proof.
  intros Hwf Hs E Hl Hnow E2. apply (WP_run _ _ _ _ _ (Login_WP sv dummy req _ _)) in E.
  destruct E as (p & u & t & Hacc & Huser & Hh & _ & Ho). rewrite Huser in *. simpl in *.
  rewrite ResolveSessionUser_run in E2 by done.
  pose proof (identified_later _ _ _ _ _ _ _ _ Hl (session_opened_identified _ _ _ _ _ _ _ _ Hwf Hacc Ho)) as Hi.
  change (w_db w2) with (w_db (tick w2)) in Hi. apply (WP_run _ _ _ _ _ (identified_resolves _ _ _ _ _ _ _ Hi Hnow)) in E2.
  destruct r as [found|e]; [|done]. destruct E2 as (user & rec & -> & Hid & Hc & Hr & Hx). exists user, rec. split_and!; congruence.
Qed.

End lasts.

Section setup_once.
Context `{Env} `{PgTypes} `{Bcrypt} `{StringsLower}.

Lemma localAccount_WP req d s :
  WP (localAccount req) (λ r d' s', d' = d ∧
    match r with
    | Ok account => VerifyPassword (la_PasswordHash account) (su_Password req) = true ∧ 12 ≤ len (su_Password req) ≤ 72 ∧
        la_TenantCode account = TrimSpace (su_TenantCode req) ∧ la_Username account = ToLower (TrimSpace (su_Username req))
    | Err _ => True
    end) d s.
Proof.
  unfold localAccount. cbv zeta. destruct (_ || _); [by apply WP_throw|].
  apply WP_bind. unfold HashPassword. destruct (_ || _) eqn:El; [by apply WP_throw|]. bool_to_prop.
  apply WP_bind, WP_rand_read. intros salt _. apply WP_lift. destruct (bcrypt_generate salt _) as [h|] eqn:Eh; [|done].
  apply WP_ret. simpl. split_and!; try done; try lia. unfold VerifyPassword.
  rewrite (bcrypt_compare_generate _ _ _ Eh), andb_true_r. apply Z.leb_le. lia.
Qed.

Lemma Setup_WP sv req d s :
  tenants_wf d →
  WP (Setup sv req) (λ r d' s',
    match r with
    | Ok sess => setup_available d = true ∧
        sha256 (bytes (su_SetupToken req)) = sha256 (bytes (auc_SetupToken (svc_authConfig sv))) ∧
        ∃ account d1, VerifyPassword (la_PasswordHash account) (su_Password req) = true ∧ 12 ≤ len (su_Password req) ≤ 72 ∧
          la_TenantCode account = TrimSpace (su_TenantCode req) ∧ la_Username account = ToLower (TrimSpace (su_Username req)) ∧
          admin_created d d1 account (user_ID (as_User sess)) ∧ is_Some (db_bootstrap d1) ∧
          session_opened d1 d' (user_ID (as_User sess)) (as_Token sess) (as_ExpiresAt sess)
    | Err e => d' = d ∨ setup_available d = true
    end) d s.
Proof.
  intros Hwf. unfold Setup. destruct (negb (setup_configured sv)); [apply WP_throw; auto|].
  destruct (negb (bool_decide _)) eqn:Es; [apply WP_throw; auto|]. bool_to_prop.
  apply WP_bind. eapply WP_mono; [apply localAccount_WP|]. intros [account|e] d1 s1 [-> Ha]; [|auto].
  apply WP_bind, WP_time_now. intros now. apply WP_bind, WP_attempt.
  eapply WP_mono; [by apply BootstrapAdmin_WP|]. intros [user|e] d1 s2; cbv beta iota.
  - intros (Hav & Hc & Hb). eapply WP_mono; [apply createLoginSession_WP|]. intros [sess|e] d2 s3; [|auto].
    intros (<- & _ & _ & Ho). split_and!; [done..|]. exists account, d1. naive_solver.
  - intros Hd. assert (d1 = d ∨ setup_available d = true) by (destruct Hd as [|(_ & ? & ? & _)]; auto). by destruct e; apply WP_throw.
Qed.

(** A setup succeeds only while there are neither users nor a record of an
    earlier setup, and only for a caller whose token hashes like the configured
    one; it creates the only user, an active administrator of the named tenant
    whose stored password is the requested one of 12 to 72 bytes, and opens a
    session for it. *)
Theorem auth_setup_sound sv req w sess w' :
  tenants_wf (w_db w) → Setup sv req w = (Ok sess, w') →
  setup_available (w_db w) = true ∧
  sha256 (bytes (su_SetupToken req)) = sha256 (bytes (auc_SetupToken (svc_authConfig sv))) ∧
  ∃ account d1, VerifyPassword (la_PasswordHash account) (su_Password req) = true ∧ 12 ≤ len (su_Password req) ≤ 72 ∧
    la_TenantCode account = TrimSpace (su_TenantCode req) ∧ la_Username account = ToLower (TrimSpace (su_Username req)) ∧
    admin_created (w_db w) d1 account (user_ID (as_User sess)) ∧
    session_opened d1 (w_db w') (user_ID (as_User sess)) (as_Token sess) (as_ExpiresAt sess).
Proof.
  intros Hwf E. apply (WP_run _ _ _ _ _ (Setup_WP sv req _ _ Hwf)) in E.
  destruct E as (Hav & Hsha & account & d1 & Hx). split_and!; [done..|]. exists account, d1. naive_solver.
Qed.

(** Once setup is no longer available, it is refused without a trace. *)
Lemma Setup_refused sv req w r w' :
  setup_available (w_db w) = false → Setup sv req w = (r, w') → is_ok r = false ∧ w_db w' = w_db w.
Proof.
  intros Ha E.
  assert (WP (Setup sv req) (λ r d' _, is_ok r = false ∧ d' = w_db w) (w_db w) (w_seq w)) as HW; [|by apply (WP_run _ _ _ _ _ HW) in E].
  unfold Setup. destruct (negb (setup_configured sv)); [by apply WP_throw|].
  destruct (negb (bool_decide _)); [by apply WP_throw|].
  apply WP_bind. eapply WP_mono; [apply localAccount_WP|]. intros [account|e] d1 s1 [-> _]; [|done].
  apply WP_bind, WP_time_now. intros now. apply WP_bind, WP_attempt.
  eapply WP_mono; [by apply BootstrapAdmin_refused|]. intros r' d1 s2 (-> & e & -> & _). by destruct e; apply WP_throw.
Qed.

(** C14: there is one setup.  After a setup succeeded, whatever operations on
    accounts and sessions follow, in any order and with any failures of the
    database, no later setup succeeds or changes a table, and setup is never
    reported as available again. *)
Theorem auth_setup_once sv dummy req w sess w1 ops req' :
  tenants_wf (w_db w) → Setup sv req w = (Ok sess, w1) →
  let w2 := run_auth_ops sv dummy ops w1 in
  (∀ r w3, Setup sv req' w2 = (r, w3) → is_ok r = false ∧ w_db w3 = w_db w2) ∧
  (∀ b w3, MasterService.SetupAvailable sv w2 = (Ok b, w3) → b = false).
Proof.
  intros Hwf E w2.
  assert (setup_available (w_db w2) = false) as Ha.
  { apply not_true_iff_false. intros [Hn _]%setup_available_spec.
    assert (is_Some (db_bootstrap (w_db w2))) as [? Hx]; [|by rewrite Hn in Hx]. apply run_auth_ops_setup.
    apply (WP_run _ _ _ _ _ (Setup_WP sv req _ _ Hwf)) in E.
    destruct E as (_ & _ & account & d1 & _ & _ & _ & _ & _ & Hb & n & id & x & Hd & _). by rewrite Hd. }
  clear E Hwf. split.
  - intros r w3. by apply Setup_refused.
  - intros b w3 E.
    assert (WP (MasterService.SetupAvailable sv) (on_ok (λ b _ _, b = false)) (w_db w2) (w_seq w2)) as HW;
      [|by apply (WP_run _ _ _ _ _ HW) in E].
    unfold MasterService.SetupAvailable. destruct (negb _); [by apply WP_ret|]. by apply WP_query.
Qed.

(** ** Users of a tenant *)

(** The row of one user of the tenant was rewritten, with the fields of the patch
    and no others. *)
Definition user_patched (d d' : DB) (code : string) (uid : Z) (patch : UserUpdate) : Prop :=
  ∃ u u' t, db_users d !! uid = Some u ∧ db_tenants d !! u_TenantID u = Some t ∧ t_TenantCode t = code ∧
    d' = set_users (<[uid := u']> (db_users d)) d ∧
    u_ID u' = uid ∧ u_TenantID u' = u_TenantID u ∧ u_DisplayName u' = default (u_DisplayName u) (up_DisplayName patch) ∧
    u_Role u' = default (u_Role u) (up_Role patch) ∧ u_Status u' = default (u_Status u) (up_Status patch).

Lemma UpdateUser_store_WP code uid patch d s :
  tenants_wf d → users_wf d →
  WP (AuthStore.UpdateUser code uid patch) (λ r d' _,
    match r with
    | Ok user => user_patched d d' code uid patch ∧ user_ID user = uid ∧ user_TenantCode user = code
    | Err e => all_or_nothing (λ d', user_patched d d' code uid patch) d e d'
    end) d s.
Proof.
  intros Hwt Hwu. apply WP_Transaction; [|by left]. apply WP_bind, WP_firstOrNotFound; [done|].
  destruct (head _) as [t|] eqn:Et; [|done]. apply head_Some_elem_of in Et. rewrite elem_of_select, elem_of_rows in Et.
  destruct Et as [Hc%str_eqb_true [k Hk]]. pose proof (Hwt _ _ Hk) as <-.
  apply WP_bind, WP_firstOrNotFound; [done|]. destruct (db_users d !! uid) as [u|] eqn:Eu; [|done].
  destruct (_ =? _) eqn:Eq; [|done]. bool_to_prop. pose proof (Hwu _ _ Eu) as Hid.
  apply WP_bind, WP_time_now. intros now. cbv zeta. apply WP_bind, WP_exec; [done|].
  unfold put_user, patched_user. cbn [u_ID u_TenantID]. case_bool_decide; [|done].
  match goal with |- WP _ _ ?d' _ => assert (user_patched d d' code uid patch) as Hp end.
  { eexists u, _, t. rewrite Hid, Eq. by split_and!. }
  apply WP_bind, WP_attempt, WP_firstOrNotFound; [intros e _|destruct (first_identity _ _)]; apply WP_ret.
  all: split; [by split_and!|by right].
Qed.

(** Only an administrator changes users, and only users of its own tenant:
    a successful update rewrites the row of one user of that tenant, with the
    fields of the patch and no others, to a known role and status; a failed one
    changes nothing, or only the acknowledgement of just that was lost. *)
Theorem auth_UpdateUser_isolated sv requester uid patch w r w' :
  tenants_wf (w_db w) → users_wf (w_db w) →
  MasterService.UpdateUser sv requester uid patch w = (r, w') →
  let patched d' := user_Role requester = UserRoleAdmin ∧ valid_patch patch ∧
    user_patched (w_db w) d' (user_TenantCode requester) uid patch in
  match r with
  | Ok user => patched (w_db w') ∧ user_ID user = uid ∧ user_TenantCode user = user_TenantCode requester
  | Err e => all_or_nothing patched (w_db w) e (w_db w')
  end.
Proof.
  intros Hwt Hwu E. cbv zeta. destruct (UpdateUser_valid sv requester uid patch) as [Hx|(-> & Hr & Hv)] in E.
  { destruct (Hx w) as [e Hw]. rewrite Hw in E. injection E as <- <-. by left. }
  apply (WP_run _ _ _ _ _ (UpdateUser_store_WP _ uid patch _ _ Hwt Hwu)) in E.
  destruct r as [user|e]; [naive_solver|]. eapply all_or_nothing_mono; [|exact E]. done.
Qed.

End setup_once.

(** ** Concrete runs *)

Program Definition Bcrypt_plain : Bcrypt := {|
  bcrypt_generate _ p := Some ("$" +:+ p);
  bcrypt_compare h p := str_eqb h ("$" +:+ p)
|}.
Next Obligation. intros salt p h [= <-]. apply str_eqb_refl. Qed.

Program Definition StringsLower_ascii : StringsLower := {|
  ToLower s := of_bytes ((λ c, let x := byte_val c in if (65 <=? x) && (x <=? 90) then ascii_of_N (Z.to_N (x + 32)) else c) <$> bytes s)
|}.
Next Obligation. done. Qed.

Section examples.
#[local] Existing Instance Env_quiet.
#[local] Existing Instance PgTypes_exact.
#[local] Existing Instance Bcrypt_plain.
#[local] Existing Instance StringsLower_ascii.

Definition ex_sv : Service :=
  mkService true (mkAuthConfig 0 "gaoming_session" "" "0123456789abcdef0123456789abcdef" false []) true zero_Principal.
Definition ex_empty : World := world_of empty_DB ∅.
Definition ex_setup : SetupRequest :=
  mkSetupRequest "0123456789abcdef0123456789abcdef" "acme" " Root" "Root" "correct horse".
Definition ex_set_up : World := (Setup ex_sv ex_setup ex_empty).2.
Definition ex_login : LoginRequest := mkLoginRequest "acme" "ROOT" "correct horse".
Definition ex_session : AuthSession :=
  match (Login ex_sv "" ex_login ex_set_up).1 with Ok s => s | Err _ => mkAuthSession "" 0 zero_AuthUser end.
Definition ex_logged_in : World := (Login ex_sv "" ex_login ex_set_up).2.

Definition ex_setup_session : AuthSession :=
  match (Setup ex_sv ex_setup ex_empty).1 with Ok s => s | Err _ => mkAuthSession "" 0 zero_AuthUser end.

Lemma ex_setup_run : Setup ex_sv ex_setup ex_empty = (Ok ex_setup_session, ex_set_up).
Proof. vm_compute. reflexivity. Qed.
Lemma ex_login_run : Login ex_sv "" ex_login ex_set_up = (Ok ex_session, ex_logged_in).
Proof. vm_compute. reflexivity. Qed.
Lemma ex_tenants_wf : tenants_wf (w_db ex_empty).
Proof. intros k t Hk. simpl in Hk. by apply lookup_empty_Some in Hk. Qed.
Lemma ex_users_wf : users_wf (w_db ex_set_up).
Proof.
  assert (db_users (w_db ex_set_up) = {[1 := mkUser 1 1 "Root" None "admin" "active" (Some 12) 1 12]}) as E by (vm_compute; reflexivity).
  intros k u Hk. rewrite E in Hk. by apply lookup_singleton_Some in Hk as [<- <-].
Qed.
Lemma ex_set_up_tenants_wf : tenants_wf (w_db ex_set_up).
Proof.
  assert (db_tenants (w_db ex_set_up) = {[1 := mkTenant 1 "acme" "acme" 1]}) as E by (vm_compute; reflexivity).
  intros k u Hk. rewrite E in Hk. by apply lookup_singleton_Some in Hk as [<- <-].
Qed.

Lemma auth_session_sound_witness :
  match (GetUserBySessionTokenHash (hashToken (as_Token ex_session)) 100 ex_logged_in).1 with
  | Ok (Some (user, _)) => ∃ x u t, session_valid (w_db ex_logged_in) (hashToken (as_Token ex_session)) 100 x u t ∧ user = joinedUser u t
  | _ => False
  end.
Proof.
  assert ((λ r, match r with Ok (Some _) => true | _ => false end)
    (GetUserBySessionTokenHash (hashToken (as_Token ex_session)) 100 ex_logged_in).1 = true) as Hk by (vm_compute; reflexivity).
  destruct (GetUserBySessionTokenHash (hashToken (as_Token ex_session)) 100 ex_logged_in) as [r w'] eqn:E.
  pose proof (auth_session_sound _ _ _ r w' E) as Hs. cbn [fst] in Hk |- *. destruct r as [[[user rec]|]|e]; try discriminate Hk.
  destruct Hs as (x & u & t & Hv & Hu & _). exists x, u, t. split; [exact Hv|exact Hu].
Defined.

Lemma auth_login_sound_witness :
  ∃ p u t, credential (w_db ex_set_up) "acme" "root" p u t ∧ as_User ex_session = joinedUser u t.
Proof.
  destruct (proj1 (auth_login_sound ex_sv "" ex_login ex_set_up _ _ eq_refl ex_login_run) ex_session eq_refl) as (p & u & t & [Hc _] & Hu & _).
  exists p, u, t. split; [exact Hc|exact Hu].
Defined.

(** Another login and the logout of another token in between. *)
Definition ex_later : World := run_auth_ops ex_sv "" [OpLogin ex_login; OpLogout "x"] ex_logged_in.

Lemma auth_login_resolves_witness :
  match ResolveSessionUser ex_sv (as_Token ex_session) ex_later with
  | (Ok found, _) => ∃ user rec, found = Some (user, rec) ∧ user_ID user = 1
  | _ => False
  end.
Proof.
  assert (is_ok (ResolveSessionUser ex_sv (as_Token ex_session) ex_later).1 = true) as Hk by (vm_compute; reflexivity).
  destruct (ResolveSessionUser ex_sv (as_Token ex_session) ex_later) as [r w3] eqn:E.
  assert (env_now (w_tick ex_later) < pg_timestamp (as_ExpiresAt ex_session)) as Hn by (vm_compute; reflexivity).
  assert (hashToken "x" ≠ hashToken (as_Token ex_session)) as Hx by (vm_compute; discriminate).
  pose proof (rtc_l _ _ _ _ (later_auth ex_sv "" (hashToken (as_Token ex_session)) (user_ID (as_User ex_session)) (OpLogin ex_login) ex_logged_in I)
    (rtc_once _ _ (later_auth ex_sv "" (hashToken (as_Token ex_session)) (user_ID (as_User ex_session)) (OpLogout "x") _ Hx))) as Hl.
  pose proof (auth_login_resolves ex_sv "" ex_login ex_set_up ex_session ex_logged_in ex_later r w3
    ex_users_wf eq_refl ex_login_run Hl Hn E) as Hr. destruct r as [found|e]; [|discriminate Hk].
  destruct Hr as (user & rec & Hf & Hid & _). exists user, rec. split; [exact Hf|]. rewrite Hid. vm_compute. reflexivity.
Defined.

Lemma auth_logout_final_witness :
  match Logout ex_sv (as_Token ex_session) ex_logged_in with
  | (Ok _, w1) => (ResolveSessionUser ex_sv (as_Token ex_session) w1).1 = Ok None
  | _ => False
  end.
Proof.
  assert (is_ok (Logout ex_sv (as_Token ex_session) ex_logged_in).1 = true) as Hk by (vm_compute; reflexivity).
  assert (is_ok (ResolveSessionUser ex_sv (as_Token ex_session) (Logout ex_sv (as_Token ex_session) ex_logged_in).2).1 = true) as Hk2
    by (vm_compute; reflexivity).
  assert (hashToken (as_Token ex_session) ≠ ""%string) as Hh by (vm_compute; discriminate).
  destruct (Logout ex_sv (as_Token ex_session) ex_logged_in) as [[[]|e] w1] eqn:E; [|discriminate Hk].
  pose proof (proj2 (auth_logout_final ex_sv (as_Token ex_session) ex_logged_in w1 eq_refl Hh E) w1) as Hf. cbn [snd] in Hk2.
  destruct (ResolveSessionUser ex_sv (as_Token ex_session) w1) as [[found|e] w3]; [|discriminate Hk2].
  cbn [fst]. f_equal. exact (Hf found w3 eq_refl eq_refl).
Defined.

Lemma auth_startup_admin_witness :
  match EnsureStartupAdmin "pw" 5 ex_empty with
  | (Ok true, w') => ∃ p u t, credential (w_db w') "default" "admin" p u t ∧ VerifyPassword (pw_PasswordHash p) "pw" = true
  | _ => False
  end.
Proof.
  assert ((λ r, match r with Ok b => b | _ => false end) (EnsureStartupAdmin "pw" 5 ex_empty).1 = true) as Hk by (vm_compute; reflexivity).
  destruct (EnsureStartupAdmin "pw" 5 ex_empty) as [r w'] eqn:E.
  pose proof (auth_startup_admin "pw" 5 ex_empty r w' ex_tenants_wf E) as Hs. cbn [fst] in Hk. destruct r as [[]|e]; [|discriminate Hk..].
  destruct Hs as (_ & _ & p & u & t & Hc & _ & _ & _ & Hv & _). exists p, u, t. split; [exact Hc|exact Hv].
Defined.

Lemma auth_setup_sound_witness :
  setup_available (w_db ex_empty) = true ∧
  ∃ account d1, VerifyPassword (la_PasswordHash account) "correct horse" = true ∧ admin_created (w_db ex_empty) d1 account 1.
Proof.
  destruct (auth_setup_sound ex_sv ex_setup ex_empty ex_setup_session ex_set_up ex_tenants_wf ex_setup_run) as (Ha & _ & account & d1 & Hv & _ & _ & _ & Hc & _).
  split; [exact Ha|]. exists account, d1. split; [exact Hv|exact Hc].
Defined.

Lemma auth_setup_once_witness :
  is_ok (Setup ex_sv ex_setup (run_auth_ops ex_sv "" [OpLogin ex_login; OpLogout "x"] ex_set_up)).1 = false.
Proof.
  destruct (Setup ex_sv ex_setup (run_auth_ops ex_sv "" [OpLogin ex_login; OpLogout "x"] ex_set_up)) as [r w3] eqn:E.
  exact (proj1 (proj1 (auth_setup_once ex_sv "" ex_setup ex_empty ex_setup_session ex_set_up [OpLogin ex_login; OpLogout "x"] ex_setup ex_tenants_wf ex_setup_run)
    r w3 E)).
Defined.

Lemma auth_UpdateUser_isolated_witness :
  match MasterService.UpdateUser ex_sv (as_User ex_session) 1 (mkUserUpdate (Some "R"%string) None None) ex_set_up with
  | (Ok user, _) => user_TenantCode user = "acme"%string
  | _ => False
  end.
Proof.
  assert (is_ok (MasterService.UpdateUser ex_sv (as_User ex_session) 1 (mkUserUpdate (Some "R"%string) None None) ex_set_up).1 = true) as Hk
    by (vm_compute; reflexivity).
  destruct (MasterService.UpdateUser ex_sv (as_User ex_session) 1 (mkUserUpdate (Some "R"%string) None None) ex_set_up) as [r w'] eqn:E.
  pose proof (auth_UpdateUser_isolated ex_sv (as_User ex_session) 1 _ ex_set_up r w' ex_set_up_tenants_wf ex_users_wf E) as Hu.
  destruct r as [user|e]; [|discriminate Hk]. destruct Hu as (_ & _ & Hu). rewrite Hu. vm_compute. reflexivity.
Defined.

End examples.
