(* ===== verification/MasterProps.v ===== *)
(** * Properties of the reading side of the master

    What a principal sees of the hosts: the listing and the single read of any
    host store that satisfies the laws of its interface agree and stay inside
    the tenant and the grant; the projected view of a share or a demo holds the
    granted groups of fields and depends on nothing else of the host. *)

From Stdlib Require Import Ascii SpecFloat.
From stdpp Require Import gmap strings list sorting pretty.
From S2P Require Import Prelude GoRuntime GoStrings Contracts Encoding Access Sql HostStore HostStoreProps Operations.
From S2P Require Import ShareStore AuthStore Interfaces MasterService.
Local Open Scope Z_scope.

(** The grant of a principal. *)
Definition granted (p : Principal) (uid : string) : Prop :=
  IsUser p = true ∨ ((p_Kind p = Share ∨ p_Kind p = Demo) ∧ uid ∈ p_AllowedHosts p).

Lemma AllowsHost_granted p tenant uid :
  AllowsHost p tenant uid = true ↔ tenant = p_TenantCode p ∧ tenant ≠ ""%string ∧ uid ≠ ""%string ∧ granted p uid.
Proof.
  unfold AllowsHost, granted. destruct (_ || _) eqn:E.
  - split; [done|]. intros (-> & Ht & Hu & _). apply str_empty_false in Ht, Hu. rewrite Ht, Hu, str_eqb_refl in E. done.
  - apply orb_false_iff in E as [[Et En%negb_false_iff]%orb_false_iff Eu]. apply str_empty_false in Eu, Et.
    apply str_eqb_true in En as ->. destruct (IsUser p); [naive_solver|]. destruct (_ && _) eqn:Ek.
    + apply andb_true_iff in Ek as [E1%negb_true_iff%str_eqb_false E2%negb_true_iff%str_eqb_false]. naive_solver.
    + rewrite contains_spec. apply andb_false_iff in Ek. rewrite !negb_false_iff, !str_eqb_true in Ek. naive_solver.
Qed.

Section reads.
Context {S : Type} `{HostStoreLaws S}.

Lemma ReadHosts_run p s items s' :
  ReadHosts p s = (Ok items, s') →
  validReader p = true ∧ ∃ all, hss_ListHosts (p_TenantCode p) s = (Ok all, s') ∧
    items = select (λ x, AllowsHost p (hs_TenantCode x) (hs_HostUID x)) all.
Proof.
  unfold ReadHosts, mbind, ST_bind. destruct (validReader p); [|done]. simpl.
  destruct (hss_ListHosts _ s) as [[all|e] s1]; [|done]. intros [= <- <-]. eauto.
Qed.

Lemma validReader_tenant p : validReader p = true → p_TenantCode p ≠ ""%string.
Proof. unfold validReader. intros [Ht _]%andb_true_iff. by apply negb_true_iff, str_empty_false in Ht. Qed.

Lemma elem_of_ReadHosts p s items s' all x :
  hss_inv s → ReadHosts p s = (Ok items, s') → hss_ListHosts (p_TenantCode p) s = (Ok all, s') →
  x ∈ items ↔ x ∈ all ∧ granted p (hs_HostUID x).
Proof.
  intros Hi E El. apply ReadHosts_run in E as (Hv & all' & El' & ->). rewrite El in El'. injection El' as <-.
  apply validReader_tenant in Hv. rewrite elem_of_select, AllowsHost_granted. split; [naive_solver|].
  intros [Hx Hg]. destruct (hss_list_law _ _ _ _ Hi Hv El x Hx) as [Ht Hu]. rewrite Ht. naive_solver.
Qed.

(** C16: a principal reads exactly the hosts of its tenant that it is granted: a
    user all of them, a share or demo principal the ones it lists; nothing is
    read by a principal without tenant, grant or fields. *)
Theorem master_ReadHosts_exact p s items s' :
  hss_inv s → ReadHosts p s = (Ok items, s') →
  validReader p = true ∧ ∃ all, hss_ListHosts (p_TenantCode p) s = (Ok all, s') ∧
    (∀ x, x ∈ items ↔ x ∈ all ∧ granted p (hs_HostUID x)) ∧ ∀ x, x ∈ items → hs_TenantCode x = p_TenantCode p.
Proof.
  intros Hi E. destruct (ReadHosts_run _ _ _ _ E) as (Hv & all & El & _). split; [done|]. exists all. split; [done|].
  assert (∀ x, x ∈ items ↔ x ∈ all ∧ granted p (hs_HostUID x)) as Hx by (intros x; by eapply elem_of_ReadHosts).
  split; [done|]. intros x [Ha _]%Hx. by destruct (hss_list_law _ _ _ _ Hi (validReader_tenant _ Hv) El x Ha).
Qed.

(** Reading one host agrees with reading the list: it returns the host of
    the list with that uid, and reports it missing exactly when the list has
    none, so a host outside the grant is indistinguishable from one that does
    not exist. *)
Theorem master_ReadHost_agrees p uid s items s' r s1 :
  hss_inv s → uid ≠ ""%string → ReadHosts p s = (Ok items, s') → ReadHost p uid s = (Ok r, s1) →
  match r with
  | Some x => x ∈ items ∧ hs_HostUID x = uid
  | None => ∀ y, y ∈ items → hs_HostUID y ≠ uid
  end.
Proof.
  intros Hi Hu E Eh. pose proof E as E'. apply ReadHosts_run in E' as (Hv & all & El & _).
  assert (∀ x, x ∈ items ↔ x ∈ all ∧ granted p (hs_HostUID x)) as Hx by (intros x; by eapply elem_of_ReadHosts).
  pose proof (validReader_tenant _ Hv) as Ht. unfold ReadHost, mbind, ST_bind in Eh. rewrite Hv in Eh. simpl in Eh.
  destruct (AllowsHost p (p_TenantCode p) uid) eqn:Ea; simpl in Eh.
  - destruct (hss_GetHost uid (p_TenantCode p) s) as [[x|e] s2] eqn:Eg; [|done].
    pose proof (hss_get_law _ _ _ _ _ _ _ Hi Ht Hu El Eg) as Hg. apply AllowsHost_granted in Ea as (_ & _ & _ & Ea).
    destruct x as [x|]; [|injection Eh as <- _; intros y [Hy _]%Hx; by apply Hg].
    destruct Hg as [Hx1 Hx2]. destruct (hss_list_law _ _ _ _ Hi Ht El x Hx1) as [Htx Hux].
    assert (AllowsHost p (hs_TenantCode x) (hs_HostUID x) = true) as Hax by (apply AllowsHost_granted; rewrite Htx, Hx2; auto).
    rewrite Hax in Eh. simpl in Eh. injection Eh as <- _. split; [|done]. apply Hx. by rewrite Hx2.
  - injection Eh as <- _. intros y [Hy Hg]%Hx <-. apply not_true_iff_false in Ea. apply Ea, AllowsHost_granted. auto.
Qed.

End reads.

(** ** Projection *)

Definition status_keys : list string :=
  ["agent_state"; "reachability_state"; "service_state"; "overall_state"; "last_agent_seen_at"; "last_probe_at";
   "open_alert_count"; "version"]%string.

(** The keys a view may have. *)
Definition view_keys (p : Principal) (h : HostSnapshot) : gset string :=
  {["host_uid"%string]} ∪ (if AllowsField p "hostname" then {["hostname"%string]} else ∅) ∪
  (if AllowsField p "status" then list_to_set status_keys else ∅) ∪
  (if AllowsField p "metrics" && negb (time_IsZero (hs_LastMetricAt h)) then {["last_metric_at"%string]} ∪ list_to_set MetricKeys else ∅).

(** Two hosts a principal cannot tell apart by what it is granted. *)
Definition view_agree (p : Principal) (h1 h2 : HostSnapshot) : Prop :=
  hs_HostUID h1 = hs_HostUID h2 ∧
  (AllowsField p "hostname" = true → hs_Hostname h1 = hs_Hostname h2) ∧
  (AllowsField p "status" = true →
     hs_AgentState h1 = hs_AgentState h2 ∧ hs_ReachabilityState h1 = hs_ReachabilityState h2 ∧
     hs_ServiceState h1 = hs_ServiceState h2 ∧ hs_OverallState h1 = hs_OverallState h2 ∧
     hs_LastAgentSeenAt h1 = hs_LastAgentSeenAt h2 ∧ hs_LastProbeAt h1 = hs_LastProbeAt h2 ∧
     hs_OpenAlertCount h1 = hs_OpenAlertCount h2 ∧ hs_Version h1 = hs_Version h2) ∧
  (AllowsField p "metrics" = true →
     hs_LastMetricAt h1 = hs_LastMetricAt h2 ∧ digestFromSnapshot h1 = digestFromSnapshot h2).

Lemma dom_assign l m : dom (assign l m) = list_to_set l.*1 ∪ dom m.
Proof.
  unfold assign. revert m. induction l as [|[k v] l IH]; intros m; csimpl; [set_solver|].
  rewrite IH, dom_insert_L. set_solver.
Qed.

Lemma ProjectHost_dom p h m : ProjectHost p h = View m → dom m = view_keys p h.
Proof.
  unfold ProjectHost, view_keys. destruct (IsUser p); [done|]. intros [= <-].
  destruct (AllowsField p "hostname"), (AllowsField p "status"), (AllowsField p "metrics" && _);
    rewrite ?dom_union_L, ?dom_fmap_L, ?DigestMetricValues_dom, ?dom_assign, ?dom_singleton_L; csimpl; set_solver.
Qed.

Lemma ProjectHost_agree p h1 h2 :
  IsUser p = false → view_agree p h1 h2 → ProjectHost p h1 = ProjectHost p h2.
Proof.
  intros Hp (Hu & Hn & Hs & Hm). unfold ProjectHost. rewrite Hp, Hu.
  destruct (AllowsField p "hostname"); [rewrite Hn by done|];
  (destruct (AllowsField p "status"); [destruct Hs as (-> & -> & -> & -> & -> & -> & -> & ->); [done|]|]);
  (destruct (AllowsField p "metrics"); [destruct Hm as [-> ->]; [done|]|]); done.
Qed.

(** A view carries the uid of its host. *)
Lemma ProjectHost_host_uid p h :
  IsUser p = false → ∃ m, ProjectHost p h = View m ∧ m !! "host_uid"%string = Some (JString (hs_HostUID h)).
Proof.
  intros Hp. unfold ProjectHost. rewrite Hp. eexists. split; [done|].
  assert (DigestMetricValues (digestFromSnapshot h) !! "host_uid"%string = None) as Hd.
  { apply not_elem_of_dom. rewrite DigestMetricValues_dom. apply (bool_decide_unpack _). vm_compute. exact I. }
  destruct (AllowsField p "metrics" && _); [rewrite lookup_union_r by (by rewrite lookup_fmap, Hd)|].
  all: destruct (AllowsField p "status"), (AllowsField p "hostname"); cbn [assign foldl];
    by repeat (rewrite lookup_insert_ne by done); rewrite ?lookup_singleton, ?decide_True.
Qed.

(** C17: what a share or a demo shows of a host is limited to its grant: the view
    has the host's uid and the keys of the granted groups (and the metrics only
    once some were reported), and it is the same for any two hosts that agree on
    those groups, so no other field of the host, its tenant, address or labels
    included, influences it.  A user sees the host itself. *)
Theorem master_projection_confined p h :
  (IsUser p = true → ProjectHost p h = FullHost h) ∧
  (IsUser p = false →
     (∃ m, ProjectHost p h = View m ∧ dom m = view_keys p h ∧ m !! "host_uid"%string = Some (JString (hs_HostUID h))) ∧
     ∀ h', view_agree p h h' → ProjectHost p h' = ProjectHost p h).
Proof.
  split; [unfold ProjectHost; by intros ->|]. intros Hp. split; [|intros h' Ha; symmetry; by apply ProjectHost_agree].
  destruct (ProjectHost_host_uid p h Hp) as (m & E & Hu). exists m. split_and!; [done|by apply ProjectHost_dom|done].
Qed.

Section examples.
#[local] Existing Instance Env_quiet.
#[local] Existing Instance PgTypes_exact.
#[local] Instance ex_host_store : HostStateStore World := Postgres_HostStateStore ex_store.
#[local] Instance ex_host_laws : HostStoreLaws World := Postgres_HostStoreLaws ex_store.

Definition ex_share : Principal := mkPrincipal Share 1 "acme" 0 "" "s1" "" "" ["host-a"] ["status"].

Lemma ex_world1_laws : hss_inv ex_world1.
Proof. exact (proj1 ex_world1_inv). Defined.

Lemma master_ReadHosts_exact_witness :
  match ReadHosts ex_share ex_world1 with
  | (Ok items, _) => length items = 1%nat ∧ ∀ x, x ∈ items → hs_TenantCode x = "acme"%string
  | _ => False
  end.
Proof.
  assert (length <$> (ReadHosts ex_share ex_world1).1 = Ok 1%nat) as Hk by (vm_compute; reflexivity).
  destruct (ReadHosts ex_share ex_world1) as [[items|e] w'] eqn:E; [|discriminate Hk].
  injection Hk as Hk. split; [exact Hk|].
  destruct (master_ReadHosts_exact ex_share ex_world1 items w' ex_world1_laws E) as (_ & all & _ & _ & Ht). exact Ht.
Defined.

Lemma master_ReadHost_agrees_witness :
  match ReadHosts ex_share ex_world1, ReadHost ex_share "host-b" ex_world1 with
  | (Ok items, _), (Ok None, _) => ∀ y, y ∈ items → hs_HostUID y ≠ "host-b"%string
  | _, _ => False
  end.
Proof.
  assert (is_ok (ReadHosts ex_share ex_world1).1 = true) as Hk by (vm_compute; reflexivity).
  assert ((λ r, match r with Ok None => true | _ => false end) (ReadHost ex_share "host-b" ex_world1).1 = true) as Hk2 by (vm_compute; reflexivity).
  destruct (ReadHosts ex_share ex_world1) as [[items|e] w'] eqn:E; [|discriminate Hk].
  destruct (ReadHost ex_share "host-b" ex_world1) as [r w1] eqn:E1. cbn [fst] in Hk2.
  destruct r as [[x|]|e]; [discriminate Hk2| |discriminate Hk2].
  assert ("host-b"%string ≠ ""%string) as Hu by discriminate.
  exact (master_ReadHost_agrees ex_share "host-b" ex_world1 items w' None w1 ex_world1_laws Hu E E1).
Defined.

Lemma master_projection_confined_witness :
  ∃ m, ProjectHost ex_share zero_HostSnapshot = View m ∧ m !! "primary_ip"%string = None.
Proof.
  destruct (master_projection_confined ex_share zero_HostSnapshot) as [_ Hc].
  destruct (Hc eq_refl) as [(m & Hm & Hd & _) _]. exists m. split; [exact Hm|].
  apply not_elem_of_dom. rewrite Hd. apply (bool_decide_unpack _). vm_compute. exact I.
Defined.

End examples.
