(* ===== verification/Pipeline.v ===== *)
(** * From the agent to the reader

    Composes the whole path of a report: a cycle of the agent
    ([agent/internal/service]), the stream of the gateway, the ingest service over
    PostgreSQL and Redis, and the reads of the master service. *)

From stdpp Require Import gmap strings list sorting pretty.
From S2P Require Import Prelude GoRuntime GoStrings GoText FloatFacts Contracts Access MetricValidation Wire Sampler Collect.
From S2P Require Import Sql HostStore HostStoreProps MetricWindow EventBus Interfaces Ingest IngestTransport Agent AgentProps MasterService MasterProps.
Local Open Scope Z_scope.

Section pipeline.
Context `{Env} `{PgTypes} `{RedisEnv} `{JsonCodec} `{EventCodec} `{MetricRange}.
Context `{UnicodeTables} `{MapRange} `{GoArch} `{StringsLower} `{MapOrder} `{TimestampPb}.
Context (GOOS : string) (st : PgStore) (ws : WindowStore) (channel : string).

#[local] Instance pipe_hosts : HostStateStore AppWorld := App_HostStateStore st.
#[local] Instance pipe_window : MetricWindow AppWorld := App_MetricWindow ws.
#[local] Instance pipe_bus : EventPublisher AppWorld := App_EventPublisher channel.
#[local] Instance pipe_runtime : Runtime AppWorld := App_Runtime.

(** ** Reading what was recorded *)

(** The host list of a viewer of the host. *)
Lemma read_recorded p snap uid dg now d a items a1 :
  host_wf (w_db (aw_sql a)) → digested dg now d uid snap (w_db (aw_sql a)) →
  granted p uid → p_TenantCode p = hs_TenantCode snap → ReadHosts p a = (Ok items, a1) →
  snap ∈ items ∧ ∀ h, h ∈ items → hs_HostUID h = uid → h = snap.
Proof.
  intros Hwf (hid & h & r & ags & Hd & Hh & Hu & -> & _) Hp Ht E. set (d' := w_db (aw_sql a)) in *.
  assert (db_hosts d' !! hid = Some h) as Hh' by (by rewrite Hd).
  unfold ReadHosts in E. destruct (validReader p) eqn:Ev; [|done]. simpl in E. pose proof (validReader_tenant p Ev) as Hte.
  apply bind_inv in E as [(all & a2 & El & E)|(e & _ & ?)]; [|done]. injection E as <- _.
  assert (all = listing d' "" (p_TenantCode p)) as ->.
  { simpl in El. unfold in_sql in El. destruct (HostStore.ListHosts st _ (aw_sql a)) as [r0 w] eqn:E0. injection El as -> _. by apply ListHosts_run in E0. }
  destruct (wf_host _ Hwf _ _ Hh') as (_ & _ & Hun & t & Htn). split.
  - apply elem_of_select. rewrite AllowsHost_granted, snapshot_of_uid. split_and!; try done; [congruence|by rewrite Hu|].
    apply elem_of_listing; [done|]. exists hid, h. split_and!; auto. right. exists t. split; [done|].
    by rewrite Ht, (snapshot_of_tenant _ _ _ Htn).
  - intros h1 [_ Hin]%elem_of_select Hu1. apply elem_of_listing in Hin as (j & h2 & Hj & -> & _); [|done]. rewrite snapshot_of_uid in Hu1.
    f_equal. eapply hosts_unique; [done..|congruence].
Qed.

(** The latest points of a host. *)
Lemma snapshot_recorded uid snap body a x a1 :
  marshal_snapshot snap = Some body → rd_keys (aw_redis a) !! snapshotKey ws uid = Some (RString body) →
  MasterService.GetMetricSnapshot uid a = (Ok x, a1) → x = Some snap.
Proof.
  intros Hm Hk E. unfold MasterService.GetMetricSnapshot in E. simpl in E. unfold in_redis, MetricWindow.GetMetricSnapshot in E.
  destruct (redis_fault _); [done|]. rewrite Hk, (unmarshal_marshal_snapshot _ _ Hm) in E. by injection E as <- _.
Qed.

(** The histories of a host. *)
Lemma history_recorded uid k body rest pt a hist a1 :
  k ∈ MetricKeys → marshal_point pt = Some body → rd_keys (aw_redis a) !! metricKey ws uid k = Some (RList (body :: rest)) →
  MasterService.GetHostMetricHistory uid a = (Ok hist, a1) → ∃ pts, hist !! k = Some (pts ++ [pt]).
Proof.
  intros Hin Hm Hk E. unfold MasterService.GetHostMetricHistory in E. cbn [mws_GetHostMetricHistory pipe_window App_MetricWindow] in E. unfold in_redis in E.
  destruct (MetricWindow.GetHostMetricHistory ws uid (aw_redis a)) as [r0 x] eqn:E0. injection E as -> _.
  assert (lranges ws uid (rd_keys (aw_redis a)) MetricKeys ≫= decode_history ∅ = Ok hist) as E.
  { revert E0. unfold MetricWindow.GetHostMetricHistory. destruct (redis_fault _); [done|]. intros E0. exact (f_equal fst E0). }
  pose proof (history_ok _ _ _ _ _ _ E) as Hok. destruct (history_spec ws (rd_keys (aw_redis a)) uid MetricKeys ∅ MetricKeys_NoDup Hok) as (hist' & E' & Hh & _).
  assert (hist' = hist) as -> by congruence.
  destruct (stored_points_newest _ _ _ _ _ _ _ (unmarshal_marshal_point _ _ Hm) Hk (Hok _ Hin)) as [pts Hp]. exists pts.
  rewrite (Hh k _ Hin Hp). by destruct pts.
Qed.

(** ** The path of a report *)

(** What the viewers of the host [uid] read in [a] is the batch [req], received at
    [now], and the snapshot [snap]. *)
Record readable_everywhere (uid : string) (req : PushMetricBatchRequest) (now : Time) (snap : HostSnapshot) (a : AppWorld) : Prop := {
  re_list : ∀ p items a1, granted p uid → p_TenantCode p = hs_TenantCode snap → ReadHosts p a = (Ok items, a1) →
    snap ∈ items ∧ ∀ h, h ∈ items → hs_HostUID h = uid → h = snap;
  re_latest : ∀ x a1, MasterService.GetMetricSnapshot uid a = (Ok x, a1) → x = Some (batch_snapshot req now);
  re_history : ∀ hist a1 k v, MasterService.GetHostMetricHistory uid a = (Ok hist, a1) → DigestMetricValues (digestFromMetricBatch req) !! k = Some v →
    ∃ pts, hist !! k = Some (pts ++ [mkStatePoint now v])
}.

(** C27: what an agent reports is what its viewers read.  When a cycle of an agent
    that the server knows succeeds, over a stream whose other end is the ingest
    service on PostgreSQL and Redis, the batch it sent was valid, the host's row
    has its digest and no other row changed, one event with the new snapshot
    went to the bus, and from then on every read that succeeds shows it: the host
    list of everyone who may see the host has exactly this snapshot for it, the
    latest points are the points of the batch, and each of the sixteen histories
    ends with its value. *)
Theorem agent_report_visible a cy req a' s :
  store_inv (app_db s) (app_seq s) → window_ok ws →
  ag_hostUID a ≠ ""%string → ag_agentID a ≠ ""%string → known_agent (app_db s) (ag_hostUID a) (ag_agentID a) →
  sendCycle GOOS a cy = (Ok (), Some req, a') → cy_send cy = None → cy_recv cy = (server_reply req s).1 →
  let batch := fromProtoPushMetricBatchRequest req in
  let s' := (server_reply req s).2 in
  batch_ok batch ∧ pm_HostUID batch = ag_hostUID a ∧
  ∃ now snap msg, digested (digestFromMetricBatch batch) now (app_db s) (ag_hostUID a) snap (app_db s') ∧
    app_published s' = app_published s ++ [(channel, msg)] ∧
    unmarshal_event msg = Some (mkHostEvent HostEventUpsert (ag_hostUID a) (Some snap)) ∧
    readable_everywhere (ag_hostUID a) batch now snap (sv_env s').
Proof.
  intros HI Hws Hu Ha Hk E Hs Hr batch s'.
  assert (pm_HostUID batch = ag_hostUID a ∧ pm_AgentID batch = ag_agentID a ∧ is_ok (PushMetricBatch batch s).1 = true) as (Hbu & Hba & Hok).
  { revert E. unfold sendCycle. destruct (Sample _ _ _ _) as [m sm]. unfold pushMetrics. intros E.
    apply pushMetricsGRPC_answer in E as [Hreq E]; [|done]. apply str_empty_false in Hu, Ha.
    split_and!; [unfold batch; rewrite Hreq; simpl; by rewrite ?Hu, ?Ha..|].
    rewrite Hr, server_reply_eq in E. fold batch in E. destruct (PushMetricBatch batch s) as [[resp|e] s1]; [done|]. simpl in E. by destruct E. }
  unfold s'. rewrite server_reply_eq. fold batch. destruct (PushMetricBatch batch s) as [[resp|e] s1] eqn:Ep; [|done]. simpl.
  destruct (ingest_batch_recorded st ws channel batch s resp s1 HI Hws) as (Hb & now & snap & Hd & Hw & (body & Hm & Hkey) & (msg & Hp & Hmsg) & Hwf);
    [by rewrite Hbu|by rewrite Hba|by rewrite Hbu, Hba|exact Ep|].
  rewrite Hbu in *. split_and!; [done..|]. exists now, snap, msg. split_and!; [done..| |].
  - destruct Hd as (hid & h & r & ags & _ & _ & Hhu & -> & _). by rewrite snapshot_of_uid, Hhu in Hmsg.
  - split.
    + intros p items a1. by apply (read_recorded p snap _ (digestFromMetricBatch batch) now (app_db s) (sv_env s1)).
    + intros x a1. by eapply snapshot_recorded.
    + intros hist a1 k v Eh Hv. destruct (Hw k v Hv) as (b & rest & Hbm & Hbk & _). eapply history_recorded; [|done..].
      apply DigestMetricValues_lookup in Hv. rewrite <-(digest_metric_entries_keys (digestFromMetricBatch batch)). apply list_elem_of_fmap. by exists (k, v).
Qed.

End pipeline.

(** ** An example *)

Section examples.
#[local] Existing Instance StringsLower_bytes.
#[local] Existing Instance UnicodeCase_ascii.
#[local] Existing Instance MapOrder_keys.
#[local] Existing Instance GoArch_amd64.
#[local] Existing Instance TimestampPb_unix.
#[local] Existing Instance Env_quiet.
#[local] Existing Instance PgTypes_exact.
#[local] Existing Instance BitCodec.
#[local] Existing Instance Redis_quiet.
#[local] Existing Instance MetricRange_keys.
#[local] Existing Instance MapRange_keys.

(** A host the example store knows, and what its agent sends. *)
Definition ex_reporter : Agent := New (ex_identity "host-a" "acme") "agent-1" (ex_at 5) "/".
Definition ex_report : pb.PushMetricBatchRequest :=
  default (ex_pb_batch "m") (sendCycle "linux" ex_reporter (ex_cycle (Err Internal))).1.2.

(** The event the report publishes, and a codec that knows it. *)
Definition ex_report_event : HostEvent :=
  let batch := fromProtoPushMetricBatchRequest ex_report in
  match (ReportMetrics ex_store batch (digestFromMetricBatch batch) (env_now (w_tick ex_world1)) (tick ex_world1)).1 with
  | Ok snap => mkHostEvent HostEventUpsert (hs_HostUID snap) (Some snap)
  | Err _ => mkHostEvent HostEventDelete "" None
  end.
#[local] Instance ex_report_codec : EventCodec := OneEventCodec ex_report_event.

#[local] Instance ex_pipe_hosts : HostStateStore AppWorld := App_HostStateStore ex_store.
#[local] Instance ex_pipe_window : MetricWindow AppWorld := App_MetricWindow ex_window_store.
#[local] Instance ex_pipe_bus : EventPublisher AppWorld := App_EventPublisher "c".
#[local] Instance ex_pipe_runtime : Runtime AppWorld := App_Runtime.

Definition ex_replied : result rpcCode pb.MetricBatchAck * Svc AppWorld := server_reply ex_report ex_app.
Definition ex_delivered : cycle := ex_cycle ex_replied.1.

Lemma agent_report_visible_witness :
  let batch := fromProtoPushMetricBatchRequest ex_report in
  length (app_published ex_replied.2) = S (length (app_published ex_app)) ∧
  ∃ now snap, digested (digestFromMetricBatch batch) now (app_db ex_app) "host-a" snap (app_db ex_replied.2) ∧
    (MasterService.GetMetricSnapshot "host-a" (sv_env ex_replied.2)).1 = Ok (Some (batch_snapshot batch now)).
Proof.
  assert ((sendCycle "linux" ex_reporter ex_delivered).1 = (Ok (), Some ex_report)) as Hq by (vm_compute; reflexivity).
  destruct (sendCycle "linux" ex_reporter ex_delivered) as [p a'] eqn:E. cbn [fst] in Hq. subst p.
  assert (is_ok (MasterService.GetMetricSnapshot "host-a" (sv_env ex_replied.2)).1 = true) as Hr by (vm_compute; reflexivity).
  destruct (agent_report_visible "linux" ex_store ex_window_store "c" ex_reporter ex_delivered ex_report a' ex_app
    ex_world1_inv (NewMetricWindowStore_ok _ _ _)) as (_ & _ & now & snap & msg & Hd & Hp & _ & Hv);
    [discriminate|discriminate|exact ex_known|exact E|reflexivity|reflexivity|].
  split.
  - etransitivity; [exact (f_equal length Hp)|]. rewrite length_app. apply Nat.add_1_r.
  - exists now, snap. split; [exact Hd|].
    destruct (MasterService.GetMetricSnapshot "host-a" (sv_env ex_replied.2)) as [[x|e] a1] eqn:Es; [|discriminate Hr].
    cbn [fst]. f_equal. exact (re_latest _ _ _ _ _ _ _ Hv x a1 Es).
Defined.

End examples.
