(* ===== verification/ServerConfig.v ===== *)
(** * Configuration of the unified server

    Models [server/internal/config/config.go]: the configuration of the master
    module and of the listeners, the probe and the web directory.  The file is
    read twice; the three uses of [yaml.Unmarshal] are parameters. *)

From stdpp Require Import gmap strings list sorting pretty.
From Stdlib Require Import Ascii.
From S2P Require Import Prelude GoRuntime GoStrings GoText NetText Contracts MasterConfig.
Local Open Scope Z_scope.

Record Config := mkServerConfig {
  sc_WebDir : string; sc_Master : MasterConfig.Config; sc_GRPCAddr : string; sc_ProbeIntervalSec : Z; sc_ProbeTargetURL : string;
  sc_RedisNamespace : string
}.

(** The listen address alone, and the fields of the server; the master's
    configuration is not one of them. *)
Class ServerYaml := {
  unmarshal_listen : string → option string;
  unmarshal_server : string → Config → option Config;
  unmarshal_server_master : ∀ raw c c', unmarshal_server raw c = Some c' → sc_Master c' = sc_Master c
}.

(** [cfg.Master.HTTPAddr = addr]. *)
Definition with_HTTPAddr (c : MasterConfig.Config) (addr : string) : MasterConfig.Config :=
  MasterConfig.mkConfig addr (mc_RuntimeBackend c) (mc_PostgresDSN c) (mc_RedisAddr c) (mc_RedisPassword c) (mc_RedisDB c) (mc_TenantCode c)
    (mc_TenantName c) (mc_AllowCustomTenantCode c) (mc_SessionCookieName c) (mc_SessionSecret c) (mc_SessionTTLHours c) (mc_SetupToken c)
    (mc_SessionCookieSecure c) (mc_AllowedOrigins c) (mc_DemoTenantCode c) (mc_DemoHostUIDs c) (mc_DemoFields c).

(** The three variables of the environment. *)
Record environment := mkEnvironment { en_HTTPAddr : string; en_GRPCAddr : string; en_WebDir : string; en_SetupToken : string }.

Definition first_set (a b : string) : string := if negb (str_empty a) then a else b.

Section config.
Context `{UrlParse} `{MasterYaml} `{ServerYaml} `{MapOrder}.

(** A host and a numeric port. *)
Definition validAddr (addr : string) : option string :=
  match SplitHostPort addr with
  | None => Some ": expected host:port"%string
  | Some (_, port) =>
      match ParseInt port with
      | None => Some " port"%string
      | Some n => if (n <? 0) || (65535 <? n) then Some " port"%string else None
      end
  end.

(** The loop over the two addresses, in the order of the map. *)
Fixpoint validateAddrs (l : list (string * string)) : result string unit :=
  match l with
  | [] => Ok ()
  | (name, addr) :: l =>
      match validAddr addr with
      | Some what => Err ("invalid " +:+ name +:+ what)
      | None => validateAddrs l
      end
  end.

Definition probe_url_ok (target : string) : bool :=
  match url_Parse target with
  | None => false
  | Some u => (str_eqb (u_Scheme u) "http" || str_eqb (u_Scheme u) "https") && negb (str_empty (u_Host u)) && negb (u_User u)
  end.

Definition Validate (c : Config) : result string unit :=
  match MasterConfig.Validate (sc_Master c) with
  | Err m => Err m
  | Ok _ =>
      if negb (str_eqb (mc_RuntimeBackend (sc_Master c)) "pg_redis") then Err "unified server requires runtime_backend: pg_redis"%string else
      match validateAddrs (map_order {["http_addr"%string := mc_HTTPAddr (sc_Master c); "grpc_addr"%string := sc_GRPCAddr c]}) with
      | Err m => Err m
      | Ok _ =>
          if sc_ProbeIntervalSec c <=? 0 then Err "probe interval must be positive"%string else
          if negb (str_empty (sc_ProbeTargetURL c)) && negb (probe_url_ok (sc_ProbeTargetURL c))
          then Err "probe_target_url must be an HTTP(S) URL without credentials"%string else Ok ()
      end
  end.

(** [raw1] and [raw2]: what the two reads of the file returned. *)
Definition Load (raw1 raw2 : option string) (en : environment) : result loadError Config :=
  match LoadFromFile raw1 (en_SetupToken en) with
  | Err e => Err e
  | Ok master =>
      match raw2 with
      | None => Err ReadFailed
      | Some raw =>
          match unmarshal_listen raw with
          | None => Err ParseFailed
          | Some listen =>
              let master := if str_empty listen then with_HTTPAddr master "0.0.0.0:9090" else master in
              match unmarshal_server raw (mkServerConfig "" master "0.0.0.0:9091" 15 "" "") with
              | None => Err ParseFailed
              | Some cfg =>
                  let cfg := mkServerConfig (first_set (en_WebDir en) (sc_WebDir cfg))
                    (with_HTTPAddr (sc_Master cfg) (first_set (en_HTTPAddr en) (mc_HTTPAddr (sc_Master cfg))))
                    (first_set (en_GRPCAddr en) (sc_GRPCAddr cfg)) (sc_ProbeIntervalSec cfg) (sc_ProbeTargetURL cfg) (sc_RedisNamespace cfg) in
                  match Validate cfg with
                  | Err m => Err (Invalid m)
                  | Ok _ => Ok cfg
                  end
              end
          end
      end
  end.

(** ** Properties *)

(** An address the listeners accept. *)
Definition addr_ok (addr : string) : Prop :=
  ∃ host port n, SplitHostPort addr = Some (host, port) ∧ ParseInt port = Some n ∧ 0 ≤ n ≤ 65535.

Lemma validAddr_spec addr : validAddr addr = None ↔ addr_ok addr.
Proof.
  unfold validAddr, addr_ok. destruct (SplitHostPort addr) as [[host port]|] eqn:E; [|split; [done|intros (?&?&?&?&?); done]].
  destruct (ParseInt port) as [n|] eqn:En; [|split; [done|intros (?&?&?&[= <- <-]&?&?); congruence]].
  destruct (_ || _) eqn:Eb; split; try done.
  - intros (?&?&?&[= <- <-]&?&?). assert (x1 = n) by congruence. lia.
  - intros _. exists host, port, n. split_and!; [done..|lia|lia].
Qed.

Lemma validateAddrs_spec l : validateAddrs l = Ok () ↔ Forall (λ x, addr_ok x.2) l.
Proof.
  induction l as [|[name addr] l IH]; simpl; [done|]. rewrite Forall_cons. simpl. pose proof (validAddr_spec addr) as Ha.
  destruct (validAddr addr); [|naive_solver]. split; [done|]. intros [Hx%Ha _]. done.
Qed.

(** Whatever the order of the map, both addresses are checked. *)
Lemma validate_both a b :
  validateAddrs (map_order {["http_addr"%string := a; "grpc_addr"%string := b]}) = Ok () ↔ addr_ok a ∧ addr_ok b.
Proof.
  rewrite validateAddrs_spec, map_order_Permutation, map_to_list_insert, map_to_list_singleton; [rewrite !Forall_cons, Forall_nil; naive_solver|].
  by rewrite lookup_singleton_None.
Qed.

Record server_ok (c : Config) : Prop := {
  so_master : required_ok (sc_Master c) ∧ scopes_ok (sc_Master c);
  so_backend : mc_RuntimeBackend (sc_Master c) = "pg_redis"%string;
  so_http : addr_ok (mc_HTTPAddr (sc_Master c));
  so_grpc : addr_ok (sc_GRPCAddr c);
  so_interval : 0 < sc_ProbeIntervalSec c;
  so_probe : sc_ProbeTargetURL c = ""%string ∨ probe_url_ok (sc_ProbeTargetURL c) = true
}.

Lemma server_Validate_spec c : Validate c = Ok () ↔ server_ok c.
Proof.
  unfold Validate. pose proof (Validate_spec (sc_Master c)) as Hm. destruct (MasterConfig.Validate (sc_Master c)) as [[]|m].
  2: { split; [done|]. intros [H' _ _ _ _ _]. apply Hm in H'. done. }
  pose proof (validate_both (mc_HTTPAddr (sc_Master c)) (sc_GRPCAddr c)) as Ha. split.
  - destruct (str_eqb _ _) eqn:Eb; [|done]. simpl. destruct (validateAddrs _) as [[]|]; [|done].
    destruct (Z.leb_spec (sc_ProbeIntervalSec c) 0); [done|]. destruct (_ && _) eqn:Ep; [done|]. intros _.
    destruct (proj1 Ha eq_refl) as [Hh Hg]. split; [by apply Hm|by apply str_eqb_true|done..|].
    apply andb_false_iff in Ep as [Ep|Ep]; apply negb_false_iff in Ep; [left; by apply str_empty_true|by right].
  - intros [_ -> Hh Hg Hi Hp]. rewrite str_eqb_refl. simpl. rewrite (proj2 Ha) by done.
    destruct (Z.leb_spec (sc_ProbeIntervalSec c) 0); [lia|]. destruct Hp as [-> | ->]; [done|]. by rewrite andb_false_r.
Qed.

(** What the unified server runs with: a loaded configuration is valid in
    every respect, whatever the order in which the addresses are checked; both
    listeners have a host and a port in range, and the addresses come from the
    environment first, then from the file, then from the defaults. *)
Theorem server_config_loaded raw1 raw2 en c :
  Load raw1 raw2 en = Ok c →
  server_ok c ∧
  ∃ master raw listen file, LoadFromFile raw1 (en_SetupToken en) = Ok master ∧ raw2 = Some raw ∧ unmarshal_listen raw = Some listen ∧
    unmarshal_server raw (mkServerConfig "" (if str_empty listen then with_HTTPAddr master "0.0.0.0:9090" else master) "0.0.0.0:9091" 15 "" "") = Some file ∧
    mc_HTTPAddr (sc_Master c) = first_set (en_HTTPAddr en) (if str_empty listen then "0.0.0.0:9090"%string else mc_HTTPAddr master) ∧
    sc_GRPCAddr c = first_set (en_GRPCAddr en) (sc_GRPCAddr file) ∧ sc_WebDir c = first_set (en_WebDir en) (sc_WebDir file) ∧
    with_HTTPAddr (sc_Master c) "" = with_HTTPAddr master "".
Proof.
  unfold Load. destruct (LoadFromFile raw1 (en_SetupToken en)) as [master|] eqn:Em; [|done]. destruct raw2 as [raw|]; [|done].
  destruct (unmarshal_listen raw) as [listen|] eqn:El; [|done]. cbv zeta. destruct (unmarshal_server raw _) as [file|] eqn:Ef; [|done].
  destruct (Validate _) as [[]|] eqn:Ev; [|done]. intros [= <-]. apply server_Validate_spec in Ev. split; [done|].
  pose proof (unmarshal_server_master _ _ _ Ef) as Hm. simpl in Hm.
  exists master, raw, listen, file. split_and!; try done; simpl; rewrite Hm; by destruct (str_empty listen).
Qed.

End config.

(** ** Examples *)

Section examples.
#[local] Existing Instance MapOrder_keys.
#[local] Existing Instance ex_master_yaml.
#[local] Existing Instance ex_master_url.
#[local, refine] Instance ex_server_yaml : ServerYaml := {|
  unmarshal_listen _ := Some ""%string;
  unmarshal_server _ c := Some (mkServerConfig "/srv/web" (sc_Master c) (sc_GRPCAddr c) 30 "" "")
|}.
Proof. intros raw c c' E. injection E as <-. reflexivity. Defined.
Definition ex_env : environment := mkEnvironment "" "127.0.0.1:7000" "" ex_token.

Lemma server_config_loaded_witness :
  match Load (Some "yaml"%string) (Some "yaml"%string) ex_env with
  | Ok c => server_ok c ∧ mc_HTTPAddr (sc_Master c) = "0.0.0.0:9090"%string ∧ sc_GRPCAddr c = "127.0.0.1:7000"%string
  | Err _ => False
  end.
Proof.
  destruct (Load (Some "yaml"%string) (Some "yaml"%string) ex_env) as [c|e] eqn:E; [|vm_compute in E; discriminate E].
  destruct (server_config_loaded _ _ _ _ E) as (Hs & master & raw & listen & file & _ & _ & Hl & _ & Hh & Hg & _).
  injection Hl as <-. split; [exact Hs|]. split; [exact Hh|exact Hg].
Defined.

End examples.
