(* ===== verification/AuthGuard.v ===== *)
(** * The limits on authentication work

    Models [server/internal/master/transport/http/auth_limits.go]: the per-peer
    quota of authentication attempts, a map under a mutex, and the four slots
    for authentication work in progress, a buffered channel.  A request is two
    steps of the machine at the end: its arrival and, when admitted, its end. *)

From Stdlib Require Import Ascii.
From stdpp Require Import gmap strings list relations.
From S2P Require Import Prelude GoRuntime GoStrings.
Local Open Scope Z_scope.

Record authAttempt := mkAttempt { aa_started : Time; aa_count : Z }.

Record authGuard := mkGuard {
  g_attempts : gmap string authAttempt;
  g_slots : nat       (* slots of the channel of capacity 4 that are taken *)
}.

Definition newAuthGuard : authGuard := mkGuard ∅ 0.

(** The loop that deletes the attempts of a minute ago. *)
Definition purge (now : Time) (m : gmap string authAttempt) : gmap string authAttempt :=
  filter (λ '(_, a), (Minute <=? time_Sub now (aa_started a)) = false) m.

Definition allow (g : authGuard) (peer : string) (now : Time) : bool * authGuard :=
  let m := purge now (g_attempts g) in
  let g0 := mkGuard m (g_slots g) in
  let take a :=
    if 20 <=? aa_count a then (false, g0)
    else (true, mkGuard (<[peer := mkAttempt (aa_started a) (aa_count a + 1)]> m) (g_slots g)) in
  match m !! peer with
  | Some a => take a
  | None => if 1024 <=? Z.of_nat (size m) then (false, g0) else take (mkAttempt now 0)
  end.

(** ** [net.SplitHostPort] *)

(** The first index of a byte, and the last. *)
Fixpoint index_byte (b : ascii) (l : list ascii) : option nat :=
  match l with
  | [] => None
  | c :: l => if bool_decide (c = b) then Some O else S <$> index_byte b l
  end.
Definition last_index_byte (b : ascii) (l : list ascii) : option nat :=
  (λ i, length l - 1 - i)%nat <$> index_byte b (reverse l).
Definition has_byte (b : ascii) (l : list ascii) : bool := bool_decide (is_Some (index_byte b l)).

Definition SplitHostPort (hostport : string) : option (string * string) :=
  let l := bytes hostport in
  match last_index_byte ":"%char l with
  | None => None
  | Some i =>
      let finish host j k :=
        if has_byte "["%char (drop j l) then None else
        if has_byte "]"%char (drop k l) then None else
        Some (of_bytes host, of_bytes (drop (S i) l)) in
      if bool_decide (head l = Some "["%char) then
        match index_byte "]"%char l with
        | None => None
        | Some e => if bool_decide (S e = i) then finish (take (e - 1) (drop 1 l)) 1%nat (S e) else None
        end
      else if has_byte ":"%char (take i l) then None else finish (take i l) O O
  end.

(** The peer of a request. *)
Definition peer_of (remoteAddr : string) : string :=
  match SplitHostPort remoteAddr with Some (host, _) => host | None => remoteAddr end.

Example SplitHostPort_v4 : SplitHostPort "10.0.0.1:4000" = Some ("10.0.0.1", "4000")%string.
Proof. vm_compute. reflexivity. Qed.
Example SplitHostPort_v6 : SplitHostPort "[::1]:80" = Some ("::1", "80")%string.
Proof. vm_compute. reflexivity. Qed.
Example SplitHostPort_bare : SplitHostPort "::1" = None ∧ SplitHostPort "host" = None ∧ SplitHostPort "[::1]" = None.
Proof. vm_compute. done. Qed.

(** ** [limitAuthWork] *)

Inductive verdict := TooManyAttempts | Busy | Proceed.
#[export] Instance verdict_eq_dec : EqDecision verdict.
Proof. solve_decision. Defined.

(** The arrival of a request. *)
Definition limitAuthWork (g : authGuard) (remoteAddr : string) (now : Time) : verdict * authGuard :=
  let '(ok, g) := allow g (peer_of remoteAddr) now in
  if negb ok then (TooManyAttempts, g) else
  if (g_slots g <? 4)%nat then (Proceed, mkGuard (g_attempts g) (S (g_slots g))) else (Busy, g).

(** The deferred release of an admitted request, whichever way its handler ends. *)
Definition release (g : authGuard) : authGuard := mkGuard (g_attempts g) (Nat.pred (g_slots g)).

(** The guard and the requests whose handlers run. *)
Record guard_state := mkGuardState { gs_guard : authGuard; gs_running : list string }.

Inductive guard_step : guard_state → guard_state → Prop :=
| step_started g g' running remoteAddr now :
    limitAuthWork g remoteAddr now = (Proceed, g') →
    guard_step (mkGuardState g running) (mkGuardState g' (remoteAddr :: running))
| step_rejected g g' running remoteAddr now v :
    limitAuthWork g remoteAddr now = (v, g') → v ≠ Proceed →
    guard_step (mkGuardState g running) (mkGuardState g' running)
| step_finished g l1 remoteAddr l2 :
    guard_step (mkGuardState g (l1 ++ remoteAddr :: l2)) (mkGuardState (release g) (l1 ++ l2)).

(** ** The quota *)

(** The entry of [p] after a call for [peer] at [now]. *)
Definition live (now : Time) (a : authAttempt) : Prop := now - aa_started a < Minute.

Lemma purge_lookup now m p a : purge now m !! p = Some a ↔ m !! p = Some a ∧ live now a.
Proof.
  unfold purge, live. rewrite map_lookup_filter_Some, Z.leb_gt. simpl. split; intros [Hp Hl]; (split; [done|]).
  - pose proof (time_Sub_ge now (aa_started a) Minute) as Hg. unfold Minute, Second, int64_min, int64_max in *. lia.
  - pose proof (time_Sub_ge now (aa_started a) Minute) as Hg. unfold Minute, Second, int64_min, int64_max in *. lia.
Qed.

Lemma purge_size now m : (size (purge now m) ≤ size m)%nat.
Proof. apply map_subseteq_size, map_filter_subseteq. Qed.

(** What a call does to the entry of every peer. *)
Lemma allow_lookup g peer now :
  let '(ok, g') := allow g peer now in
  (∀ p, p ≠ peer → g_attempts g' !! p = purge now (g_attempts g) !! p) ∧
  (ok = false → g_attempts g' = purge now (g_attempts g)) ∧
  (ok = true → ∃ s c, g_attempts g' !! peer = Some (mkAttempt s (c + 1)) ∧ c < 20 ∧
     match purge now (g_attempts g) !! peer with
     | Some a => a = mkAttempt s c
     | None => s = now ∧ c = 0 ∧ (size (purge now (g_attempts g)) < 1024)%nat
     end).
Proof.
  unfold allow. destruct (purge now (g_attempts g) !! peer) as [[s c]|] eqn:E; simpl.
  - destruct (20 <=? c) eqn:Ec; simpl; bool_to_prop; [by split_and!|]. split_and!; [|done|].
    + intros p Hp. by rewrite lookup_insert_ne.
    + intros _. exists s, c. by rewrite lookup_insert, decide_True.
  - destruct (1024 <=? _) eqn:Es; simpl; bool_to_prop; [by split_and!|]. split_and!; [|done|].
    + intros p Hp. by rewrite lookup_insert_ne.
    + intros _. exists now, 0. rewrite lookup_insert, decide_True by done. split_and!; try done. lia.
Qed.

(** A sequence of calls: how many were allowed for [p]. *)
Fixpoint allowed_for (p : string) (calls : list (string * Time)) (g : authGuard) : nat :=
  match calls with
  | [] => 0
  | (peer, now) :: calls =>
      let '(ok, g') := allow g peer now in
      ((if ok && str_eqb peer p then 1 else 0) + allowed_for p calls g')%nat
  end.

Definition in_minute (a : Time) (calls : list (string * Time)) : Prop := Forall (λ c, a ≤ c.2 < a + Minute) calls.

(** In a window that started inside the minute only the rest of its quota is left. *)
Lemma allowed_window p calls a s c g :
  in_minute a calls → a ≤ s → 0 ≤ c ≤ 20 → g_attempts g !! p = Some (mkAttempt s c) →
  Z.of_nat (allowed_for p calls g) ≤ 20 - c.
Proof.
  intros Hm Hs. revert c g. induction Hm as [|[peer now] calls Hnow _ IH]; intros c g Hc Hg; simpl; [lia|].
  assert (purge now (g_attempts g) !! p = Some (mkAttempt s c)) as Hp.
  { apply purge_lookup. split; [done|]. unfold live. simpl in *. lia. }
  pose proof (allow_lookup g peer now) as Ha. destruct (allow g peer now) as [ok g'].
  destruct Ha as (Hother & Hfalse & Htrue). destruct (decide (peer = p)) as [->|Hne].
  - rewrite str_eqb_refl, andb_true_r. destruct ok.
    + destruct Htrue as (s' & c' & Hg' & Hc' & Hm); [done|]. rewrite Hp in Hm. injection Hm as <- <-.
      assert (Z.of_nat (allowed_for p calls g') ≤ 20 - (c + 1)); [apply IH; [lia|done]|lia].
    + apply IH; [done|]. by rewrite Hfalse.
  - rewrite str_eqb_neq, andb_false_r by done. apply IH; [done|]. by rewrite Hother.
Qed.

Lemma allowed_fresh p calls a g :
  in_minute a calls → g_attempts g !! p = None → (allowed_for p calls g ≤ 20)%nat.
Proof.
  intros Hm. revert g. induction Hm as [|[peer now] calls Hnow Hm IH]; intros g Hg; simpl; [lia|].
  assert (purge now (g_attempts g) !! p = None) as Hp.
  { destruct (purge _ _ !! p) eqn:E; [|done]. apply purge_lookup in E as [E _]. congruence. }
  pose proof (allow_lookup g peer now) as Ha. destruct (allow g peer now) as [ok g'].
  destruct Ha as (Hother & Hfalse & Htrue). destruct (decide (peer = p)) as [->|Hne].
  - rewrite str_eqb_refl, andb_true_r. destruct ok; [|apply IH; by rewrite Hfalse].
    destruct Htrue as (s' & c' & Hg' & Hc' & Hx); [done|]. rewrite Hp in Hx. destruct Hx as (-> & -> & _).
    pose proof (allowed_window p calls a now (0 + 1) g' Hm) as Hw. simpl in *. specialize (Hw ltac:(lia) ltac:(lia) Hg'). lia.
  - rewrite str_eqb_neq, andb_false_r by done. apply IH. by rewrite Hother.
Qed.

(** The quota a peer has at the start adds to a fresh one. *)
Lemma allowed_any p calls a s c g :
  in_minute a calls → 0 ≤ c ≤ 20 → g_attempts g !! p = Some (mkAttempt s c) →
  Z.of_nat (allowed_for p calls g) ≤ 40 - c.
Proof.
  intros Hm. revert c g. induction Hm as [|[peer now] calls Hnow Hm IH]; intros c g Hc Hg; simpl; [lia|].
  pose proof (allow_lookup g peer now) as Ha. destruct (allow g peer now) as [ok g'].
  destruct Ha as (Hother & Hfalse & Htrue).
  destruct (purge now (g_attempts g) !! p) as [x|] eqn:Hp.
  - apply purge_lookup in Hp as Hx. destruct Hx as [Hx _]. rewrite Hg in Hx. injection Hx as <-.
    destruct (decide (peer = p)) as [->|Hne].
    + rewrite str_eqb_refl, andb_true_r. destruct ok; [|apply IH; [done|by rewrite Hfalse]].
      destruct Htrue as (s' & c' & Hg' & Hc' & Hx); [done|]. rewrite Hp in Hx. injection Hx as <- <-.
      assert (Z.of_nat (allowed_for p calls g') ≤ 40 - (c + 1)); [apply IH; [lia|done]|lia].
    + rewrite str_eqb_neq, andb_false_r by done. apply IH; [done|]. by rewrite Hother.
  - destruct (decide (peer = p)) as [->|Hne].
    + rewrite str_eqb_refl, andb_true_r. destruct ok.
      * destruct Htrue as (s' & c' & Hg' & Hc' & Hx); [done|]. rewrite Hp in Hx. destruct Hx as (-> & -> & _).
        pose proof (allowed_window p calls a now (0 + 1) g' Hm) as Hw. simpl in *. specialize (Hw ltac:(lia) ltac:(lia) Hg'). lia.
      * assert (allowed_for p calls g' ≤ 20)%nat; [|lia]. apply (allowed_fresh p calls a); [done|]. by rewrite Hfalse.
    + rewrite str_eqb_neq, andb_false_r by done.
      assert (allowed_for p calls g' ≤ 20)%nat; [|lia]. apply (allowed_fresh p calls a); [done|]. by rewrite Hother.
Qed.

(** ** The invariant *)

Definition guard_wf (g : authGuard) : Prop :=
  (size (g_attempts g) ≤ 1024)%nat ∧ ∀ p a, g_attempts g !! p = Some a → 1 ≤ aa_count a ≤ 20.

Lemma allow_slots g peer now : g_slots (allow g peer now).2 = g_slots g.
Proof. unfold allow. by repeat case_match. Qed.

Lemma allow_wf g peer now : guard_wf g → guard_wf (allow g peer now).2.
Proof.
  intros [Hs Hc]. pose proof (purge_size now (g_attempts g)) as Hp. unfold allow.
  assert (∀ p a, purge now (g_attempts g) !! p = Some a → 1 ≤ aa_count a ≤ 20) as Hc'.
  { intros p a [Ha _]%purge_lookup. by eapply Hc. }
  destruct (purge now (g_attempts g) !! peer) as [[s c]|] eqn:E; simpl.
  - destruct (20 <=? c) eqn:Ec; simpl; bool_to_prop; split; simpl; [lia|done| |].
    + rewrite map_size_insert_Some by (by eexists). lia.
    + intros p a [[_ <-]|[_ Ha]]%lookup_insert_Some; [|by eapply Hc']. apply Hc' in E. simpl in *. lia.
  - destruct (1024 <=? _) eqn:Es; simpl; bool_to_prop; split; simpl; [lia|done| |].
    + rewrite map_size_insert_None by done. lia.
    + intros p a [[_ <-]|[_ Ha]]%lookup_insert_Some; [simpl; lia|by eapply Hc'].
Qed.

Lemma limitAuthWork_wf g remoteAddr now v g' :
  limitAuthWork g remoteAddr now = (v, g') → guard_wf g →
  guard_wf g' ∧ g_slots g' = (if decide (v = Proceed) then S (g_slots g) else g_slots g) ∧
  (v = Proceed → (g_slots g < 4)%nat).
Proof.
  unfold limitAuthWork. intros E Hw. pose proof (allow_wf g (peer_of remoteAddr) now Hw) as Hw'.
  pose proof (allow_slots g (peer_of remoteAddr) now) as Hs. destruct (allow g _ now) as [ok g1]. simpl in *.
  destruct ok; simpl in E; [|by simplify_eq].
  destruct (g_slots g1 <? 4)%nat eqn:El; simplify_eq; [|done]. apply Nat.ltb_lt in El. rewrite decide_True by done. simpl.
  split_and!; [done|congruence|lia].
Qed.

Definition guard_inv (st : guard_state) : Prop :=
  guard_wf (gs_guard st) ∧ g_slots (gs_guard st) = length (gs_running st) ∧ (length (gs_running st) ≤ 4)%nat.

Lemma guard_step_inv st st' : guard_step st st' → guard_inv st → guard_inv st'.
Proof.
  intros Hst (Hw & Hs & Hl). destruct Hst as [g g' running addr now E|g g' running addr now v E Hv|g l1 addr l2]; simpl in *.
  - destruct (limitAuthWork_wf _ _ _ _ _ E Hw) as (Hw' & Hs' & Hlt). rewrite decide_True in Hs' by done.
    split; [done|]. simpl. specialize (Hlt eq_refl). lia.
  - destruct (limitAuthWork_wf _ _ _ _ _ E Hw) as (Hw' & Hs' & _). rewrite decide_False in Hs' by done.
    split; [done|]. simpl. lia.
  - rewrite length_app in *. simpl in *. split; [done|]. simpl. rewrite length_app. lia.
Qed.

(** ** Properties *)

(** The guard after a sequence of calls. *)
Definition after_calls (calls : list (string * Time)) (g : authGuard) : authGuard :=
  foldl (λ g c, (allow g c.1 c.2).2) g calls.

(** A peer that tries once, and 19 times at the end of the minute that began then,
    has the next twenty at once when it is over. *)
Definition ex_peer : string := "10.0.0.1".
Definition ex_first : list (string * Time) := [(ex_peer, 0)].
Definition ex_burst : list (string * Time) :=
  replicate 19 (ex_peer, 59 * Second) ++ replicate 20 (ex_peer, Minute).

(** C39: the windows of the quota begin with an attempt and not with every minute:
    no peer gets more than 39 authentication attempts through in any minute, and
    at most twenty when it had none counted before: for every guard within its
    bounds, every peer and every sequence of calls for any peers whose times lie
    within one minute, in whatever order the clocks of the callers put them.  The
    bound of 39 is reached from a new guard, so the documented "at most 20 a
    minute" holds for each window and not for each minute. *)
Theorem guard_quota g p calls a :
  guard_wf g → in_minute a calls →
  (allowed_for p calls g ≤ 39)%nat ∧ (g_attempts g !! p = None → (allowed_for p calls g ≤ 20)%nat) ∧
  ∃ p0 before calls0 a0, in_minute a0 calls0 ∧ allowed_for p0 calls0 (after_calls before newAuthGuard) = 39%nat.
Proof.
  intros [_ Hc] Hm. split_and!; [|intros Hn; by eapply allowed_fresh|].
  - destruct (g_attempts g !! p) as [[s c]|] eqn:E; [|pose proof (allowed_fresh p calls a g Hm E); lia].
    pose proof (Hc _ _ E) as Hx. simpl in Hx. pose proof (allowed_any p calls a s c g Hm ltac:(lia) E). lia.
  - exists ex_peer, ex_first, ex_burst, (59 * Second). split; [|vm_compute; reflexivity].
    apply Forall_app. split; apply Forall_replicate; split; vm_compute; done.
Qed.

Lemma guard_quota_witness :
  (allowed_for "10.0.0.1" (replicate 30 ("10.0.0.1"%string, 5%Z)) newAuthGuard ≤ 20)%nat ∧
  allowed_for "10.0.0.1" (replicate 30 ("10.0.0.1"%string, 5%Z)) newAuthGuard = 20%nat.
Proof.
  split; [|vm_compute; reflexivity].
  assert (guard_wf newAuthGuard) as Hw.
  { split; [vm_compute; lia|]. intros p a Ha. discriminate Ha. }
  assert (in_minute 0 (replicate 30 ("10.0.0.1"%string, 5%Z))) as Hm.
  { apply Forall_replicate. split; vm_compute; [discriminate|reflexivity]. }
  exact (proj1 (proj2 (guard_quota newAuthGuard "10.0.0.1" _ 0 Hw Hm)) eq_refl).
Defined.

(** The guard admits who it should: a peer with fewer than twenty counted
    attempts in its current minute, or without one while fewer than 1024 peers
    are counted, is allowed; so every peer is, once a minute has passed since all
    windows began. *)
Theorem guard_admits g peer now :
  ((allow g peer now).1 = true ↔
     match purge now (g_attempts g) !! peer with
     | Some a => aa_count a < 20
     | None => (size (purge now (g_attempts g)) < 1024)%nat
     end) ∧
  ((∀ p a, g_attempts g !! p = Some a → Minute ≤ now - aa_started a) → (allow g peer now).1 = true).
Proof.
  assert ((allow g peer now).1 = true ↔
     match purge now (g_attempts g) !! peer with
     | Some a => aa_count a < 20
     | None => (size (purge now (g_attempts g)) < 1024)%nat
     end) as Hiff.
  { unfold allow. destruct (purge now (g_attempts g) !! peer) as [[s c]|] eqn:E; simpl.
    - destruct (20 <=? c) eqn:Ec; simpl; bool_to_prop; split; try done; lia.
    - destruct (1024 <=? _) eqn:Es; simpl; bool_to_prop; split; try done; lia. }
  split; [done|]. intros Hold. apply Hiff.
  assert (purge now (g_attempts g) = ∅) as ->.
  { apply map_eq. intros p. rewrite lookup_empty. destruct (purge _ _ !! p) as [a|] eqn:E; [|done].
    apply purge_lookup in E as [Ea Hl]. apply Hold in Ea. unfold live in Hl. lia. }
  rewrite lookup_empty, map_size_empty. lia.
Qed.

(** At most four requests do authentication work at a time, the slots in use
    are exactly the requests that are running, and the quota never tracks more
    than 1024 peers, in every state the guard reaches. *)
Theorem guard_bounded st :
  rtc guard_step (mkGuardState newAuthGuard []) st →
  g_slots (gs_guard st) = length (gs_running st) ∧ (length (gs_running st) ≤ 4)%nat ∧
  (size (g_attempts (gs_guard st)) ≤ 1024)%nat.
Proof.
  intros Hr. assert (guard_inv st) as ([Hs _] & Hg & Hl); [|done].
  assert (guard_inv (mkGuardState newAuthGuard [])) as Hi.
  { split; [|simpl; split; [done|lia]]. split; [vm_compute; lia|]. by intros p a Ha. }
  induction Hr as [|x y z Hxy _ IH]; [done|]. apply IH. by eapply guard_step_inv.
Qed.

Definition ex_guard : authGuard := (limitAuthWork newAuthGuard "10.0.0.1:4000" 5).2.
Lemma guard_bounded_witness :
  ∃ st, rtc guard_step (mkGuardState newAuthGuard []) st ∧ gs_running st = ["10.0.0.1:4000"%string] ∧ g_slots (gs_guard st) = 1%nat.
Proof.
  exists (mkGuardState ex_guard ["10.0.0.1:4000"%string]).
  assert (rtc guard_step (mkGuardState newAuthGuard []) (mkGuardState ex_guard ["10.0.0.1:4000"%string])) as Hr.
  { eapply rtc_l; [|apply rtc_refl]. apply step_started with (now := 5). vm_compute. reflexivity. }
  split; [exact Hr|]. split; [reflexivity|]. exact (proj1 (guard_bounded _ Hr)).
Defined.

Lemma guard_admits_witness : (allow newAuthGuard "10.0.0.1" 5).1 = true.
Proof.
  apply (proj2 (guard_admits newAuthGuard "10.0.0.1" 5)). intros p a Ha. discriminate Ha.
Defined.
