(* ===== verification/HttpServer.v ===== *)
(** * The HTTP interface of the master

    Models [server/internal/master/transport/http]: the routes with their
    middleware ([server.go], [access.go], [auth.go], [auth_limits.go]) and the
    handlers, the event stream apart.  A request is what the handlers read of
    it; matching a path to a registered route, cookies and JSON decoding are the
    libraries' work, so a request comes with its route and path parameter, its
    cookies and a decoder for its body.  A handler either answers or passes on,
    as a middleware that calls [c.Next()] does. *)

From Stdlib Require Import Ascii.
From stdpp Require Import gmap strings list sorting pretty.
From S2P Require Import Prelude GoRuntime GoStrings Contracts Encoding Access Sql HostStore.
From S2P Require Import Operations ShareStore MetricWindow EventBus Interfaces Ingest AuthStore MasterService AuthGuard.
Local Open Scope Z_scope.

(** ** HMAC-SHA256 *)

Definition hmac_key (key : list ascii) : list ascii :=
  let k := if 64 <? llen key then sha256 key else key in
  k ++ replicate (64 - length k) zero.
Definition xor_byte (n : Z) (c : ascii) : ascii := byte_of (Z.lxor n (byte_val c)).
Definition hmac_sha256 (key msg : list ascii) : list ascii :=
  let k := hmac_key key in
  sha256 ((xor_byte 0x5c <$> k) ++ sha256 ((xor_byte 0x36 <$> k) ++ msg)).

(** RFC 4231, test case 2. *)
Example hmac_sha256_rfc4231 :
  hex_encode (hmac_sha256 (bytes "Jefe") (bytes "what do ya want for nothing?")) =
    "5bdcc146bf60754e6a042426089575c75a003f089d2739839dec58b964ec3843"%string.
Proof. vm_compute. reflexivity. Qed.

Definition csrfToken (sessionToken : string) : string :=
  b64_encode (hmac_sha256 (bytes sessionToken) (bytes "gaoming-csrf-v1")).

(** ** Requests and responses *)

Inductive method := GET | POST | PATCH | DELETE.

Record Request := mkRequest {
  rq_RemoteAddr : string;
  rq_Origin : string;          (* the Origin header, empty when absent *)
  rq_CSRF : string;            (* the X-CSRF-Token header *)
  rq_ContentType : string;
  rq_Cookies : list (string * string);
  rq_Tenant : string;          (* the query parameter tenant *)
  rq_Param : string;           (* the path parameter of the route *)
  rq_Body : string
}.

Inductive payload :=
| PEmpty
| PHealth (report : list (string * string))
| PError (code message requestID : string)
| PMessage (error : string)
| PRegistered (r : RegisterAgentResponse)
| PTenant (r : AllocateInstallTenantResponse)
| PHosts (items : list hostView)
| PHost (item : hostView)
| PSnapshot (snapshot : option MetricSnapshot)
| PWindow (w : MaintenanceWindow)
| PAck (a : AckResponse)
| PSession (user : option AuthUser)
| PUsers (items : list AuthUser)
| PUser (item : AuthUser)
| PToken (token : string)
| PAvailable (b : bool)
| PShare (r : ShareRecord) (token : string)
| PShares (items : list ShareRecord)
| PShareSession (expiresAt : Time) (fields : list string)
| PShareInfo (mode : Kind) (fields : list string) (host_count : Z).

(** [c.SetCookie]: name, value and the attributes the code chooses. *)
Record Cookie := mkCookie { ck_Name : string; ck_Value : string; ck_MaxAge : Z; ck_Path : string; ck_Secure : bool }.

Record Response := mkResponse { rs_Status : Z; rs_Payload : payload; rs_Cookie : option Cookie }.

(** What the decoder of the JSON library makes of a body. *)
Class BodyDecoder := {
  bind_RegisterAgent : string → option RegisterAgentRequest;
  bind_Maintenance : string → option CreateMaintenanceWindowRequest;
  bind_AckAlert : string → option unit;
  bind_UserPatch : string → option UserUpdate;
  bind_Setup : string → option SetupRequest;
  bind_Login : string → option LoginRequest;
  bind_Share : string → option CreateShareRequest;
  bind_ShareToken : string → option string
}.

(** The text of an error, and which errors of the driver are of type
    [pgconn.PgError], that is, sent by the server. *)
Class ErrorText := {
  error_text : error → string;
  is_PgError : nat → bool
}.

(** ** The server *)

(** Everything a handler may touch. *)
Record HttpWorld := mkHttpWorld { hw_app : AppWorld; hw_guard : authGuard }.

(** Either an answer, or a value to go on with. *)
Definition Web (A : Type) : Type := HttpWorld → (Response + A) * HttpWorld.
#[export] Instance Web_ret : MRet Web := λ A a w, (inr a, w).
#[export] Instance Web_bind : MBind Web := λ A B f m w,
  match m w with
  | (inr a, w') => f a w'
  | (inl r, w') => (inl r, w')
  end.
Definition answer {A} (r : Response) : Web A := λ w, (inl r, w).
(** A call of the service, with its error as a value. *)
Definition call {A} (m : ST AppWorld A) : Web (res A) := λ w,
  let '(r, a) := m (hw_app w) in (inr r, mkHttpWorld a (hw_guard w)).

(** The values middleware leaves for the handlers. *)
Record Context_ := mkContext { cx_user : option AuthUser; cx_principal : option Principal }.
Definition no_context : Context_ := mkContext None None.

Definition reply (status : Z) (p : payload) : Response := mkResponse status p None.

Section server.
Context `{Env} `{PgTypes} `{Bcrypt} `{StringsLower} `{RedisEnv} `{JsonCodec} `{EventCodec} `{MetricRange}.
Context `{BodyDecoder} `{ErrorText}.
Context (st : PgStore) (ws : WindowStore) (channel : string) (svc : Service) (dummyHash : string).

#[local] Instance http_hosts : HostStateStore AppWorld := App_HostStateStore st.
#[local] Instance http_window : MetricWindow AppWorld := App_MetricWindow ws.
#[local] Instance http_events : EventPublisher AppWorld := App_EventPublisher channel.
#[local] Instance http_runtime : Runtime AppWorld := App_Runtime.

Definition sql {A} (m : M A) : Web (res A) := call (in_sql m).

(** ** Errors *)

Definition error_class (e : error) : Z * string * string :=
  match e with
  | ErrServiceUnauthorized | ErrUnauthorized => (401, "unauthorized", "unauthorized")
  | ErrQuota => (429, "quota_exceeded", "access quota exceeded")
  | ErrServiceForbidden | ErrForbidden => (403, "forbidden", "forbidden")
  | ErrNotFound => (404, "not_found", "resource not found")
  | ErrAuthNotConfigured => (503, "unavailable", "auth is not configured")
  | ErrDatabase c => if is_PgError c then (500, "internal_error", "storage unavailable")
                     else (400, "invalid_request", error_text e)
  | _ => (400, "invalid_request", error_text e)
  end%string.

Definition writeError {A} (e : error) : Web A :=
  id ← sql (new_id "req");
  let '(status, code, message) := error_class e in
  answer (reply status (PError code message (match id with Ok x => x | Err _ => "" end))).

(** [if err != nil { writeError(c, err); return }] *)
Definition ok_or_error {A} (r : res A) : Web A :=
  match r with Ok a => mret a | Err e => writeError e end.

(** ** Cookies and contexts *)

Definition cookieName : string :=
  if str_empty (SessionCookieName svc) then "gaoming_session" else SessionCookieName svc.
Definition shareCookieName : string := "gaoming_share".
Definition shareCookiePath : string := "/master/api/v1/public/shares".

(** The first cookie of that name, as [Request.Cookie] finds it. *)
Definition sessionTokenFromRequest (rq : Request) (name : string) : string :=
  match find_first (λ c, str_eqb c.1 name) (rq_Cookies rq) with Some (_, v) => v | None => "" end.

(** [max(1, int(time.Until(expiresAt).Seconds()))]: whole seconds, at least one. *)
Definition cookie_age (now expiresAt : Time) : Z := Z.max 1 (Z.quot (time_Sub expiresAt now) Second).

Definition setSessionCookie (value : string) (expiresAt : Time) (now : Time) : Cookie :=
  mkCookie cookieName value (cookie_age now expiresAt) "/" (auc_CookieSecure (svc_authConfig svc)).
Definition clearSessionCookie : Cookie := mkCookie cookieName "" (-1) "/" (auc_CookieSecure (svc_authConfig svc)).

Definition currentUser (cx : Context_) : AuthUser := default zero_AuthUser (cx_user cx).
Definition principalFromContext (cx : Context_) : Principal :=
  match cx_principal cx with
  | Some p => p
  | None => let user := currentUser cx in
            mkPrincipal User 0 (user_TenantCode user) (user_ID user) (user_Role user) "" "" "" [] []
  end.
Definition tenantCodeFromContext (cx : Context_) : string :=
  match cx_user cx with Some user => user_TenantCode user | None => "" end.

(** ** Middleware *)

Definition reads (m : method) : bool := match m with GET => true | _ => false end.

Definition requireAllowedOrigin (m : method) (rq : Request) (cx : Context_) : Web Context_ :=
  if reads m then mret cx else
  let origins := auc_AllowedOrigins (svc_authConfig svc) in
  if llen origins =? 0 then mret cx else
  if contains origins (rq_Origin rq) then mret cx else
  answer (reply 403 (PMessage "request origin is not allowed")).

Definition requireCSRF (m : method) (rq : Request) (cx : Context_) : Web Context_ :=
  if reads m then mret cx else
  let raw := sessionTokenFromRequest rq cookieName in
  let expected := csrfToken raw in
  if str_empty raw || negb (str_eqb (rq_CSRF rq) expected)
  then answer (reply 403 (PMessage "invalid CSRF token")) else mret cx.

(** The query may only repeat the tenant of the caller. *)
Definition tenant_mismatch (rq : Request) (tenant : string) : bool :=
  let requested := TrimSpace (rq_Tenant rq) in
  negb (str_empty requested) && negb (str_eqb requested tenant).

Definition requireSession (m : method) (rq : Request) (cx : Context_) : Web Context_ :=
  r ← sql (ResolveSessionUser svc (sessionTokenFromRequest rq cookieName));
  found ← ok_or_error r;
  match found with
  | None => writeError ErrServiceUnauthorized
  | Some (user, _) =>
      if (user_ID user <=? 0) || str_empty (user_TenantCode user) || negb (str_eqb (user_Status user) UserStatusActive)
      then writeError ErrServiceUnauthorized else
      if tenant_mismatch rq (user_TenantCode user) then writeError ErrServiceForbidden else
      mret (mkContext (Some user) (cx_principal cx))
  end.

Definition requireAdmin (m : method) (rq : Request) (cx : Context_) : Web Context_ :=
  if negb (str_eqb (user_Role (currentUser cx)) UserRoleAdmin) then writeError ErrServiceForbidden else mret cx.

Definition requireShare (m : method) (rq : Request) (cx : Context_) : Web Context_ :=
  r ← sql (MasterService.AuthenticateShareSession svc (sessionTokenFromRequest rq shareCookieName));
  p ← ok_or_error r;
  if tenant_mismatch rq (p_TenantCode p) then writeError ErrServiceForbidden else
  mret (mkContext (cx_user cx) (Some p)).

Definition requireDemo (m : method) (rq : Request) (cx : Context_) : Web Context_ :=
  r ← sql (DemoPrincipal svc);
  p ← ok_or_error r;
  if tenant_mismatch rq (p_TenantCode p) then writeError ErrServiceForbidden else
  mret (mkContext (cx_user cx) (Some p)).

(** Reading the clock does not fail. *)
Definition now_or_zero (r : res Time) : Time := match r with Ok t => t | Err _ => time_zero end.

(** The quota and the slot; the slot is given back when the rest has ended. *)
Definition in_slot {A} (rq : Request) (now : Time) (rest : Web A) : Web A := λ w,
  let '(v, g) := limitAuthWork (hw_guard w) (rq_RemoteAddr rq) now in
  let w := mkHttpWorld (hw_app w) g in
  match v with
  | TooManyAttempts => (inl (reply 429 (PMessage "too many authentication attempts")), w)
  | Busy => (inl (reply 429 (PMessage "authentication is busy")), w)
  | Proceed => let '(r, w) := rest w in (r, mkHttpWorld (hw_app w) (release (hw_guard w)))
  end.

Definition limited {A} (rq : Request) (rest : Web A) : Web A :=
  now ← sql time_now;
  in_slot rq (now_or_zero now) rest.

(** ** Bodies *)

(** [c.ShouldBindJSON]. *)
Definition bind {A} (decode : string → option A) (rq : Request) : Web A :=
  match decode (rq_Body rq) with
  | Some a => mret a
  | None => writeError ErrJSON
  end.

(** [MaxBytesReader] cuts the body; a decoder that needs more fails. *)
Definition bindAuthJSON {A} (decode : string → option A) (rq : Request) : Web A :=
  if negb (str_eqb (rq_ContentType rq) "application/json") then answer (reply 415 (PMessage "application/json required")) else
  match decode (of_bytes (take (16 * 1024) (bytes (rq_Body rq)))) with
  | Some a => mret a
  | None => answer (reply 400 (PMessage "invalid authentication request"))
  end.

(** ** Handlers *)

Definition handleAllocateInstallTenant : Web Response :=
  r ← call AllocateInstallTenant; resp ← ok_or_error r; mret (reply 200 (PTenant resp)).

Definition handleRegisterAgent (rq : Request) : Web Response :=
  req ← bind bind_RegisterAgent rq;
  r ← call (RegisterAgent req); resp ← ok_or_error r; mret (reply 200 (PRegistered resp)).

Definition handleListHosts (cx : Context_) : Web Response :=
  let p := principalFromContext cx in
  r ← call (ReadHosts p); items ← ok_or_error r; mret (reply 200 (PHosts (ProjectHosts p items))).

Definition handleGetHost (rq : Request) (cx : Context_) : Web Response :=
  let hostUID := TrimSpace (rq_Param rq) in
  if str_empty hostUID then writeError (ErrMsg "missing host uid") else
  let p := principalFromContext cx in
  r ← call (ReadHost p hostUID);
  host ← ok_or_error r;
  match host with
  | None => mret (reply 404 (PMessage "host not found"))
  | Some host => mret (reply 200 (PHost (ProjectHost p host)))
  end.

Definition handleGetLatestMetricSnapshot (rq : Request) (cx : Context_) : Web Response :=
  let hostUID := TrimSpace (rq_Param rq) in
  if str_empty hostUID then writeError (ErrMsg "missing host uid") else
  let tenantCode := tenantCodeFromContext cx in
  if str_empty tenantCode then writeError (ErrMsg "missing tenant") else
  r ← call (GetHost hostUID tenantCode);
  match r with
  | Err _ => mret (reply 500 (PMessage "failed to verify host"))
  | Ok None => mret (reply 404 (PMessage "host not found"))
  | Ok (Some _) =>
      r ← call (GetMetricSnapshot hostUID);
      match r with
      | Err _ => mret (reply 500 (PMessage "failed to load metric snapshot"))
      | Ok snapshot => mret (reply 200 (PSnapshot snapshot))
      end
  end.

(** The points of the summary a snapshot holds; the nil map is the empty one. *)
Definition latestMetricPointsFromSnapshot (snapshot : HostSnapshot) : gmap MetricKey StatePoint :=
  if time_IsZero (hs_LastMetricAt snapshot) then ∅ else
  let ts := hs_LastMetricAt snapshot in
  list_to_map
    [(MetricCPUUsagePct, mkStatePoint ts (hs_CPUUsagePct snapshot));
     (MetricMemUsedPct, mkStatePoint ts (hs_MemUsedPct snapshot));
     (MetricMemAvailableBytes, mkStatePoint ts (f64_of_int (hs_MemAvailableBytes snapshot)));
     (MetricSwapUsedPct, mkStatePoint ts (hs_SwapUsedPct snapshot));
     (MetricDiskUsedPct, mkStatePoint ts (hs_DiskUsedPct snapshot));
     (MetricDiskFreeBytes, mkStatePoint ts (f64_of_int (hs_DiskFreeBytes snapshot)));
     (MetricDiskInodesUsedPct, mkStatePoint ts (hs_DiskInodesUsedPct snapshot));
     (MetricDiskReadBPS, mkStatePoint ts (f64_of_int (hs_DiskReadBPS snapshot)));
     (MetricDiskWriteBPS, mkStatePoint ts (f64_of_int (hs_DiskWriteBPS snapshot)));
     (MetricDiskReadIOPS, mkStatePoint ts (f64_of_int (hs_DiskReadIOPS snapshot)));
     (MetricDiskWriteIOPS, mkStatePoint ts (f64_of_int (hs_DiskWriteIOPS snapshot)));
     (MetricLoad1, mkStatePoint ts (hs_Load1 snapshot));
     (MetricNetRxBPS, mkStatePoint ts (f64_of_int (hs_NetRxBPS snapshot)));
     (MetricNetTxBPS, mkStatePoint ts (f64_of_int (hs_NetTxBPS snapshot)));
     (MetricNetRxPacketsPS, mkStatePoint ts (f64_of_int (hs_NetRxPacketsPS snapshot)));
     (MetricNetTxPacketsPS, mkStatePoint ts (f64_of_int (hs_NetTxPacketsPS snapshot)))].

Definition handlePublicLatestMetrics (rq : Request) (cx : Context_) : Web Response :=
  let p := principalFromContext cx in
  if negb (AllowsField p "metrics") then writeError ErrServiceForbidden else
  r ← call (ReadHost p (TrimSpace (rq_Param rq)));
  host ← ok_or_error r;
  match host with
  | None => writeError ErrNotFound
  | Some host =>
      if time_IsZero (hs_LastMetricAt host) then mret (reply 200 (PSnapshot None)) else
      let points := (λ '(name, pt), mkMetricPoint name (sp_Value pt) (sp_TS pt) ∅) <$>
                    map_to_list (latestMetricPointsFromSnapshot host) in
      mret (reply 200 (PSnapshot (Some (mkMetricSnapshot (hs_LastMetricAt host) points []))))
  end.

Definition handleCreateMaintenance (rq : Request) (cx : Context_) : Web Response :=
  req ← bind bind_Maintenance rq;
  r ← sql (MasterService.CreateMaintenance (principalFromContext cx) req);
  resp ← ok_or_error r; mret (reply 201 (PWindow resp)).

Definition handleAckAlert (rq : Request) (cx : Context_) : Web Response :=
  let alertID := TrimSpace (rq_Param rq) in
  if str_empty alertID then writeError (ErrMsg "invalid alert ack path") else
  bind bind_AckAlert rq;;
  r ← sql (MasterService.AckAlert (principalFromContext cx) alertID);
  resp ← ok_or_error r; mret (reply 200 (PAck resp)).

Definition handleSession (rq : Request) : Web Response :=
  r ← sql (GetSession svc (sessionTokenFromRequest rq cookieName));
  resp ← ok_or_error r; mret (reply 200 (PSession resp)).

Definition handleLogout (rq : Request) : Web Response :=
  r ← sql (Logout svc (sessionTokenFromRequest rq cookieName));
  ok_or_error r;;
  mret (mkResponse 204 PEmpty (Some clearSessionCookie)).

Definition handleListUsers (cx : Context_) : Web Response :=
  r ← sql (MasterService.ListUsers svc (currentUser cx));
  items ← ok_or_error r; mret (reply 200 (PUsers items)).

Definition handleUpdateUser (rq : Request) (cx : Context_) : Web Response :=
  match ParseInt (TrimSpace (rq_Param rq)) with
  | None => writeError (ErrMsg "invalid user id")
  | Some userID =>
      if userID <=? 0 then writeError (ErrMsg "invalid user id") else
      req ← bind bind_UserPatch rq;
      let patch := mkUserUpdate (TrimSpace <$> up_DisplayName req) (up_Role req) (up_Status req) in
      r ← sql (MasterService.UpdateUser svc (currentUser cx) userID patch);
      item ← ok_or_error r; mret (reply 200 (PUser item))
  end.

Definition handleCSRF (rq : Request) : Web Response :=
  mret (reply 200 (PToken (csrfToken (sessionTokenFromRequest rq cookieName)))).

Definition handleSetupStatus : Web Response :=
  r ← sql (MasterService.SetupAvailable svc);
  match r with
  | Err _ => mret (reply 503 (PMessage "setup status unavailable"))
  | Ok available => mret (reply 200 (PAvailable available))
  end.

Definition handleSetup (rq : Request) : Web Response :=
  req ← bindAuthJSON bind_Setup rq;
  r ← sql (Setup svc req);
  session ← ok_or_error r;
  now ← sql time_now;
  mret (mkResponse 201 (PSession (Some (as_User session)))
          (Some (setSessionCookie (as_Token session) (as_ExpiresAt session) (now_or_zero now)))).

Definition handleLogin (rq : Request) : Web Response :=
  req ← bindAuthJSON bind_Login rq;
  if (64 <? len (lg_Username req)) || (64 <? len (lg_TenantCode req)) || (72 <? len (lg_Password req)) ||
     str_empty (TrimSpace (lg_Username req)) then writeError ErrServiceUnauthorized else
  r ← sql (Login svc dummyHash req);
  session ← ok_or_error r;
  let old := sessionTokenFromRequest rq cookieName in
  let done :=
    now ← sql time_now;
    mret (mkResponse 200 (PSession (Some (as_User session)))
            (Some (setSessionCookie (as_Token session) (as_ExpiresAt session) (now_or_zero now)))) in
  if str_empty old then done else
  r ← sql (Logout svc old);
  match r with
  | Err _ =>
      sql (Logout svc (as_Token session));;
      mret (reply 503 (PMessage "session rotation failed"))
  | Ok _ => done
  end.

Definition handleCreateShare (rq : Request) (cx : Context_) : Web Response :=
  req ← bindAuthJSON bind_Share rq;
  r ← sql (MasterService.CreateShare svc (principalFromContext cx) req);
  result ← ok_or_error r;
  mret (reply 201 (PShare result.1 result.2)).

Definition handleListShares (cx : Context_) : Web Response :=
  r ← sql (MasterService.ListShares svc (principalFromContext cx));
  items ← ok_or_error r; mret (reply 200 (PShares items)).

Definition handleRevokeShare (rq : Request) (cx : Context_) : Web Response :=
  r ← sql (MasterService.RevokeShare svc (principalFromContext cx) (TrimSpace (rq_Param rq)));
  ok_or_error r;; mret (reply 204 PEmpty).

Definition handleExchangeShare (rq : Request) : Web Response :=
  token ← bindAuthJSON bind_ShareToken rq;
  r ← sql (MasterService.ExchangeShare svc token);
  session ← ok_or_error r;
  now ← sql time_now;
  mret (mkResponse 200 (PShareSession (ss_ExpiresAt session) (p_Fields (ss_Principal session)))
          (Some (mkCookie shareCookieName (ss_Token session) (cookie_age (now_or_zero now) (ss_ExpiresAt session))
                   shareCookiePath (auc_CookieSecure (svc_authConfig svc))))).

(** The clock does not fail. *)
Definition handleHealth : Web Response :=
  r ← call MasterService.Health;
  report ← ok_or_error r;
  mret (reply 200 (PHealth report)).

Definition handleShareInfo (cx : Context_) : Web Response :=
  let p := principalFromContext cx in
  mret (reply 200 (PShareInfo (p_Kind p) (p_Fields p) (llen (p_AllowedHosts p)))).

(** ** Routes *)

(** The registered routes; the three event streams are modelled on their own. *)
Inductive route :=
| Healthz
| AuthSetup | AuthSetupStatus | AuthLogin | AuthCSRF | AuthSessionRoute | AuthLogout
| InstallTenant | AgentsRegister
| Hosts | Host | HostLatestMetrics
| ShareExchange | ShareSessionInfo | ShareHosts | ShareHost | ShareLatestMetrics
| DemoSessionInfo | DemoHosts | DemoHost | DemoLatestMetrics
| OpsMaintenance | OpsAckAlert
| SharesList | SharesCreate | SharesRevoke
| AdminUsers | AdminUpdateUser.

Definition method_of (r : route) : method :=
  match r with
  | AuthSetup | AuthLogin | AuthLogout | InstallTenant | AgentsRegister | ShareExchange
  | OpsMaintenance | OpsAckAlert | SharesCreate => POST
  | SharesRevoke => DELETE
  | AdminUpdateUser => PATCH
  | _ => GET
  end.

Inductive middleware := AllowedOrigin | Session | CSRF | Admin | ShareAccess | DemoAccess.

(** The middleware of a route, in the order its groups install it. *)
Definition middlewares (r : route) : list middleware :=
  match r with
  | AuthSetup | AuthSetupStatus | AuthLogin | AuthSessionRoute => [AllowedOrigin]
  | AuthCSRF => [AllowedOrigin; Session]
  | AuthLogout => [AllowedOrigin; Session; CSRF]
  | Healthz | InstallTenant | AgentsRegister => []
  | Hosts | Host | HostLatestMetrics => [Session]
  | ShareExchange => [AllowedOrigin]
  | ShareSessionInfo | ShareHosts | ShareHost | ShareLatestMetrics => [AllowedOrigin; ShareAccess]
  | DemoSessionInfo | DemoHosts | DemoHost | DemoLatestMetrics => [DemoAccess]
  | OpsMaintenance | OpsAckAlert => [Session; AllowedOrigin; CSRF]
  | SharesList | SharesCreate | SharesRevoke | AdminUsers | AdminUpdateUser => [Session; AllowedOrigin; CSRF; Admin]
  end.

Definition run_middleware (x : middleware) (m : method) (rq : Request) (cx : Context_) : Web Context_ :=
  match x with
  | AllowedOrigin => requireAllowedOrigin m rq cx
  | Session => requireSession m rq cx
  | CSRF => requireCSRF m rq cx
  | Admin => requireAdmin m rq cx
  | ShareAccess => requireShare m rq cx
  | DemoAccess => requireDemo m rq cx
  end.

Fixpoint run_middlewares (l : list middleware) (m : method) (rq : Request) (cx : Context_) : Web Context_ :=
  match l with
  | [] => mret cx
  | x :: l => cx ← run_middleware x m rq cx; run_middlewares l m rq cx
  end.

Definition handle (r : route) (rq : Request) (cx : Context_) : Web Response :=
  match r with
  | Healthz => handleHealth
  | AuthSetup => limited rq (handleSetup rq)
  | AuthSetupStatus => handleSetupStatus
  | AuthLogin => limited rq (handleLogin rq)
  | AuthCSRF => handleCSRF rq
  | AuthSessionRoute => handleSession rq
  | AuthLogout => handleLogout rq
  | InstallTenant => handleAllocateInstallTenant
  | AgentsRegister => handleRegisterAgent rq
  | Hosts | ShareHosts | DemoHosts => handleListHosts cx
  | Host | ShareHost | DemoHost => handleGetHost rq cx
  | HostLatestMetrics => handleGetLatestMetricSnapshot rq cx
  | ShareLatestMetrics | DemoLatestMetrics => handlePublicLatestMetrics rq cx
  | ShareExchange => limited rq (handleExchangeShare rq)
  | ShareSessionInfo | DemoSessionInfo => handleShareInfo cx
  | OpsMaintenance => handleCreateMaintenance rq cx
  | OpsAckAlert => handleAckAlert rq cx
  | SharesList => handleListShares cx
  | SharesCreate => handleCreateShare rq cx
  | SharesRevoke => handleRevokeShare rq cx
  | AdminUsers => handleListUsers cx
  | AdminUpdateUser => handleUpdateUser rq cx
  end.

(** A request from its arrival to its response. *)
Definition serve (r : route) (rq : Request) (w : HttpWorld) : Response * HttpWorld :=
  match (cx ← run_middlewares (middlewares r) (method_of r) rq no_context; handle r rq cx) w with
  | (inl resp, w') | (inr resp, w') => (resp, w')
  end.

End server.
