(* ===== verification/HttpProps.v ===== *)
(** * Properties of the HTTP interface

    Who gets past the middleware of a route, what a refused request leaves
    behind, which hosts the answers show and how a login replaces the session of
    a browser. *)

From Stdlib Require Import Ascii.
From stdpp Require Import gmap strings list sorting pretty.
From S2P Require Import Prelude GoRuntime GoStrings Contracts Encoding Access Sql HostStore HostStoreProps.
From S2P Require Import Operations ShareStore ShareStoreProps MetricWindow EventBus Interfaces Ingest AuthStore MasterService.
From S2P Require Import AuthProps MasterProps AuthGuard HttpServer Calendar.
Local Open Scope Z_scope.

(** The tables, the sequences and the clock of a state. *)
Definition hdb (w : HttpWorld) : DB := w_db (aw_sql (hw_app w)).
Definition hseq (w : HttpWorld) : Seqs := w_seq (aw_sql (hw_app w)).

(** At most the last use of sessions was written. *)
Definition only_sessions (d d' : DB) : Prop := ∃ X, d' = set_sessions X d.

Lemma only_sessions_refl d : only_sessions d d.
Proof. exists (db_sessions d). by destruct d. Qed.
Lemma only_sessions_trans d1 d2 d3 : only_sessions d1 d2 → only_sessions d2 d3 → only_sessions d1 d3.
Proof. intros [X ->] [Y ->]. by exists Y. Qed.
Lemma only_sessions_host_wf d d' : only_sessions d d' → host_wf d → host_wf d'.
Proof. intros [X ->] Hd. by destruct Hd. Qed.
#[export] Hint Resolve only_sessions_refl : core.

(** ** Reasoning about handlers

    [WW m Q w]: run on [w], the handler [m] ends with an answer or a value, and a
    state, in [Q]. *)
Definition WW {A} (m : Web A) (Q : Response + A → HttpWorld → Prop) (w : HttpWorld) : Prop := let '(o, w') := m w in Q o w'.

(** A refusal that left the tables and the guard as they were. *)
Definition refused (w : HttpWorld) (resp : Response) (w' : HttpWorld) : Prop :=
  400 ≤ rs_Status resp ∧ hdb w' = hdb w ∧ hw_guard w' = hw_guard w ∧ aw_redis (hw_app w') = aw_redis (hw_app w) ∧
  rs_Cookie resp = None ∧ ∃ c m i, rs_Payload resp = PError c m i.

Section http.
Context `{Env} `{PgTypes} `{Bcrypt} `{StringsLower} `{RedisEnv} `{JsonCodec} `{EventCodec} `{MetricRange}.
Context `{BodyDecoder} `{ErrorText}.
Context (st : PgStore) (ws : WindowStore) (channel : string) (svc : Service) (dummyHash : string).

Definition hnow (w : HttpWorld) : Time := env_now (w_tick (aw_sql (hw_app w))).

#[local] Abbreviation serve := (serve st ws channel svc dummyHash).
#[local] Abbreviation token_of rq := (sessionTokenFromRequest rq (cookieName svc)).

Lemma WW_bind {A B} (m : Web A) (f : A → Web B) Q w :
  WW m (λ o w', match o with inr a => WW (f a) Q w' | inl r => Q (inl r) w' end) w → WW (m ≫= f) Q w.
Proof. unfold WW, mbind, Web_bind. by destruct (m w) as [[r|a] w']. Qed.
Lemma WW_ret {A} (a : A) (Q : _ → _ → Prop) w : Q (inr a) w → WW (mret a) Q w.
Proof. done. Qed.
Lemma WW_answer {A} r (Q : Response + A → _ → Prop) w : Q (inl r) w → WW (answer r) Q w.
Proof. done. Qed.
Lemma WW_mono {A} (m : Web A) (Q Q' : _ → _ → Prop) w : WW m Q w → (∀ o w', Q o w' → Q' o w') → WW m Q' w.
Proof. unfold WW. destruct (m w). auto. Qed.

Lemma WW_both {A} (m : Web A) (P Q : Response + A → HttpWorld → Prop) w : WW m P w → WW m Q w → ∃ o w', P o w' ∧ Q o w'.
Proof. unfold WW. destruct (m w) as [o w']. eauto. Qed.

Lemma WW_sql {A} (m : M A) (P : res A → DB → Seqs → Prop) (Q : Response + res A → _ → Prop) w :
  WP m P (hdb w) (hseq w) →
  (∀ r w', P r (hdb w') (hseq w') → hw_guard w' = hw_guard w → aw_redis (hw_app w') = aw_redis (hw_app w) → Q (inr r) w') →
  WW (sql m) Q w.
Proof.
  intros Hm HQ. specialize (Hm (aw_sql (hw_app w)) eq_refl eq_refl). unfold WW, sql, call, in_sql.
  destruct (m (aw_sql (hw_app w))) as [r x]. by apply HQ.
Qed.

Lemma error_class_status e : 400 ≤ (error_class e).1.1.
Proof. destruct e; simpl; try lia. destruct (is_PgError _); simpl; lia. Qed.

Lemma WW_writeError {A} e (Q : Response + A → _ → Prop) w :
  (∀ resp w', refused w resp w' → Q (inl resp) w') → WW (writeError e) Q w.
Proof.
  intros HQ. pose proof (error_class_status e) as He. unfold WW, writeError, mbind, Web_bind.
  destruct (error_class e) as [[status code] message] eqn:E. simpl in He.
  unfold sql, call, in_sql, new_id, answer. simpl. apply HQ. split_and!; try done. simpl. by eexists _, _, _.
Qed.

Lemma WW_ok_or_error {A} (r : res A) (Q : Response + A → _ → Prop) w :
  match r with Ok a => Q (inr a) w | Err _ => ∀ resp w', refused w resp w' → Q (inl resp) w' end →
  WW (ok_or_error r) Q w.
Proof. destruct r as [a|e]; [done|apply WW_writeError]. Qed.

(** ** Sessions *)

(** The user of a request with a session, as the middleware accepts it. *)
Definition session_user (rq : Request) (d : DB) (now : Time) (u : userModel) (t : tenantModel) : Prop :=
  svc_authStore svc = true ∧ hashToken (token_of rq) ≠ ""%string ∧
  (∃ x, session_valid d (hashToken (token_of rq)) now x u t) ∧
  0 < u_ID u ∧ t_TenantCode t ≠ ""%string ∧ tenant_mismatch rq (t_TenantCode t) = false.

Lemma WW_ResolveSessionUser token (Q : Response + res (option (AuthUser * SessionRecord)) → _ → Prop) w :
  (∀ r w', hw_guard w' = hw_guard w → aw_redis (hw_app w') = aw_redis (hw_app w) →
    match r with
    | Ok (Some (user, _)) => svc_authStore svc = true ∧ hashToken token ≠ ""%string ∧
        (∃ x u t, session_valid (hdb w) (hashToken token) (hnow w) x u t ∧ user = joinedUser u t) ∧ only_sessions (hdb w) (hdb w')
    | _ => only_sessions (hdb w) (hdb w')
    end → Q (inr r) w') →
  WW (sql (ResolveSessionUser svc token)) Q w.
Proof.
  intros HQ. unfold WW, sql, call, in_sql. destruct (svc_authStore svc) eqn:Es.
  2:{ unfold ResolveSessionUser. rewrite Es. simpl. by apply HQ. }
  destruct (decide (hashToken token = ""%string)) as [Eh|Eh].
  { unfold ResolveSessionUser. rewrite Es, Eh. simpl. by apply HQ. }
  rewrite ResolveSessionUser_run by done.
  pose proof (GetUserBySessionTokenHash_WP (hashToken token) (hnow w) (hdb w) (hseq w) (tick (aw_sql (hw_app w))) eq_refl eq_refl) as Hg.
  unfold hnow in Hg. destruct (GetUserBySessionTokenHash _ _ _) as [r x]. destruct Hg as [_ Hg].
  apply HQ; [done..|]. unfold hdb. simpl. destruct r as [[[user rec]|]|e].
  2:{ destruct Hg as [-> _]. apply only_sessions_refl. }
  2:{ destruct Hg as [_ [Hg|Hg]]; [rewrite Hg; apply only_sessions_refl|done]. }
  destruct Hg as (sx & u & t & Hv & -> & _ & Hx). split_and!; eauto.
Qed.

Lemma WW_requireSession m rq cx w :
  WW (requireSession svc m rq cx) (λ o w', only_sessions (hdb w) (hdb w') ∧ hw_guard w' = hw_guard w ∧
    match o with
    | inr cx' => ∃ u t, session_user rq (hdb w) (hnow w) u t ∧ cx' = mkContext (Some (joinedUser u t)) (cx_principal cx)
    | inl resp => 400 ≤ rs_Status resp ∧ ∃ c m i, rs_Payload resp = PError c m i
    end) w.
Proof.
  apply WW_bind, WW_ResolveSessionUser. intros r w1 Hg _ Hr. apply WW_bind, WW_ok_or_error.
  assert (∀ (e : error) w1, only_sessions (hdb w) (hdb w1) → hw_guard w1 = hw_guard w →
    WW (writeError (A:=Context_) e) (λ o w', only_sessions (hdb w) (hdb w') ∧ hw_guard w' = hw_guard w ∧
    match o with
    | inr cx' => ∃ u t, session_user rq (hdb w) (hnow w) u t ∧ cx' = mkContext (Some (joinedUser u t)) (cx_principal cx)
    | inl resp => 400 ≤ rs_Status resp ∧ ∃ c m i, rs_Payload resp = PError c m i
    end) w1) as Hbad.
  { intros e w2 Ho Hg2. apply WW_writeError. intros resp w' (Hs & Hd & Hg' & _ & _ & Hp). rewrite Hd, Hg'. by split_and!. }
  destruct r as [found|e].
  2:{ intros resp w' (Hs & Hd & Hg' & _ & _ & Hp). rewrite Hd, Hg'. by split_and!. }
  destruct found as [[user rec]|]; [|by apply Hbad].
  destruct Hr as (Hs & Hh & (x & u & t & Hv & ->) & Ho).
  destruct (_ || _) eqn:Ec; [by apply Hbad|]. destruct (tenant_mismatch _ _) eqn:Et; [by apply Hbad|].
  apply WW_ret. split_and!; [done..|]. exists u, t. split; [|done]. bool_to_prop. simpl in *.
  rename select (str_empty _ = false) into He. apply str_empty_false in He. unfold session_user. by split_and!; eauto.
Qed.

(** ** Middleware without effect *)

Definition origin_ok (m : method) (rq : Request) : Prop :=
  m = GET ∨ auc_AllowedOrigins (svc_authConfig svc) = [] ∨ rq_Origin rq ∈ auc_AllowedOrigins (svc_authConfig svc).
Definition csrf_ok (m : method) (rq : Request) : Prop :=
  m = GET ∨ (token_of rq ≠ ""%string ∧ rq_CSRF rq = csrfToken (token_of rq)).

Lemma WW_origin m rq cx w :
  WW (requireAllowedOrigin svc m rq cx) (λ o w', w' = w ∧
    match o with inr cx' => cx' = cx ∧ origin_ok m rq | inl resp => rs_Status resp = 403 end) w.
Proof.
  unfold requireAllowedOrigin, origin_ok. destruct (reads m) eqn:Em; [apply WW_ret; destruct m; naive_solver|].
  cbv zeta. destruct (_ =? 0) eqn:El; [|destruct (contains _ _) eqn:Ec; [|by apply WW_answer]].
  - apply WW_ret. split_and!; [done..|]. right; left. bool_to_prop. by destruct (auc_AllowedOrigins _).
  - apply WW_ret. split_and!; [done..|]. right; right. by apply contains_spec.
Qed.

Lemma WW_csrf m rq cx w :
  WW (requireCSRF svc m rq cx) (λ o w', w' = w ∧
    match o with inr cx' => cx' = cx ∧ csrf_ok m rq | inl resp => rs_Status resp = 403 end) w.
Proof.
  unfold requireCSRF, csrf_ok. destruct (reads m) eqn:Em; [apply WW_ret; destruct m; naive_solver|].
  cbv zeta. destruct (_ || _) eqn:E; [by apply WW_answer|]. apply WW_ret. bool_to_prop. split_and!; [done..|]. right.
  split; [by apply str_empty_false|by apply str_eqb_true].
Qed.

Lemma WW_admin m rq cx w :
  WW (requireAdmin m rq cx) (λ o w', hdb w' = hdb w ∧ hw_guard w' = hw_guard w ∧
    match o with inr cx' => w' = w ∧ cx' = cx ∧ user_Role (currentUser cx) = UserRoleAdmin | inl resp => 400 ≤ rs_Status resp end) w.
Proof.
  unfold requireAdmin. destruct (negb _) eqn:E; [apply WW_writeError; intros resp w' Hr; by destruct_and! Hr|].
  apply WW_ret. bool_to_prop. by apply str_eqb_true in E.
Qed.

(** ** Protected routes *)

Definition checks (l : list middleware) (m : method) (rq : Request) (role : string) : Prop :=
  (AllowedOrigin ∈ l → origin_ok m rq) ∧ (CSRF ∈ l → csrf_ok m rq) ∧ (Admin ∈ l → role = UserRoleAdmin).


Lemma WW_checks l m rq cx w :
  Forall (λ x, x = AllowedOrigin ∨ x = CSRF ∨ x = Admin) l →
  WW (run_middlewares svc l m rq cx) (λ o w', hdb w' = hdb w ∧ hw_guard w' = hw_guard w ∧
    match o with
    | inr cx' => w' = w ∧ cx' = cx ∧ checks l m rq (user_Role (currentUser cx))
    | inl resp => 400 ≤ rs_Status resp
    end) w.
Proof.
  intros Hl. induction Hl as [|x l Hx _ IH]; [apply WW_ret; unfold checks; set_solver|].
  cbn [run_middlewares]. apply WW_bind. destruct Hx as [-> | [-> | ->]]; cbn [run_middleware].
  - eapply WW_mono; [apply WW_origin|]. intros [resp|cx'] w' [-> Ho]; [split_and!; [done..|lia]|]. destruct Ho as [-> Ho].
    eapply WW_mono; [apply IH|]. intros [resp|cx'] w' (Hd & Hg & Hx); [done|]. unfold checks in *. set_solver.
  - eapply WW_mono; [apply WW_csrf|]. intros [resp|cx'] w' [-> Ho]; [split_and!; [done..|lia]|]. destruct Ho as [-> Ho].
    eapply WW_mono; [apply IH|]. intros [resp|cx'] w' (Hd & Hg & Hx); [done|]. unfold checks in *. set_solver.
  - eapply WW_mono; [apply WW_admin|]. intros [resp|cx'] w' (Hd & Hg & Ho); [done|]. destruct Ho as (-> & -> & Ho).
    eapply WW_mono; [apply IH|]. intros [resp|cx'] w' (Hd' & Hg' & Hx); [done|]. unfold checks in *. set_solver.
Qed.

Lemma WW_session_checks l m rq w :
  Forall (λ x, x = AllowedOrigin ∨ x = CSRF ∨ x = Admin) l →
  WW (run_middlewares svc (Session :: l) m rq no_context) (λ o w', only_sessions (hdb w) (hdb w') ∧ hw_guard w' = hw_guard w ∧
    match o with
    | inr cx => ∃ u t, session_user rq (hdb w) (hnow w) u t ∧ cx = mkContext (Some (joinedUser u t)) None ∧ checks l m rq (u_Role u)
    | inl resp => 400 ≤ rs_Status resp
    end) w.
Proof.
  intros Hl. cbn [run_middlewares run_middleware]. apply WW_bind. eapply WW_mono; [apply WW_requireSession|].
  intros [resp|cx] w1 (Ho & Hg & Hx); [naive_solver|]. destruct Hx as (u & t & Hu & ->).
  eapply WW_mono; [by apply WW_checks|]. intros [resp|cx] w2 (Hd & Hg' & Hx); rewrite Hd, Hg'; [done|].
  destruct Hx as (-> & -> & Hx). split_and!; [done..|]. exists u, t. done.
Qed.


Lemma serve_run r rq w resp w' :
  serve r rq w = (resp, w') →
  WW (cx ← run_middlewares svc (middlewares r) (method_of r) rq no_context; handle st ws channel svc dummyHash r rq cx)
    (λ o w'', w'' = w' ∧ (o = inl resp ∨ o = inr resp)) w.
Proof. unfold HttpServer.serve, WW. destruct ((run_middlewares _ _ _ _ _ ≫= _) w) as [[x|x] w1]; intros [= <- <-]; auto. Qed.


(** ** What reads show *)

Lemma WW_call {A} (m : ST AppWorld A) (Q : Response + res A → _ → Prop) w :
  (∀ r a, m (hw_app w) = (r, a) → Q (inr r) (mkHttpWorld a (hw_guard w))) → WW (call m) Q w.
Proof. intros HQ. unfold WW, call. destruct (m (hw_app w)) as [r a] eqn:E. by apply HQ. Qed.

Lemma now_bind {A} (f : Time → M A) x : (now_ ≫= f) x = f (env_now (w_tick x)) (tick x).
Proof. done. Qed.

Lemma WW_shareSession token w :
  share_wf (hdb w) →
  WW (sql (MasterService.AuthenticateShareSession svc token)) (λ o w', hdb w' = hdb w ∧
    match o with inr (Ok p) => share_grant (hdb w) (hnow w) p | inr (Err _) => True | inl _ => False end) w.
Proof.
  intros Hwf. unfold WW, sql, call, in_sql, MasterService.AuthenticateShareSession. destruct (negb _); [done|].
  rewrite now_bind.
  pose proof (AuthenticateShareSession_WP token (hnow w) (hdb w) (hseq w) Hwf (tick (aw_sql (hw_app w))) eq_refl eq_refl) as Hs.
  unfold hnow in Hs. destruct (ShareStore.AuthenticateShareSession _ _ _) as [r x]. destruct Hs as (Hd & _ & Hs).
  split; [done|]. destruct r as [p|e]; [by destruct Hs|done].
Qed.

Lemma WW_requireShare m rq cx w :
  share_wf (hdb w) →
  WW (requireShare svc m rq cx) (λ o w', hdb w' = hdb w ∧
    match o with
    | inr cx' => ∃ p, share_grant (hdb w) (hnow w) p ∧ tenant_mismatch rq (p_TenantCode p) = false ∧
        cx' = mkContext (cx_user cx) (Some p)
    | inl resp => 400 ≤ rs_Status resp
    end) w.
Proof.
  intros Hwf. apply WW_bind. eapply WW_mono; [by apply WW_shareSession|].
  intros [resp|r] w1 [Hd Hr]; [done|]. apply WW_bind, WW_ok_or_error.
  destruct r as [p|e]; [|intros resp w' (Hs & Hd' & _); by rewrite Hd', Hd].
  destruct (tenant_mismatch _ _) eqn:Et.
  - apply WW_writeError. intros resp w' (Hs & Hd' & _). by rewrite Hd', Hd.
  - apply WW_ret. split; [done|]. by exists p.
Qed.

Lemma DemoPrincipal_WP d s :
  WP (DemoPrincipal svc) (λ r d' _, d' = d ∧ match r with Ok p => p = svc_demo svc | Err _ => True end) d s.
Proof.
  unfold DemoPrincipal. cbv zeta. destruct (_ || _); [by apply WP_throw|]. destruct (negb _); [by apply WP_throw|].
  unfold ValidateDemo. apply WP_bind. destruct (_ || _); [by apply WP_throw|]. apply WP_bind, WP_query; [done|].
  destruct (negb _); [by apply WP_throw|]. apply WP_ret. by apply WP_ret.
Qed.

Lemma WW_time_now (Q : Response + res Time → _ → Prop) w :
  (∀ w', hdb w' = hdb w → hnow w' = env_now (S (w_tick (aw_sql (hw_app w)))) → Q (inr (Ok (hnow w))) w') → WW (sql time_now) Q w.
Proof. intros HQ. unfold WW, sql, call, in_sql, time_now. by apply HQ. Qed.

Lemma WW_requireDemo m rq cx w :
  WW (requireDemo svc m rq cx) (λ o w',
    match o with inr cx' => cx' = mkContext (cx_user cx) (Some (svc_demo svc)) | inl resp => 400 ≤ rs_Status resp end) w.
Proof.
  apply WW_bind. eapply WW_sql; [apply DemoPrincipal_WP|].
  intros r w1 [_ Hr] _ _. apply WW_bind, WW_ok_or_error. destruct r as [p|e]; [subst p|intros resp w' (Hs & _); done].
  destruct (tenant_mismatch _ _); [apply WW_writeError; intros resp w' (Hs & _); done|]. by apply WW_ret.
Qed.

(** Whose eyes a route reads with. *)
Definition viewer (r : route) (rq : Request) (d : DB) (now : Time) (p : Principal) : Prop :=
  match r with
  | Hosts | Host => ∃ u t, session_user rq d now u t ∧ p = mkPrincipal User 0 (t_TenantCode t) (u_ID u) (u_Role u) "" "" "" [] []
  | ShareHosts | ShareHost => share_grant d now p ∧ tenant_mismatch rq (p_TenantCode p) = false
  | DemoHosts | DemoHost => p = svc_demo svc
  | _ => False
  end.

Definition host_route (r : route) : Prop := r ∈ [Hosts; Host; ShareHosts; ShareHost; DemoHosts; DemoHost].

Lemma WW_viewer r rq w :
  host_route r → share_wf (hdb w) →
  WW (run_middlewares svc (middlewares r) (method_of r) rq no_context) (λ o w',
    match o with inr cx => viewer r rq (hdb w) (hnow w) (principalFromContext cx) | inl resp => 400 ≤ rs_Status resp end) w.
Proof.
  intros Hr Hwf. unfold host_route in Hr. rewrite !elem_of_cons in Hr.
  destruct Hr as [-> | [-> | [-> | [-> | [-> | [-> | Hr]]]]]]; [..|by apply not_elem_of_nil in Hr]; cbn [middlewares].
  1,2: eapply WW_mono; [apply (WW_session_checks []); constructor|]; intros [resp|cx] w' (_ & _ & Hx); [done|];
    destruct Hx as (u & t & Hu & -> & _); by exists u, t.
  1,2: cbn [run_middlewares run_middleware]; apply WW_bind; eapply WW_mono; [apply WW_origin|];
    intros [resp|cx] w1 [-> Hx]; [lia|]; destruct Hx as [-> _]; apply WW_bind; eapply WW_mono; [by apply WW_requireShare|];
    intros [resp|cx] w2 [_ Hx]; [done|]; destruct Hx as (p & Hg & Ht & ->); by apply WW_ret.
  1,2: cbn [run_middlewares run_middleware]; apply WW_bind; eapply WW_mono; [apply WW_requireDemo|];
    intros [resp|cx] w2 Hx; [done|]; subst cx; by apply WW_ret.
Qed.

(** The hosts an answer shows are all allowed to the principal. *)
Definition shows (p : Principal) (resp : Response) : Prop :=
  (∃ hosts, rs_Payload resp = PHosts (ProjectHosts p hosts) ∧ Forall (λ h, AllowsHost p (hs_TenantCode h) (hs_HostUID h) = true) hosts) ∨
  (∃ h, rs_Payload resp = PHost (ProjectHost p h) ∧ AllowsHost p (hs_TenantCode h) (hs_HostUID h) = true).

Lemma WW_handleListHosts cx w :
  WW (handleListHosts st cx) (λ o w', match o with inr resp => shows (principalFromContext cx) resp | inl resp => 400 ≤ rs_Status resp end) w.
Proof.
  apply WW_bind, WW_call. intros r a E. apply WW_bind, WW_ok_or_error.
  destruct r as [items|e]; [|intros resp w' (Hs & _); done]. apply WW_ret. left.
  apply ReadHosts_run in E as (_ & all & _ & ->). eexists. split; [done|].
  apply list.Forall_forall. intros h Hh. by apply elem_of_select in Hh as [? _].
Qed.

Lemma WW_handleGetHost rq cx w :
  WW (handleGetHost st rq cx) (λ o w', match o with
    | inr resp => rs_Status resp < 400 → shows (principalFromContext cx) resp
    | inl resp => 400 ≤ rs_Status resp end) w.
Proof.
  unfold handleGetHost. cbv zeta. destruct (str_empty _); [apply WW_writeError; intros resp w' (Hs & _); done|].
  apply WW_bind, WW_call. intros r a E. apply WW_bind, WW_ok_or_error.
  destruct r as [[h|]|e]; [|apply WW_ret; simpl; lia|intros resp w' (Hs & _); done]. apply WW_ret. intros _. right.
  exists h. split; [done|]. unfold ReadHost, mbind, ST_bind in E. destruct (negb (validReader _)); [done|].
  destruct (negb (AllowsHost _ _ _)); [done|]. destruct (hss_GetHost _ _ _) as [[[x|]|e] s1]; try done.
  destruct (AllowsHost _ (hs_TenantCode x) _) eqn:Ea; simpl in E; [|done]. by injection E as <- _.
Qed.

(** C19: the hosts of an answer are projections of hosts that the viewer may read,
    all of the viewer's own tenant and grant; the viewer of the private routes is
    the user of a valid session, that of the share routes the principal of a
    share in force, that of the demo routes the configured one. *)
Theorem http_hosts_confined r rq w resp w' :
  host_route r → share_wf (hdb w) → serve r rq w = (resp, w') → rs_Status resp < 400 →
  ∃ p, viewer r rq (hdb w) (hnow w) p ∧ shows p resp.
Proof.
  intros Hr Hwf E Hst. apply serve_run in E. pose proof (WW_viewer r rq w Hr Hwf) as Hw.
  unfold WW, mbind, Web_bind in *. destruct (run_middlewares svc _ _ rq no_context w) as [[x|cx] w1].
  { destruct E as [_ [[= ->]|[=]]]. lia. }
  exists (principalFromContext cx). split; [done|].
  assert (WW (handle st ws channel svc dummyHash r rq cx) (λ o w', match o with
    | inr resp => rs_Status resp < 400 → shows (principalFromContext cx) resp
    | inl resp => 400 ≤ rs_Status resp end) w1) as Hh.
  { unfold host_route in Hr. rewrite !elem_of_cons in Hr.
    destruct Hr as [-> | [-> | [-> | [-> | [-> | [-> | Hr]]]]]]; [..|by apply not_elem_of_nil in Hr]; cbn [handle];
    first [apply WW_handleGetHost | eapply WW_mono; [apply WW_handleListHosts|]; by intros []]. }
  unfold WW in Hh. destruct (handle _ _ _ _ _ r rq cx w1) as [o w2].
  destruct E as [_ [-> | ->]]; [lia|by apply Hh].
Qed.

(** ** Login replaces the session of the browser *)

Lemma Logout_WP token d s :
  svc_authStore svc = true → hashToken token ≠ ""%string →
  WP (Logout svc token) (λ r d' _,
    match r with
    | Ok _ => ∀ k x, db_sessions d' !! k = Some x ↔ db_sessions d !! k = Some x ∧ us_TokenHash x ≠ hashToken token
    | Err _ => True
    end) d s.
Proof.
  intros Hs Hh. unfold Logout. rewrite Hs. simpl. rewrite (proj2 (str_empty_false _) Hh).
  apply WP_autocommit_ok, WP_exec; [done..|]. simpl. intros k x. by rewrite map_lookup_filter_Some, str_eqb_false.
Qed.

Definition session_stored (d : DB) (token : string) : Prop := ∃ k x, db_sessions d !! k = Some x ∧ us_TokenHash x = hashToken token.

Lemma hashToken_blank s : hashToken s ≠ ""%string → s ≠ ""%string.
Proof. intros Hh ->. by apply Hh. Qed.

Lemma WW_handleLogin rq w :
  hashToken (token_of rq) ≠ ""%string →
  WW (handleLogin svc dummyHash rq) (λ o w', match o with
    | inl resp => 400 ≤ rs_Status resp
    | inr resp => rs_Status resp < 400 →
        ∃ c, rs_Cookie resp = Some c ∧ ck_Name c = cookieName svc ∧ ¬ session_stored (hdb w') (token_of rq) ∧
          (hashToken (ck_Value c) ≠ hashToken (token_of rq) → session_stored (hdb w') (ck_Value c))
    end) w.
Proof.
  intros Hh. unfold handleLogin. apply WW_bind. unfold bindAuthJSON. destruct (negb _); [by apply WW_answer|].
  destruct (bind_Login _) as [req|]; [|by apply WW_answer]. apply WW_ret.
  destruct (_ || _); [apply WW_writeError; intros resp w' (Hs & _); done|].
  apply WW_bind. eapply WW_sql; [eapply WP_and with (Q' := λ r _ _, is_ok r = true → svc_authStore svc = true); [apply Login_WP|]|].
  { unfold Login. destruct (svc_authStore svc); simpl; [by apply WP_any|by apply WP_throw]. }
  intros r w1 [Hr Hst] _ _. apply WW_bind, WW_ok_or_error. destruct r as [sess|e]; [|intros resp w' (Hs & _); done].
  specialize (Hst eq_refl). destruct Hr as (p & u & t & _ & _ & _ & _ & n & id & x & Hd & _ & Hx & _).
  cbv zeta. rewrite (proj2 (str_empty_false _) (hashToken_blank _ Hh)).
  apply WW_bind. eapply WW_sql; [by apply Logout_WP|]. intros r2 w2 Hr2 _ _. destruct r2 as [_|e].
  - apply WW_bind. eapply WW_sql with (P := λ _ d _, d = hdb w2); [by apply WP_time_now|]. intros r3 w3 Hr3 _ _. apply WW_ret. intros _. simpl.
    eexists. split_and!; [done..|rewrite Hr3|rewrite Hr3].
    + intros (k & y & Hk & Hy). apply Hr2 in Hk. naive_solver.
    + intros Hne. exists id, x. split; [|done]. apply Hr2. rewrite Hd. simpl.
      rewrite lookup_insert, decide_True by done. split; [done|]. by rewrite Hx.
  - apply WW_bind. eapply WW_sql with (P := λ _ _ _, True); [by apply WP_any|]. intros r3 w3 _ _ _. apply WW_ret. simpl. lia.
Qed.

(** A login replaces the session of the browser: after a successful login by
    a request that carried a session token, no stored session belongs to that
    token any more, and the one behind the new cookie is stored (the two differ
    unless a fresh random token repeats the old one). *)
Theorem http_login_rotates rq w resp w' :
  hashToken (token_of rq) ≠ ""%string → serve AuthLogin rq w = (resp, w') → rs_Status resp < 400 →
  ∃ c, rs_Cookie resp = Some c ∧ ck_Name c = cookieName svc ∧ ¬ session_stored (hdb w') (token_of rq) ∧
    (hashToken (ck_Value c) ≠ hashToken (token_of rq) → session_stored (hdb w') (ck_Value c)).
Proof.
  intros Hh E Hst. apply serve_run in E.
  assert (WW ((cx ← (cx ← requireAllowedOrigin svc (method_of AuthLogin) rq no_context; mret cx);
      limited rq (handleLogin svc dummyHash rq))) (λ o w', match o with
    | inl resp => 400 ≤ rs_Status resp
    | inr resp => rs_Status resp < 400 →
        ∃ c, rs_Cookie resp = Some c ∧ ck_Name c = cookieName svc ∧ ¬ session_stored (hdb w') (token_of rq) ∧
          (hashToken (ck_Value c) ≠ hashToken (token_of rq) → session_stored (hdb w') (ck_Value c))
    end) w) as Hw.
  { apply WW_bind, WW_bind. eapply WW_mono; [apply WW_origin|]. intros [r0|cx] w1 [-> Ho]; [lia|]. destruct Ho as [-> _].
    apply WW_ret. apply WW_bind. eapply WW_sql with (P := λ _ _ _, True); [by apply WP_any|]. intros r w1 _ _ _.
    unfold WW, in_slot. destruct (limitAuthWork _ _ _) as [v g]. destruct v; [done|done|].
    pose proof (WW_handleLogin rq (mkHttpWorld (hw_app w1) g) Hh) as Hl. unfold WW in Hl.
    destruct (handleLogin svc dummyHash rq _) as [o w2]. exact Hl. }
  destruct (WW_both _ _ _ _ E Hw) as (o & w2 & [-> [-> | ->]] & Ho); [lia|by apply Ho].
Qed.

(** ** The health check *)

(** Anybody gets the health report, whatever state the tables are in; it leaves
    everything as it was, and its timestamp, read back, is the server's clock to the
    second. *)
Theorem http_health rq w resp w' :
  serve Healthz rq w = (resp, w') → 0 ≤ hnow w < before_year 10000 * 86400 * Second →
  rs_Status resp = 200 ∧ hdb w' = hdb w ∧ hw_guard w' = hw_guard w ∧ aw_redis (hw_app w') = aw_redis (hw_app w) ∧
  ∃ stamp, rs_Payload resp = PHealth [("status", "ok"); ("time", stamp)]%string ∧ ReadRFC3339 stamp = Some (hnow w - hnow w mod Second).
Proof.
  intros E Ht. injection E as <- <-. split_and!; [done..|]. exists (FormatRFC3339 (hnow w)). split; [done|]. by apply FormatRFC3339_read.
Qed.

End http.

(** ** Concrete requests *)

Definition ex_decoder : BodyDecoder := {|
  bind_RegisterAgent _ := None; bind_Maintenance _ := None; bind_AckAlert _ := Some ();
  bind_UserPatch _ := Some (mkUserUpdate None None None); bind_Setup _ := None; bind_Login _ := Some ex_login;
  bind_Share _ := None; bind_ShareToken _ := None
|}.
Definition ex_error_text : ErrorText := {| error_text _ := ""%string; is_PgError _ := true |}.

Section examples.
#[local] Existing Instance Env_quiet.
#[local] Existing Instance PgTypes_exact.
#[local] Existing Instance Bcrypt_plain.
#[local] Existing Instance StringsLower_ascii.
#[local] Existing Instance Redis_quiet.
#[local] Existing Instance BitCodec.
#[local] Existing Instance MetricRange_keys.
#[local] Existing Instance ex_decoder.
#[local] Existing Instance ex_error_text.
#[local] Instance ex_http_codec : EventCodec := OneEventCodec ex_event.

Definition ex_http : HttpWorld := mkHttpWorld (mkAppWorld ex_logged_in ex_redis) newAuthGuard.
Definition ex_request (token : string) : Request :=
  mkRequest "10.0.0.1:4000" "" "" "application/json" [("gaoming_session"%string, token)] "" "" "".
Definition ex_serve (r : route) (token : string) : Response * HttpWorld :=
  HttpServer.serve ex_store ex_window_store "c" ex_sv "" r (ex_request token) ex_http.


Lemma http_hosts_confined_witness :
  ∃ p, viewer ex_sv Hosts (ex_request (as_Token ex_session)) (hdb ex_http) (hnow ex_http) p ∧
    shows p (ex_serve Hosts (as_Token ex_session)).1.
Proof.
  assert (rs_Status (ex_serve Hosts (as_Token ex_session)).1 < 400) as Hk by (vm_compute; reflexivity).
  assert (host_route Hosts) as Hr by (left; reflexivity).
  assert (share_wf (hdb ex_http)) as Hw by (apply share_wf_empty; vm_compute; reflexivity).
  destruct (ex_serve Hosts (as_Token ex_session)) as [resp w'] eqn:E.
  exact (http_hosts_confined ex_store ex_window_store "c" ex_sv "" Hosts _ ex_http resp w' Hr Hw E Hk).
Defined.

Lemma http_login_rotates_witness :
  ¬ session_stored (hdb (ex_serve AuthLogin (as_Token ex_session)).2) (as_Token ex_session).
Proof.
  assert (rs_Status (ex_serve AuthLogin (as_Token ex_session)).1 < 400) as Hk by (vm_compute; reflexivity).
  assert (hashToken (as_Token ex_session) ≠ ""%string) as Hh by (vm_compute; discriminate).
  destruct (ex_serve AuthLogin (as_Token ex_session)) as [resp w'] eqn:E.
  destruct (http_login_rotates ex_store ex_window_store "c" ex_sv "" (ex_request (as_Token ex_session)) ex_http resp w' Hh E Hk)
    as (c & _ & _ & Hn & _). exact Hn.
Defined.

End examples.
