(* ===== verification/HostStream.v ===== *)
(** * The stream of host events

    Models [server/internal/master/transport/http/stream.go] and
    [recheckReadAccess] of [access.go]: opening a stream (the synchronisation
    frame) and the loop that waits for cancellation, for the timer that checks
    the access again, for an event of the bus and for the keep-alive timer.  The
    arms of the [select] are the inputs of the loop; between two inputs the rest
    of the system may do anything to the shared state. *)

From Stdlib Require Import Ascii.
From stdpp Require Import gmap strings list sorting pretty.
From S2P Require Import Prelude GoRuntime GoStrings Contracts Encoding Access Sql HostStore HostStoreProps.
From S2P Require Import Operations ShareStore ShareStoreProps MetricWindow EventBus Interfaces Ingest AuthStore MasterService.
From S2P Require Import AuthProps MasterProps AuthGuard HttpServer HttpProps.
Local Open Scope Z_scope.

(** [reflect.DeepEqual] on principals. *)
#[export] Instance Principal_eq_dec : EqDecision Principal.
Proof. solve_decision. Defined.

(** ** Frames *)

(** [None] is the nil map of histories, distinct from an empty one; the maps of
    latest points are nil exactly when they are empty. *)
Inductive frame :=
| SyncFrame (items : list hostView) (histories : option (gmap string (gmap MetricKey (list StatePoint))))
    (latest : gmap string (gmap MetricKey StatePoint)) (server_time : Time)
| UpsertFrame (item : hostView) (latest : gmap MetricKey StatePoint) (server_time : Time)
| KeepAlive.

(** Whether the JSON library can encode a frame: a value that is no JSON number
    makes [json.Marshal] fail. *)
Class FrameEncoder := { encodable : frame → bool }.

(** The arms of the loop's [select]; a write may fail. *)
Inductive stream_input :=
| Cancelled
| RecheckTick
| EventsClosed
| BusEvent (e : HostEvent) (written : bool)
| HeartbeatTick (written : bool).

Section stream.
Context `{Env} `{PgTypes} `{Bcrypt} `{StringsLower} `{RedisEnv} `{JsonCodec} `{EventCodec} `{MetricRange}.
Context `{BodyDecoder} `{ErrorText} `{FrameEncoder}.
Context (st : PgStore) (ws : WindowStore) (svc : Service).

#[local] Instance stream_hosts : HostStateStore AppWorld := App_HostStateStore st.
#[local] Instance stream_window : MetricWindow AppWorld := App_MetricWindow ws.

(** [matchesTenant], which only a test calls: what a principal may see passes it. *)
Definition matchesTenant (snapshot : HostSnapshot) (tenantCode : string) : bool :=
  if str_empty tenantCode then true else str_eqb (hs_TenantCode snapshot) tenantCode.

Lemma matchesTenant_allowed p h :
  AllowsHost p (hs_TenantCode h) (hs_HostUID h) = true → matchesTenant h (p_TenantCode p) = true.
Proof.
  unfold AllowsHost, matchesTenant. destruct (str_empty (p_TenantCode p)); [done|]. by destruct (str_eqb (hs_TenantCode h) (p_TenantCode p)).
Qed.

(** ** [recheckReadAccess] *)

Definition recheckReadAccess (rq : Request) (p : Principal) : Web bool :=
  if str_eqb (p_Kind p) User then
    r ← sql (ResolveSessionUser svc (sessionTokenFromRequest rq (cookieName svc)));
    mret (match r with
          | Ok (Some (user, _)) => (user_ID user =? p_UserID p) && str_eqb (user_TenantCode user) (p_TenantCode p) &&
                                   str_eqb (user_Role user) (p_Role p)
          | _ => false
          end)
  else if str_eqb (p_Kind p) Share then
    r ← sql (MasterService.AuthenticateShareSession svc (sessionTokenFromRequest rq shareCookieName));
    mret (match r with
          | Ok current => str_eqb (p_ShareID current) (p_ShareID p) && str_eqb (p_TenantCode current) (p_TenantCode p) &&
                          bool_decide (p_AllowedHosts current = p_AllowedHosts p) && bool_decide (p_Fields current = p_Fields p)
          | Err _ => false
          end)
  else if str_eqb (p_Kind p) Demo then
    r ← sql (DemoPrincipal svc);
    mret (match r with Ok current => bool_decide (current = p) | Err _ => false end)
  else mret false.

(** ** Opening *)

Definition hostUIDsFromSnapshots (items : list HostSnapshot) : list string :=
  select (λ uid, negb (str_empty uid)) (hs_HostUID <$> items).

(** The histories of the listed hosts, restricted to the sixteen metrics. *)
Definition filterHistories (items : list HostSnapshot) (histories : gmap string (gmap MetricKey (list StatePoint)))
    : gmap string (gmap MetricKey (list StatePoint)) :=
  foldl (λ filtered item,
    match histories !! hs_HostUID item with
    | Some history => <[hs_HostUID item := filter (λ '(key, _), key ∈ MetricKeys) history]> filtered
    | None => filtered
    end) ∅ items.

Definition latestMetricPointsByHost (items : list HostSnapshot) : gmap string (gmap MetricKey StatePoint) :=
  foldl (λ latest item,
    let points := latestMetricPointsFromSnapshot item in
    if bool_decide (points = ∅) then latest else <[hs_HostUID item := points]> latest) ∅ items.

(** [SubscribeHostEvents] of the bus: it may fail to subscribe. *)
Definition subscribeEvents : ST AppWorld unit := in_redis (λ r,
  match redis_fault (rd_tick r) with Some _ => (Err errRedisIO, tickR r) | None => (Ok (), tickR r) end).

(** Up to the synchronisation frame, which is left out when it cannot be encoded;
    the loop is entered unless writing it failed. *)
Definition openHostStream (rq : Request) (p : Principal) (written : bool) : Web (list frame * bool) :=
  r ← call (ReadHosts p);
  match r with
  | Err _ => answer (reply 500 (PMessage "host state unavailable"))
  | Ok items =>
      histories ←
        (if AllowsField p "metrics" && (0 <? llen items) then
           r ← call (GetAllHostMetricHistory (hostUIDsFromSnapshots items));
           match r with
           | Err _ => answer (reply 500 (PMessage "history unavailable"))
           | Ok histories => mret (Some (filterHistories items histories))
           end
         else mret None);
      r ← call subscribeEvents;
      match r with
      | Err _ => answer (reply 500 (PMessage "live updates unavailable"))
      | Ok _ =>
          ok ← recheckReadAccess rq p;
          if negb ok then writeError ErrServiceUnauthorized else
          now ← sql time_now;
          let latest := if AllowsField p "metrics" then latestMetricPointsByHost items else ∅ in
          let sync := SyncFrame (ProjectHosts p items) histories latest (now_or_zero now) in
          mret (if encodable sync then (if written then [sync] else [], written) else ([], true))
      end
  end.

(** ** The loop *)

(** The frames an input makes it write, and whether it goes on. *)
Definition streamStep (rq : Request) (p : Principal) (i : stream_input) : Web (list frame * bool) :=
  match i with
  | Cancelled | EventsClosed => mret ([], false)
  | RecheckTick => ok ← recheckReadAccess rq p; mret ([], ok)
  | HeartbeatTick written => mret (if written then [KeepAlive] else [], written)
  | BusEvent e written =>
      now ← sql time_now;
      ok ← recheckReadAccess rq p;
      if negb ok then mret ([], false) else
      if str_eqb (he_Type e) HostEventUpsert then
        match he_Snapshot e with
        | None => mret ([], true)
        | Some snapshot =>
            if negb (AllowsHost p (hs_TenantCode snapshot) (hs_HostUID snapshot)) then mret ([], true) else
            let latest := if AllowsField p "metrics" then latestMetricPointsFromSnapshot snapshot else ∅ in
            let f := UpsertFrame (ProjectHost p snapshot) latest (now_or_zero now) in
            if negb (encodable f) then mret ([], true)
            else mret (if written then [f] else [], written)
        end
      else mret ([], true)
  end.

(** A run of the loop: the inputs, each after whatever else happened, and the
    frames with the state their step started in. *)
Fixpoint streamRun (rq : Request) (p : Principal) (l : list ((HttpWorld → HttpWorld) * stream_input)) (w : HttpWorld)
    : list (HttpWorld * frame) :=
  match l with
  | [] => []
  | (others, i) :: l =>
      let w0 := others w in
      match streamStep rq p i w0 with
      | (inr (frames, alive), w1) => ((w0,.) <$> frames) ++ (if alive then streamRun rq p l w1 else [])
      | (inl _, _) => []
      end
  end.

(** ** Who is served *)

(** The principal could open the stream again at this very moment: its session is
    valid and still belongs to that user, tenant and role; its share is in force
    and still grants the same hosts and fields; it is the configured demo. *)
Definition current_access (rq : Request) (d : DB) (now : Time) (p : Principal) : Prop :=
  (p_Kind p = User ∧ svc_authStore svc = true ∧
     ∃ x u t, session_valid d (hashToken (sessionTokenFromRequest rq (cookieName svc))) now x u t ∧
       u_ID u = p_UserID p ∧ t_TenantCode t = p_TenantCode p ∧ u_Role u = p_Role p) ∨
  (p_Kind p = Share ∧ ∃ p', share_grant d now p' ∧ p_ShareID p' = p_ShareID p ∧ p_TenantCode p' = p_TenantCode p ∧
     p_AllowedHosts p' = p_AllowedHosts p ∧ p_Fields p' = p_Fields p) ∨
  (p_Kind p = Demo ∧ p = svc_demo svc).

Lemma WW_recheck rq p w :
  share_wf (hdb w) →
  WW (recheckReadAccess rq p) (λ o w', only_sessions (hdb w) (hdb w') ∧
    match o with inr ok => ok = true → current_access rq (hdb w) (hnow w) p | inl _ => False end) w.
Proof.
  intros Hwf. unfold recheckReadAccess, current_access. destruct (str_eqb _ User) eqn:Eu.
  { apply str_eqb_true in Eu. apply WW_bind, WW_ResolveSessionUser. intros r w1 _ _ Hr. apply WW_ret.
    destruct r as [[[user rec]|]|e]; [|by split..]. destruct Hr as (Hs & Hh & (x & u & t & Hv & ->) & Ho).
    split; [done|]. intros Hok. bool_to_prop. left. simpl in *. split_and!; [done..|]. exists x, u, t.
    repeat match goal with Hx : str_eqb _ _ = true |- _ => apply str_eqb_true in Hx end. by split_and!. }
  destruct (str_eqb _ Share) eqn:Es.
  { apply str_eqb_true in Es. apply WW_bind. eapply WW_mono; [by apply WW_shareSession|].
    intros [resp|r] w1 [Hd Hr]; [done|]. apply WW_ret. rewrite Hd. split; [auto|]. destruct r as [cur|e]; [|done].
    intros Hok. bool_to_prop. right; left. split; [done|]. exists cur.
    repeat match goal with Hx : str_eqb _ _ = true |- _ => apply str_eqb_true in Hx end. by split_and!. }
  destruct (str_eqb _ Demo) eqn:Ed; [|apply WW_ret; split; auto; done].
  apply str_eqb_true in Ed. apply WW_bind, (WW_sql _ (λ r d _, d = hdb w ∧ match r with Ok p => p = svc_demo svc | Err _ => True end)).
  { apply DemoPrincipal_WP. }
  intros r w1 [Hd Hr] _ _. apply WW_ret. rewrite Hd. split; [auto|]. destruct r as [cur|e]; [|done].
  intros Hok. bool_to_prop. subst. auto.
Qed.

(** A frame tells the principal nothing beyond its grant. *)
Definition allowed_host (p : Principal) (h : HostSnapshot) : Prop := AllowsHost p (hs_TenantCode h) (hs_HostUID h) = true.

Definition frame_confined (p : Principal) (f : frame) : Prop :=
  match f with
  | SyncFrame items histories latest _ =>
      ∃ hosts, items = ProjectHosts p hosts ∧ Forall (allowed_host p) hosts ∧
        (AllowsField p "metrics" = false → histories = None ∧ latest = ∅) ∧
        (∀ hist uid, histories = Some hist → is_Some (hist !! uid) → uid ∈ hs_HostUID <$> hosts) ∧
        (∀ uid, is_Some (latest !! uid) → uid ∈ hs_HostUID <$> hosts)
  | UpsertFrame item latest _ =>
      ∃ h, item = ProjectHost p h ∧ allowed_host p h ∧ (AllowsField p "metrics" = false → latest = ∅)
  | KeepAlive => True
  end.

Definition data_frame (f : frame) : bool := match f with KeepAlive => false | _ => true end.

(** The moment at which a step that starts in [w] checks the access. *)
Definition check_time (w : HttpWorld) : Time := env_now (S (w_tick (aw_sql (hw_app w)))).

Lemma WW_streamStep rq p i w :
  share_wf (hdb w) →
  WW (streamStep rq p i) (λ o w', only_sessions (hdb w) (hdb w') ∧
    match o with
    | inr (frames, _) => ∀ f, f ∈ frames → frame_confined p f ∧ (data_frame f = true → current_access rq (hdb w) (check_time w) p)
    | inl _ => True
    end) w.
Proof.
  intros Hwf. destruct i as [| | |e written|written]; cbn [streamStep].
  - apply WW_ret. split; [auto|]. by intros f ?%not_elem_of_nil.
  - apply WW_bind. eapply WW_mono; [by apply WW_recheck|]. intros [resp|ok] w1 [Ho _]; [done|]. apply WW_ret.
    split; [done|]. by intros f ?%not_elem_of_nil.
  - apply WW_ret. split; [auto|]. by intros f ?%not_elem_of_nil.
  - apply WW_bind. apply (WW_time_now _ w). intros w1 Hd1 Hn1. apply WW_bind.
    eapply WW_mono; [apply WW_recheck; by rewrite Hd1|]. intros [resp|ok] w2 [Ho Hc]; [done|]. rewrite Hd1 in Ho, Hc.
    assert (∀ b : bool, WW (mret (@nil frame, b)) (λ o w', only_sessions (hdb w) (hdb w') ∧
      match o with
      | inr (frames, _) => ∀ f, f ∈ frames → frame_confined p f ∧ (data_frame f = true → current_access rq (hdb w) (check_time w) p)
      | inl _ => True
      end) w2) as Hnil.
    { intros b. apply WW_ret. split; [done|]. by intros f ?%not_elem_of_nil. }
    destruct ok; simpl; [|apply Hnil]. specialize (Hc eq_refl). rewrite Hn1 in Hc.
    destruct (str_eqb _ _); [|apply Hnil]. destruct (he_Snapshot e) as [h|]; [|apply Hnil].
    destruct (AllowsHost _ _ _) eqn:Ea; simpl; [|apply Hnil]. destruct (encodable _); simpl; [|apply Hnil].
    apply WW_ret. split; [done|]. intros f Hf. destruct written; [|by apply not_elem_of_nil in Hf].
    apply list_elem_of_singleton in Hf as ->. split; [|done]. exists h. split_and!; [done..|]. by intros ->.
  - apply WW_ret. split; [auto|]. intros f Hf. destruct written; [|by apply not_elem_of_nil in Hf].
    by apply list_elem_of_singleton in Hf as ->.
Qed.

Lemma only_sessions_share_wf d d' : only_sessions d d' → share_wf d → share_wf d'.
Proof. intros [X ->] Hd. by destruct Hd. Qed.

(** What else happens keeps the share tables sound. *)
Definition others_keep (l : list ((HttpWorld → HttpWorld) * stream_input)) : Prop :=
  Forall (λ x, ∀ w, share_wf (hdb w) → share_wf (hdb (x.1 w))) l.

(** C20: whatever the stream writes while it runs, and whatever else happens
    between its steps, every host update goes to a principal whose access holds
    at that very moment (a valid session of the same user, role and tenant, a
    share in force with the same hosts and fields, or the demo), shows a host of
    its tenant and grant through its projection, and carries metrics only when
    they are granted.  So nothing is sent after a logout, a revocation, an expiry
    or a change of the grant. *)
Theorem stream_frames_current rq p l w w0 f :
  share_wf (hdb w) → others_keep l → (w0, f) ∈ streamRun rq p l w →
  frame_confined p f ∧ (data_frame f = true → current_access rq (hdb w0) (check_time w0) p).
Proof.
  intros Hwf Hl. revert w Hwf. induction Hl as [|[others i] l Hi _ IH]; intros w Hwf Hin; [by apply not_elem_of_nil in Hin|].
  simpl in Hin, Hi. apply Hi in Hwf. pose proof (WW_streamStep rq p i (others w) Hwf) as Hs. unfold WW in Hs.
  destruct (streamStep rq p i (others w)) as [[resp|[frames alive]] w1]; [by apply not_elem_of_nil in Hin|].
  destruct Hs as [Ho Hs]. apply elem_of_app in Hin as [Hin|Hin].
  - apply list_elem_of_fmap in Hin as (g & [= -> ->] & Hg). by apply Hs.
  - destruct alive; [|by apply not_elem_of_nil in Hin]. apply (IH w1); [by eapply only_sessions_share_wf|done].
Qed.

(** ** Opening *)

Lemma filterHistories_keys items hist uid : is_Some (filterHistories items hist !! uid) → uid ∈ hs_HostUID <$> items.
Proof.
  unfold filterHistories. induction items as [|h l IH] using rev_ind; [simpl; rewrite lookup_empty; by intros []|].
  rewrite foldl_snoc, fmap_app, elem_of_app.
  destruct (hist !! hs_HostUID h); [|intros Hx; left; by apply IH].
  rewrite lookup_insert_is_Some. intros [<-|[_ Hx]]; [right; left|left; by apply IH].
Qed.

Lemma latestByHost_keys items uid : is_Some (latestMetricPointsByHost items !! uid) → uid ∈ hs_HostUID <$> items.
Proof.
  unfold latestMetricPointsByHost. induction items as [|h l IH] using rev_ind; [simpl; rewrite lookup_empty; by intros []|].
  rewrite foldl_snoc, fmap_app, elem_of_app.
  cbv zeta. case_bool_decide; [intros Hx; left; by apply IH|].
  rewrite lookup_insert_is_Some. intros [<-|[_ Hx]]; [right; left|left; by apply IH].
Qed.

Lemma in_redis_sql {A} (m : ST Redis A) a r a' : in_redis m a = (r, a') → aw_sql a' = aw_sql a.
Proof. unfold in_redis. destruct (m (aw_redis a)) as [r0 x]. by intros [= _ <-]. Qed.

Lemma ReadHosts_db p w r a :
  ReadHosts p (hw_app w) = (r, a) → w_db (aw_sql a) = hdb w ∧
  match r with Ok items => Forall (allowed_host p) items | Err _ => True end.
Proof.
  unfold ReadHosts, mbind, ST_bind. destruct (validReader p); simpl; [|by intros [= <- <-]].
  unfold in_sql. pose proof (listHosts_pure "" (p_TenantCode p) (hdb w) (hseq w) (aw_sql (hw_app w)) eq_refl eq_refl) as Hl.
  unfold HostStore.ListHosts. destruct (listHosts _ _ _) as [[items|e] x]; intros [= <- <-]; (split; [by apply Hl|]); [|done].
  apply list.Forall_forall. intros h Hh. by apply elem_of_select in Hh as [? _].
Qed.

(** The access is checked again once the hosts were read. *)
Definition opened_by (rq : Request) (p : Principal) (w : HttpWorld) : Prop :=
  ∃ items a, ReadHosts p (hw_app w) = (Ok items, a) ∧ current_access rq (hdb w) (hnow (mkHttpWorld a (hw_guard w))) p.

(** A stream opens only for a principal that may read and whose access holds
    on the tables of that moment after its hosts were read, and the synchronisation
    frame shows the granted hosts through their projections, with histories and
    latest values of those hosts only, and of none without the metrics grant;
    nothing but the last use of sessions is written. *)
Theorem stream_open_sound rq p written w frames alive w' :
  share_wf (hdb w) → openHostStream rq p written w = (inr (frames, alive), w') →
  opened_by rq p w ∧ (∀ f, f ∈ frames → frame_confined p f) ∧ only_sessions (hdb w) (hdb w').
Proof.
  intros Hwf E.
  assert (WW (openHostStream rq p written) (λ o w', match o with
    | inl _ => True
    | inr (frames, _) => opened_by rq p w ∧ (∀ f, f ∈ frames → frame_confined p f) ∧ only_sessions (hdb w) (hdb w')
    end) w) as Hw; [|unfold WW in Hw; by rewrite E in Hw].
  clear E. apply WW_bind, WW_call. intros r a E. pose proof E as E0. apply ReadHosts_db in E as [Hd Hr].
  destruct r as [items|e]; [|by apply WW_answer]. apply WW_bind.
  assert (WW (A:=option (gmap string (gmap MetricKey (list StatePoint))))
     (if AllowsField p "metrics" && (0 <? llen items) then
           r ← call (GetAllHostMetricHistory (hostUIDsFromSnapshots items));
           match r with
           | Err _ => answer (reply 500 (PMessage "history unavailable"))
           | Ok histories => mret (Some (filterHistories items histories))
           end
         else mret None) (λ o w', match o with
    | inl _ => True
    | inr h => aw_sql (hw_app w') = aw_sql a ∧ (AllowsField p "metrics" = false → h = None) ∧
        ∀ hist uid, h = Some hist → is_Some (hist !! uid) → uid ∈ hs_HostUID <$> items
    end) (mkHttpWorld a (hw_guard w))) as Hh.
  { destruct (AllowsField p "metrics" && _) eqn:Ea; [|apply WW_ret; naive_solver]. apply andb_true_iff in Ea as [Ea _].
    apply WW_bind, WW_call. intros r1 a1 E1. destruct r1 as [h|e]; [|by apply WW_answer]. apply WW_ret. split_and!.
    - by apply (in_redis_sql _ _ _ _ E1).
    - by rewrite Ea.
    - intros hist uid [= <-]. apply filterHistories_keys. }
  eapply WW_mono; [apply Hh|]. intros [resp|h] w1; [done|]. intros (Hd1 & Hh1 & Hh2). apply WW_bind, WW_call.
  intros r2 a2 E2. pose proof (in_redis_sql _ _ _ _ E2) as Hs2. rewrite Hd1 in Hs2.
  assert (w_db (aw_sql a2) = hdb w) as Hd2 by (by rewrite Hs2).
  destruct r2 as [[]|e]; [|by apply WW_answer]. apply WW_bind.
  eapply WW_mono; [apply WW_recheck; unfold hdb; simpl; by rewrite Hd2|]. unfold hdb at 1 3. simpl. rewrite Hd2.
  intros [resp|ok] w2 [Ho Hc]; [done|]. destruct ok; simpl; [|by apply WW_writeError]. specialize (Hc eq_refl).
  assert (opened_by rq p w) as Hop by (exists items, a; split; [done|]; unfold hnow in Hc |- *; simpl in Hc |- *; by rewrite Hs2 in Hc).
  apply WW_bind, WW_time_now. intros w3 Hd3 _. cbv zeta. apply WW_ret.
  assert (only_sessions (hdb w) (hdb w3)) as Ho3 by (by rewrite Hd3).
  destruct (encodable _); [|split_and!; [done|by intros f ?%not_elem_of_nil|done]].
  split_and!; [done| |done]. intros f Hf. destruct written; [|by apply not_elem_of_nil in Hf].
  apply list_elem_of_singleton in Hf as ->. exists items. split_and!; [done..| |done|].
  - intros Ha. rewrite Ha. auto.
  - intros uid. destruct (AllowsField p "metrics"); [apply latestByHost_keys|]. rewrite lookup_empty. by intros [].
Qed.

End stream.

(** ** A concrete stream *)

Section examples.
#[local] Existing Instance Env_quiet.
#[local] Existing Instance PgTypes_exact.
#[local] Existing Instance Bcrypt_plain.
#[local] Existing Instance StringsLower_ascii.
#[local] Existing Instance Redis_quiet.
#[local] Existing Instance BitCodec.
#[local] Existing Instance MetricRange_keys.
#[local] Existing Instance ex_decoder.
#[local] Existing Instance ex_error_text.
#[local] Existing Instance ex_http_codec.
#[local] Instance ex_encoder : FrameEncoder := {| encodable _ := true |}.

Definition ex_user : Principal := mkPrincipal User 0 "acme" 1 "admin" "" "" "" [] [].
Definition ex_stream_host : HostSnapshot :=
  mkHostSnapshot "host-a" "acme" "web-1" "10.0.0.1" "" Up Unknown Unknown Up f64_zero f64_zero 0 f64_zero f64_zero 0 f64_zero
    0 0 0 0 f64_zero 0 0 0 0 0 0 0 0 ∅ 1.
Definition ex_inputs : list ((HttpWorld → HttpWorld) * stream_input) :=
  [(id, BusEvent (mkHostEvent HostEventUpsert "host-a" (Some ex_stream_host)) true)].
Definition ex_stream (token : string) : list (HttpWorld * frame) := streamRun ex_sv (ex_request token) ex_user ex_inputs ex_http.

Lemma ex_http_share_wf : share_wf (hdb ex_http).
Proof. apply share_wf_empty; vm_compute; reflexivity. Qed.

Lemma stream_frames_current_witness :
  match ex_stream (as_Token ex_session) with
  | [(w0, f)] => data_frame f = true ∧ current_access ex_sv (ex_request (as_Token ex_session)) (hdb w0) (check_time w0) ex_user
  | _ => False
  end.
Proof.
  assert ((λ l, match l with [(_, f)] => data_frame f | _ => false end) (ex_stream (as_Token ex_session)) = true) as Hk by (vm_compute; reflexivity).
  assert (others_keep ex_inputs) as Ho by (constructor; [intros w Hw; exact Hw|constructor]).
  pose proof (λ w0 f, stream_frames_current ex_sv (ex_request (as_Token ex_session)) ex_user ex_inputs ex_http w0 f ex_http_share_wf Ho) as Hs.
  change (streamRun ex_sv (ex_request (as_Token ex_session)) ex_user ex_inputs ex_http) with (ex_stream (as_Token ex_session)) in Hs.
  destruct (ex_stream (as_Token ex_session)) as [|[w0 f] [|y l]]; [discriminate Hk| |discriminate Hk].
  split; [exact Hk|]. exact (proj2 (Hs w0 f (list_elem_of_here _ _)) Hk).
Defined.

Lemma stream_open_sound_witness :
  match openHostStream ex_store ex_window_store ex_sv (ex_request (as_Token ex_session)) ex_user true ex_http with
  | (inr ([f], true), _) => frame_confined ex_user f
  | _ => False
  end.
Proof.
  assert ((λ o, match o with inr ([_], true) => true | _ => false end)
    (openHostStream ex_store ex_window_store ex_sv (ex_request (as_Token ex_session)) ex_user true ex_http).1 = true) as Hk
    by (vm_compute; reflexivity).
  destruct (openHostStream ex_store ex_window_store ex_sv (ex_request (as_Token ex_session)) ex_user true ex_http) as [[resp|[frames alive]] w'] eqn:E;
    [discriminate Hk|].
  pose proof (proj1 (proj2 (stream_open_sound ex_store ex_window_store ex_sv _ ex_user true ex_http frames alive w' ex_http_share_wf E))) as Hs.
  destruct frames as [|f [|g l]]; [discriminate Hk| |discriminate Hk]. destruct alive; [|discriminate Hk].
  exact (Hs f (list_elem_of_here _ _)).
Defined.

End examples.
