(* ===== verification/Lifecycle.v ===== *)
(** * The life of the server process

    Models [App.serve] of [server/internal/app/app.go]: the components run as
    goroutines that send what they returned to a channel of four places; the main
    goroutine waits for the context or for the first of them, cancels the work,
    stops both listeners under one deadline and waits for all goroutines.

    What the libraries and the clients do are steps of the environment.  The
    clients open and close calls and requests as they like, and may keep a stream
    open forever.  [http.Server.Serve] returns a non-nil error, at the latest once
    [Shutdown] is called; [grpc.Server.Serve] returns an error, or nil once a stop
    has been carried out; the probe and the reconciler return nil once their
    context is cancelled.  [GracefulStop] returns when no call is left or [Stop]
    was called, [Shutdown] when no request is left or its context is done, and
    then with an error.  [due_step] is the part of it that must happen sooner or
    later. *)

From stdpp Require Import gmap strings list relations.
From S2P Require Import Prelude.

Inductive worker := WHTTP | WGRPC | WProbe | WReconciler.
#[export] Instance worker_eq_dec : EqDecision worker.
Proof. solve_decision. Defined.

(** The errors of the listeners; the two that a regular stop yields. *)
Inductive runError := ErrServerClosed | ErrServerStopped | OtherRunError (n : nat).

(** The errors of [serve]. *)
Inductive serveError :=
| ComponentError (w : worker) (e : runError)
| ComponentStopped
| ListenerStopped (w : worker) (e : runError).

Inductive phase :=
| Selecting
| AwaitGRPC (result : option serveError)
| AwaitHTTP (result : option serveError)
| AwaitWorkers (result : option serveError)
| Returned (ret : option serveError).

Record state := mkState {
  sv_phase : phase;
  sv_running : list worker;
  sv_errCh : list (worker * option runError);
  sv_ended : list (worker * option runError); (** all that was ever sent, oldest first *)
  sv_ctx : bool;         (** the context is cancelled *)
  sv_deadline : bool;    (** the context of the shutdown is done *)
  sv_stopped : bool;     (** [GracefulStop] has returned *)
  sv_forced : bool;      (** [grpcServer.Stop] was called *)
  sv_http : option bool; (** what [Shutdown] returned, [true] for nil *)
  sv_closed : bool;      (** [httpServer.Close] was called *)
  sv_calls : nat;        (** gRPC calls in flight, streams among them *)
  sv_requests : nat      (** HTTP requests in flight, event streams among them *)
}.

Definition errCh_cap : nat := 4.

(** The components that are started. *)
Definition components (logger reconciler : bool) : list worker :=
  [WHTTP; WGRPC] ++ (if logger then [WProbe] else []) ++ (if reconciler then [WReconciler] else []).

Definition init (ws : list worker) : state := mkState Selecting ws [] [] false false false false None false 0 0.

Definition set_phase ph s :=
  mkState ph (sv_running s) (sv_errCh s) (sv_ended s) (sv_ctx s) (sv_deadline s) (sv_stopped s) (sv_forced s) (sv_http s) (sv_closed s) (sv_calls s) (sv_requests s).
Definition set_errCh ch s :=
  mkState (sv_phase s) (sv_running s) ch (sv_ended s) (sv_ctx s) (sv_deadline s) (sv_stopped s) (sv_forced s) (sv_http s) (sv_closed s) (sv_calls s) (sv_requests s).
(** A component returns [r] and sends it; [run] are those that still run. *)
Definition ended run w r s :=
  mkState (sv_phase s) run (sv_errCh s ++ [(w, r)]) (sv_ended s ++ [(w, r)]) (sv_ctx s) (sv_deadline s) (sv_stopped s) (sv_forced s) (sv_http s) (sv_closed s) (sv_calls s) (sv_requests s).
Definition set_ctx s :=
  mkState (sv_phase s) (sv_running s) (sv_errCh s) (sv_ended s) true (sv_deadline s) (sv_stopped s) (sv_forced s) (sv_http s) (sv_closed s) (sv_calls s) (sv_requests s).
Definition set_deadline s :=
  mkState (sv_phase s) (sv_running s) (sv_errCh s) (sv_ended s) (sv_ctx s) true (sv_stopped s) (sv_forced s) (sv_http s) (sv_closed s) (sv_calls s) (sv_requests s).
Definition set_stopped s :=
  mkState (sv_phase s) (sv_running s) (sv_errCh s) (sv_ended s) (sv_ctx s) (sv_deadline s) true (sv_forced s) (sv_http s) (sv_closed s) (sv_calls s) (sv_requests s).
Definition set_forced s :=
  mkState (sv_phase s) (sv_running s) (sv_errCh s) (sv_ended s) (sv_ctx s) (sv_deadline s) (sv_stopped s) true (sv_http s) (sv_closed s) (sv_calls s) (sv_requests s).
Definition set_http ok s :=
  mkState (sv_phase s) (sv_running s) (sv_errCh s) (sv_ended s) (sv_ctx s) (sv_deadline s) (sv_stopped s) (sv_forced s) (Some ok) (sv_closed s) (sv_calls s) (sv_requests s).
Definition set_closed closed s :=
  mkState (sv_phase s) (sv_running s) (sv_errCh s) (sv_ended s) (sv_ctx s) (sv_deadline s) (sv_stopped s) (sv_forced s) (sv_http s) closed (sv_calls s) (sv_requests s).
Definition set_load calls requests s :=
  mkState (sv_phase s) (sv_running s) (sv_errCh s) (sv_ended s) (sv_ctx s) (sv_deadline s) (sv_stopped s) (sv_forced s) (sv_http s) (sv_closed s) calls requests.

(** The work is cancelled and the listeners are being stopped. *)
Definition stopping (s : state) : bool :=
  match sv_phase s with AwaitGRPC _ | AwaitHTTP _ | AwaitWorkers _ => true | _ => false end.

(** What a component can return, *)
Definition may_return (s : state) (w : worker) (r : option runError) : Prop :=
  match w with
  | WHTTP => is_Some r
  | WGRPC => is_Some r ∨ sv_stopped s || sv_forced s = true
  | WProbe | WReconciler => r = None ∧ (stopping s = true ∨ sv_ctx s = true)
  end.

(** and what it will return if it has not returned by then. *)
Definition due_return (s : state) (w : worker) (r : option runError) : Prop :=
  match w with
  | WHTTP => r = Some ErrServerClosed ∧ stopping s = true
  | WGRPC => r = None ∧ sv_stopped s || sv_forced s = true
  | WProbe | WReconciler => r = None ∧ (stopping s = true ∨ sv_ctx s = true)
  end.

(** [result] of the second arm of the [select]. *)
Definition select_result (ctx : bool) (w : worker) (r : option runError) : option serveError :=
  match r with
  | Some e => Some (ComponentError w e)
  | None => if ctx then None else Some ComponentStopped
  end.

(** The end of [serve]. *)
Definition final_result (ctx : bool) (result : option serveError) : option serveError :=
  if ctx then None else
  match result with
  | Some (ComponentError w ErrServerClosed) => Some (ListenerStopped w ErrServerClosed)
  | Some (ComponentError w ErrServerStopped) => Some (ListenerStopped w ErrServerStopped)
  | r => r
  end.

(** A component returns and sends, which takes a free place in the channel. *)
Inductive worker_step (returns : state → worker → option runError → Prop) (s : state) : state → Prop :=
| worker_ends run1 w run2 r :
    sv_running s = run1 ++ w :: run2 → returns s w r → length (sv_errCh s) < errCh_cap →
    worker_step returns s (ended (run1 ++ run2) w r s).

(** The deadline passes; the two stops finish. *)
Inductive stop_step (s : state) : state → Prop :=
| stop_deadline : stopping s = true → sv_deadline s = false → stop_step s (set_deadline s)
| stop_graceful :
    stopping s = true → sv_stopped s = false → sv_calls s = 0 ∨ sv_forced s = true → stop_step s (set_stopped s)
| stop_shutdown ok :
    stopping s = true → sv_http s = None → sv_requests s = 0 ∨ sv_deadline s = true ∧ ok = false →
    stop_step s (set_http ok s).

(** Clients open calls and requests while the listeners accept them, and end them
    when they like. *)
Inductive client_step (s : state) : state → Prop :=
| client_call :
    sv_stopped s = false → sv_forced s = false → client_step s (set_load (S (sv_calls s)) (sv_requests s) s)
| client_call_ends n : sv_calls s = S n → client_step s (set_load n (sv_requests s) s)
| client_request : sv_http s = None → client_step s (set_load (sv_calls s) (S (sv_requests s)) s)
| client_request_ends n : sv_requests s = S n → client_step s (set_load (sv_calls s) n s).

Definition env_step (s s' : state) : Prop := worker_step may_return s s' ∨ stop_step s s'.
Definition due_step (s s' : state) : Prop := worker_step due_return s s' ∨ stop_step s s'.

(** Steps of [serve]. *)
Inductive main_step (s : state) : state → Prop :=
| main_cancelled :
    sv_phase s = Selecting → sv_ctx s = true → main_step s (set_phase (AwaitGRPC None) s)
| main_error w r ch :
    sv_phase s = Selecting → sv_errCh s = (w, r) :: ch →
    main_step s (set_phase (AwaitGRPC (select_result (sv_ctx s) w r)) (set_errCh ch s))
| main_stopped res :
    sv_phase s = AwaitGRPC res → sv_stopped s = true → main_step s (set_phase (AwaitHTTP res) s)
| main_forced res :
    sv_phase s = AwaitGRPC res → sv_deadline s = true → main_step s (set_phase (AwaitHTTP res) (set_forced s))
| main_http res ok :
    sv_phase s = AwaitHTTP res → sv_http s = Some ok → main_step s (set_phase (AwaitWorkers res) (set_closed (negb ok) s))
| main_return res :
    sv_phase s = AwaitWorkers res → sv_running s = [] → main_step s (set_phase (Returned (final_result (sv_ctx s) res)) s).

(** The context of the caller is cancelled. *)
Inductive cancel_step (s : state) : state → Prop :=
| cancel_ctx : (∀ ret, sv_phase s ≠ Returned ret) → sv_ctx s = false → cancel_step s (set_ctx s).

(** Everything but the clients. *)
Definition own_step (s s' : state) : Prop := env_step s s' ∨ main_step s s' ∨ cancel_step s s'.
Definition step (s s' : state) : Prop := own_step s s' ∨ client_step s s'.
Definition reachable (ws : list worker) (s : state) : Prop := rtc step (init ws) s.

(** What happens even when no client does anything any more. *)
Definition sure_step (s s' : state) : Prop := due_step s s' ∨ main_step s s'.

(** A run with [n] steps beside those of the clients. *)
Inductive run : nat → state → state → Prop :=
| run_refl s : run 0 s s
| run_own n s1 s2 s3 : own_step s1 s2 → run n s2 s3 → run (S n) s1 s3
| run_client n s1 s2 s3 : client_step s1 s2 → run n s2 s3 → run n s1 s3.

(** ** Invariant *)

(** What [serve] has in hand comes from the first component that ended. *)
Definition result_ok (first : option (worker * option runError)) (ctx : bool) (res : option serveError) : Prop :=
  match res with
  | None => ctx = true
  | Some (ComponentError w e) => first = Some (w, Some e)
  | Some ComponentStopped => ∃ w, first = Some (w, None)
  | Some (ListenerStopped _ _) => False
  end.

(** What [serve] returns for it. *)
Definition returned_ok (first : option (worker * option runError)) (ctx : bool) (ret : option serveError) : Prop :=
  match ret with
  | None => ctx = true
  | Some ComponentStopped => ctx = false ∧ ∃ w, first = Some (w, None)
  | Some (ComponentError w e) => ctx = false ∧ first = Some (w, Some e) ∧ e ≠ ErrServerClosed ∧ e ≠ ErrServerStopped
  | Some (ListenerStopped w e) => ctx = false ∧ first = Some (w, Some e) ∧ (e = ErrServerClosed ∨ e = ErrServerStopped)
  end.

(** Both stops have been waited for. *)
Definition stops_done (s : state) : Prop :=
  sv_stopped s || sv_forced s = true ∧ ∃ ok, sv_http s = Some ok ∧ sv_closed s = negb ok.

Record inv (ws : list worker) (s : state) : Prop := {
  inv_room : length (sv_errCh s) + length (sv_running s) ≤ length ws;
  inv_from : Forall (λ x, x.1 ∈ ws) (sv_ended s) ∧ Forall (λ w, w ∈ ws) (sv_running s);
  inv_phase : match sv_phase s with
    | Selecting => sv_errCh s = sv_ended s
    | AwaitGRPC r => result_ok (head (sv_ended s)) (sv_ctx s) r
    | AwaitHTTP r => result_ok (head (sv_ended s)) (sv_ctx s) r ∧ sv_stopped s || sv_forced s = true
    | AwaitWorkers r => result_ok (head (sv_ended s)) (sv_ctx s) r ∧ stops_done s
    | Returned r => sv_running s = [] ∧ returned_ok (head (sv_ended s)) (sv_ctx s) r ∧ stops_done s
    end;
  inv_graceful : sv_stopped s = true → sv_calls s = 0 ∨ sv_forced s = true;
  inv_forced : sv_forced s = true → sv_deadline s = true;
  inv_shutdown : sv_http s = Some true → sv_requests s = 0
}.

Lemma head_snoc {A} (l : list A) x y : head l = Some x → head (l ++ [y]) = Some x.
Proof. by destruct l. Qed.

Lemma result_ok_cancel first res ctx : result_ok first ctx res → result_ok first true res.
Proof. by destruct res. Qed.

Lemma result_ok_snoc l y ctx res : result_ok (head l) ctx res → result_ok (head (l ++ [y])) ctx res.
Proof. destruct res as [[]|]; simpl; try done; [apply head_snoc|]. intros [w Hw]. exists w. by apply head_snoc. Qed.

Lemma final_result_ok first ctx res : result_ok first ctx res → returned_ok first ctx (final_result ctx res).
Proof. unfold final_result. destruct ctx; [done|]. destruct res as [[w []| |]|]; simpl; naive_solver. Qed.

Lemma init_inv ws : inv ws (init ws).
Proof. split; simpl; try done. split; [constructor|]. by apply list.Forall_forall. Qed.

Lemma worker_inv ws s s' : inv ws s → worker_step may_return s s' → inv ws s'.
Proof.
  intros [Hr [Hc Hw] Hp Hg Hf Hs] E. destruct E as [run1 w run2 r Erun Hm Hl]. rewrite Erun in Hr, Hw, Hp.
  rewrite length_app in Hr. simpl in Hr. apply Forall_app in Hw as [Hw1 [Hw Hw2]%Forall_cons].
  split; simpl; try done; [rewrite !length_app; simpl; lia| |].
  - split; apply Forall_app; [by split; [|constructor]|done].
  - destruct (sv_phase s); unfold stops_done in *; simpl; rewrite ?Hp; try done.
    + by apply result_ok_snoc.
    + destruct Hp. split; [by apply result_ok_snoc|done].
    + destruct Hp. split; [by apply result_ok_snoc|done].
    + destruct Hp as [Hp _]. by destruct run1.
Qed.

Lemma stop_inv ws s s' : inv ws s → stop_step s s' → inv ws s'.
Proof.
  intros [Hr Hf Hp Hg Hd Hs] E.
  destruct E as [Hst|Hst Hn Hc|ok Hst Hn Hq]; unfold stopping in Hst; split; simpl; try done;
    destruct (sv_phase s) eqn:Ep; unfold stops_done in *; simpl; try done; rewrite ?Hn in *; naive_solver.
Qed.

Lemma client_inv ws s s' : inv ws s → client_step s s' → inv ws s'.
Proof.
  intros [Hr Hf Hp Hg Hd Hs] E. destruct E; split; simpl; try done; try (destruct (sv_phase s); done); try congruence; intros;
    naive_solver congruence.
Qed.

Lemma main_inv ws s s' : inv ws s → main_step s s' → inv ws s'.
Proof.
  intros [Hr Hf Hp Hg Hd Hs] E. destruct E as [Ep Hc|w r ch Ep Ech|res Ep Hst|res Ep Hdl|res ok Ep Eh|res Ep Erun]; rewrite Ep in Hp;
    split; simpl; try done.
  - rewrite Ech in Hr. simpl in Hr. lia.
  - rewrite <-Hp, Ech. unfold select_result. destruct r; [done|]. destruct (sv_ctx s); [done|]. by exists w.
  - by rewrite Hst.
  - by rewrite orb_true_r.
  - by right.
  - destruct Hp as [Hp ?]. split; [done|]. split; [done|]. by exists ok.
  - destruct Hp as [Hp Hd']. split; [done|]. split; [by apply final_result_ok|done].
Qed.

Lemma cancel_inv ws s s' : inv ws s → cancel_step s s' → inv ws s'.
Proof.
  intros [Hr Hf Hp Hg Hd Hs] E. destruct E as [Hn Hc]. split; simpl; try done.
  destruct (sv_phase s) as [| | | |ret]; try done; [by eapply result_ok_cancel|naive_solver eauto using result_ok_cancel..|].
  by destruct (Hn ret).
Qed.

Lemma step_inv ws s s' : inv ws s → step s s' → inv ws s'.
Proof.
  intros Hi [[[E|E]|[E|E]]|E]; eauto using worker_inv, stop_inv, main_inv, cancel_inv, client_inv.
Qed.

Lemma reachable_inv ws s : reachable ws s → inv ws s.
Proof. intros Hr. apply (rtc_ind_r (inv ws) (init ws)) in Hr; [done|apply init_inv|]. eauto using step_inv. Qed.

(** ** Termination *)

Definition phase_rank (ph : phase) : nat :=
  match ph with Selecting => 4 | AwaitGRPC _ => 3 | AwaitHTTP _ => 2 | AwaitWorkers _ => 1 | Returned _ => 0 end.

(** What is left to happen, whatever the clients do. *)
Definition remaining (s : state) : nat :=
  2 * length (sv_running s) + length (sv_errCh s) + phase_rank (sv_phase s) +
  (if sv_ctx s then 0 else 1) + (if sv_deadline s then 0 else 1) + (if sv_stopped s then 0 else 1) +
  (match sv_http s with Some _ => 0 | None => 1 end).

Lemma own_remaining s s' : own_step s s' → remaining s' < remaining s.
Proof.
  intros [[[run1 w run2 r Erun _ _]|E]|[E|[_ Hc]]]; unfold remaining.
  - simpl. rewrite Erun, !length_app. simpl. lia.
  - destruct E as [_ H|_ H _|ok _ H _]; simpl; rewrite H; lia.
  - destruct E as [E _|w r ch E H|res E _|res E _|res ok E _|res E _]; simpl; rewrite E, ?H; simpl; lia.
  - simpl. rewrite Hc. lia.
Qed.

Lemma client_remaining s s' : client_step s s' → remaining s' = remaining s.
Proof. by destruct 1. Qed.

Lemma run_bounded n s s' : run n s s' → n + remaining s' ≤ remaining s.
Proof.
  induction 1 as [|n x y z E _ IH|n x y z E _ IH]; [lia| |].
  - apply own_remaining in E. lia.
  - apply client_remaining in E. lia.
Qed.

Lemma due_may s w r : due_return s w r → may_return s w r.
Proof. destruct w; simpl; [intros [-> _]; by eexists|intros [-> H]; by right|done..]. Qed.

Lemma sure_own s s' : sure_step s s' → own_step s s'.
Proof.
  intros [[[run1 w run2 r Erun Hd Hl]|E]|E]; [|by left; right|by right; left].
  left. left. constructor; auto using due_may.
Qed.

(** A component that still runs when both stops are done has to return. *)
Lemma worker_due s w : stopping s = true → sv_stopped s || sv_forced s = true → ∃ r, due_return s w r.
Proof. intros Hs Hd. destruct w; [exists (Some ErrServerClosed)|exists None..]; simpl; auto. Qed.

(** Once the context is cancelled or the shutdown has begun, something must happen
    until [serve] has returned, whichever calls and requests stay open. *)
Lemma progress ws s :
  length ws ≤ errCh_cap → inv ws s → sv_ctx s = true ∨ sv_phase s ≠ Selecting →
  (∃ ret, sv_phase s = Returned ret) ∨ ∃ s', sure_step s s'.
Proof.
  intros Hws [Hr _ Hp _ _ _] Hc. destruct (sv_phase s) as [|res|res|res|ret] eqn:Ep; [| | | |by left; eexists]; right;
    assert (stopping s = true ∨ sv_phase s = Selecting) as Hst by (unfold stopping; rewrite Ep; auto); rewrite Ep in Hst.
  - destruct Hc as [Hc|Hc]; [|done]. eexists. right. by apply main_cancelled.
  - destruct Hst as [Hst|]; [|done]. destruct (sv_deadline s) eqn:Ed; eexists.
    + right. by eapply main_forced.
    + left. right. by apply stop_deadline.
  - destruct Hst as [Hst|]; [|done]. destruct (sv_http s) as [ok|] eqn:Eh; [eexists; right; by eapply main_http|].
    destruct (sv_deadline s) eqn:Ed; eexists; left; right; [apply (stop_shutdown _ false); auto|by apply stop_deadline].
  - destruct Hst as [Hst|]; [|done]. destruct (sv_running s) as [|w run'] eqn:Er; [eexists; right; by eapply main_return|].
    destruct Hp as [_ [Hstop _]]. destruct (worker_due s w Hst Hstop) as [r Hd].
    eexists. left. left. apply (worker_ends _ _ [] w run' r); [done..|]. simpl in Hr. unfold errCh_cap in *. lia.
Qed.

Lemma sure_calls s s' : sure_step s s' → sv_calls s' = sv_calls s ∧ sv_requests s' = sv_requests s.
Proof. by intros [[[]|[]]|[]]. Qed.

Lemma sure_begun s s' : sure_step s s' → sv_ctx s = true ∨ sv_phase s ≠ Selecting → sv_ctx s' = true ∨ sv_phase s' ≠ Selecting.
Proof. intros [[[]|[]]|[]]; simpl; auto. Qed.

Lemma progress_run ws n s :
  length ws ≤ errCh_cap → remaining s ≤ n → inv ws s → sv_ctx s = true ∨ sv_phase s ≠ Selecting →
  ∃ s' ret, rtc sure_step s s' ∧ sv_phase s' = Returned ret ∧ sv_calls s' = sv_calls s ∧ sv_requests s' = sv_requests s.
Proof.
  intros Hws. revert s. induction n as [|n IH]; intros s Hn Hi Hc; destruct (progress ws s Hws Hi Hc) as [[ret Hret]|[s1 E]].
  - by exists s, ret.
  - apply sure_own, own_remaining in E. lia.
  - by exists s, ret.
  - destruct (sure_calls _ _ E) as [E1 E2]. pose proof (own_remaining _ _ (sure_own _ _ E)) as Hm.
    destruct (IH s1) as (s' & ret & Hr & Hret & E3 & E4); [lia| |by eapply sure_begun|].
    + eapply step_inv; [done|]. left. by apply sure_own.
    + exists s', ret. split; [by eapply rtc_l|]. by rewrite E3, E4.
Qed.

(** C23: the server always comes down: whatever the clients do, at most as many
    other steps as remain are possible from any state; once the caller's context
    is cancelled or a component has ended, [serve] goes on until it returns by what
    is certain to happen, even when every call and request that is open then stays
    open forever; no component ever waits for a place in the error channel; and
    when [serve] has returned every goroutine has ended, all gRPC calls have ended
    or were cut off after the deadline and not before, and all HTTP requests have
    ended or the server was closed. *)
Theorem serve_terminates logger reconciler s :
  let ws := components logger reconciler in
  reachable ws s →
  (∀ n s', run n s s' → n ≤ remaining s) ∧
  (sv_ctx s = true ∨ sv_phase s ≠ Selecting →
     ∃ s' ret, rtc sure_step s s' ∧ sv_phase s' = Returned ret ∧ sv_calls s' = sv_calls s ∧ sv_requests s' = sv_requests s) ∧
  (sv_running s ≠ [] → length (sv_errCh s) < errCh_cap) ∧
  (∀ ret, sv_phase s = Returned ret →
     sv_running s = [] ∧
     (sv_stopped s = true ∧ sv_calls s = 0 ∨ sv_forced s = true ∧ sv_deadline s = true) ∧
     (sv_http s = Some true ∧ sv_requests s = 0 ∨ sv_http s = Some false ∧ sv_closed s = true)).
Proof.
  cbv zeta. intros Hr%reachable_inv. assert (length (components logger reconciler) ≤ errCh_cap) as Hws by (destruct logger, reconciler; simpl; unfold errCh_cap; lia).
  split_and!.
  - intros n s' Hn%run_bounded. lia.
  - intros Hc. by eapply progress_run.
  - intros Hn. destruct Hr as [Hl _ _ _ _ _]. destruct (sv_running s); [done|]. rewrite length_cons in Hl. lia.
  - intros ret E. destruct Hr as [_ _ Hp Hg Hf Hs]. rewrite E in Hp. destruct Hp as (Hrun & _ & [Hst (ok & Hok & Hcl)]).
    split; [done|]. destruct (sv_forced s), (sv_stopped s), ok; naive_solver.
Qed.

(** C24: a stop is reported exactly when it was not asked for, and then as what it
    was: [serve] returns nil only when the caller's context was cancelled and always
    then; otherwise it returns the error of the first component that ended, with the
    name of that component, which is one that was started; a first component that
    ended without an error is reported as having stopped, and a listener that was
    closed by someone else is not mistaken for a regular stop. *)
Theorem serve_result logger reconciler s ret :
  let ws := components logger reconciler in
  reachable ws s → sv_phase s = Returned ret →
  if sv_ctx s then ret = None else
  ∃ w r rest, sv_ended s = (w, r) :: rest ∧ w ∈ ws ∧
    match r with
    | None => ret = Some ComponentStopped
    | Some (OtherRunError n) => ret = Some (ComponentError w (OtherRunError n))
    | Some e => ret = Some (ListenerStopped w e)
    end.
Proof.
  cbv zeta. intros [_ [Hw _] Hp _ _ _]%reachable_inv E. rewrite E in Hp. destruct Hp as (_ & Hp & _).
  destruct (sv_ended s) as [|[w r] rest]; simpl in Hp; [|apply Forall_cons in Hw as [Hw _]];
    destruct ret as [[w' e| |w' e]|]; simpl in Hp; destruct (sv_ctx s); try naive_solver;
    exists w, r, rest; (split; [done|]; split; [done|]); [destruct e|..]; naive_solver.
Qed.

(** ** Examples *)

(** The HTTP listener fails while an agent's stream is open; the stream is cut off at
    the deadline, everything comes down and the failure is returned. *)
Definition ex_failed : state :=
  mkState (Returned (Some (ComponentError WHTTP (OtherRunError 7)))) [] [(WGRPC, None); (WReconciler, None)]
    [(WHTTP, Some (OtherRunError 7)); (WGRPC, None); (WReconciler, None)] false true false true (Some true) false 1 0.

Lemma ex_failed_reachable : reachable (components false true) ex_failed.
Proof.
  unfold reachable, init, components. simpl.
  eapply rtc_l; [right; by apply client_call|].
  eapply rtc_l; [left; left; left; apply (worker_ends _ _ [] WHTTP [WGRPC; WReconciler] (Some (OtherRunError 7))); [done|by eexists|by vm_compute; lia]|].
  eapply rtc_l; [left; right; left; by eapply main_error|]. simpl.
  eapply rtc_l; [left; left; right; by apply stop_deadline|].
  eapply rtc_l; [left; right; left; by eapply main_forced|].
  eapply rtc_l; [left; left; right; apply (stop_shutdown _ true); auto|].
  eapply rtc_l; [left; right; left; by eapply main_http|].
  eapply rtc_l; [left; left; left; apply (worker_ends _ _ [] WGRPC [WReconciler] None); [done|by right|by vm_compute; lia]|].
  eapply rtc_l; [left; left; left; apply (worker_ends _ _ [] WReconciler [] None); [done|by split; [|left]|by vm_compute; lia]|].
  eapply rtc_l; [left; right; left; by eapply main_return|]. apply rtc_refl.
Qed.

Lemma serve_terminates_witness : sv_forced ex_failed = true ∧ sv_http ex_failed = Some true.
Proof.
  destruct (serve_terminates false true ex_failed ex_failed_reachable) as (_ & _ & _ & Hr).
  destruct (Hr _ eq_refl) as (_ & [[? _]|[Hf _]] & [[Hs _]|[? _]]); [done..|by split|done].
Defined.

Lemma serve_result_witness : ∃ w rest, sv_ended ex_failed = (w, Some (OtherRunError 7)) :: rest ∧ w ∈ components false true.
Proof.
  destruct (serve_result false true ex_failed _ ex_failed_reachable eq_refl) as (w & r & rest & E & Hw & _).
  exists w, rest. split; [|exact Hw]. vm_compute in E. injection E as <- <- <-. reflexivity.
Defined.
