(* ===== verification/WebHandler.v ===== *)
(** * The web directory

    Models [server/internal/app/web.go]: static files and the shell of the
    browser application, from a directory that [os.Root] confines.  What the
    directory answers to [Open] and [Stat] is a parameter. *)

From stdpp Require Import gmap strings list.
From Stdlib Require Import Ascii.
From S2P Require Import Prelude GoRuntime GoStrings GoText NetText.
Local Open Scope Z_scope.

Inductive webMethod := WGET | WHEAD | WOTHER.
#[export] Instance webMethod_eq_dec : EqDecision webMethod.
Proof. solve_decision. Defined.

(** What [Open] yields: a regular file, or anything else that opens. *)
Inductive entry := RegularFile | OtherEntry.
#[export] Instance entry_eq_dec : EqDecision entry.
Proof. solve_decision. Defined.

Inductive webReply := MethodNotAllowed | NotFound | ServeFile (name : string) (noCache : bool).
#[export] Instance webReply_eq_dec : EqDecision webReply.
Proof. solve_decision. Defined.

(** [strings.Split(path, "/")]. *)
Definition segments (path : string) : list (list ascii) := split_slash [] (bytes path).
Definition hidden (seg : list ascii) : bool := match seg with c :: _ => is_byte 46 c | [] => false end.

(** [path.Ext(name) != ""]: a dot behind the last slash. *)
Definition has_ext (name : string) : bool :=
  existsb (is_byte 46) (take_while (λ c, negb (slash c)) (reverse (bytes name))).

Definition is_asset (name : string) : bool := has_ext name || str_eqb name "assets" || HasPrefix name "assets/".

Section handler.
Context (root : string → option entry).

Definition serveWeb (m : webMethod) (path : string) : webReply :=
  if negb (bool_decide (m = WGET)) && negb (bool_decide (m = WHEAD)) then MethodNotAllowed else
  if existsb hidden (segments path) then NotFound else
  let name := TrimPrefix (Clean path) "/" in
  if bool_decide (root name = Some RegularFile) then ServeFile name (str_eqb name "index.html") else
  if is_asset name then NotFound else
  match root "index.html" with
  | None => NotFound
  | Some _ => ServeFile "index.html" true
  end.

(** [newWebHandler]: a directory without a built page is refused. *)
Definition newWebHandler (opened : bool) : option (webMethod → string → webReply) :=
  if negb opened then None else
  if bool_decide (root "index.html" = Some RegularFile) then Some serveWeb else None.

End handler.

(** ** Names *)

Definition visible (seg : list ascii) : Prop := hidden seg = false ∧ existsb slash seg = false.
Definition filled (seg : list ascii) : bool := bool_decide (seg ≠ []).

(** Without hidden elements, cleaning only drops empty ones. *)
Lemma clean_visible rooted out segs :
  Forall visible segs → foldl (clean_step rooted) out segs = reverse (select filled segs) ++ out.
Proof.
  intros Hs. revert out. induction Hs as [|seg segs [Hh _] _ IH]; intros out; [done|]. cbn [foldl]. rewrite IH, select_cons. unfold clean_step, filled.
  destruct (decide (seg = [])) as [->|Hn]; [done|]. rewrite (bool_decide_false (seg = [])), (bool_decide_true (seg ≠ [])) by done.
  assert (seg ≠ dot ∧ seg ≠ dotdot) as [H1 H2] by (split; intros ->; discriminate Hh). rewrite !bool_decide_false by done. simpl.
  by rewrite reverse_cons, <-(assoc_L (++)).
Qed.

Lemma segments_visible path : existsb hidden (segments path) = false → Forall visible (segments path).
Proof.
  intros Hh. pose proof (split_slash_no_slash [] (bytes path) eq_refl) as Hs. fold (segments path) in Hs. revert Hh.
  induction Hs as [|seg l Hseg _ IH]; simpl; [constructor|]. intros [Hh Hl]%orb_false_iff. constructor; [done|]. by apply IH.
Qed.

Lemma HasPrefix_slash c l : HasPrefix (of_bytes (c :: l)) "/" = slash c.
Proof.
  unfold HasPrefix. change (of_bytes (c :: l)) with (String c (of_bytes l)). generalize (of_bytes l). intros s.
  destruct c as [[] [] [] [] [] [] [] []]; destruct s; reflexivity.
Qed.

(** The name of a request: the filled elements of its path. *)
Lemma web_name path :
  existsb hidden (segments path) = false → select filled (segments path) ≠ [] →
  segments (TrimPrefix (Clean path) "/") = select filled (segments path).
Proof.
  intros Hh%segments_visible Hn. unfold Clean. fold (segments path). set (rooted := match bytes path with c :: _ => slash c | [] => false end).
  rewrite clean_visible, app_nil_r, reverse_involutive, join_slash_segs by done. set (segs := select filled (segments path)) in *.
  assert (Forall (λ seg, existsb slash seg = false) segs ∧ Forall (λ seg, seg ≠ []) segs) as [Hs Hf].
  { rewrite !list.Forall_forall in *. unfold segs. split; intros seg [Hx Hin]%elem_of_select; [by apply Hh|]. unfold filled in Hx. by apply bool_decide_eq_true in Hx. }
  assert (join_segs segs ≠ [] ∧ HasPrefix (of_bytes (join_segs segs)) "/" = false) as [Hj Hp].
  { destruct segs as [|x l]; [done|]. apply Forall_cons in Hs as [Hx _], Hf as [Hx' _]. destruct x as [|c x]; [done|]. simpl in Hx. apply orb_false_iff in Hx as [Hc _].
    assert (∀ k, (c :: x) ++ k ≠ [] ∧ HasPrefix (of_bytes ((c :: x) ++ k)) "/" = false) as Hk.
    { intros k. split; [done|]. cbn [app]. by rewrite HasPrefix_slash. }
    destruct l as [|y l]; [rewrite <-(app_nil_r (join_segs _))|]; apply Hk. }
  assert (TrimPrefix (of_bytes ((if rooted then bytes "/" else []) ++ join_segs segs)) "/" = of_bytes (join_segs segs)) as Ht.
  { unfold TrimPrefix. destruct rooted; [|by rewrite app_nil_l, Hp].
    change (bytes "/" ++ join_segs segs) with ("/"%char :: join_segs segs). rewrite HasPrefix_slash. change (slash "/"%char) with true. cbv iota.
    by rewrite bytes_of_bytes. }
  rewrite bool_decide_false by (destruct rooted; simpl; [done|exact Hj]). rewrite Ht. unfold segments. rewrite bytes_of_bytes. by apply split_join.
Qed.

(** ** Properties *)

(** What a name opened for a request may be: for a path with elements, exactly
    these; the root of the site is the empty name, the empty path the directory. *)
Definition name_of (path name : string) : Prop :=
  if bool_decide (select filled (segments path) = []) then name = ""%string ∨ name = "."%string
  else segments name = select filled (segments path).

Lemma name_of_clean path : existsb hidden (segments path) = false → name_of path (TrimPrefix (Clean path) "/").
Proof.
  intros Hh. unfold name_of. case_bool_decide as Hn; [|by apply web_name]. apply segments_visible in Hh. unfold Clean. fold (segments path).
  rewrite clean_visible, Hn by done. destruct (match bytes path with c :: _ => slash c | [] => false end); [by left|by right].
Qed.

(** C26: the web directory shows only what it should: only reads are answered; a
    path with a hidden element, [..] among them, never reaches the directory;
    otherwise the file that is served is a regular file named by the elements of
    the path, or the start page, and the start page never stands in for a missing
    asset. *)
Theorem web_confined root m path :
  match serveWeb root m path with
  | ServeFile name noCache =>
      m ≠ WOTHER ∧ Forall visible (segments path) ∧
      ((name_of path name ∧ root name = Some RegularFile ∧ (noCache = true ↔ name = "index.html"%string)) ∨
       (name = "index.html"%string ∧ is_Some (root name) ∧ noCache = true ∧ ∃ asked, name_of path asked ∧ is_asset asked = false))
  | MethodNotAllowed => m = WOTHER
  | NotFound => m ≠ WOTHER
  end.
Proof.
  unfold serveWeb. destruct (bool_decide_reflect (m = WGET)), (bool_decide_reflect (m = WHEAD)); subst; simpl; try done.
  1,2: destruct (existsb hidden (segments path)) eqn:Eh; [done|]; pose proof (name_of_clean _ Eh) as Hn; apply segments_visible in Eh;
    set (name := TrimPrefix (Clean path) "/") in *; case_bool_decide as Hf;
    [split_and!; [done..|]; left; split_and!; [done..|apply str_eqb_true]|];
    destruct (is_asset name) eqn:Ea; [done|]; destruct (root "index.html") eqn:Ei; [|done];
    split_and!; [done..|]; right; rewrite Ei; split_and!; [done|by eexists|done|by exists name].
  by destruct m.
Qed.
