(* ===== verification/ServerApp.v ===== *)
(** * The assembled server

    Models [App.New], [App.Close], [App.Run] and [localHTTPBase] of
    [server/internal/app/app.go], [InitializeAdmin] of
    [server/internal/master/startup.go], the loop of the reconciler in
    [server/internal/ingest/module.go] and the probe of
    [server/internal/probe/runner.go].  [Lifecycle] models [App.serve].

    What the drivers, the network, the file system and the environment answer
    during the start is a parameter. *)

From stdpp Require Import gmap strings list.
From S2P Require Import Prelude GoRuntime GoStrings GoText NetText Contracts Sql HostStore AuthStore MasterService AuthProps.
From S2P Require Import HostStoreProps MetricWindow EventBus MasterConfig ServerConfig WebHandler Interfaces Ingest.
Local Open Scope Z_scope.

(** ** Construction *)

(** What a process holds until it is closed. *)
Inductive resource := HPostgres | HRedis | HWebRoot | HHTTPListener | HGRPCListener.
#[export] Instance resource_eq_dec : EqDecision resource.
Proof. solve_decision. Defined.

(** The answers of the outside to the start. *)
Record outside := mkOutside {
  os_gorm_Open : string → bool;
  os_db_DB : bool;
  os_pg_Ping : bool;
  os_redis_Ping : bool;
  os_OpenRoot : string → option (string → option entry);
  os_Getenv_password : string
}.

Inductive newError :=
| ConfigInvalid (m : string) | PostgresConfiguration | PostgresConnection | PostgresUnavailable | RedisUnavailable
| StoreFailed (e : error) | AdminFailed (e : error) | WebDirectoryFailed.

Record App := mkApp {
  app_postgres : bool; app_redisClient : bool; app_webRoot : option (webMethod → string → webReply);
  app_httpAddr : string; app_grpcAddr : string; app_store : PgStore; app_metrics : WindowStore; app_events : string; app_service : Service
}.

Definition AdminPasswordEnv_default : string := "G@oming".

Section new.
Context `{Env} `{PgTypes} `{Bcrypt} `{UrlParse} `{MapOrder} `{StringsLower}.

Definition InitializeAdmin (env_password : string) : M unit :=
  let password := if str_empty env_password then AdminPasswordEnv_default else env_password in
  now ← time_now;
  EnsureStartupAdmin password now;; mret ().

(** The handles an application holds, ... *)
Definition held (postgres redisClient webRoot : bool) : list resource :=
  (if webRoot then [HWebRoot] else []) ++ (if redisClient then [HRedis] else []) ++ (if postgres then [HPostgres] else []).

(** ... and the handles that stay open when they are closed; [closeOnce] has
    run when [closed]. *)
Definition close_handles (hs opened : list resource) : list resource := select (λ h, negb (bool_decide (h ∈ hs))) opened.
Definition Close (a : App) (closed : bool) (opened : list resource) : bool * list resource :=
  if closed then (true, opened)
  else (true, close_handles (held (app_postgres a) (app_redisClient a) (bool_decide (is_Some (app_webRoot a)))) opened).

(** [New]; the result, the tables and the handles that are open. *)
Definition New (out : outside) (cfg : ServerConfig.Config) (w : World) : result newError App * World * list resource :=
  match ServerConfig.Validate cfg with
  | Err m => (Err (ConfigInvalid m), w, [])
  | Ok _ =>
      let m := sc_Master cfg in
      if negb (os_gorm_Open out (mc_PostgresDSN m)) then (Err PostgresConfiguration, w, []) else
      if negb (os_db_DB out) then (Err PostgresConnection, w, []) else
      let opened := [HPostgres] in
      if negb (os_pg_Ping out) then (Err PostgresUnavailable, w, close_handles (held true false false) opened) else
      let opened := HRedis :: opened in
      let failed (e : newError) (w : World) := (Err e, w, close_handles (held true true false) opened) in
      if negb (os_redis_Ping out) then failed RedisUnavailable w else
      match NewStore (HostStore.mkConfig (mc_TenantCode m) (mc_TenantName m) (mc_AllowCustomTenantCode m)) w with
      | (Err e, w) => failed (StoreFailed e) w
      | (Ok store, w) =>
          match InitializeAdmin (os_Getenv_password out) w with
          | (Err e, w) => failed (AdminFailed e) w
          | (Ok _, w) =>
              let prefix := if negb (str_empty (sc_RedisNamespace cfg)) then sc_RedisNamespace cfg +:+ ":metrics" else ""%string in
              let channel := if negb (str_empty (sc_RedisNamespace cfg)) then sc_RedisNamespace cfg +:+ ":host-events" else ""%string in
              let app web := mkApp true true web (mc_HTTPAddr m) (sc_GRPCAddr cfg) store (NewMetricWindowStore prefix 60 (2 * GoRuntime.Hour))
                               (NewEventBus channel) (service_of m) in
              if str_empty (sc_WebDir cfg) then (Ok (app None), w, opened) else
              match os_OpenRoot out (sc_WebDir cfg) with
              | None => failed WebDirectoryFailed w
              | Some root =>
                  let opened := HWebRoot :: opened in
                  match newWebHandler root true with
                  | None => (Err WebDirectoryFailed, w, close_handles (held true true false) (close_handles [HWebRoot] opened))
                  | Some handler => (Ok (app (Some handler)), w, opened)
                  end
              end
          end
      end
  end.

(** ** Running *)

Inductive runResult := RunOK | ListenHTTP | ListenGRPC | Served.

(** [Run] up to [serve]: the listeners it opens are closed before the storage
    when it returns; [listen] is what [net.Listen] answers. *)
Definition Run (a : App) (cancelled : bool) (listen : string → bool) (closed : bool) (opened : list resource) : runResult * bool * list resource :=
  let finish (r : runResult) (opened : list resource) := let '(closed, opened) := Close a closed opened in (r, closed, opened) in
  if cancelled then finish RunOK opened else
  if negb (listen (app_httpAddr a)) then finish ListenHTTP opened else
  let opened := HHTTPListener :: opened in
  if negb (listen (app_grpcAddr a)) then finish ListenGRPC (close_handles [HHTTPListener] opened) else
  let opened := HGRPCListener :: opened in
  finish Served (close_handles [HHTTPListener] (close_handles [HGRPCListener] opened)).

(** The program: [run] of [server/main.go], with the handles that are open when it
    returns. *)
Inductive exit := ExitConfig (e : loadError) | ExitStart (e : newError) | ExitRun (r : runResult).

Definition run `{MasterYaml} `{ServerYaml} (raw1 raw2 : option string) (en : environment) (out : outside) (cancelled : bool) (listen : string → bool)
    (w : World) : exit * World * list resource :=
  match Load raw1 raw2 en with
  | Err e => (ExitConfig e, w, [])
  | Ok cfg =>
      match New out cfg w with
      | (Err e, w, opened) => (ExitStart e, w, opened)
      | (Ok a, w, opened) => let '(r, _, opened) := Run a cancelled listen false opened in (ExitRun r, w, opened)
      end
  end.

(** ** Properties of the start *)

Lemma ensureTenant_known code name d s :
  tenants_wf d → code ≠ ""%string →
  WP (ensureTenant code name) (λ r d' _, tenants_wf d' ∧ db_users d' = db_users d ∧ db_bootstrap d' = db_bootstrap d ∧
    match r with
    | Ok t => db_tenants d' !! t_ID t = Some t ∧ t_TenantCode t = code ∧ t_Status t = 1
    | Err _ => True
    end) d s.
Proof.
  intros Hwf Hc.
  assert (∀ t d', put_tenant t d = Ok d' → tenants_wf d' ∧ db_users d' = db_users d ∧ db_bootstrap d' = db_bootstrap d ∧
    db_tenants d' !! t_ID t = Some t) as Hput.
  { intros t d' [-> _]%put_tenant_inv. simpl. rewrite lookup_insert, decide_True by done. split_and!; try done.
    intros k t' Hk. simpl in Hk. apply lookup_insert_Some in Hk as [[<- <-]|[_ Hk]]; [done|]. by apply Hwf. }
  apply WP_bind, WP_query; [done|]. destruct (first_by _ _ _) as [t|] eqn:E.
  - apply first_by_Some in E as [_ Hcode]. rewrite cond_str_ne in Hcode by done. apply str_eqb_true in Hcode.
    apply WP_bind, WP_autocommit; [apply WP_exec; [done|]|done]. destruct (put_tenant _ d) as [d'|] eqn:Ep; [|done].
    apply Hput in Ep as (? & ? & ? & ?). split; [by apply WP_ret|done].
  - apply WP_bind, WP_autocommit; [apply WP_insert_serial; [done|]|done]. destruct (insert_tenant _ d) as [d'|] eqn:Ep; [|done].
    apply insert_tenant_put in Ep as [_ Ep]. apply Hput in Ep as (? & ? & ? & ?). split; [by apply WP_ret|done].
Qed.

(** The tenant a store works for. *)
Definition default_code (code : string) : string := if str_empty code then "default"%string else code.

Lemma NewStore_known cfg d s :
  tenants_wf d →
  WP (NewStore cfg) (λ r d' _, tenants_wf d' ∧ db_users d' = db_users d ∧ db_bootstrap d' = db_bootstrap d ∧
    match r with
    | Ok store => ∃ t, db_tenants d' !! ps_defaultTenantID store = Some t ∧ t_TenantCode t = default_code (cfg_TenantCode cfg) ∧ t_Status t = 1
    | Err _ => True
    end) d s.
Proof.
  intros Hwf. unfold NewStore. apply WP_bind. eapply WP_mono; [apply ensureTenant_known; [done|]|].
  - destruct (str_empty _) eqn:E; [done|]. by apply str_empty_false.
  - intros [t|e] d' s' (Hw & Hu & Hb & Ht); [|done]. apply WP_ret. split_and!; try done. destruct Ht as (? & ? & ?). exists t. done.
Qed.

(** What the environment asks for as the first password. *)
Definition startup_password (env_password : string) : string :=
  if str_empty env_password then AdminPasswordEnv_default else env_password.

Lemma InitializeAdmin_WP pw d s :
  tenants_wf d →
  WP (InitializeAdmin pw) (λ r d' _,
    match r with
    | Ok _ => setup_available d' = false ∧
        (db_users d ≠ ∅ → d' = d) ∧
        (db_users d = ∅ → ∃ p u t, credential d' "default" "admin" p u t ∧ db_users d' = {[u_ID u := u]} ∧
          u_Role u = UserRoleAdmin ∧ u_Status u = UserStatusActive ∧ VerifyPassword (pw_PasswordHash p) (startup_password pw) = true) ∧
        (∀ k x, db_tenants d !! k = Some x → db_tenants d' !! k = Some x)
    | Err e => all_or_nothing (startup_admin d (startup_password pw)) d e d'
    end) d s.
Proof.
  intros Hwf. apply WP_bind, WP_time_now. intros now. apply WP_bind. eapply WP_mono; [by apply EnsureStartupAdmin_WP|].
  intros [[]|e] d' s' Hx; [| |done]; apply WP_ret.
  - destruct Hx as (Hu & Ha & p & u & t & Hc & Hus & Hr & Hs & Hp & Ht). split_and!; [done..| |done]. intros _. exists p, u, t. done.
  - destruct Hx as [-> Hu]. split_and!; [|done..]. apply not_true_iff_false. intros [_ ?]%setup_available_spec. done.
Qed.

(** The steps of a start that succeeds. *)
Lemma New_Ok out cfg w a w' opened :
  New out cfg w = (Ok a, w', opened) →
  ServerConfig.Validate cfg = Ok () ∧
  ∃ w1, NewStore (HostStore.mkConfig (mc_TenantCode (sc_Master cfg)) (mc_TenantName (sc_Master cfg)) (mc_AllowCustomTenantCode (sc_Master cfg))) w
      = (Ok (app_store a), w1) ∧
    InitializeAdmin (os_Getenv_password out) w1 = (Ok (), w') ∧
    app_service a = service_of (sc_Master cfg) ∧ app_httpAddr a = mc_HTTPAddr (sc_Master cfg) ∧ app_grpcAddr a = sc_GRPCAddr cfg ∧
    app_postgres a = true ∧ app_redisClient a = true ∧
    opened = held true true (bool_decide (is_Some (app_webRoot a))).
Proof.
  unfold New. destruct (ServerConfig.Validate cfg) as [[]|]; [|done]. cbv zeta. repeat (destruct (negb _); [done|]).
  destruct (NewStore _ w) as [[store|] w1] eqn:Es; [|done]. destruct (InitializeAdmin _ w1) as [[[]|] w2] eqn:Ei; [|done].
  destruct (str_empty (sc_WebDir cfg)).
  { intros [= <- <- <-]. split; [done|]. exists w1. done. }
  destruct (os_OpenRoot _ _); [|done]. destruct (newWebHandler _ _); [|done].
  intros [= <- <- <-]. split; [done|]. exists w1. done.
Qed.

(** C15: a server that came up can be used and cannot be taken over.  After
    [New] succeeded there is an active tenant for the store's code; setup is no
    longer available, so no setup request succeeds or changes a table, whatever
    token it carries; an installation without users now has one, the active
    administrator "admin" of the tenant "default", whose password is the one in
    the environment, or "G@oming" without it; an installation with users keeps
    them as they were. *)
Theorem app_setup_closed out cfg w a w' opened :
  tenants_wf (w_db w) → New out cfg w = (Ok a, w', opened) →
  (∃ t, db_tenants (w_db w') !! ps_defaultTenantID (app_store a) = Some t ∧ t_TenantCode t = default_code (mc_TenantCode (sc_Master cfg)) ∧ t_Status t = 1) ∧
  setup_available (w_db w') = false ∧
  (∀ req r w3, Setup (app_service a) req w' = (r, w3) → is_ok r = false ∧ w_db w3 = w_db w') ∧
  (db_users (w_db w) ≠ ∅ → db_users (w_db w') = db_users (w_db w)) ∧
  (db_users (w_db w) = ∅ → ∃ p u t, credential (w_db w') "default" "admin" p u t ∧ db_users (w_db w') = {[u_ID u := u]} ∧
     u_Role u = UserRoleAdmin ∧ u_Status u = UserStatusActive ∧
     VerifyPassword (pw_PasswordHash p) (startup_password (os_Getenv_password out)) = true).
Proof.
  intros Hwf (_ & w1 & Es & Ei & _)%New_Ok.
  apply (WP_run _ _ _ _ _ (NewStore_known _ _ _ Hwf)) in Es as (Hwf1 & Hu & _ & t & Ht & Hc & Hs). rewrite <-Hu.
  apply (WP_run _ _ _ _ _ (InitializeAdmin_WP _ _ _ Hwf1)) in Ei as (Ha & Hold & Hnew & Hte).
  split_and!; [exists t; auto|done|intros req r w3; by apply Setup_refused| |done]. intros Hn. by rewrite (Hold Hn).
Qed.

Lemma New_Err out cfg w e w' opened : New out cfg w = (Err e, w', opened) → opened = [].
Proof.
  intros E. unfold New in E. destruct (ServerConfig.Validate cfg) as [[]|]; [|by injection E as _ _ <-]. cbv zeta in E.
  do 4 (destruct (negb _); [by injection E as _ _ <-|]).
  destruct (NewStore _ w) as [[store|] w1]; [|by injection E as _ _ <-].
  destruct (InitializeAdmin _ w1) as [[[]|] w2]; [|by injection E as _ _ <-].
  destruct (str_empty (sc_WebDir cfg)); [done|]. destruct (os_OpenRoot _ _); [|by injection E as _ _ <-].
  destruct (newWebHandler _ _); [done|]. by injection E as _ _ <-.
Qed.

Lemma Run_closes out cfg w a w' opened cancelled listen :
  New out cfg w = (Ok a, w', opened) →
  let '(r, closed, opened') := Run a cancelled listen false opened in
  opened' = [] ∧ closed = true ∧ Close a closed opened' = (true, []) ∧
  (r = Served → cancelled = false ∧ listen (mc_HTTPAddr (sc_Master cfg)) = true ∧ listen (sc_GRPCAddr cfg) = true).
Proof.
  intros (_ & w1 & _ & _ & _ & Hh & Hg & Hp & Hr & ->)%New_Ok.
  unfold Run. rewrite Hh, Hg. destruct cancelled; simpl; [|destruct (listen (mc_HTTPAddr _)) eqn:?, (listen (sc_GRPCAddr _)) eqn:?];
    unfold Close; simpl; rewrite Hp, Hr; destruct (bool_decide _); vm_compute; repeat split; done.
Qed.

(** C25: storage connections are not leaked.  A start that fails has closed every
    handle it opened.  A start that succeeds holds the handles of the application
    and no others; [Run] closes them and the listeners however it returns:
    cancelled before it starts, refused a listener or done with serving; a
    [Close] behind it finds nothing to close. *)
Theorem app_handles out cfg w :
  match New out cfg w with
  | (Err _, _, opened) => opened = []
  | (Ok a, _, opened) =>
      HPostgres ∈ opened ∧ HRedis ∈ opened ∧
      ∀ cancelled listen,
        let '(r, closed, opened') := Run a cancelled listen false opened in
        opened' = [] ∧ closed = true ∧ Close a closed opened' = (true, []) ∧
        (r = Served → cancelled = false ∧ listen (mc_HTTPAddr (sc_Master cfg)) = true ∧ listen (sc_GRPCAddr cfg) = true)
  end.
Proof.
  destruct (New out cfg w) as [[[a|e] w'] opened] eqn:E; [|by eapply New_Err].
  split_and!; [| |intros cancelled listen; by eapply Run_closes].
  all: apply New_Ok in E as (_ & w1 & _ & _ & _ & _ & _ & _ & _ & ->); destruct (bool_decide _); set_solver.
Qed.

(** The program leaves nothing open, whatever stops it, and it changes no table
    when its configuration cannot be loaded. *)
Theorem run_closes `{MasterYaml} `{ServerYaml} raw1 raw2 en out cancelled listen w x w' opened :
  run raw1 raw2 en out cancelled listen w = (x, w', opened) →
  opened = [] ∧ (∀ e, x = ExitConfig e → w' = w ∧ Load raw1 raw2 en = Err e) ∧ (cancelled = true → x ≠ ExitRun Served).
Proof.
  unfold run. destruct (Load raw1 raw2 en) as [cfg|e] eqn:El; [|intros [= <- <- <-]; split_and!; [done|by intros ? [= <-]|done]].
  destruct (New out cfg w) as [[[a|e] w1] o] eqn:E; [|intros [= <- <- <-]; apply New_Err in E as ->; done].
  pose proof (Run_closes _ _ _ _ _ _ cancelled listen E) as Hr. destruct (Run a cancelled listen false o) as [[r closed] o'].
  destruct Hr as (-> & _ & _ & Hs). intros [= <- <- <-]. split_and!; [done..|]. intros -> [= ->]. by destruct Hs.
Qed.

End new.

(** ** The address of the process itself *)

Definition localHTTPBase (addr : string) : string :=
  let '(host, port) := default (""%string, ""%string) (SplitHostPort addr) in
  let host := if str_empty host || str_eqb host "0.0.0.0" then "127.0.0.1"%string
              else if str_eqb host "::" then "::1"%string else host in
  "http://" +:+ JoinHostPort host port.

(** ** The probe *)

Record ProbeConfig := mkProbeConfig {
  pc_WorkerID : string; pc_TargetURL : string; pc_ReportURL : string; pc_Region : string; pc_Interval : Duration
}.

(** The configuration [serve] gives to the probe. *)
Definition probe_config (cfg : ServerConfig.Config) (addr : string) : ProbeConfig :=
  let base := localHTTPBase addr in
  mkProbeConfig "probe-worker-local" (if str_empty (sc_ProbeTargetURL cfg) then base +:+ "/master/healthz" else sc_ProbeTargetURL cfg)
    (base +:+ "/ingest/api/v1/probes") "local" (to_int64 (sc_ProbeIntervalSec cfg * Second)).

(** What the client answers to one request: it could not be built, it failed,
    or a response with a status came after some time. *)
Inductive httpOutcome := BuildFailed (msg : string) | DoFailed (msg : string) | Responded (status : Z) (elapsed : Duration).

Definition success_status (status : Z) : bool := (200 <=? status) && (status <? 300).

(** [time.Duration.Milliseconds]. *)
Definition Milliseconds (d : Duration) : Z := Z.quot d 1000000.

Definition probe_result (c : ProbeConfig) (startedAt : Time) (o : httpOutcome) : ProbeResult :=
  let result success latency status code msg :=
    mkProbeResult 1 1 (pc_WorkerID c) (pc_Region c) startedAt success latency status code msg {["target"%string := pc_TargetURL c]} in
  match o with
  | BuildFailed msg => result false 0 0 "probe_request_build_failed"%string msg
  | DoFailed msg => result false 0 0 "probe_failed"%string msg
  | Responded status elapsed => result (success_status status) (Milliseconds elapsed) status ""%string ""%string
  end.

(** The report of a result: what is posted and whether it was accepted. *)
Inductive reportOutcome := ReportNotMarshalled | ReportNotSent (o : httpOutcome) | ReportPosted (status : Z) (accepted : bool).
Definition report (marshals : ReportProbeResultsRequest → bool) (c : ProbeConfig) (result : ProbeResult) (o : httpOutcome)
    : ReportProbeResultsRequest * reportOutcome :=
  let payload := mkReportProbeResultsRequest (pc_WorkerID c) [result] in
  (payload,
   if negb (marshals payload) then ReportNotMarshalled else
   match o with
   | Responded status _ => ReportPosted status (success_status status)
   | o => ReportNotSent o
   end).

(** One cycle: when it started, and the answers to the probe and to its report. *)
Record cycle := mkCycle { cy_startedAt : Time; cy_probe : httpOutcome; cy_report : httpOutcome }.
Definition runOnce (marshals : ReportProbeResultsRequest → bool) (c : ProbeConfig) (y : cycle) : ReportProbeResultsRequest * reportOutcome :=
  report marshals c (probe_result c (cy_startedAt y) (cy_probe y)) (cy_report y).

(** What the [select] of a loop takes. *)
Inductive loopEvent (A : Type) := Done | Ticked (a : A).
Arguments Done {A}.
Arguments Ticked {A} a.

(** [Runner.Run]: [None] when [time.NewTicker] panics; else the reports so far
    and whether it has returned. *)
Fixpoint probe_loop (marshals : ReportProbeResultsRequest → bool) (c : ProbeConfig) (evs : list (loopEvent cycle))
    : list (ReportProbeResultsRequest * reportOutcome) * bool :=
  match evs with
  | [] => ([], false)
  | Done :: _ => ([], true)
  | Ticked y :: evs => let '(reports, ended) := probe_loop marshals c evs in (runOnce marshals c y :: reports, ended)
  end.
Definition probe_Run (marshals : ReportProbeResultsRequest → bool) (c : ProbeConfig) (first : cycle) (evs : list (loopEvent cycle))
    : option (list (ReportProbeResultsRequest * reportOutcome) * bool) :=
  if pc_Interval c <=? 0 then None else
  let '(reports, ended) := probe_loop marshals c evs in Some (runOnce marshals c first :: reports, ended).

(** The cycles before the loop is told to stop. *)
Fixpoint before_done {A} (evs : list (loopEvent A)) : list A :=
  match evs with Ticked y :: evs => y :: before_done evs | _ => [] end.

(** A result says what happened: a success exactly for a 2xx answer, and an
    error code exactly when there was no answer. *)
Definition honest (c : ProbeConfig) (y : cycle) (p : ReportProbeResultsRequest) : Prop :=
  ∃ x, rp_Results p = [x] ∧ rp_WorkerID p = pc_WorkerID c ∧ pr_WorkerID x = pc_WorkerID c ∧ pr_TS x = cy_startedAt y ∧
    (pr_Success x = true ↔ ∃ status elapsed, cy_probe y = Responded status elapsed ∧ 200 ≤ status < 300) ∧
    (pr_ErrorCode x = ""%string ↔ ∃ status elapsed, cy_probe y = Responded status elapsed ∧ pr_StatusCode x = status).

Lemma runOnce_honest marshals c y : honest c y (runOnce marshals c y).1.
Proof.
  exists (probe_result c (cy_startedAt y) (cy_probe y)). unfold runOnce, report. simpl.
  destruct (cy_probe y) as [msg|msg|status elapsed]; simpl; split_and!; try done.
  1-4: split; [done|]; intros (?&?&?&?); congruence.
  - unfold success_status. rewrite andb_true_iff, Z.leb_le, Z.ltb_lt. split; [intros ?; by exists status, elapsed|].
    by intros (?&?&[= -> ->]&?).
  - split; [intros _; by exists status, elapsed|done].
Qed.

Definition is_done {A} (e : loopEvent A) : bool := match e with Done => true | Ticked _ => false end.
Lemma existsb_done {A} (evs : list (loopEvent A)) : existsb is_done evs = true ↔ Done ∈ evs.
Proof.
  induction evs as [|e evs IH]; simpl; [set_solver|]. rewrite elem_of_cons, orb_true_iff, IH. destruct e; naive_solver.
Qed.

Lemma probe_loop_spec marshals c evs :
  probe_loop marshals c evs = (runOnce marshals c <$> before_done evs, existsb is_done evs).
Proof. induction evs as [|[|y] evs IH]; simpl; [done..|]. by rewrite IH. Qed.

(** The probe reports every cycle.  Once its ticker runs, there is one report
    for the first cycle and one for every tick until the context is done, in
    order, each with the one result that tells what happened, whatever happened
    to the reports before it; the probe returns exactly when it is told to.  The
    ticker runs for the intervals up to the largest that fits a [Duration]; a
    validated interval beyond it can be negative for the ticker, which panics. *)
Theorem probe_reports marshals cfg addr first evs :
  let c := probe_config cfg addr in
  (0 < sc_ProbeIntervalSec cfg ≤ 9223372036 → is_Some (probe_Run marshals c first evs)) ∧
  (sc_ProbeIntervalSec cfg = 9223372037 → probe_Run marshals c first evs = None) ∧
  ∀ reports ended, probe_Run marshals c first evs = Some (reports, ended) →
    Forall2 (honest c) (first :: before_done evs) reports.*1 ∧ (ended = true ↔ Done ∈ evs).
Proof.
  cbv zeta. unfold probe_Run. rewrite probe_loop_spec. split_and!.
  - intros Hi. change (pc_Interval _) with (to_int64 (sc_ProbeIntervalSec cfg * Second)).
    assert (0 < sc_ProbeIntervalSec cfg * Second ≤ int64_max) as Hr by (unfold Second, int64_max; lia).
    rewrite to_int64_id by (unfold int64_min; lia). destruct (Z.leb_spec (sc_ProbeIntervalSec cfg * Second) 0); [lia|by eexists].
  - intros Hi. change (pc_Interval _) with (to_int64 (sc_ProbeIntervalSec cfg * Second)). by rewrite Hi.
  - intros reports ended. destruct (_ <=? 0); [done|]. intros [= <- <-]. split; [|by apply existsb_done].
    cbn [fmap list_fmap]. constructor; [apply runOnce_honest|].
    induction (before_done evs) as [|y l IH]; [constructor|]. constructor; [apply runOnce_honest|apply IH].
Qed.

(** ** The reconciler *)

Section reconciler.
Context {S : Type} `{HostStateStore S} `{MetricWindow S} `{EventPublisher S} `{Runtime S}.

(** [RunReconciler]; a tick carries what the rest of the program did before it.
    The results are only logged. *)
Fixpoint RunReconciler (evs : list (loopEvent (Svc S → Svc S))) (s : Svc S) : list (res Z) * bool * Svc S :=
  match evs with
  | [] => ([], false, s)
  | Done :: _ => ([], true, s)
  | Ticked others :: evs =>
      let '(r, s) := ReconcileOfflineHosts (others s) in
      let '(rs, ended, s) := RunReconciler evs s in (r :: rs, ended, s)
  end.

Lemma RunReconciler_spec (I : Svc S → Prop) evs s rs ended s' :
  (∀ s r s1, I s → ReconcileOfflineHosts s = (r, s1) → I s1) →
  Forall (λ others : Svc S → Svc S, ∀ s, I s → I (others s)) (before_done evs) →
  I s → RunReconciler evs s = (rs, ended, s') →
  length rs = length (before_done evs) ∧ (ended = true ↔ Done ∈ evs) ∧ I s'.
Proof.
  intros Hstep. revert s rs. induction evs as [|[|others] evs IH]; intros s rs Ho HI E; simpl in *.
  - injection E as <- <- <-. split_and!; [done|split; [done|set_solver]|done].
  - injection E as <- <- <-. split_and!; [done|split; [constructor|done]|done].
  - apply Forall_cons in Ho as [Hx Ho]. destruct (ReconcileOfflineHosts (others s)) as [r s1] eqn:Er.
    destruct (RunReconciler evs s1) as [[rs1 ended1] s2] eqn:Es. injection E as <- <- <-.
    destruct (IH s1 rs1 Ho) as (Hl & He & HI'); [by eapply Hstep, Er; apply Hx|done|]. split_and!; [simpl; lia| |done].
    rewrite He, elem_of_cons. naive_solver.
Qed.

End reconciler.

(** ** The reconciler over the database and Redis *)

Section offline.
Context `{Env} `{PgTypes} `{RedisEnv} `{JsonCodec} `{EventCodec} `{MetricRange}.
Context (st : PgStore) (ws : WindowStore) (channel : string).
#[local] Instance rec_hosts : HostStateStore AppWorld := App_HostStateStore st.
#[local] Instance rec_window : MetricWindow AppWorld := App_MetricWindow ws.
#[local] Instance rec_events : EventPublisher AppWorld := App_EventPublisher channel.
#[local] Instance rec_runtime : Runtime AppWorld := App_Runtime.

Definition published (s : Svc AppWorld) : list (string * string) := rd_published (aw_redis (sv_env s)).
Definition upsert (x : HostSnapshot) : HostEvent := mkHostEvent HostEventUpsert (hs_HostUID x) (Some x).

(** [ms] are the messages of the events of the hosts [l]. *)
Definition messages_of (l : list HostSnapshot) (ms : list (string * string)) : Prop :=
  Forall2 (λ x m, m.1 = channel ∧ marshal_event (upsert x) = Some m.2) l ms.

Lemma publish_upsert_spec x r o r' :
  PublishHostUpsert channel x r = (o, r') →
  ∃ sent : bool, (is_ok o = true → sent = true) ∧
    ∃ ms, rd_published r' = rd_published r ++ ms ∧ messages_of (if sent then [x] else []) ms.
Proof.
  unfold PublishHostUpsert. fold (upsert x). destruct (marshal_event (upsert x)) as [body|] eqn:Em.
  2: { intros [= <- <-]. exists false. split; [done|]. exists []. rewrite app_nil_r. split; [done|constructor]. }
  assert (messages_of [x] [(channel, body)]) as Hm by (constructor; [done|constructor]).
  unfold publish. destruct (redis_fault (rd_tick r)) as [n|]; [|intros [= <- <-]; exists true; split; [done|]; by exists [(channel, body)]].
  destruct (_ <? _)%nat; intros [= <- <-]; [exists true; split; [done|]; by exists [(channel, body)]|].
  exists false. split; [done|]. exists []. simpl. rewrite app_nil_r. split; [done|constructor].
Qed.

Lemma publish_all_spec l s o s' :
  publish_all l s = (o, s') →
  sv_stats s' = sv_stats s ∧ aw_sql (sv_env s') = aw_sql (sv_env s) ∧
  ∃ l1 l2 ms, l = l1 ++ l2 ∧ published s' = published s ++ ms ∧ messages_of l1 ms ∧ (is_ok o = true → l2 = []).
Proof.
  revert s. induction l as [|x l IH]; intros s; simpl.
  { intros [= <- <-]. split_and!; [done..|]. exists [], [], []. split_and!; [done|by rewrite app_nil_r|constructor|done]. }
  intros [([] & s1 & E1 & E)|(e & E1 & ->)]%bind_inv; pose proof (proj1 (env_stats _ _ _ _ E1)) as Hst;
    apply env_in_redis in E1 as [E1 Hsql]; apply publish_upsert_spec in E1 as (sent & Hsent & ms & Hp & Hm).
  - rewrite Hsent in Hm by done. apply IH in E as (Hs' & Hq' & l1 & l2 & ms' & -> & Hp' & Hm' & Hl2). split_and!; [congruence..|].
    exists (x :: l1), l2, (ms ++ ms')%list. split_and!; [done|rewrite Hp'; unfold published; rewrite Hp; by rewrite app_assoc|unfold messages_of; change (x :: l1) with ([x] ++ l1); by apply Forall2_app|done].
  - split_and!; [done..|]. exists (if sent then [x] else []), (if sent then l else x :: l), ms. split_and!; [by destruct sent|done|done|done].
Qed.

Lemma reconcile_pass s r s' :
  store_inv (app_db s) (app_seq s) → ReconcileOfflineHosts s = (r, s') →
  store_inv (app_db s') (app_seq s') ∧ sv_stats s' = sv_stats s ∧
  ((app_db s' = app_db s ∧ published s' = published s ∧ is_ok r = false) ∨
   ∃ changed, turned (env_now (w_tick (aw_sql (sv_env s)))) (app_db s) (app_db s') changed ∧
     ∃ sent lost ms, changed = sent ++ lost ∧ published s' = published s ++ ms ∧ messages_of sent ms ∧
       match r with Ok n => n = llen changed ∧ lost = [] | Err _ => True end).
Proof.
  intros HI. unfold ReconcileOfflineHosts. intros [(now & s1 & E1 & E)|(e & [=] & _)]%bind_inv.
  injection E1 as <- <-. set (now := env_now _) in *.
  apply bind_inv in E as [(changed & s2 & E2 & E)|(e & E2 & ->)]; pose proof (proj1 (env_stats _ _ _ _ E2)) as Hst;
    apply env_in_sql in E2 as [E2 Hrd]; simpl in E2, Hrd, Hst;
    pose proof (keeps_run (ReconcileOffline st now) (tick (aw_sql (sv_env s))) (keeps_ReconcileOffline st now) HI) as HI';
    rewrite E2 in HI'; apply (WP_run _ _ (tick (aw_sql (sv_env s))) _ _ (ReconcileOffline_spec st now _ _ HI)) in E2.
  2: { split_and!; [done..|]. assert (published s' = published s) as Hp by (unfold published; by rewrite Hrd).
    destruct E2 as [E2|[_ (changed & Ht)]]; [by left|]. right. exists changed. split; [done|].
    exists [], changed, []. rewrite app_nil_r. split_and!; [done..|constructor|done]. }
  apply bind_inv in E as [([] & s3 & E3 & E)|(e & E3 & ->)]; [injection E as <- <-|];
    apply publish_all_spec in E3 as (Hs3 & Hq3 & sent & lost & ms & Hc & Hp & Hm & Hl);
    (split; [unfold app_db, app_seq; by rewrite Hq3|]; split; [congruence|]; right; exists changed; split;
     [unfold turned, app_db; by rewrite Hq3|]; exists sent, lost, ms; split; [done|];
     split; [rewrite Hp; unfold published; by rewrite Hrd|]; split; [done|]); [|done].
  split; [done|]. by apply Hl.
Qed.

(** The offline scan of the running server.  The loop makes one pass for
    every tick until the context is done, whatever the passes before it returned,
    and returns then; the tables stay well formed whatever well-behaved work
    happens between the passes. *)
Theorem reconciler_runs evs s rs ended s' :
  Forall (λ others : Svc AppWorld → Svc AppWorld, ∀ s, store_inv (app_db s) (app_seq s) → store_inv (app_db (others s)) (app_seq (others s)))
    (before_done evs) →
  store_inv (app_db s) (app_seq s) → RunReconciler evs s = (rs, ended, s') →
  length rs = length (before_done evs) ∧ (ended = true ↔ Done ∈ evs) ∧ store_inv (app_db s') (app_seq s').
Proof.
  apply (RunReconciler_spec (λ s, store_inv (app_db s) (app_seq s))). intros s0 r s1 HI E. by apply reconcile_pass in E as [? _].
Qed.

(** C7: one pass of the scan: the tables and the event bus.  A pass fails before
    it changes anything, or it turns exactly the stale hosts to offline and
    publishes their new snapshots in order, all of them when it succeeds.  When
    the bus fails on the way, or the commit is carried out but not acknowledged,
    the rest of the events is lost: the hosts are
    offline in the tables and no later scan, whenever it runs, finds them stale
    to report them. *)
Theorem reconcile_events s r s' :
  store_inv (app_db s) (app_seq s) → ReconcileOfflineHosts s = (r, s') →
  (app_db s' = app_db s ∧ published s' = published s ∧ is_ok r = false) ∨
  ∃ changed sent lost ms, turned (env_now (w_tick (aw_sql (sv_env s)))) (app_db s) (app_db s') changed ∧
    changed = sent ++ lost ∧ published s' = published s ++ ms ∧ messages_of sent ms ∧
    match r with Ok n => n = llen changed ∧ lost = [] | Err _ => True end ∧
    ∀ c t, c ∈ stale_rows (env_now (w_tick (aw_sql (sv_env s)))) (app_db s) →
      ∀ c', c' ∈ stale_rows t (app_db s') → st_HostID c' ≠ st_HostID c.
Proof.
  intros HI E. pose proof (proj1 (reconcile_pass _ _ _ HI E)) as HI'.
  apply reconcile_pass in E as (_ & _ & [?|(changed & Ht & sent & lost & ms & Hc & Hp & Hm & Hr)]); [by left| |done].
  right. exists changed, sent, lost, ms. split_and!; [done..|]. destruct Ht as [Hd _]. intros c t Hc1 c' Hc2 Heq.
  apply elem_of_stale_rows in Hc1 as [Hs1 Hl1]; [|apply HI]. apply elem_of_stale_rows in Hc2 as [Hs2 Hl2]; [|apply HI'].
  rewrite Heq, Hd in Hl2. simpl in Hl2. rewrite lookup_fmap, Hl1 in Hl2. simpl in Hl2. rewrite Hs1 in Hl2.
  injection Hl2 as <-. by rewrite offline_row_not_stale in Hs2.
Qed.

End offline.

(** ** Concrete runs *)

Section examples.
#[local] Existing Instance PgTypes_exact.
#[local] Existing Instance Bcrypt_plain.
#[local] Existing Instance StringsLower_ascii.
#[local] Existing Instance MapOrder_keys.
#[local] Existing Instance ex_master_url.
#[local] Existing Instance BitCodec.
#[local] Existing Instance MetricRange_keys.

(** Everything answers; the clock stands at 200 seconds. *)
#[local, refine] Instance Env_late : Env := {|
  env_fault _ := None; env_unacked _ := false; env_nano n := Z.of_nat n; env_now _ := 200 * Second; env_rand tick n := Some (replicate n (Ascii.ascii_of_nat tick))
|}.
Proof. intros tick n b [= <-]. apply length_replicate. Defined.

Definition ex_server_config : ServerConfig.Config :=
  mkServerConfig "/srv/web" (with_HTTPAddr ex_loaded "0.0.0.0:9090") "0.0.0.0:9091" 15 "" "prod".
Definition ex_outside : outside := mkOutside (λ _, true) true true true (λ _, Some (λ _, Some RegularFile)) "".

Lemma app_setup_closed_witness :
  match New ex_outside ex_server_config (world_of empty_DB ∅) with
  | (Ok _, w', _) => setup_available (w_db w') = false ∧
      ∃ p u t, credential (w_db w') "default" "admin" p u t ∧ VerifyPassword (pw_PasswordHash p) "G@oming" = true
  | _ => False
  end.
Proof.
  assert (is_ok (New ex_outside ex_server_config (world_of empty_DB ∅)).1.1 = true) as Hk by (vm_compute; reflexivity).
  destruct (New ex_outside ex_server_config (world_of empty_DB ∅)) as [[[a|e] w'] opened] eqn:E; [|discriminate Hk].
  destruct (app_setup_closed ex_outside ex_server_config _ a w' opened ex_tenants_wf E) as (_ & Ha & _ & _ & Hc).
  destruct (Hc eq_refl) as (p & u & t & Hcr & _ & _ & _ & Hp). split; [exact Ha|]. exists p, u, t. split; [exact Hcr|exact Hp].
Defined.

(** Redis refuses everything. *)
#[local] Instance Redis_down : RedisEnv := {| redis_fault _ := Some 0%nat |}.
#[local] Instance ex_reconcile_codec : EventCodec := OneEventCodec (mkHostEvent HostEventDelete "" None).
#[local] Instance ex_rec_hosts : HostStateStore AppWorld := App_HostStateStore ex_store.
#[local] Instance ex_rec_window : MetricWindow AppWorld := App_MetricWindow ex_window_store.
#[local] Instance ex_rec_events : EventPublisher AppWorld := App_EventPublisher "c".
#[local] Instance ex_rec_runtime : Runtime AppWorld := App_Runtime.

Definition agent_states (s : Svc AppWorld) : list Z := st_AgentState <$> rows (db_status (app_db s)).

(** A host went offline in the tables, nothing was published, and the next scan
    has nothing to report. *)
Lemma reconcile_events_witness :
  match ReconcileOfflineHosts ex_app with
  | (Err _, s') => published s' = [] ∧ app_db s' = reconciled (200 * Second) (app_db ex_app) ∧ app_db s' ≠ app_db ex_app ∧
      ∀ t c, c ∈ stale_rows t (app_db s') → st_HostID c ≠ 1
  | _ => False
  end.
Proof.
  assert (is_ok (ReconcileOfflineHosts ex_app).1 = false ∧ published (ReconcileOfflineHosts ex_app).2 = [] ∧
    agent_states (ReconcileOfflineHosts ex_app).2 ≠ agent_states ex_app ∧ length (stale_rows (200 * Second) (app_db ex_app)) = 1%nat ∧
    (st_HostID <$> stale_rows (200 * Second) (app_db ex_app)) = [1]) as (Hk & Hp & Hn & _ & Hid)
    by (vm_compute; split_and!; reflexivity || discriminate).
  destruct (ReconcileOfflineHosts ex_app) as [[n|e] s'] eqn:E; [discriminate Hk|]. cbn [snd] in *. split; [exact Hp|].
  assert (app_db s' ≠ app_db ex_app) as Hdb by (intros Heq; apply Hn; unfold agent_states; by rewrite Heq).
  destruct (reconcile_events ex_store "c" ex_app _ s' ex_world1_inv E)
    as [(Hsame & _)|(changed & sent & lost & ms & [Ht _] & _ & _ & _ & _ & Hnone)]; [by destruct Hdb|].
  split; [exact Ht|]. split; [exact Hdb|]. intros t c Hc.
  destruct (stale_rows (200 * Second) (app_db ex_app)) as [|c0 [|]] eqn:Es; try discriminate Hid. injection Hid as <-.
  apply (Hnone c0 t); [|exact Hc]. change (env_now _) with (200 * Second). rewrite Es. left.
Defined.

Lemma reconciler_runs_witness :
  let '(rs, ended, s') := RunReconciler [Ticked id; Ticked id; Done; Ticked id] ex_app in
  length rs = 2%nat ∧ ended = true ∧ store_inv (app_db s') (app_seq s').
Proof.
  destruct (RunReconciler [Ticked id; Ticked id; Done; Ticked id] ex_app) as [[rs ended] s'] eqn:E.
  assert (Forall (λ others : Svc AppWorld → Svc AppWorld, ∀ s, store_inv (app_db s) (app_seq s) → store_inv (app_db (others s)) (app_seq (others s)))
    (before_done [Ticked id; Ticked id; Done; Ticked id])) as Ho.
  { do 2 (apply Forall_cons; split; [intros s HI; exact HI|]). apply Forall_nil, I. }
  destruct (reconciler_runs ex_store "c" _ ex_app rs ended s' Ho ex_world1_inv E) as (Hl & He & HI).
  split; [exact Hl|]. split; [|exact HI]. apply He. right. right. left.
Defined.

End examples.
