(* ===== verification/EventSource.v ===== *)
(** * The event stream on the wire

    Models [writeStreamEvent] of [server/internal/master/transport/http/stream.go]
    and the keep-alive comment: the bytes of a frame.  The reader is the browser's
    [EventSource]; its algorithm for a stream is written out below, as the
    reference the written bytes are checked against.  [json.Marshal] of a frame is
    a parameter of which one thing is used: it escapes control characters. *)

From stdpp Require Import gmap strings list.
From Stdlib Require Import Ascii.
From S2P Require Import Prelude GoRuntime GoStrings GoText HostStream.
Local Open Scope Z_scope.

Definition lf (c : ascii) : bool := is_byte 10 c.
Definition cr (c : ascii) : bool := is_byte 13 c.
Definition one_line (l : list ascii) : bool := forallb (λ c, negb (lf c) && negb (cr c)) l.

(** ** Writing *)

Definition writeStreamEvent (event payload : string) : list ascii :=
  bytes "event: " ++ bytes event ++ bytes newline ++ bytes "data: " ++ bytes payload ++ bytes newline ++ bytes newline.
Definition keep_alive : list ascii := bytes ": keep-alive" ++ bytes newline ++ bytes newline.

Class FrameJSON := {
  frame_json : frame → string;
  frame_json_line : ∀ f, one_line (bytes (frame_json f)) = true
}.

Section wire.
Context `{FrameJSON}.

Definition wire (f : frame) : list ascii :=
  match f with
  | SyncFrame _ _ _ _ => writeStreamEvent "sync" (frame_json f)
  | UpsertFrame _ _ _ => writeStreamEvent "host_upsert" (frame_json f)
  | KeepAlive => keep_alive
  end.

(** ** Reading *)

(** The complete lines of a stream; a line ends with LF, CR or both. *)
Fixpoint es_lines (cur l : list ascii) {struct l} : list (list ascii) :=
  match l with
  | [] => []
  | c :: l =>
      if lf c then reverse cur :: es_lines [] l else
      if cr c then
        match l with
        | d :: l' => if lf d then reverse cur :: es_lines [] l' else reverse cur :: es_lines [] l
        | [] => [reverse cur]
        end
      else es_lines (c :: cur) l
  end.

(** The buffers of the reader, [None] for an empty data buffer. *)
Record reader := mkReader { er_type : list ascii; er_data : option (list ascii) }.
Definition idle : reader := mkReader [] None.

(** The field name and the value of a line, one leading space dropped. *)
Fixpoint field_of (name l : list ascii) : list ascii * list ascii :=
  match l with
  | [] => (reverse name, [])
  | c :: l => if colon c then (reverse name, match l with d :: l' => if is_byte 32 d then l' else l | [] => [] end) else field_of (c :: name) l
  end.

(** One line: a blank line dispatches what is in the buffers, a line that starts
    with a colon is a comment, unknown fields are ignored. *)
Definition es_line (r : reader) (line : list ascii) : reader * option (string * string) :=
  match line with
  | [] =>
      (idle, match er_data r with
             | None => None
             | Some data => Some ((if bool_decide (er_type r = []) then "message"%string else of_bytes (er_type r)), of_bytes data)
             end)
  | c :: _ =>
      if colon c then (r, None) else
      let '(field, value) := field_of [] line in
      if bool_decide (field = bytes "event") then (mkReader value (er_data r), None) else
      if bool_decide (field = bytes "data") then
        (mkReader (er_type r) (Some (match er_data r with None => value | Some data => data ++ bytes newline ++ value end)), None)
      else (r, None)
  end.

Fixpoint es_run (r : reader) (lines : list (list ascii)) : list (string * string) :=
  match lines with
  | [] => []
  | line :: lines => let '(r, out) := es_line r line in match out with Some e => e :: es_run r lines | None => es_run r lines end
  end.

(** The events a stream of bytes dispatches; what is not complete is discarded. *)
Definition EventSource (l : list ascii) : list (string * string) := es_run idle (es_lines [] l).

(** ** What arrives *)

(** The event of a frame. *)
Definition frame_event (f : frame) : option (string * string) :=
  match f with
  | SyncFrame _ _ _ _ => Some ("sync"%string, frame_json f)
  | UpsertFrame _ _ _ => Some ("host_upsert"%string, frame_json f)
  | KeepAlive => None
  end.

Lemma es_lines_from cur l k : one_line l = true → es_lines cur (l ++ bytes newline ++ k) = (reverse cur ++ l) :: es_lines [] k.
Proof.
  revert cur. induction l as [|c l IH]; intros cur Hl; simpl in *; [by rewrite app_nil_r|].
  apply andb_true_iff in Hl as [[E1%negb_true_iff E2%negb_true_iff]%andb_true_iff Hl]. rewrite E1, E2, IH by done.
  rewrite reverse_cons. by rewrite <-(assoc_L (++)).
Qed.

Lemma es_lines_line l k : one_line l = true → es_lines [] (l ++ bytes newline ++ k) = l :: es_lines [] k.
Proof. apply es_lines_from. Qed.

(** What has no end of line yet is no line. *)
Lemma es_lines_cut cur l : one_line l = true → es_lines cur l = [].
Proof.
  revert cur. induction l as [|c l IH]; intros cur Hl; simpl in *; [done|].
  apply andb_true_iff in Hl as [[E1%negb_true_iff E2%negb_true_iff]%andb_true_iff Hl]. rewrite E1, E2. by apply IH.
Qed.

Lemma one_line_app l k : one_line (l ++ k) = one_line l && one_line k.
Proof. apply forallb_app. Qed.
Lemma one_line_take n l : one_line l = true → one_line (take n l) = true.
Proof.
  revert n. induction l as [|c l IH]; intros [|n] E; simpl in *; [done..|]. apply andb_true_iff in E as [-> E]. by apply IH.
Qed.

Definition event_line (event : string) : list ascii := bytes "event: " ++ bytes event.
Definition data_line (payload : string) : list ascii := bytes "data: " ++ bytes payload.

Lemma writeStreamEvent_lines event payload :
  writeStreamEvent event payload = event_line event ++ bytes newline ++ data_line payload ++ bytes newline ++ [] ++ bytes newline ++ [].
Proof. unfold writeStreamEvent, event_line, data_line. by rewrite app_nil_l, app_nil_r, <-!(assoc_L (++)). Qed.

Lemma es_event_line event : bytes event ≠ [] → es_line idle (event_line event) = (mkReader (bytes event) None, None).
Proof. done. Qed.
Lemma es_data_line t payload : es_line (mkReader t None) (data_line payload) = (mkReader t (Some (bytes payload)), None).
Proof. done. Qed.

Lemma es_run_event event payload lines :
  bytes event ≠ [] → es_run idle (event_line event :: data_line payload :: [] :: lines) = (event, payload) :: es_run idle lines.
Proof.
  intros He. cbn [es_run]. rewrite es_event_line, es_data_line by done. simpl. rewrite bool_decide_false by done.
  by rewrite !of_bytes_bytes.
Qed.

(** A whole frame is read as its event, before whatever follows. *)
Lemma read_frame f k : EventSource (wire f ++ k) = match frame_event f with Some e => e :: EventSource k | None => EventSource k end.
Proof.
  assert (∀ event, bytes event ≠ [] → one_line (bytes event) = true →
    EventSource (writeStreamEvent event (frame_json f) ++ k) = (event, frame_json f) :: EventSource k) as Hev.
  { intros event Hn Hl. unfold EventSource. rewrite writeStreamEvent_lines, <-!(assoc_L (++)).
    rewrite es_lines_line by (unfold event_line; by rewrite one_line_app, Hl).
    rewrite es_lines_line by (unfold data_line; by rewrite one_line_app, frame_json_line).
    rewrite es_lines_line by done. by rewrite es_run_event. }
  destruct f; cbn [wire frame_event]; [by apply Hev|by apply Hev|].
  unfold EventSource, keep_alive. rewrite <-!(assoc_L (++)). rewrite es_lines_line by done. change (bytes newline ++ k) with ([] ++ bytes newline ++ k).
  by rewrite es_lines_line.
Qed.

(** The lines of a frame that was cut are lines of the frame, without the blank
    one, so nothing is dispatched. *)
Lemma cut_line l k n :
  one_line l = true →
  es_lines [] (take n (l ++ bytes newline ++ k)) = [] ∨
  (length l < n)%nat ∧ es_lines [] (take n (l ++ bytes newline ++ k)) = l :: es_lines [] (take (n - length l - 1) k).
Proof.
  intros Hl. destruct (decide (n ≤ length l)%nat) as [Hn|Hn]; [left|right; split; [lia|]].
  - rewrite take_app_le by done. by apply es_lines_cut, one_line_take.
  - rewrite take_app_ge by lia. destruct (n - length l)%nat as [|m] eqn:Em; [lia|].
    change (take (S m) (bytes newline ++ k)) with (bytes newline ++ take m k). rewrite es_lines_line by done. do 2 f_equal. f_equal. lia.
Qed.

Lemma read_cut_event event payload n :
  one_line (bytes event) = true → one_line (bytes payload) = true →
  (n < length (writeStreamEvent event payload))%nat → EventSource (take n (writeStreamEvent event payload)) = [].
Proof.
  intros He Hp Hn. unfold EventSource. rewrite writeStreamEvent_lines, !length_app in *. simpl in Hn.
  destruct (cut_line (event_line event) (data_line payload ++ bytes newline ++ [] ++ bytes newline ++ []) n) as [->|[H1 ->]];
    [unfold event_line; by rewrite one_line_app, He|done|].
  destruct (cut_line (data_line payload) ([] ++ bytes newline ++ []) (n - length (event_line event) - 1)) as [->|[H2 ->]];
    [unfold data_line; by rewrite one_line_app, Hp|done|].
  destruct (cut_line [] [] (n - length (event_line event) - 1 - length (data_line payload) - 1)) as [->|[H3 _]]; [done..|].
  simpl in H3. lia.
Qed.

Lemma read_cut f n : (n < length (wire f))%nat → EventSource (take n (wire f)) = [].
Proof.
  destruct f; [apply read_cut_event; [done|apply frame_json_line]..|]. unfold wire, EventSource. intros Hn.
  change keep_alive with (bytes ": keep-alive" ++ bytes newline ++ [] ++ bytes newline ++ []) in *. rewrite !length_app in Hn.
  destruct (cut_line (bytes ": keep-alive") ([] ++ bytes newline ++ []) n) as [->|[H1 ->]]; [done..|].
  destruct (cut_line [] [] (n - length (bytes ": keep-alive") - 1)) as [->|[H2 _]]; [done..|]. simpl in *. lia.
Qed.

(** C22: the bytes of a stream say exactly what its frames say.  Whatever frames
    were written, and wherever the write of a last one broke off, the browser
    dispatches the events of the complete frames, in order, with their names and
    their JSON, and nothing else: no content of a host name, label or value can
    end an event or begin another. *)
Theorem stream_wire frames f n :
  (n < length (wire f))%nat → EventSource (concat (wire <$> frames) ++ take n (wire f)) = omap frame_event frames.
Proof.
  intros Hn. induction frames as [|g frames IH]; [by apply read_cut|]. rewrite fmap_cons, concat_cons, <-(assoc_L (++)), read_frame, IH. simpl. by destruct (frame_event g).
Qed.

End wire.

(** ** Examples *)

Section examples.

(** A codec that names the frames. *)
Program Definition ex_frame_json : FrameJSON := {|
  frame_json f := match f with SyncFrame _ _ _ _ => "{sync}" | UpsertFrame _ _ _ => "{upsert}" | KeepAlive => "{}" end%string
|}.
Next Obligation. by intros []. Qed.
#[local] Existing Instance ex_frame_json.

Definition ex_frames : list frame := [SyncFrame [] None ∅ 0; KeepAlive].
Lemma stream_wire_witness :
  EventSource (concat (wire <$> ex_frames) ++ take 5 (wire KeepAlive)) = omap frame_event ex_frames ∧
  omap frame_event ex_frames = [("sync"%string, "{sync}"%string)].
Proof. split; [apply (stream_wire ex_frames KeepAlive 5); vm_compute; lia|reflexivity]. Defined.

(** A reader that trusts no writer: names of the fields, comments, line ends. *)
Example es_crlf : EventSource (bytes "data:a" ++ ["013"%char; "010"%char] ++ bytes "data: b" ++ ["013"%char; "013"%char]) =
  [("message"%string, ("a" +:+ newline +:+ "b")%string)].
Proof. reflexivity. Qed.

End examples.
