(* ===== verification/LiveView.v ===== *)
(** * From the tables to the dashboard

    Composes the writers of the host state, the event bus, the stream of
    [stream.go] and the page that reads it
    ([web/src/shared/features/hosts/useLiveHostsData.ts]).  A writer (a
    registration, a report, the offline scan) commits a snapshot and publishes it
    afterwards; a stream lists the hosts, then subscribes, then sends the listing
    and each event; the page keeps a map of hosts which a listing replaces and an
    event updates.  Each of these is an action; the actions of a run interleave in
    any order.

    Events get lost: the writer gives up before or at the publication (a failure of
    Redis, of a step before it, or of the acknowledgement of the commit, all of
    which [service.go] only reports), the publication falls between the listing
    and the subscription of a stream, or the subscription drops a message (Pub/Sub
    keeps none for a connection that is down).  A ghost field keeps the hosts whose
    event the stream has missed since.  What an event becomes on the stream is
    proved of [streamStep] below. *)

From stdpp Require Import gmap strings list.
From S2P Require Import Prelude GoRuntime GoStrings Contracts Access Sql HostStore EventBus Interfaces MasterService MasterProps HttpServer HttpProps HostStream.
Local Open Scope Z_scope.

(** ** The page *)

(** [item.host_uid]. *)
Definition view_uid (v : hostView) : string :=
  match v with
  | FullHost h => hs_HostUID h
  | View m => match m !! "host_uid"%string with Some (JString uid) => uid | _ => ""%string end
  end.

Definition listToHostMap (items : list hostView) : gmap string hostView := foldl (λ next item, <[view_uid item := item]> next) ∅ items.

(** The listeners of [sync] and [host_upsert], the map of hosts. *)
Definition onSync (items : list hostView) (agents : gmap string hostView) : gmap string hostView := listToHostMap items.
Definition onHostUpsert (item : hostView) (agents : gmap string hostView) : gmap string hostView :=
  if str_empty (view_uid item) then agents else <[view_uid item := item]> agents.

Definition onFrame (f : frame) (agents : gmap string hostView) : gmap string hostView :=
  match f with
  | SyncFrame items _ _ _ => onSync items agents
  | UpsertFrame item _ _ => onHostUpsert item agents
  | KeepAlive => agents
  end.

(** ** The system *)

(** Where a stream is: it has listed the hosts, it has subscribed (with the
    events that arrived), it has sent the listing. *)
Inductive connection :=
| Closed
| Listed (items : list HostSnapshot)
| Subscribed (items queue : list HostSnapshot)
| Streaming (queue : list HostSnapshot).

Record live := mkLive {
  lv_store : gmap string HostSnapshot;      (** the committed snapshot of each host *)
  lv_unpublished : list HostSnapshot;       (** committed, not yet published *)
  lv_conn : connection;
  lv_fetched : option (list HostSnapshot);  (** the answer to [reloadHosts] under way *)
  lv_agents : gmap string hostView;         (** the page *)
  lv_committed : list HostSnapshot;         (** everything committed so far *)
  lv_missed : gset string                   (** hosts with an event lost to the open stream *)
}.
Definition live_init : live := mkLive ∅ [] Closed None ∅ [] ∅.

Inductive action :=
| Commit (h : HostSnapshot)
| Publish (n : nat)
| GiveUp (n : nat)
| Drop (n : nat)
| ListHosts
| Subscribe
| SendSync
| Deliver
| Fetch
| Reload
| Disconnect.

Section live.
Context (p : Principal).

Definition allowed (h : HostSnapshot) : bool := AllowsHost p (hs_TenantCode h) (hs_HostUID h).

(** What the principal reads. *)
Definition readable (store : gmap string HostSnapshot) : list HostSnapshot := select allowed (map_to_list store).*2.

(** What an event does to the page: the stream passes it on when it is granted. *)
Definition deliver (agents : gmap string hostView) (h : HostSnapshot) : gmap string hostView :=
  if allowed h then onHostUpsert (ProjectHost p h) agents else agents.

Definition arrive (h : HostSnapshot) (c : connection) : connection :=
  match c with
  | Subscribed items q => Subscribed items (q ++ [h])
  | Streaming q => Streaming (q ++ [h])
  | c => c
  end.

(** A publication repairs the host for a stream that is subscribed, and is missed
    by one that has listed the hosts already and not subscribed yet. *)
Definition heard (h : HostSnapshot) (c : connection) (missed : gset string) : gset string :=
  match c with
  | Closed => missed
  | Listed _ => missed ∪ {[hs_HostUID h]}
  | Subscribed _ _ | Streaming _ => missed ∖ {[hs_HostUID h]}
  end.

(** What is queued for the stream, and the stream with another queue. *)
Definition queued (c : connection) : list HostSnapshot :=
  match c with Subscribed _ q | Streaming q => q | _ => [] end.
Definition requeue (q : list HostSnapshot) (c : connection) : connection :=
  match c with Subscribed items _ => Subscribed items q | Streaming _ => Streaming q | c => c end.

Definition with_conn (c : connection) (s : live) : live :=
  mkLive (lv_store s) (lv_unpublished s) c (lv_fetched s) (lv_agents s) (lv_committed s) (lv_missed s).
Definition with_page (c : connection) (a : gmap string hostView) (s : live) : live :=
  mkLive (lv_store s) (lv_unpublished s) c (lv_fetched s) a (lv_committed s) (lv_missed s).
Definition with_missed (m : gset string) (s : live) : live :=
  mkLive (lv_store s) (lv_unpublished s) (lv_conn s) (lv_fetched s) (lv_agents s) (lv_committed s) m.
Definition with_unpublished (l : list HostSnapshot) (s : live) : live :=
  mkLive (lv_store s) l (lv_conn s) (lv_fetched s) (lv_agents s) (lv_committed s) (lv_missed s).
Definition with_fetched (o : option (list HostSnapshot)) (s : live) : live :=
  mkLive (lv_store s) (lv_unpublished s) (lv_conn s) o (lv_agents s) (lv_committed s) (lv_missed s).

Definition act (a : action) (s : live) : option live :=
  match a with
  | Commit h =>
      Some (mkLive (<[hs_HostUID h := h]> (lv_store s)) (lv_unpublished s ++ [h]) (lv_conn s) (lv_fetched s) (lv_agents s)
              (lv_committed s ++ [h]) (lv_missed s))
  | Publish n =>
      match lv_unpublished s !! n with
      | None => None
      | Some h => Some (with_conn (arrive h (lv_conn s)) (with_missed (heard h (lv_conn s) (lv_missed s)) (with_unpublished (delete n (lv_unpublished s)) s)))
      end
  | GiveUp n =>
      match lv_unpublished s !! n with
      | None => None
      | Some h => Some (with_missed (lv_missed s ∪ {[hs_HostUID h]}) (with_unpublished (delete n (lv_unpublished s)) s))
      end
  | Drop n =>
      match queued (lv_conn s) !! n with
      | None => None
      | Some h => Some (with_conn (requeue (delete n (queued (lv_conn s))) (lv_conn s)) (with_missed (lv_missed s ∪ {[hs_HostUID h]}) s))
      end
  | ListHosts => match lv_conn s with Closed => Some (with_conn (Listed (readable (lv_store s))) (with_missed ∅ s)) | _ => None end
  | Subscribe => match lv_conn s with Listed items => Some (with_conn (Subscribed items []) s) | _ => None end
  | SendSync =>
      match lv_conn s with Subscribed items q => Some (with_page (Streaming q) (onSync (ProjectHosts p items) (lv_agents s)) s) | _ => None end
  | Deliver => match lv_conn s with Streaming (h :: q) => Some (with_page (Streaming q) (deliver (lv_agents s) h) s) | _ => None end
  | Fetch => Some (with_fetched (Some (readable (lv_store s))) s)
  | Reload =>
      match lv_fetched s with
      | None => None
      | Some items => Some (with_fetched None (with_page (lv_conn s) (listToHostMap (ProjectHosts p items)) s))
      end
  | Disconnect => Some (with_conn Closed s)
  end.

Fixpoint acts (l : list action) (s : live) : option live :=
  match l with [] => Some s | a :: l => match act a s with None => None | Some s => acts l s end end.

(** Every action of a run is as [P] says. *)
Fixpoint all_along (P : action → live → Prop) (l : list action) (s : live) : Prop :=
  match l with [] => True | a :: l => P a s ∧ match act a s with None => True | Some s => all_along P l s end end.

(** A run in which each host has one writer at a time, which is done with one
    commit before the next, keeps its tenant, and in which no listing that was
    fetched beside the stream arrives behind it. *)
Definition orderly (a : action) (s : live) : Prop :=
  match a with
  | Commit h =>
      (∀ h', h' ∈ lv_unpublished s → hs_HostUID h' ≠ hs_HostUID h) ∧
      (∀ h', lv_store s !! hs_HostUID h = Some h' → hs_TenantCode h' = hs_TenantCode h)
  | Reload => match lv_conn s with Streaming _ => False | _ => True end
  | _ => True
  end.

(** A run in which no event is lost. *)
Definition lossless (a : action) (s : live) : Prop :=
  match a with
  | GiveUp _ | Drop _ => False
  | Publish _ => match lv_conn s with Listed _ => False | _ => True end
  | _ => True
  end.

(** What the page should show of a host. *)
Definition visible (x : option HostSnapshot) : option hostView :=
  match x with Some h => if allowed h then Some (ProjectHost p h) else None | None => None end.

(** ** Maps of hosts *)

Lemma ProjectHost_uid h : view_uid (ProjectHost p h) = hs_HostUID h.
Proof.
  destruct (IsUser p) eqn:Hu; [unfold ProjectHost; by rewrite Hu|].
  destruct (ProjectHost_host_uid p h Hu) as (m & -> & Hm). simpl. by rewrite Hm.
Qed.

Lemma allowed_uid h : allowed h = true → hs_HostUID h ≠ ""%string.
Proof. intros Ha. apply AllowsHost_granted in Ha. naive_solver. Qed.

Lemma allowed_agree h h' : hs_TenantCode h = hs_TenantCode h' → hs_HostUID h = hs_HostUID h' → allowed h = allowed h'.
Proof. unfold allowed. by intros -> ->. Qed.

Lemma lookup_deliver agents h u :
  deliver agents h !! u = if bool_decide (hs_HostUID h = u) && allowed h then Some (ProjectHost p h) else agents !! u.
Proof.
  unfold deliver, onHostUpsert. rewrite ProjectHost_uid. destruct (allowed h) eqn:Ea; [|by rewrite andb_false_r]. rewrite andb_true_r.
  destruct (str_empty (hs_HostUID h)) eqn:Ee; [apply str_empty_true in Ee; by apply allowed_uid in Ea|].
  case_bool_decide as Hu; [subst u; apply lookup_insert_eq|by apply lookup_insert_ne].
Qed.

(** A listing shows each host once, so the order of the listing is no matter. *)
Lemma lookup_listed items u :
  NoDup (hs_HostUID <$> items) →
  (∀ h, h ∈ items → hs_HostUID h = u → listToHostMap (ProjectHosts p items) !! u = Some (ProjectHost p h)) ∧
  ((∀ h, h ∈ items → hs_HostUID h ≠ u) → listToHostMap (ProjectHosts p items) !! u = None).
Proof.
  unfold listToHostMap, ProjectHosts. induction items as [|x items IH] using rev_ind; intros Hn; [split; [set_solver|done]|].
  rewrite !fmap_app in *. simpl in *. rewrite foldl_snoc, ProjectHost_uid. apply NoDup_app in Hn as (Hn & Hx & _).
  destruct (IH Hn) as [IH1 IH2]. split.
  - intros h [Hh|Hh]%elem_of_app Hu; [|apply list_elem_of_singleton in Hh as ->; by rewrite Hu, lookup_insert_eq].
    rewrite lookup_insert_ne; [by apply IH1|]. intros Hux. apply (Hx (hs_HostUID h)); [by apply list_elem_of_fmap_2|]. rewrite Hux, Hu. by left.
  - intros Hall. rewrite lookup_insert_ne by (apply Hall; set_solver). apply IH2. set_solver.
Qed.

(** The keys of the store are the uids. *)
Definition keyed (store : gmap string HostSnapshot) : Prop := ∀ u h, store !! u = Some h → hs_HostUID h = u.

Lemma elem_of_readable store h : keyed store → h ∈ readable store ↔ store !! hs_HostUID h = Some h ∧ allowed h = true.
Proof.
  intros Hk. unfold readable. rewrite elem_of_select, list_elem_of_fmap. split.
  - intros [Ha ([u h'] & -> & Hin)]. simpl in *. apply elem_of_map_to_list in Hin. by rewrite (Hk _ _ Hin).
  - intros [Hs Ha]. split; [done|]. exists (hs_HostUID h, h). split; [done|]. by apply elem_of_map_to_list.
Qed.

Lemma readable_nodup store : keyed store → NoDup (hs_HostUID <$> readable store).
Proof.
  intros Hk. assert (hs_HostUID <$> (map_to_list store).*2 = (map_to_list store).*1) as E.
  { rewrite <-list_fmap_compose. apply list_fmap_ext. intros i [u h] Hi. simpl. apply Hk. apply elem_of_map_to_list. by eapply list_elem_of_lookup_2. }
  apply (sublist_NoDup _ (map_to_list store).*1); [apply NoDup_fst_map_to_list|]. rewrite <-E. apply fmap_sublist, sublist_filter.
Qed.

Lemma lookup_readable store u : keyed store → listToHostMap (ProjectHosts p (readable store)) !! u = visible (store !! u).
Proof.
  intros Hk. destruct (lookup_listed (readable store) u (readable_nodup _ Hk)) as [H1 H2].
  destruct (store !! u) as [h|] eqn:Es; simpl; [destruct (allowed h) eqn:Ea|].
  - apply H1; [|by apply Hk]. apply elem_of_readable; [done|]. by rewrite (Hk _ _ Es).
  - apply H2. intros h' [Hs Ha]%elem_of_readable Hu; [|done]. rewrite Hu in Hs. congruence.
  - apply H2. intros h' [Hs Ha]%elem_of_readable Hu; [|done]. rewrite Hu in Hs. congruence.
Qed.

(** ** Every run *)

(** Everything anywhere was committed. *)
Definition conn_hosts (c : connection) : list HostSnapshot :=
  match c with Closed => [] | Listed items => items | Subscribed items q => items ++ q | Streaming q => q end.

Definition shown_from (l : list HostSnapshot) (agents : gmap string hostView) : Prop :=
  ∀ u v, agents !! u = Some v → ∃ h, h ∈ l ∧ allowed h = true ∧ hs_HostUID h = u ∧ v = ProjectHost p h.

Record sourced (s : live) : Prop := {
  so_keyed : keyed (lv_store s);
  so_store : ∀ u h, lv_store s !! u = Some h → h ∈ lv_committed s;
  so_unpublished : ∀ h, h ∈ lv_unpublished s → h ∈ lv_committed s;
  so_conn : ∀ h, h ∈ conn_hosts (lv_conn s) → h ∈ lv_committed s;
  so_listed : match lv_conn s with
              | Listed items | Subscribed items _ => NoDup (hs_HostUID <$> items) ∧ ∀ h, h ∈ items → allowed h = true
              | _ => True
              end;
  so_fetched : ∀ items, lv_fetched s = Some items →
    NoDup (hs_HostUID <$> items) ∧ ∀ h, h ∈ items → allowed h = true ∧ h ∈ lv_committed s;
  so_agents : shown_from (lv_committed s) (lv_agents s)
}.

Lemma shown_listed l items :
  NoDup (hs_HostUID <$> items) → (∀ h, h ∈ items → allowed h = true ∧ h ∈ l) → shown_from l (listToHostMap (ProjectHosts p items)).
Proof.
  intros Hn Hi u v Hv. destruct (lookup_listed items u Hn) as [H1 H2].
  destruct (decide (Exists (λ h, hs_HostUID h = u) items)) as [(h & Hh & Hu)%Exists_exists|Hno].
  - rewrite (H1 h Hh Hu) in Hv. injection Hv as <-. destruct (Hi h Hh). by exists h.
  - rewrite H2 in Hv; [done|]. intros h Hh Hu. apply Hno, Exists_exists. by exists h.
Qed.

Lemma shown_deliver l agents h : shown_from l agents → h ∈ l → shown_from l (deliver agents h).
Proof.
  intros Hs Hh u v. rewrite lookup_deliver. case_bool_decide as Hu; simpl; [|apply Hs].
  destruct (allowed h) eqn:Ea; [|apply Hs]. intros [= <-]. by exists h.
Qed.

Lemma shown_more l k agents : shown_from l agents → shown_from (l ++ k) agents.
Proof. intros Hs u v (h & Hh & ?)%Hs. exists h. split; [apply elem_of_app; by left|done]. Qed.

Lemma readable_listed store (committed : list HostSnapshot) :
  keyed store → (∀ u h, store !! u = Some h → h ∈ committed) →
  NoDup (hs_HostUID <$> readable store) ∧ ∀ h, h ∈ readable store → allowed h = true ∧ h ∈ committed.
Proof.
  intros Hk Hc. split; [by apply readable_nodup|]. intros h [Hs Ha]%elem_of_readable; [|done]. split; [done|by eapply Hc].
Qed.

Lemma act_sourced a s s' : sourced s → act a s = Some s' → sourced s'.
Proof.
  intros [Hk Hs Hu Hc Hl Hf Hg] E. destruct a as [h|n|n|n| | | | | | |]; simpl in E.
  - injection E as <-. split; simpl.
    + intros u h' [[<- <-]|[_ ?]]%lookup_insert_Some; [done|by apply Hk].
    + intros u h' [[<- <-]|[_ ?]]%lookup_insert_Some; set_solver.
    + set_solver.
    + set_solver.
    + done.
    + intros items Hi. destruct (Hf items Hi) as [? Hall]. set_solver.
    + by apply shown_more.
  - destruct (lv_unpublished s !! n) as [h|] eqn:En; [|done]. injection E as <-. apply list_elem_of_lookup_2 in En.
    split; simpl; try done.
    + intros h' Hin. apply Hu. by eapply list_elem_of_delete_inv.
    + destruct (lv_conn s); simpl in *; set_solver.
    + by destruct (lv_conn s).
  - destruct (lv_unpublished s !! n) as [h|] eqn:En; [|done]. injection E as <-.
    split; simpl; try done. intros h' Hin. apply Hu. by eapply list_elem_of_delete_inv.
  - destruct (queued (lv_conn s) !! n) as [h|] eqn:En; [|done]. injection E as <-.
    assert (∀ (q : list HostSnapshot) h', h' ∈ delete n q → h' ∈ q) as Hin by (intros q h'; apply list_elem_of_delete_inv).
    split; simpl; try done; destruct (lv_conn s); simpl in *; try done; intros h' Hh; apply Hc; set_solver.
  - destruct (lv_conn s); try done. injection E as <-. destruct (readable_listed _ _ Hk Hs) as [Hn Hall].
    split; simpl; try done; [set_solver|split; [done|]; intros h Hh; by apply Hall].
  - destruct (lv_conn s); try done. injection E as <-. split; simpl in *; try done. set_solver.
  - destruct (lv_conn s) as [| |items q|]; try done. injection E as <-. split; simpl in *; try done; [set_solver|].
    apply shown_listed; [apply Hl|]. intros h Hh. split; [by apply Hl|]. set_solver.
  - destruct (lv_conn s) as [| | |[|h q]]; try done. injection E as <-. split; simpl in *; try done; [set_solver|].
    apply shown_deliver; [done|set_solver].
  - injection E as <-. split; simpl; try done. intros items [= <-]. by apply readable_listed.
  - destruct (lv_fetched s) as [items|]; [|done]. injection E as <-. split; simpl; try done. destruct (Hf items eq_refl). by apply shown_listed.
  - injection E as <-. split; simpl; try done. set_solver.
Qed.

Lemma acts_sourced l s s' : sourced s → acts l s = Some s' → sourced s'.
Proof.
  revert s. induction l as [|a l IH]; intros s Hs E; simpl in E; [by injection E as <-|].
  destruct (act a s) as [s1|] eqn:Ea; [|done]. eapply IH; [|done]. by eapply act_sourced.
Qed.

Lemma init_sourced : sourced live_init.
Proof. split; simpl; try done; try set_solver. Qed.

(** ** Orderly runs *)

(** The page once everything that is on its way has arrived. *)
Definition drained (s : live) : option (gmap string hostView) :=
  match lv_conn s with
  | Closed => None
  | Listed items => Some (listToHostMap (ProjectHosts p items))
  | Subscribed items q => Some (foldl deliver (listToHostMap (ProjectHosts p items)) q)
  | Streaming q => Some (foldl deliver (lv_agents s) q)
  end.

(** No commit of the host waits for its publication. *)
Definition published (s : live) (u : string) : Prop := ∀ h, h ∈ lv_unpublished s → hs_HostUID h ≠ u.

Record settled (s : live) : Prop := {
  se_keyed : keyed (lv_store s);
  se_newest : ∀ h, h ∈ lv_unpublished s → lv_store s !! hs_HostUID h = Some h;
  se_once : NoDup (hs_HostUID <$> lv_unpublished s);
  se_page : ∀ m u, drained s = Some m →
    (published s u → u ∉ lv_missed s → m !! u = visible (lv_store s !! u)) ∧ (is_Some (m !! u) → is_Some (visible (lv_store s !! u)))
}.

Lemma delete_published (l : list HostSnapshot) n h :
  NoDup (hs_HostUID <$> l) → l !! n = Some h →
  NoDup (hs_HostUID <$> delete n l) ∧ (∀ h', h' ∈ delete n l → hs_HostUID h' ≠ hs_HostUID h) ∧
  ∀ h', h' ∈ l → h' = h ∨ h' ∈ delete n l.
Proof.
  intros Hn Hl. rewrite (delete_take_drop l n). pose proof (take_drop_middle l n h Hl) as E. rewrite <-E in Hn.
  rewrite fmap_app, fmap_cons in Hn. apply NoDup_app in Hn as (Hn1 & Hn2 & Hn3). apply NoDup_cons in Hn3 as [Hn3 Hn4]. split_and!.
  - rewrite fmap_app. apply NoDup_app. set_solver.
  - intros h' [Hh|Hh]%elem_of_app Hu.
    + apply (Hn2 (hs_HostUID h')); [by apply list_elem_of_fmap_2|]. rewrite Hu. by left.
    + apply Hn3. rewrite <-Hu. by apply list_elem_of_fmap_2.
  - intros h' Hh. rewrite <-E in Hh. set_solver.
Qed.

(** An event of the newest snapshot brings the page up to date on its host. *)
Lemma deliver_newest m h (store : gmap string HostSnapshot) u :
  store !! hs_HostUID h = Some h → (∀ u, is_Some (m !! u) → is_Some (visible (store !! u))) →
  deliver m h !! u = if bool_decide (hs_HostUID h = u) then visible (store !! u) else m !! u.
Proof.
  intros Hs Hi. rewrite lookup_deliver. case_bool_decide as Hu; simpl; [|done]. subst u. specialize (Hi (hs_HostUID h)).
  rewrite Hs in *. simpl in *. destruct (allowed h); [done|]. destruct (m !! hs_HostUID h); [|done]. destruct Hi as [? ?]; [by eexists|done].
Qed.

Lemma drained_arrive s h c :
  lv_conn s = c → (match c with Closed | Listed _ => False | _ => True end) →
  ∃ m, drained s = Some m ∧ ∀ unp mis, drained (with_conn (arrive h c) (with_missed mis (with_unpublished unp s))) = Some (deliver m h).
Proof.
  intros <- Hc. unfold drained. destruct (lv_conn s); simpl in *; try done; eexists; (split; [done|]); intros unp mis; by rewrite foldl_snoc.
Qed.

Lemma drained_conn s items : lv_conn s = Listed items → Some (listToHostMap (ProjectHosts p items)) = drained s.
Proof. intros Hc. unfold drained. by rewrite Hc. Qed.

(** A commit leaves the page as it is; its host waits for the publication. *)
Lemma commit_settled h s s' : settled s → orderly (Commit h) s → act (Commit h) s = Some s' → settled s'.
Proof.
  intros [Hk Hnew Ho Hp] [Ho1 Ho2] [= <-]. split; simpl.
  - intros u h' [[<- <-]|[_ ?]]%lookup_insert_Some; [done|by apply Hk].
  - intros h' [Hh|Hh]%elem_of_app; [|apply list_elem_of_singleton in Hh as ->; apply lookup_insert_eq].
    rewrite lookup_insert_ne by (intros Hu; by apply (Ho1 h')). by apply Hnew.
  - rewrite fmap_app. apply NoDup_app. split_and!; [done| |apply NoDup_singleton].
    intros u (h' & -> & Hh)%list_elem_of_fmap Hu. apply list_elem_of_singleton in Hu. by apply (Ho1 h').
  - intros m u Hd. assert (drained s = Some m) as Hd' by (unfold drained in *; destruct (lv_conn s); done).
    destruct (Hp m u Hd') as [H1 H2]. split.
    + intros Hpu Hmi. assert (hs_HostUID h ≠ u) as Hne by (apply Hpu; simpl; set_solver). rewrite lookup_insert_ne by done. apply H1; [|done].
      intros h' Hh. apply Hpu. simpl. set_solver.
    + intros Hm. apply H2 in Hm. destruct (decide (hs_HostUID h = u)) as [<-|Hne]; [|by rewrite lookup_insert_ne].
      rewrite lookup_insert_eq. destruct (lv_store s !! hs_HostUID h) as [h0|] eqn:E0; [|by destruct Hm]. simpl in *.
      rewrite (allowed_agree h h0); [destruct (allowed h0); [by eexists|done]|by rewrite (Ho2 h0)|by rewrite (Hk _ _ E0)].
Qed.

Lemma publish_settled n s s' : settled s → act (Publish n) s = Some s' → settled s'.
Proof.
  intros [Hk Hnew Ho Hp] E. simpl in E. destruct (lv_unpublished s !! n) as [h|] eqn:En; [|done]. injection E as <-.
  pose proof (list_elem_of_lookup_2 _ _ _ En) as Hh. destruct (delete_published _ _ _ Ho En) as (Hd1 & Hd2 & Hd3).
  split; simpl; [done| |done|].
  - intros h' Hh'. apply Hnew. by eapply list_elem_of_delete_inv.
  - assert (∀ u, hs_HostUID h ≠ u → (∀ h', h' ∈ delete n (lv_unpublished s) → hs_HostUID h' ≠ u) → published s u) as Hpub
      by (intros u Hu Hpu h' [->|Hin]%Hd3; [done|by apply Hpu]).
    destruct (lv_conn s) as [|items|items q|q] eqn:Ec; [done| | |].
    { intros m u [= <-]. destruct (Hp _ u (eq_sym (drained_conn s _ Ec))) as [H1 H2]. split; [|done].
      simpl. intros Hpu Hmi. apply not_elem_of_union in Hmi as [Hmi Hu]. apply H1; [|done]. apply Hpub; [set_solver|done]. }
    all: destruct (drained_arrive s h _ Ec I) as (m & Hm & Hm'); intros m' u; rewrite Hm'; intros [= <-];
      rewrite (deliver_newest m h (lv_store s)); [|by apply Hnew|intros v; by apply Hp].
    all: split; [|case_bool_decide; [by subst|by apply Hp]]; simpl; intros Hpu Hmi; case_bool_decide as Hu; [by subst|]; apply (Hp m u Hm); [|set_solver].
    all: by apply Hpub.
Qed.

Lemma give_up_settled n s s' : settled s → act (GiveUp n) s = Some s' → settled s'.
Proof.
  intros [Hk Hnew Ho Hp] E. simpl in E. destruct (lv_unpublished s !! n) as [h|] eqn:En; [|done]. injection E as <-.
  destruct (delete_published _ _ _ Ho En) as (Hd1 & Hd2 & Hd3). split; simpl; [done| |done|].
  - intros h' Hh'. apply Hnew. by eapply list_elem_of_delete_inv.
  - intros m u Hd. destruct (Hp m u Hd) as [H1 H2]. split; [|done]. simpl. intros Hpu [Hmi Hu]%not_elem_of_union. apply H1; [|done].
    intros h' [->|Hin]%Hd3; [set_solver|by apply Hpu].
Qed.

(** A message that is dropped leaves the other hosts as they were. *)
Lemma lookup_deliver_all q m u :
  (∀ h, h ∈ q → hs_HostUID h ≠ u) → foldl deliver m q !! u = m !! u.
Proof.
  revert m. induction q as [|h q IH]; intros m Hq; simpl; [done|]. rewrite IH by set_solver. rewrite lookup_deliver.
  rewrite bool_decide_eq_false_2; [done|]. apply Hq. by left.
Qed.

Lemma deliver_agree q m m' u : m !! u = m' !! u → foldl deliver m q !! u = foldl deliver m' q !! u.
Proof.
  revert m m'. induction q as [|h q IH]; intros m m' Hm; simpl; [done|]. apply IH. rewrite !lookup_deliver. by destruct (_ && _).
Qed.

Lemma deliver_grows q m m' u : (is_Some (m !! u) → is_Some (m' !! u)) → is_Some (foldl deliver m q !! u) → is_Some (foldl deliver m' q !! u).
Proof.
  revert m m'. induction q as [|h q IH]; intros m m' Hm; simpl; [done|]. apply IH. rewrite !lookup_deliver. by destruct (_ && _).
Qed.

Lemma deliver_dropped q n h m u :
  q !! n = Some h →
  (hs_HostUID h ≠ u → foldl deliver m (delete n q) !! u = foldl deliver m q !! u) ∧
  (is_Some (foldl deliver m (delete n q) !! u) → is_Some (foldl deliver m q !! u)).
Proof.
  intros Hq. assert (foldl deliver m q = foldl deliver m (take n q ++ h :: drop (S n) q)) as -> by by rewrite take_drop_middle.
  rewrite (delete_take_drop q n), !foldl_app. simpl. split.
  - intros Hu. apply deliver_agree. rewrite lookup_deliver. by rewrite bool_decide_eq_false_2.
  - apply deliver_grows. rewrite lookup_deliver. by destruct (_ && _).
Qed.

Lemma drop_settled n s s' : settled s → act (Drop n) s = Some s' → settled s'.
Proof.
  intros [Hk Hnew Ho Hp] E. simpl in E. destruct (queued (lv_conn s) !! n) as [h|] eqn:En; [|done]. injection E as <-.
  split; simpl; try done. unfold drained in *. destruct (lv_conn s) as [| |items q|q]; try done; simpl in *; intros m u [= <-];
    destruct (Hp _ u eq_refl) as [H1 H2]; (edestruct (deliver_dropped q n h) as [Hd1 Hd2]; [done|]; split; [|intros Hm; apply H2; by apply Hd2]);
    intros Hpu [Hmi Hu]%not_elem_of_union; rewrite Hd1 by set_solver; by apply H1.
Qed.

Lemma act_settled a s s' : settled s → orderly a s → act a s = Some s' → settled s'.
Proof.
  intros HS Hord E. destruct a as [h|n|n|n| | | | | | |];
    [by eapply commit_settled|by eapply publish_settled|by eapply give_up_settled|by eapply drop_settled|..];
    destruct HS as [Hk Hnew Ho Hp]; simpl in E, Hord.
  - destruct (lv_conn s); try done. injection E as <-. split; simpl; try done. intros m u [= <-].
    rewrite lookup_readable by done. done.
  - destruct (lv_conn s) eqn:Ec; try done. injection E as <-. split; simpl; try done. intros m u [= <-]. apply Hp. unfold drained. by rewrite Ec.
  - destruct (lv_conn s) as [| |items q|] eqn:Ec; try done. injection E as <-. split; simpl; try done. intros m u [= <-]. apply Hp. unfold drained. by rewrite Ec.
  - destruct (lv_conn s) as [| | |[|h q]] eqn:Ec; try done. injection E as <-. split; simpl; try done. intros m u [= <-]. apply Hp. unfold drained. by rewrite Ec.
  - by injection E as <-.
  - destruct (lv_fetched s) as [items|]; [|done]. injection E as <-. split; simpl; try done. intros m u Hd. apply Hp. unfold drained in *. simpl in *.
    by destruct (lv_conn s).
  - by injection E as <-.
Qed.

Lemma acts_settled l s s' : settled s → all_along orderly l s → acts l s = Some s' → settled s'.
Proof.
  revert s. induction l as [|a l IH]; intros s Hs Hord E; simpl in E, Hord; [by injection E as <-|].
  destruct Hord as [Ha Hl]. destruct (act a s) as [s1|] eqn:Ea; [|done]. eapply IH; [|done..]. by eapply act_settled.
Qed.

(** Without a loss nothing is missed. *)
Lemma acts_lossless l s s' : lv_missed s = ∅ → all_along lossless l s → acts l s = Some s' → lv_missed s' = ∅.
Proof.
  revert s. induction l as [|a l IH]; intros s Hs Hall E; simpl in E, Hall; [by injection E as <-|].
  destruct Hall as [Ha Hl]. destruct (act a s) as [s1|] eqn:Ea; [|done]. apply (IH s1); [|done..]. clear IH Hl E.
  destruct a; simpl in Ea, Ha; repeat case_match; simplify_eq; simpl; try done; rewrite ?Hs; simpl; set_solver.
Qed.

Lemma init_settled : settled live_init.
Proof. split; simpl; try done; [by intros h ?%elem_of_nil|constructor]. Qed.

(** ** The end of a run *)

Definition uids (l : list HostSnapshot) : gset string := list_to_set (hs_HostUID <$> l).

Lemma publish_all unp : ∀ s q,
  lv_unpublished s = unp → lv_conn s = Streaming q →
  all_along orderly (replicate (length unp) (Publish 0)) s ∧
  acts (replicate (length unp) (Publish 0)) s =
    Some (with_conn (Streaming (q ++ unp)) (with_missed (lv_missed s ∖ uids unp) (with_unpublished [] s))).
Proof.
  induction unp as [|h unp IH]; intros s q Hu Hc; simpl.
  { rewrite app_nil_r. unfold uids. simpl. rewrite difference_empty_L. destruct s; simpl in *. by subst. }
  rewrite Hu, Hc. simpl.
  destruct (IH (with_conn (Streaming (q ++ [h])) (with_missed (lv_missed s ∖ {[hs_HostUID h]}) (with_unpublished unp s))) (q ++ [h])) as [H1 H2]; [done..|].
  split; [done|]. rewrite H2. unfold with_conn, with_missed, with_unpublished, uids. simpl. rewrite <-(assoc_L (++)). simpl.
  by rewrite difference_difference_l_L.
Qed.

Lemma deliver_all q : ∀ s,
  lv_conn s = Streaming q →
  all_along orderly (replicate (length q) Deliver) s ∧
  acts (replicate (length q) Deliver) s = Some (with_page (Streaming []) (foldl deliver (lv_agents s) q) s).
Proof.
  induction q as [|h q IH]; intros s Hc; simpl; [destruct s; simpl in *; by subst|]. rewrite Hc.
  destruct (IH (with_page (Streaming q) (deliver (lv_agents s) h) s)) as [H1 H2]; [done|]. by rewrite H2.
Qed.

Lemma all_along_app P l k s s' : acts l s = Some s' → all_along P l s → all_along P k s' → all_along P (l ++ k) s.
Proof.
  revert s. induction l as [|a l IH]; intros s E Hl Hk; simpl in *; [by injection E as ->|]. destruct Hl as [Ha Hl]. split; [done|].
  destruct (act a s) as [s1|]; [|done]. by apply IH.
Qed.
Lemma acts_app l k s s' : acts l s = Some s' → acts (l ++ k) s = acts k s'.
Proof. revert s. induction l as [|a l IH]; intros s E; simpl in *; [by injection E as ->|]. destruct (act a s); [by apply IH|done]. Qed.

(** Nothing but publications and deliveries. *)
Definition finishing (a : action) : Prop := match a with Publish _ | Deliver => True | _ => False end.

(** A new connection. *)
Definition reconnect : list action := [Disconnect; ListHosts; Subscribe; SendSync].

Lemma reconnect_run s :
  keyed (lv_store s) →
  ∃ s', acts reconnect s = Some s' ∧ lv_conn s' = Streaming [] ∧ lv_store s' = lv_store s ∧ lv_missed s' = ∅ ∧
    ∀ u, lv_agents s' !! u = visible (lv_store s !! u).
Proof. intros Hk. eexists. split; [done|]. split_and!; [done..|]. intros u. by apply lookup_readable. Qed.

(** C21: the dashboard, with events lost on the way.  In every run whatsoever each
    host on the page is the projection of a snapshot that was committed for that
    host and that the viewer may read, and a new connection makes the page show
    exactly the granted hosts as the tables have them, whatever was lost before.
    In an orderly run with an open stream, the page never shows a host that is not
    granted or not stored, and what is left to publish and to deliver can be
    completed; then, and whenever nothing is left, it shows every host as the
    tables have it, other than the hosts of which an event was lost since the
    connection was made and none has come since; the publication of a host's next
    commit takes it off these, and there are none in a run without a loss. *)
Theorem dashboard_converges l s :
  acts l live_init = Some s →
  shown_from (lv_committed s) (lv_agents s) ∧
  (∃ s', acts reconnect s = Some s' ∧ lv_conn s' = Streaming [] ∧ lv_store s' = lv_store s ∧ lv_missed s' = ∅ ∧
     ∀ u, lv_agents s' !! u = visible (lv_store s !! u)) ∧
  (all_along lossless l live_init → lv_missed s = ∅) ∧
  (all_along orderly l live_init → ∀ q, lv_conn s = Streaming q →
     (q = [] → ∀ u, is_Some (lv_agents s !! u) → is_Some (visible (lv_store s !! u))) ∧
     (q = [] → lv_unpublished s = [] → ∀ u, u ∉ lv_missed s → lv_agents s !! u = visible (lv_store s !! u)) ∧
     ∃ k s', Forall finishing k ∧ all_along orderly (l ++ k) live_init ∧ acts k s = Some s' ∧
       lv_conn s' = Streaming [] ∧ lv_unpublished s' = [] ∧ lv_store s' = lv_store s ∧
       lv_missed s' = lv_missed s ∖ uids (lv_unpublished s) ∧
       ∀ u, u ∉ lv_missed s' → lv_agents s' !! u = visible (lv_store s !! u)).
Proof.
  intros E. pose proof (acts_sourced _ _ _ init_sourced E) as Hso. split; [apply (so_agents _ Hso)|].
  split; [apply reconnect_run, (so_keyed _ Hso)|]. split; [intros Hl; by apply (acts_lossless l live_init)|]. intros Ho q Hc.
  assert (∀ k s', all_along orderly (l ++ k) live_init → acts k s = Some s' → lv_conn s' = Streaming [] → lv_unpublished s' = [] →
    ∀ u, u ∉ lv_missed s' → lv_agents s' !! u = visible (lv_store s' !! u)) as Hend.
  { intros k s' Hk Ek Hc' Hu' u. assert (settled s') as HS by (eapply (acts_settled (l ++ k)); [apply init_settled|done|by rewrite (acts_app _ _ _ _ E)]).
    apply (se_page _ HS); [unfold drained; by rewrite Hc'|]. intros h Hh. rewrite Hu' in Hh. by apply elem_of_nil in Hh. }
  split.
  { intros -> u. apply (se_page _ (acts_settled _ _ _ init_settled Ho E)). unfold drained. by rewrite Hc. }
  split; [intros -> Hu; apply (Hend [] s); [by rewrite app_nil_r|done..]|].
  destruct (publish_all (lv_unpublished s) s q eq_refl Hc) as [H1 H2]. set (s1 := with_conn _ _) in H2.
  destruct (deliver_all (q ++ lv_unpublished s) s1 eq_refl) as [H3 H4].
  rewrite <-(acts_app _ _ _ _ H2) in H4. pose proof (all_along_app _ _ _ _ _ H2 H1 H3) as H5. set (k := replicate _ _ ++ _) in *.
  pose proof (all_along_app _ _ _ _ _ E Ho H5) as H6. eexists k, _. split_and!; [|exact H6|exact H4|done..|].
  - apply Forall_app. split; by apply Forall_replicate.
  - apply (Hend k _ H6 H4); done.
Qed.

End live.

(** ** The stream delivers *)

Section stream.
Context `{Env} `{PgTypes} `{Bcrypt} `{StringsLower} `{RedisEnv} `{JsonCodec} `{EventCodec} `{MetricRange}.
Context `{BodyDecoder} `{ErrorText} `{FrameEncoder}.
Context (svc : Service) (all_encodable : ∀ f, encodable f = true).

(** What the frames of an event do to the page is [deliver]: an upsert that is
    granted sets its host, anything else changes nothing. *)
Theorem stream_delivers rq p e w frames w' agents :
  streamStep svc rq p (BusEvent e true) w = (inr (frames, true), w') →
  foldl (λ a f, onFrame f a) agents frames =
  match he_Snapshot e with
  | Some h => if str_eqb (he_Type e) HostEventUpsert then deliver p agents h else agents
  | None => agents
  end.
Proof.
  intros E. unfold streamStep, mbind, Web_bind in E. destruct (sql time_now w) as [[resp|now] w1]; [done|].
  destruct (recheckReadAccess svc rq p w1) as [[resp|ok] w2]; [done|]. destruct ok; [|done]. simpl in E. unfold deliver, allowed.
  destruct (str_eqb _ _); [|by destruct (he_Snapshot e); injection E as <- _]. destruct (he_Snapshot e) as [h|]; [|by injection E as <- _].
  destruct (AllowsHost _ _ _); simpl in E; [|by injection E as <- _]. rewrite all_encodable in E. by injection E as <- _.
Qed.

End stream.

(** ** Races *)

Section races.

Definition ex_viewer : Principal := mkPrincipal User 0 "acme" 1 "admin" "" "" "" [] [].
Definition ex_version (overall : Code) (v : Z) : HostSnapshot :=
  mkHostSnapshot "host-a" "acme" "web-1" "10.0.0.1" "" overall Unknown Unknown overall f64_zero f64_zero 0 f64_zero f64_zero 0 f64_zero
    0 0 0 0 f64_zero 0 0 0 0 0 0 0 0 ∅ v.
Definition ex_down : HostSnapshot := ex_version Offline 1.
Definition ex_back : HostSnapshot := ex_version Up 2.

(** The run ends with nothing on its way, and the page shows the host as it was
    before its last commit. *)
Definition left_behind (l : list action) : Prop :=
  match acts ex_viewer l live_init with
  | Some s => lv_conn s = Streaming [] ∧ lv_unpublished s = [] ∧ lv_store s !! "host-a"%string = Some ex_back ∧
              lv_agents s !! "host-a"%string = Some (FullHost ex_down)
  | None => False
  end.

(** A publication between the listing and the subscription of a stream is lost. *)
Example race_lost_event :
  left_behind [Commit ex_down; Publish 0; ListHosts; Commit ex_back; Publish 0; Subscribe; SendSync].
Proof. vm_compute. done. Qed.

(** The publication of a commit fails, or the subscription drops its message. *)
Example race_failed_publication :
  left_behind [Commit ex_down; Publish 0; ListHosts; Subscribe; SendSync; Commit ex_back; GiveUp 0].
Proof. vm_compute. done. Qed.
Example race_dropped_message :
  left_behind [Commit ex_down; Publish 0; ListHosts; Subscribe; SendSync; Commit ex_back; Publish 0; Drop 0].
Proof. vm_compute. done. Qed.

(** Two writers of one host, the offline scan and a report, publish in the other
    order: the page takes the older snapshot for the newer one. *)
Example race_overtaken :
  left_behind [ListHosts; Subscribe; SendSync; Commit ex_down; Commit ex_back; Publish 1; Publish 0; Deliver; Deliver].
Proof. vm_compute. done. Qed.

(** The listing that the page fetches beside the stream arrives late. *)
Example race_late_listing :
  left_behind [Commit ex_down; Publish 0; Fetch; ListHosts; Subscribe; SendSync; Commit ex_back; Publish 0; Deliver; Reload].
Proof. vm_compute. done. Qed.

Definition ex_actions : list action := [Commit ex_down; Publish 0; ListHosts; Commit ex_back; Subscribe; SendSync].

(** The publication of the last commit is still to come, or fails: the page is
    stale then, and right again after the next connection. *)
Definition ex_failed : list action := ex_actions ++ [GiveUp 0].

Lemma ex_actions_orderly : all_along ex_viewer orderly ex_actions live_init.
Proof.
  simpl. split_and!; try exact I; intros h' Hh; first [by apply elem_of_nil in Hh|by rewrite lookup_empty in Hh|idtac].
  rewrite lookup_insert_eq in Hh. by injection Hh as <-.
Qed.

Lemma dashboard_converges_witness :
  (match acts ex_viewer ex_actions live_init with
   | Some s => lv_agents s !! "host-a"%string = Some (FullHost ex_down) ∧
       ∃ k s', acts ex_viewer k s = Some s' ∧ lv_agents s' !! "host-a"%string = visible ex_viewer (Some ex_back)
   | None => False
   end) ∧
  match acts ex_viewer ex_failed live_init with
  | Some s => lv_missed s = {["host-a"%string]} ∧ lv_agents s !! "host-a"%string = Some (FullHost ex_down) ∧
      ∃ s', acts ex_viewer reconnect s = Some s' ∧ lv_agents s' !! "host-a"%string = visible ex_viewer (Some ex_back)
  | None => False
  end.
Proof.
  split.
  - destruct (acts ex_viewer ex_actions live_init) as [s|] eqn:E; [|discriminate E].
    pose proof (dashboard_converges ex_viewer ex_actions s E) as (_ & _ & Hl & Hc).
    assert (all_along ex_viewer lossless ex_actions live_init) as Hll by (vm_compute; tauto).
    specialize (Hl Hll). vm_compute in E. injection E as <-. split; [reflexivity|].
    destruct (Hc ex_actions_orderly [] eq_refl) as (_ & _ & k & s' & _ & _ & Hk & _ & _ & _ & Hm & Ha). exists k, s'. split; [exact Hk|].
    apply (Ha "host-a"%string). rewrite Hm. intros [Hx _]%elem_of_difference. rewrite Hl in Hx. by apply elem_of_empty in Hx.
  - destruct (acts ex_viewer ex_failed live_init) as [s|] eqn:E; [|discriminate E].
    destruct (dashboard_converges ex_viewer ex_failed s E) as (_ & (s' & Hr & _ & _ & _ & Ha) & _).
    vm_compute in E. injection E as <-. split; [reflexivity|]. split; [reflexivity|]. exists s'. split; [exact Hr|]. exact (Ha "host-a"%string).
Defined.

End races.
