(* ===== verification/Logging.v ===== *)
(** * Logging

    Models [pkg/logx]: where a component logs, the key-value pairs of an entry and
    the access log of the HTTP servers.  The values of an entry are of any type;
    [fmt.Sprint] is a parameter.  What zap does with an entry is taken from its
    documentation: a tee of cores writes it to each whose level it has, with the
    fields of the logger in front; the encoding and the rotation of files are not
    modelled. *)

From stdpp Require Import gmap strings list.
From S2P Require Import Prelude GoRuntime GoStrings GoText.
Local Open Scope Z_scope.

(** The file of a component; [GAOMING_LOG_DIR] is given. *)
Definition log_file (env_dir component : string) : string :=
  let logDir := if str_empty env_dir then "logs"%string else env_dir in
  path_in logDir (component +:+ ".log").

Section entries.
Context {A : Type} (text : string → A) (Sprint : A → string).

(** An odd list is not empty. *)
Definition normalizeKeyvals (kv : list A) : list A :=
  if llen kv mod 2 =? 0 then kv else
  match last kv with Some x => kv ++ [text "ignored"; text (Sprint x)] | None => kv end.

(** Pairs are kept as they are; a list with a key too many gets two elements more
    and so still has one too many, whose key is now a copy of the last value and
    whose real last key has the value "ignored". *)
Theorem normalizeKeyvals_parity kv :
  (Nat.Even (length kv) → normalizeKeyvals kv = kv) ∧
  (∀ front x, kv = front ++ [x] → Nat.Even (length front) →
     normalizeKeyvals kv = front ++ [x; text "ignored"; text (Sprint x)] ∧ Nat.Odd (length (normalizeKeyvals kv))).
Proof.
  assert (∀ n, (Z.of_nat n mod 2 =? 0) = Nat.even n) as Hev.
  { intros n. destruct (Nat.even n) eqn:E.
    - apply Nat.even_spec in E as [k ->]. apply Z.eqb_eq. replace (Z.of_nat (2 * k)) with (Z.of_nat k * 2) by lia. apply Z_mod_mult.
    - assert (Nat.odd n = true) as [k ->]%Nat.odd_spec by (unfold Nat.odd; by rewrite E).
      replace (Z.of_nat (2 * k + 1)) with (1 + Z.of_nat k * 2) by lia. by rewrite Z_mod_plus_full. }
  unfold normalizeKeyvals, llen. split.
  - intros He%Nat.even_spec. by rewrite Hev, He.
  - intros front x -> [k Hk]. assert (Nat.even (length (front ++ [x])) = false) as Ho.
    { rewrite length_app. simpl. rewrite Nat.add_1_r, Nat.even_succ, <-Nat.negb_even. apply negb_false_iff, Nat.even_spec. by exists k. }
    rewrite Hev, Ho, last_snoc. split; [by rewrite <-(assoc_L (++))|]. rewrite !length_app. simpl. exists (S k). lia.
Qed.

(** ** The access log *)

Inductive level := LInfo | LWarn | LError.

Definition access_level (status : Z) : level := if 500 <=? status then LError else if 400 <=? status then LWarn else LInfo.

(** A request after it was handled; the path of its route is empty when there was
    none. *)
Record handled := mkHandled {
  ha_FullPath : string; ha_Path : string; ha_Status : Z; ha_Method : string; ha_ClientIP : string; ha_LatencyMS : Z; ha_Size : Z;
  ha_UserAgent : string; ha_Errors : string
}.
Context (num : Z → A).

Definition access_kv (h : handled) : list A :=
  let path := if str_empty (ha_FullPath h) then ha_Path h else ha_FullPath h in
  let kv := [text "status"; num (ha_Status h); text "method"; text (ha_Method h); text "path"; text path; text "client_ip"; text (ha_ClientIP h);
             text "latency_ms"; num (ha_LatencyMS h); text "body_bytes"; num (ha_Size h); text "user_agent"; text (ha_UserAgent h)] in
  let errText := TrimSpace (ha_Errors h) in
  if negb (str_empty errText) then kv ++ [text "error"; text errText] else kv.

Definition GinMiddleware (h : handled) : level * list A := (access_level (ha_Status h), normalizeKeyvals (access_kv h)).

(** An access log entry has whole pairs, so nothing of it is changed, and its
    level tells a server error from a refused request. *)
Theorem access_log_entry h :
  GinMiddleware h = (access_level (ha_Status h), access_kv h) ∧
  (access_level (ha_Status h) = LError ↔ 500 ≤ ha_Status h) ∧ (access_level (ha_Status h) = LInfo ↔ ha_Status h < 400).
Proof.
  split_and!.
  - unfold GinMiddleware. f_equal. apply normalizeKeyvals_parity. unfold access_kv. cbv zeta. destruct (negb _); [by exists 8%nat|by exists 7%nat].
  - unfold access_level. destruct (Z.leb_spec 500 (ha_Status h)), (Z.leb_spec 400 (ha_Status h)); split; (done || lia).
  - unfold access_level. destruct (Z.leb_spec 500 (ha_Status h)), (Z.leb_spec 400 (ha_Status h)); split; (done || lia).
Qed.

End entries.

(** ** Loggers *)

Section loggers.
Context {A : Type} (text : string → A) (Sprint : A → string).

Inductive sink := Stdout | LogFile (path : string).

Definition rank (l : level) : Z := match l with LInfo => 0 | LWarn => 1 | LError => 2 end.

(** The cores of a logger with their levels, and its own fields. *)
Record Logger := mkLogger { lg_Cores : list (sink * level); lg_Fields : list A }.

Definition New (env_dir component : string) : Logger :=
  mkLogger [(Stdout, LInfo); (LogFile (log_file env_dir component), LInfo)] [text "component"; text component].
Definition NewNop : Logger := mkLogger [] [].

Record entry := mkEntry { en_Level : level; en_Message : string; en_Fields : list A }.

(** What [zap.SugaredLogger] writes, and where. *)
Definition sugared (l : Logger) (e : entry) : list (sink * entry) :=
  (λ c : sink * level, (c.1, mkEntry (en_Level e) (en_Message e) (lg_Fields l ++ en_Fields e))) <$>
  select (λ c : sink * level, rank c.2 <=? rank (en_Level e)) (lg_Cores l).

Definition Info (l : Logger) (msg : string) (kv : list A) := sugared l (mkEntry LInfo msg (normalizeKeyvals text Sprint kv)).
Definition Warn (l : Logger) (msg : string) (kv : list A) := sugared l (mkEntry LWarn msg (normalizeKeyvals text Sprint kv)).
Definition LogError (l : Logger) (msg : string) (kv : list A) := sugared l (mkEntry LError msg (normalizeKeyvals text Sprint kv)).

(** [Sync] on a pointer; what zap returns is given. *)
Definition Sync {E} (l : option Logger) (base_Sync : Logger → option E) : option E :=
  match l with None => None | Some l => base_Sync l end.

(** Whatever its level, an entry with whole pairs reaches the console and the file
    of the component once each, unchanged and with the component's name in front; a
    nop logger writes nothing. *)
Theorem entries_written env_dir component msg kv :
  Nat.Even (length kv) →
  ∀ write lv, (write, lv) ∈ [(Info, LInfo); (Warn, LWarn); (LogError, LError)] →
  let e := mkEntry lv msg ([text "component"; text component] ++ kv) in
  write (New env_dir component) msg kv = [(Stdout, e); (LogFile (log_file env_dir component), e)] ∧ write NewNop msg kv = [].
Proof.
  intros He write lv Hw. pose proof (proj1 (normalizeKeyvals_parity text Sprint kv) He) as Hn.
  rewrite !elem_of_cons in Hw. destruct Hw as [[= -> ->]|[[= -> ->]|[[= -> ->]|Hw]]]; [..|by apply not_elem_of_nil in Hw];
    unfold Info, Warn, LogError; by rewrite Hn.
Qed.

End loggers.

Example normalize_odd : normalizeKeyvals id id ["host_uid"; "host-a"; "error"]%string = ["host_uid"; "host-a"; "error"; "ignored"; "error"]%string.
Proof. reflexivity. Qed.
Example log_file_default : log_file "" "agent" = "logs/agent.log"%string.
Proof. reflexivity. Qed.
