(* ===== verification/LocalDocker.v ===== *)
(** * The local development tool: Docker

    Models [internal/localdeps/docker.go] and [manager.go], and the command of
    [cmd/localdeps]: the manifest and the private files, the ownership record and
    the lock around Docker Compose.

    The processes of the tool share a directory.  What each of them does between
    two looks at it is one step of a relation; any number of them run, fail and
    crash in any order.  What the operating system, Docker and PostgreSQL answer
    is the input of a step. *)

From stdpp Require Import gmap strings list relations pretty.
From Stdlib Require Import Ascii.
From S2P Require Import Prelude GoRuntime GoStrings GoText Encoding LocalConfig.
Local Open Scope Z_scope.

(** ** Docker Compose *)

(** [strings.Fields]. *)
Definition flush (cur : list ascii) (l : list (list ascii)) : list (list ascii) := if bool_decide (cur = []) then l else reverse cur :: l.
Fixpoint fields_loop (cur l : list ascii) {struct l} : list (list ascii) :=
  match l with
  | [] => flush cur []
  | a :: l =>
      if space1 a then flush cur (fields_loop [] l) else
      match l with
      | b :: l' =>
          if space2 a b then flush cur (fields_loop [] l') else
          match l' with
          | c :: l'' => if space3 a b c then flush cur (fields_loop [] l'') else fields_loop (a :: cur) l
          | [] => fields_loop (a :: cur) l
          end
      | [] => fields_loop (a :: cur) l
      end
  end.
Definition Fields (s : string) : list string := of_bytes <$> fields_loop [] (bytes s).

Definition dockerProject (root : string) : string :=
  of_bytes (take 24 (bytes ("gaoming-deps-" +:+ hex_encode (sha256 (bytes root))))).

(** The command line. *)
Definition composeCommand (command root project : string) (args : list string) : list string :=
  let parts := Fields command in
  let parts := if llen parts =? 0 then ["docker"; "compose"]%string else parts in
  parts ++ ["-p"%string; project; "-f"%string; path_in root "compose.deps.yml"] ++ args.

Definition up_args : list string := ["up"; "-d"; "--wait"; "--wait-timeout"; "90"; "postgres"; "redis"]%string.
Definition down_args : list string := ["down"; "--remove-orphans"]%string.

(** The manifest, as the tree that is rendered to YAML. *)
Inductive yaml := YStr (s : string) | YNum (n : Z) | YSeq (l : list string) | YMap (l : list (string * yaml)).
Definition health (test : list string) : yaml :=
  YMap [("test"%string, YSeq test); ("interval"%string, YStr "2s"); ("timeout"%string, YStr "3s"); ("retries"%string, YNum 30)].
Definition secret_file (root name : string) : yaml := YMap [("file"%string, YStr (path_in root name))].
Definition manifest (root : string) (cfg : Config) : yaml :=
  YMap [
    ("services"%string, YMap [
      ("postgres"%string, YMap [
        ("image", YStr "postgres:16-alpine"); ("restart", YStr "unless-stopped");
        ("environment", YMap [("POSTGRES_USER", YStr (pg_User (lc_PG cfg))); ("POSTGRES_DB", YStr (pg_Database (lc_PG cfg)));
                              ("POSTGRES_PASSWORD_FILE", YStr "/run/secrets/postgres_password")]);
        ("secrets", YSeq ["postgres_password"]); ("ports", YSeq ["0.0.0.0:" +:+ FormatInt (pg_Port (lc_PG cfg)) +:+ ":5432"]);
        ("volumes", YSeq ["postgres_data:/var/lib/postgresql/data"]);
        ("healthcheck", health ["CMD"; "pg_isready"; "-U"; pg_User (lc_PG cfg); "-d"; pg_Database (lc_PG cfg)])]%string);
      ("redis"%string, YMap [
        ("image", YStr "redis:7-alpine"); ("restart", YStr "unless-stopped"); ("secrets", YSeq ["redis_password"; "redis_config"]);
        ("ports", YSeq ["0.0.0.0:" +:+ FormatInt (lc_RedisPort cfg) +:+ ":6379"]);
        ("entrypoint", YSeq ["sh"; "-ec"; "cp /run/secrets/redis_config /tmp/gaoming-redis.conf; chown redis:redis /tmp/gaoming-redis.conf; chmod 600 /tmp/gaoming-redis.conf; exec /usr/local/bin/docker-entrypoint.sh redis-server /tmp/gaoming-redis.conf"]);
        ("healthcheck", health ["CMD-SHELL"; "REDISCLI_AUTH=" +:+ String "034" ("$$(cat /run/secrets/redis_password)" +:+ String "034" " redis-cli ping")])]%string)]);
    ("volumes"%string, YMap [("postgres_data"%string, YMap [])]);
    ("secrets"%string, YMap [("postgres_password", secret_file root "postgres-password"); ("redis_password", secret_file root "redis-password");
                             ("redis_config", secret_file root "redis.conf")]%string)].

(** *** [strconv.Quote] *)

(** The sequences of two, three and four bytes that encode a rune. *)
Definition rune2 (a b : Z) : bool := (194 <=? a) && (a <=? 223) && utf8_cont b.
Definition rune3 (a b c : Z) : bool :=
  (224 <=? a) && (a <=? 239) && utf8_cont b && utf8_cont c && (if a =? 224 then 160 <=? b else true) && (if a =? 237 then b <=? 159 else true).
Definition rune4 (a b c d : Z) : bool :=
  (240 <=? a) && (a <=? 244) && utf8_cont b && utf8_cont c && utf8_cont d && (if a =? 240 then 144 <=? b else true) && (if a =? 244 then b <=? 143 else true).

(** The runes of a string with the bytes they come from. *)
Fixpoint runes (l : list Z) : list (Z * list Z) :=
  match l with
  | [] => []
  | a :: l1 =>
      if a <? 128 then (a, [a]) :: runes l1 else
      match l1 with
      | [] => (RuneError, [a]) :: runes l1
      | b :: l2 =>
          if rune2 a b then ((a - 192) * 64 + (b - 128), [a; b]) :: runes l2 else
          match l2 with
          | [] => (RuneError, [a]) :: runes l1
          | c :: l3 =>
              if rune3 a b c then ((a - 224) * 4096 + (b - 128) * 64 + (c - 128), [a; b; c]) :: runes l3 else
              match l3 with
              | [] => (RuneError, [a]) :: runes l1
              | d :: l4 =>
                  if rune4 a b c d then ((a - 240) * 262144 + (b - 128) * 4096 + (c - 128) * 64 + (d - 128), [a; b; c; d]) :: runes l4
                  else (RuneError, [a]) :: runes l1
              end
          end
      end
  end.

(** The [n] last hexadecimal digits of [r]. *)
Fixpoint hex_digits (n : nat) (r : Z) : list ascii := match n with O => [] | S n => hex_digits n (r / 16) ++ [hex_digit (r mod 16)] end.

Definition escape (r : Z) : list ascii :=
  if r =? 7 then bytes "\a" else if r =? 8 then bytes "\b" else if r =? 12 then bytes "\f" else if r =? 10 then bytes "\n" else
  if r =? 13 then bytes "\r" else if r =? 9 then bytes "\t" else if r =? 11 then bytes "\v" else
  if (r <? 32) || (r =? 127) then bytes "\x" ++ hex_digits 2 r else
  if r <? 65536 then bytes "\u" ++ hex_digits 4 r else bytes "\U" ++ hex_digits 8 r.

Definition quote_rune `{DepsLibs} (x : Z * list Z) : list ascii :=
  let '(r, bs) := x in
  if (r =? RuneError) && (llen bs =? 1) then bytes "\x" ++ hex_digits 2 (hd 0 bs) else
  if (r =? 34) || (r =? 92) then bytes "\" ++ [byte_of_Z r] else
  if IsPrint r then byte_of_Z <$> bs else escape r.

Definition quote_mark : string := String "034" EmptyString.
Definition Quote `{DepsLibs} (s : string) : string :=
  (quote_mark +:+ of_bytes (runes (byte_val <$> bytes s) ≫= quote_rune) +:+ quote_mark)%string.

(** *** The shared directory and the processes *)

Definition state_file : string := "docker-state.json".

(** The files of the directory, whether [operation.lock] exists, and the Compose
    commands that were run, those of [DockerUp] with the fingerprint of its
    configuration. *)
Record shared := mkShared { sh_files : gmap string string; sh_lock : bool; sh_commands : list (option string * list string) }.
Definition with_files (f : gmap string string) (s : shared) : shared := mkShared f (sh_lock s) (sh_commands s).
Definition with_lock (b : bool) (s : shared) : shared := mkShared (sh_files s) b (sh_commands s).
Definition ran (c : option string * list string) (s : shared) : shared := mkShared (sh_files s) (sh_lock s) (sh_commands s ++ [c]).

(** A write of [os.WriteFile]: complete, refused, or cut short. *)
Inductive writeOutcome := WriteOK | WriteRefused | WriteCut (n : nat).

(** The answers to one step. *)
Record answers := mkAnswers {
  an_MkdirAll : bool; an_private : bool; an_Mkdir : bool;   (** [lock] *)
  an_readable : bool;                      (** [ReadFile] fails only on a missing file *)
  an_writes : list writeOutcome;           (** the writes of [prepareDocker] *)
  an_saved : bool;                         (** temporary file and rename *)
  an_run : bool; an_connect : bool
}.

Inductive operation := OpUp (cfg : Config) | OpDown.
Inductive point := PStart | PRead | PHeld | PChecked | PPrepared | PSaved | PRan | PDone (e : option depsError).

Section docker.
Context `{DepsLibs} `{MapOrder} (render : yaml → option string) (root command : string).

(** [os.WriteFile] in the directory. *)
Definition write_file (o : writeOutcome) (name body : string) (f : gmap string string) : bool * gmap string string :=
  match o with
  | WriteOK => (true, <[name := body]> f)
  | WriteRefused => (false, f)
  | WriteCut n => (false, <[name := of_bytes (take n (bytes body))]> f)
  end.

(** The loop over the private files, with the answers left for later writes. *)
Fixpoint write_files (l : list (string * string)) (os : list writeOutcome) (f : gmap string string) : bool * gmap string string * list writeOutcome :=
  match l with
  | [] => (true, f, os)
  | (name, body) :: l =>
      match os with
      | [] => (false, f, [])
      | o :: os => let '(ok, f) := write_file o name body f in if ok then write_files l os f else (false, f, os)
      end
  end.

Definition redis_conf (cfg : Config) : string :=
  ("bind 0.0.0.0" +:+ newline +:+ "protected-mode yes" +:+ newline +:+ "port 6379" +:+ newline +:+ "requirepass " +:+ Quote (lc_RedisPassword cfg) +:+ newline
   +:+ "save " +:+ quote_mark +:+ quote_mark +:+ newline +:+ "appendonly no" +:+ newline)%string.

Definition private_files (cfg : Config) : gmap string string :=
  {["postgres-password"%string := pg_Password (lc_PG cfg); "redis-password"%string := lc_RedisPassword cfg; "redis.conf"%string := redis_conf cfg]}.

Definition prepareDocker (cfg : Config) (os : list writeOutcome) (f : gmap string string) : option depsError * gmap string string :=
  if str_eqb (pg_Host (lc_PG cfg)) "::1" || str_eqb (lc_RedisHost cfg) "::1" then (Some IPv6Host, f) else
  if pg_Port (lc_PG cfg) =? lc_RedisPort cfg then (Some SamePorts, f) else
  let '(ok, f, os) := write_files (map_order (private_files cfg)) os f in
  if negb ok then (Some WriteFailed, f) else
  match render (manifest root cfg), os with
  | None, _ => (Some MarshalFailed, f)
  | Some _, [] => (Some WriteFailed, f)
  | Some raw, o :: _ => let '(ok, f) := write_file o "compose.deps.yml" raw f in ((if ok then None else Some WriteFailed), f)
  end.

(** The rename replaces the record as a whole or leaves it. *)
Definition saveDockerState (state : DockerState) (saved : bool) (f : gmap string string) : option depsError * gmap string string :=
  match marshal_state state with
  | None => (Some SaveState, f)
  | Some raw => if saved then (None, <[state_file := raw]> f) else (Some SaveState, f)
  end.

Definition lock (i : answers) (s : shared) : option depsError * shared :=
  if negb (an_MkdirAll i) then (Some MakeRoot, s) else
  if negb (an_private i) then (Some NotPrivate, s) else
  if sh_lock s || negb (an_Mkdir i) then (Some OperationLocked, s) else (None, with_lock true s).

Definition own_state (cfg : Config) : DockerState := mkDockerState (dockerProject root) (lc_fingerprint cfg).

(** Under the lock: the end of the operation, with [unlock].  When the lock cannot
    be removed the directory is left as by a process that dies before. *)
Definition finish (e : option depsError) (s : shared) : shared * point := (with_lock false s, PDone e).

(** [DockerUp], from one look at the directory to the next. *)
Definition up_step (cfg : Config) (p : point) (i : answers) (s : shared) : shared * point :=
  match p with
  | PStart => match lock i s with (Some e, s) => (s, PDone (Some e)) | (None, s) => (s, PHeld) end
  | PHeld =>
      if negb (an_readable i) then finish (Some ReadState) s else
      match sh_files s !! state_file with
      | None => (s, PChecked)
      | Some raw =>
          match unmarshal_state raw with
          | None => finish (Some InvalidState) s
          | Some old =>
              if negb (str_eqb (ds_Project old) (dockerProject root)) || negb (str_eqb (ds_Fingerprint old) (lc_fingerprint cfg))
              then finish (Some OtherCredentials) s else (s, PChecked)
          end
      end
  | PChecked =>
      match prepareDocker cfg (an_writes i) (sh_files s) with
      | (Some e, f) => finish (Some e) (with_files f s)
      | (None, f) => (with_files f s, PPrepared)
      end
  | PPrepared =>
      match saveDockerState (own_state cfg) (an_saved i) (sh_files s) with
      | (Some e, f) => finish (Some e) (with_files f s)
      | (None, f) => (with_files f s, PSaved)
      end
  | PSaved =>
      let s := ran (Some (lc_fingerprint cfg), composeCommand command root (dockerProject root) up_args) s in
      if an_run i then (s, PRan) else finish (Some ComposeFailed) s
  | PRan => finish (if an_connect i then None else Some ConnectFailed) s
  | p => (s, p)
  end.

Definition down_step (p : point) (i : answers) (s : shared) : shared * point :=
  match p with
  | PStart =>
      match sh_files s !! state_file with
      | None => if an_readable i then (s, PDone None) else (s, PDone (Some ReadState))
      | Some raw =>
          if negb (an_readable i) then (s, PDone (Some ReadState)) else
          match unmarshal_state raw with
          | None => (s, PDone (Some InvalidState))
          | Some state => if negb (str_eqb (ds_Project state) (dockerProject root)) then (s, PDone (Some OtherProject)) else (s, PRead)
          end
      end
  | PRead => match lock i s with (Some e, s) => (s, PDone (Some e)) | (None, s) => (s, PHeld) end
  | PHeld =>
      let s := ran (None, composeCommand command root (dockerProject root) down_args) s in
      finish (if an_run i then None else Some ComposeFailed) s
  | p => (s, p)
  end.

Definition op_step (o : operation) : point → answers → shared → shared * point :=
  match o with OpUp cfg => up_step cfg | OpDown => down_step end.

(** The point of a process that holds the lock. *)
Definition holding (p : point) : bool := match p with PHeld | PChecked | PPrepared | PSaved | PRan => true | _ => false end.

Record system := mkSystem { sy_shared : shared; sy_procs : gmap nat (operation * point) }.

(** The argument of [execute]. *)
Inductive toolAction := ActInit | ActUp | ActClean | ActDown.
Definition execute_action (args : list string) : option toolAction :=
  match args with
  | [arg] =>
      if str_eqb arg "init" then Some ActInit else if str_eqb arg "up" then Some ActUp else
      if str_eqb arg "clean" then Some ActClean else if str_eqb arg "down" then Some ActDown else None
  | _ => None
  end.

(** The process of an action that manages the containers: [up] with the
    configuration it loaded, [down] without. *)
Definition execute (args : list string) (file : option string) : option (result depsError operation) :=
  match execute_action args with
  | Some ActUp => Some (match LoadConfig file with Ok cfg => Ok (OpUp cfg) | Err e => Err e end)
  | Some ActDown => Some (Ok OpDown)
  | _ => None
  end.

(** The operations that can be started. *)
Definition started (o : operation) : Prop := ∃ args file, execute args file = Some (Ok o).

(** A process starts, goes on, or dies where it is; the developer removes a
    left-over lock when no operation is running, as its message asks. *)
Inductive sys_step : system → system → Prop :=
| sys_start s ps n o : ps !! n = None → started o → sys_step (mkSystem s ps) (mkSystem s (<[n := (o, PStart)]> ps))
| sys_run s ps n o p i s' p' : ps !! n = Some (o, p) → op_step o p i s = (s', p') → sys_step (mkSystem s ps) (mkSystem s' (<[n := (o, p')]> ps))
| sys_crash s ps n : sys_step (mkSystem s ps) (mkSystem s (delete n ps))
| sys_unlock s ps : (∀ n o p, ps !! n = Some (o, p) → holding p = false) → sys_step (mkSystem s ps) (mkSystem (with_lock false s) ps).

(** A directory the tool has not used yet. *)
Definition fresh (f : gmap string string) : system := mkSystem (mkShared f false []) ∅.

(** *** Ownership *)

Lemma forallb_take {A} (f : A → bool) n l : forallb f l = true → forallb f (take n l) = true.
Proof.
  revert n. induction l as [|x l IH]; intros [|n] E; simpl in *; [done..|]. apply andb_true_iff in E as [-> E]. simpl. by apply IH.
Qed.

Lemma hex_digit_ascii n : 0 ≤ n < 16 → byte_val (hex_digit n) <? 128 = true.
Proof.
  intros Hn. assert (Forall (λ k, byte_val (hex_digit k) <? 128 = true) (seqZ 0 16)) as Hall by (repeat constructor; reflexivity).
  rewrite list.Forall_forall in Hall. apply Hall, elem_of_seqZ. lia.
Qed.

Lemma hex_encode_ascii l : ascii_text (hex_encode l) = true.
Proof.
  unfold ascii_text. induction l as [|b l IH]; [done|]. cbn [hex_encode]. pose proof (byte_val_range b).
  change (forallb (λ c, byte_val c <? 128) (hex_digit (byte_val b / 16) :: hex_digit (byte_val b mod 16) :: bytes (hex_encode l)) = true). cbn [forallb].
  rewrite !hex_digit_ascii by (split; [apply Z.mod_pos_bound || apply Z.div_pos|apply Z.mod_pos_bound || apply Z.div_lt_upper_bound]; lia). exact IH.
Qed.

Lemma dockerProject_ascii : ascii_text (dockerProject root) = true.
Proof.
  unfold ascii_text, dockerProject. rewrite bytes_of_bytes. apply forallb_take. rewrite bytes_app, forallb_app.
  apply andb_true_iff. split; [reflexivity|apply hex_encode_ascii].
Qed.

Lemma fingerprint_ascii cfg : started (OpUp cfg) → ascii_text (lc_fingerprint cfg) = true.
Proof.
  intros (args & raw & E). unfold execute in E. destruct (execute_action args) as [[]|]; try done.
  destruct (LoadConfig raw) as [c|] eqn:El; [|done]. injection E as ->. rename El into E. unfold LoadConfig in E. repeat (case_match; try discriminate E); injection E as <-; apply hex_encode_ascii.
Qed.

#[local] Opaque dockerProject composeCommand.

Lemma write_file_other o name body f ok f' k :
  write_file o name body f = (ok, f') → k ≠ name → f' !! k = f !! k.
Proof. destruct o; simpl; intros [= <- <-] Hk; [by rewrite lookup_insert_ne|done|by rewrite lookup_insert_ne]. Qed.

Lemma write_files_other l os f ok f' os' k :
  write_files l os f = (ok, f', os') → (∀ x, x ∈ l → x.1 ≠ k) → f' !! k = f !! k.
Proof.
  revert os f. induction l as [|[name body] l IH]; intros os f E Hk; simpl in E; [by injection E as <- <- <-|].
  destruct os as [|o os]; [by injection E as <- <- <-|]. destruct (write_file o name body f) as [ok1 f1] eqn:Ew.
  apply (write_file_other _ _ _ _ _ _ k) in Ew; [|intros ->; by destruct (Hk (name, body)); [left|]].
  destruct ok1; [|by injection E as <- <- <-]. rewrite <-Ew. eapply IH; [done|]. intros x Hx. apply Hk. by right.
Qed.

(** The preparation leaves the record alone. *)
Lemma prepare_record cfg os f e f' : prepareDocker cfg os f = (e, f') → f' !! state_file = f !! state_file.
Proof.
  unfold prepareDocker. destruct (_ || _); [by intros [= <- <-]|]. destruct (_ =? _); [by intros [= <- <-]|].
  destruct (write_files _ os f) as [[ok f1] os1] eqn:Ew. apply (write_files_other _ _ _ _ _ _ state_file) in Ew.
  2: { intros [k v]. rewrite map_order_Permutation, elem_of_map_to_list. simpl. intros Hk ->. unfold private_files in Hk.
       rewrite !lookup_insert_ne in Hk by done. by apply lookup_singleton_Some in Hk as [? _]. }
  destruct (negb ok); [by intros [= _ <-]|]. destruct (render _) as [raw|]; [|by intros [= _ <-]]. destruct os1 as [|o os1]; [by intros [= _ <-]|].
  destruct (write_file o _ raw f1) as [ok2 f2] eqn:E2. intros [= _ <-]. rewrite <-Ew. by eapply write_file_other in E2.
Qed.

Definition up_command : list string := composeCommand command root (dockerProject root) up_args.
Definition down_command : list string := composeCommand command root (dockerProject root) down_args.

(** The record is absent or the record of this directory with the fingerprint
    [rec], and Compose was run for this project alone, to start the services only
    with the configuration on record. *)
Record owned (rec : option string) (s : shared) : Prop := {
  ow_file : match rec with
            | None => sh_files s !! state_file = None
            | Some fp => ascii_text fp = true ∧ ∃ raw, marshal_state (mkDockerState (dockerProject root) fp) = Some raw ∧ sh_files s !! state_file = Some raw
            end;
  ow_commands : ∀ fp argv, (fp, argv) ∈ sh_commands s →
    (fp = None ∧ argv = down_command) ∨ (fp = rec ∧ is_Some rec ∧ argv = up_command)
}.

Definition proc_ok (rec : option string) (o : operation) (p : point) : Prop :=
  started o ∧
  match o, p with
  | OpUp cfg, (PChecked | PPrepared) => rec = None ∨ rec = Some (lc_fingerprint cfg)
  | OpUp cfg, (PSaved | PRan) => rec = Some (lc_fingerprint cfg)
  | OpDown, (PChecked | PPrepared | PSaved | PRan) => False
  | _, _ => True
  end.

Lemma owned_files rec s f : owned rec s → f !! state_file = sh_files s !! state_file → owned rec (with_files f s).
Proof. intros [Hf Hc] E. split; [|done]. simpl. by rewrite E. Qed.
Lemma owned_lock rec s b : owned rec s → owned rec (with_lock b s).
Proof. by intros [Hf Hc]. Qed.
Lemma owned_ran rec s c : owned rec s → (c = (None, down_command) ∨ (is_Some rec ∧ c = (rec, up_command))) → owned rec (ran c s).
Proof.
  intros [Hf Hc] Hx. split; [done|]. intros fp argv. simpl. rewrite elem_of_app, list_elem_of_singleton.
  intros [?|<-]; [by apply Hc|]. destruct Hx as [[= -> ->]|[? [= -> ->]]]; auto.
Qed.

(** How a step changes the lock. *)
Definition lock_step (p p' : point) (s s' : shared) : Prop :=
  if holding p then sh_lock s' = holding p'
  else if holding p' then sh_lock s = false ∧ sh_lock s' = true else sh_lock s' = sh_lock s.

Lemma lock_spec i s e s' : lock i s = (e, s') →
  sh_files s' = sh_files s ∧ sh_commands s' = sh_commands s ∧
  match e with None => sh_lock s = false ∧ sh_lock s' = true | Some _ => s' = s end.
Proof.
  unfold lock. destruct (negb (an_MkdirAll i)); [by intros [= <- <-]|]. destruct (negb (an_private i)); [by intros [= <- <-]|].
  destruct (sh_lock s); [by intros [= <- <-]|]. destruct (an_Mkdir i); by intros [= <- <-].
Qed.

(** The record reads back as it was written. *)
Lemma record_read fp raw :
  ascii_text fp = true → marshal_state (mkDockerState (dockerProject root) fp) = Some raw →
  unmarshal_state raw = Some (mkDockerState (dockerProject root) fp).
Proof. intros Hfp. apply (unmarshal_marshal_state (mkDockerState _ _)); [apply dockerProject_ascii|done]. Qed.

(** What a step does: the record is kept, or made by the process that holds the
    lock. *)
Definition step_ok (rec : option string) (o : operation) (p : point) (s : shared) (x : shared * point) : Prop :=
  ∃ rec', owned rec' x.1 ∧ proc_ok rec' o x.2 ∧ lock_step p x.2 s x.1 ∧ (rec' = rec ∨ (rec = None ∧ holding p = true)).

Lemma stay_ok rec o p p1 s :
  owned rec s → (holding p = true → sh_lock s = true) → holding p1 = holding p → proc_ok rec o p1 → step_ok rec o p s (s, p1).
Proof.
  intros Ho Hl Hh Hp. exists rec. split_and!; [done..| |by left]. unfold lock_step. simpl. rewrite Hh. by destruct (holding p); [apply Hl|].
Qed.

Lemma finish_ok rec o p e s s1 : owned rec s1 → started o → holding p = true → step_ok rec o p s (finish e s1).
Proof.
  intros Ho Hst Hh. exists rec. split_and!; [by apply owned_lock|by destruct o|unfold lock_step; by rewrite Hh|by left].
Qed.

Lemma locking_ok rec o p i s :
  owned rec s → started o → holding p = false →
  step_ok rec o p s (match lock i s with (Some e, s) => (s, PDone (Some e)) | (None, s) => (s, PHeld) end).
Proof.
  intros [Hof Hoc] Hst Hh. destruct (lock i s) as [e s1] eqn:El. apply lock_spec in El as (Hf & Hc & Hs). exists rec.
  destruct e as [e|]; (split_and!; [split; simpl; rewrite ?Hf, ?Hc; done|by destruct o| |by left]); unfold lock_step; rewrite Hh; simpl; [by rewrite Hs|done].
Qed.

Lemma up_step_ok rec cfg p i s :
  owned rec s → proc_ok rec (OpUp cfg) p → (holding p = true → sh_lock s = true) → step_ok rec (OpUp cfg) p s (up_step cfg p i s).
Proof.
  intros Ho [Hst Hp] Hl. destruct p; simpl; try (by apply stay_ok).
  - by apply locking_ok.
  - destruct (negb _); [by apply finish_ok|]. destruct (sh_files s !! state_file) as [raw|] eqn:Er.
    + pose proof (ow_file _ _ Ho) as Hof. destruct rec as [fp|]; [|congruence]. destruct Hof as (Hfp & raw' & Hm & Hr).
      assert (raw' = raw) as -> by congruence. rewrite (record_read _ _ Hfp Hm). simpl. rewrite str_eqb_refl. simpl.
      destruct (str_eqb fp (lc_fingerprint cfg)) eqn:Ef; [|by apply finish_ok]. apply str_eqb_true in Ef as ->.
      apply stay_ok; [done..|]. split; [done|by right].
    + pose proof (ow_file _ _ Ho) as Hof. destruct rec as [fp|]; [destruct Hof as (_ & ? & _ & ?); congruence|].
      apply stay_ok; [done..|]. split; [done|by left].
  - destruct (prepareDocker cfg _ _) as [e f] eqn:Ep. apply prepare_record in Ep. apply (owned_files _ _ f) in Ho; [|done].
    destruct e as [e|]; [by apply finish_ok|]. exists rec. split_and!; [done..| |by left]. unfold lock_step. simpl. by apply Hl.
  - unfold saveDockerState. destruct (marshal_state (own_state cfg)) as [raw|] eqn:Em; [|by apply finish_ok; [apply owned_files|..]].
    destruct (an_saved i); [|by apply finish_ok; [apply owned_files|..]]. exists (Some (lc_fingerprint cfg)). split_and!.
    + split; [split; [by apply fingerprint_ascii|]; exists raw; split; [done|]; simpl; by rewrite lookup_insert, decide_True|]. simpl. intros fp argv Hc.
      apply (ow_commands _ _ Ho) in Hc as [?|(-> & [x Hx] & ->)]; [by left|]. right. destruct Hp as [-> | ->]; [done|]. by split_and!.
    + done.
    + unfold lock_step. simpl. by apply Hl.
    + destruct Hp as [-> | ->]; [by right|by left].
  - subst rec. apply (owned_ran _ _ (Some (lc_fingerprint cfg), up_command)) in Ho; [|right; split; [by eexists|done]].
    destruct (an_run i); [|by apply finish_ok]. exists (Some (lc_fingerprint cfg)). split_and!; [done..| |by left].
    unfold lock_step. simpl. by apply Hl.
  - by apply finish_ok.
Qed.

Lemma down_step_ok rec p i s :
  owned rec s → proc_ok rec OpDown p → (holding p = true → sh_lock s = true) → step_ok rec OpDown p s (down_step p i s).
Proof.
  intros Ho [Hst Hp] Hl. destruct p; simpl; try (by apply stay_ok).
  - destruct (sh_files s !! state_file) as [raw|]; [|destruct (an_readable i); by apply stay_ok].
    destruct (negb _); [by apply stay_ok|]. destruct (unmarshal_state raw); [|by apply stay_ok]. destruct (negb _); by apply stay_ok.
  - by apply locking_ok.
  - apply finish_ok; [|done..]. apply owned_ran; [done|]. by left.
Qed.

Lemma op_step_ok rec o p i s :
  owned rec s → proc_ok rec o p → (holding p = true → sh_lock s = true) → step_ok rec o p s (op_step o p i s).
Proof. destruct o; [apply up_step_ok|apply down_step_ok]. Qed.

(** What holds of every reachable system. *)
Record sys_inv (y : system) : Prop := {
  si_owned : ∃ rec, owned rec (sy_shared y) ∧ ∀ n o p, sy_procs y !! n = Some (o, p) → proc_ok rec o p;
  si_lock : ∀ n o p, sy_procs y !! n = Some (o, p) → holding p = true → sh_lock (sy_shared y) = true;
  si_one : ∀ n n' o o' p p', sy_procs y !! n = Some (o, p) → sy_procs y !! n' = Some (o', p') → holding p = true → holding p' = true → n = n'
}.

Lemma proc_ok_free rec rec' o p : holding p = false → proc_ok rec o p → proc_ok rec' o p.
Proof. intros Hh [Hst Hp]. split; [done|]. by destruct o, p. Qed.

Lemma sys_step_inv y y' : sys_step y y' → sys_inv y → sys_inv y'.
Proof.
  intros Hs [(rec & Ho & Hp) Hl H1]. destruct Hs as [s ps n o Hn Hst|s ps n o p i s' p' Hn E|s ps n|s ps Hfree]; simpl in *.
  - assert (∀ m o' p', <[n := (o, PStart)]> ps !! m = Some (o', p') → holding p' = true → ps !! m = Some (o', p')) as Hold.
    { intros m o' p' Hm Hh. apply lookup_insert_Some in Hm as [[_ [= <- <-]]|[_ ?]]; [discriminate Hh|done]. }
    split; simpl; [|eauto..]. exists rec. split; [done|]. intros m o' p' Hm. apply lookup_insert_Some in Hm as [[_ [= <- <-]]|[_ Hm]]; [by destruct o|eauto].
  - destruct (op_step_ok rec o p i s) as (rec' & Ho' & Hp' & Hlk & Hrec); [done|by eapply Hp|by eapply Hl|]. rewrite E in Ho', Hp', Hlk. simpl in *.
    assert (∀ m o1 p1, m ≠ n → ps !! m = Some (o1, p1) → holding p1 = true → holding p = false ∧ holding p' = false) as Hother.
    { intros m o1 p1 Hne Hm Hh. unfold lock_step in Hlk. destruct (holding p) eqn:Ep; [by destruct Hne; eapply H1|]. split; [done|].
      destruct (holding p') eqn:Ep'; [|done]. destruct Hlk as [Hf _]. by rewrite (Hl _ _ _ Hm Hh) in Hf. }
    split; simpl.
    + exists rec'. split; [done|]. intros m o1 p1 Hm. apply lookup_insert_Some in Hm as [[_ [= <- <-]]|[Hne Hm]]; [done|].
      destruct Hrec as [-> | [-> Hh]]; [eauto|]. destruct (holding p1) eqn:E1; [|eapply proc_ok_free; eauto].
      destruct (Hother m o1 p1) as [? _]; [done..|congruence].
    + intros m o1 p1 Hm Hh. unfold lock_step in Hlk. apply lookup_insert_Some in Hm as [[_ [= <- <-]]|[Hne Hm]].
      * rewrite Hh in Hlk. destruct (holding p); [done|]. apply Hlk.
      * destruct (Hother m o1 p1) as [E1 E2]; [done..|]. rewrite E1, E2 in Hlk. rewrite Hlk. by eapply Hl.
    + intros m m' o1 o2 p1 p2 Hm Hm' Hh1 Hh2.
      apply lookup_insert_Some in Hm as [[<- [= <- <-]]|[Hne Hm]]; apply lookup_insert_Some in Hm' as [[<- [= <- <-]]|[Hne' Hm']]; try done.
      * destruct (Hother m' o2 p2) as [_ ?]; [done..|congruence].
      * destruct (Hother m o1 p1) as [_ ?]; [done..|congruence].
      * by eapply H1.
  - assert (∀ m o p, delete n ps !! m = Some (o, p) → ps !! m = Some (o, p)) as Hold by (intros m o p Hm; by apply lookup_delete_Some in Hm as [_ ?]).
    split; simpl; [|eauto..]. exists rec. split; [done|]. intros m o p Hm. eauto.
  - split; simpl; [|intros n o p Hn Hh; by rewrite (Hfree _ _ _ Hn) in Hh|eauto]. exists rec. split; [by apply owned_lock|done].
Qed.

(** C40: one owner, one at a time.  Starting from a directory without a record,
    whatever processes of the tool start, fail and crash, in any interleaving: at
    most one of them is between lock and unlock; Compose is only ever run for the
    project of the directory, and its services are only ever started with one set
    of credentials, the one on record; the record is never replaced by that of
    other credentials nor left half written. *)
Theorem deps_ownership f y y' :
  f !! state_file = None → rtc sys_step (fresh f) y → rtc sys_step y y' →
  (∀ n n' o o' p p', sy_procs y !! n = Some (o, p) → sy_procs y !! n' = Some (o', p') → holding p = true → holding p' = true → n = n') ∧
  (∃ rec, owned rec (sy_shared y)) ∧
  (∀ fp, owned (Some fp) (sy_shared y) → owned (Some fp) (sy_shared y')).
Proof.
  intros Hf Hr Hr'.
  assert (∀ a b, rtc sys_step a b → sys_inv a → sys_inv b) as Hinv by (induction 1; eauto using sys_step_inv).
  assert (sys_inv y) as HI.
  { apply (Hinv _ _ Hr). split; simpl; [|intros n o p Hn; by rewrite lookup_empty in Hn|intros n n' o o' p p' Hn; by rewrite lookup_empty in Hn].
    exists None. split; [split; [done|]; simpl; intros fp argv Hin; by apply elem_of_nil in Hin|]. intros n o p Hn. by rewrite lookup_empty in Hn. }
  split; [by apply si_one|]. split; [destruct (si_owned _ HI) as (rec & Ho & _); by exists rec|].
  clear Hr Hf f. induction Hr' as [y|y y1 y2 Hs _ IH]; [done|]. intros fp Ho. apply IH; [by eapply sys_step_inv|]. clear IH y2.
  destruct Hs as [s ps n o Hn Hst|s ps n o p i s' p' Hn E|s ps n|s ps Hfree]; simpl in *; [done| |done|by apply owned_lock].
  destruct (si_owned _ HI) as (rec & Ho1 & Hp). simpl in *.
  assert (rec = Some fp) as ->.
  { destruct Ho as [(Hfp & raw & Hm & Hfile) _], Ho1 as [Hfile1 _]. destruct rec as [fp1|]; [|congruence]. destruct Hfile1 as (Hfp1 & raw1 & Hm1 & Hfile1).
    assert (raw1 = raw) as -> by congruence. apply record_read in Hm, Hm1; [congruence|done..]. }
  destruct (op_step_ok (Some fp) o p i s) as (rec' & Ho' & _ & _ & [-> | [? _]]); [done|by eapply Hp|by eapply (si_lock _ HI)| |done]. by rewrite E in Ho'.
Qed.

(** A process that goes on alone, one step per answer. *)
Definition drive (o : operation) (x : shared * point) (ans : list answers) : shared * point := foldl (λ x i, op_step o x.2 i x.1) x ans.

Lemma drive_reached o ans s ps n p :
  ps !! n = Some (o, p) →
  rtc sys_step (mkSystem s ps) (mkSystem (drive o (s, p) ans).1 (<[n := (o, (drive o (s, p) ans).2)]> ps)).
Proof.
  revert s ps p. induction ans as [|i ans IH]; intros s ps p Hn; simpl; [by rewrite insert_id|].
  destruct (op_step o p i s) as [s1 p1] eqn:E. eapply rtc_l; [by eapply sys_run|].
  specialize (IH s1 (<[n := (o, p1)]> ps) p1 ltac:(by rewrite lookup_insert_eq)). by rewrite insert_insert_eq in IH.
Qed.

End docker.

(** ** Secrets *)

Section secrets.
Context `{DepsLibs}.

Definition plain_byte (c : ascii) : Prop := byte_val c ≠ 10.

Lemma hex_digit_plain n : 0 ≤ n < 16 → plain_byte (hex_digit n).
Proof.
  intros Hn. assert (Forall (λ k, byte_val (hex_digit k) ≠ 10) (seqZ 0 16)) as Hall by (repeat constructor; vm_compute; discriminate).
  rewrite list.Forall_forall in Hall. apply Hall, elem_of_seqZ. lia.
Qed.
Lemma hex_digits_plain n r : Forall plain_byte (hex_digits n r).
Proof.
  revert r. induction n as [|n IH]; intros r; simpl; [constructor|]. apply Forall_app. split; [apply IH|].
  constructor; [|constructor]. apply hex_digit_plain. pose proof (Z.mod_pos_bound r 16). lia.
Qed.

Lemma plain_bytes s : forallb (λ c, negb (byte_val c =? 10)) (bytes s) = true → Forall plain_byte (bytes s).
Proof.
  induction (bytes s) as [|c l IH]; simpl; [constructor|]. intros [Hc Hl]%andb_true_iff. constructor; [unfold plain_byte; lia|by apply IH].
Qed.

Lemma escape_plain r : Forall plain_byte (escape r).
Proof.
  unfold escape. repeat case_match; rewrite ?Forall_app; try (split; [|apply hex_digits_plain]); by apply plain_bytes.
Qed.

Lemma byte_of_Z_val z : 0 ≤ z < 256 → byte_val (byte_of_Z z) = z.
Proof. intros Hz. unfold byte_of_Z, byte_val. rewrite N_ascii_embedding by lia. lia. Qed.

Lemma runes_lead a b c d :
  128 ≤ a < 256 →
  (rune2 a b = true → Forall (λ b, 128 ≤ b < 256) [a; b]) ∧ (rune3 a b c = true → Forall (λ b, 128 ≤ b < 256) [a; b; c]) ∧
  (rune4 a b c d = true → Forall (λ b, 128 ≤ b < 256) [a; b; c; d]).
Proof.
  intros Ha. assert (∀ b, utf8_cont b = true → 128 ≤ b < 256) as Hcont by (unfold utf8_cont; intros x; lia).
  unfold rune2, rune3, rune4. split_and!; intros E; rewrite !andb_true_iff in E; destruct_and!; repeat constructor; try lia; apply Hcont; done.
Qed.

(** A rune below 128 is its own byte, the others have no byte below 128. *)
Definition rune_bytes (x : Z * list Z) : Prop := (x.1 < 128 ∧ x.2 = [x.1] ∧ 0 ≤ x.1) ∨ Forall (λ b, 128 ≤ b < 256) x.2.

Lemma runes_bytes l : Forall (λ b, 0 ≤ b < 256) l → Forall rune_bytes (runes l).
Proof.
  assert (∀ n l, (length l < n)%nat → Forall (λ b, 0 ≤ b < 256) l → Forall rune_bytes (runes l)) as Hgen;
    [|intros Hl; by apply (Hgen (S (length l))); [lia|]].
  clear l. induction n as [|n IH]; intros l Hn Hl; [lia|]. destruct Hl as [|a l1 Ha Hl1]; [constructor|]. simpl in Hn.
  assert (Forall rune_bytes (runes l1)) as IH1 by (apply IH; [lia|done]). cbn [runes].
  destruct (Z.ltb_spec a 128); [constructor; [left; simpl; split_and!; [lia|done|lia]|done]|].
  assert (Forall rune_bytes ((RuneError, [a]) :: runes l1)) as Hone by (constructor; [right; simpl; constructor; [lia|constructor]|done]).
  destruct Hl1 as [|b l2 Hb Hl2]; [done|]. simpl in Hn.
  destruct (rune2 a b) eqn:E2; [constructor; [right; apply (runes_lead a b 0 0); [lia|done]|apply IH; [lia|done]]|].
  destruct Hl2 as [|c l3 Hc Hl3]; [done|]. simpl in Hn.
  destruct (rune3 a b c) eqn:E3; [constructor; [right; apply (runes_lead a b c 0); [lia|done]|apply IH; [lia|done]]|].
  destruct Hl3 as [|d l4 Hd Hl4]; [done|]. simpl in Hn.
  destruct (rune4 a b c d) eqn:E4; [constructor; [right; apply (runes_lead a b c d); [lia|done]|apply IH; [lia|done]]|done].
Qed.

Lemma quote_rune_plain x : rune_bytes x → Forall plain_byte (quote_rune x).
Proof.
  destruct x as [r bs]. intros Hx. unfold rune_bytes in Hx. simpl in Hx. unfold quote_rune. destruct (_ && _); [apply Forall_app; split; [by apply plain_bytes|apply hex_digits_plain]|].
  destruct (_ || _) eqn:Eq.
  { apply Forall_app. split; [by apply plain_bytes|]. constructor; [|constructor]. unfold plain_byte. rewrite byte_of_Z_val by lia. lia. }
  destruct (IsPrint r) eqn:Ep; [|apply escape_plain]. apply Forall_fmap. destruct Hx as [(Hr & -> & Hr0)|Hx]; simpl in *.
  - constructor; [|constructor]. simpl. unfold plain_byte. rewrite byte_of_Z_val by lia. intros ->. by rewrite IsPrint_control in Ep by lia.
  - eapply Forall_impl; [done|]. intros b Hb. cbn beta in Hb. unfold compose, plain_byte. rewrite byte_of_Z_val by lia. intros ?. lia.
Qed.

Lemma quote_plain s : Forall plain_byte (bytes (Quote s)).
Proof.
  unfold Quote. rewrite !bytes_app, !Forall_app, bytes_of_bytes. split_and!; [by apply plain_bytes| |by apply plain_bytes].
  pose proof (byte_vals_range (bytes s)) as Hb. apply runes_bytes in Hb. induction Hb as [|x l Hx _ IH]; [constructor|].
  rewrite bind_cons. apply Forall_app. split; [by apply quote_rune_plain|done].
Qed.

Definition lines (s : string) : nat := length (filter (λ c, byte_val c = 10) (bytes s)).
Lemma lines_app s t : lines (s +:+ t) = (lines s + lines t)%nat.
Proof. unfold lines. by rewrite bytes_app, filter_app, length_app. Qed.
Lemma lines_plain s : Forall plain_byte (bytes s) → lines s = O.
Proof.
  unfold lines. induction 1 as [|c l Hc _ IH]; [done|]. rewrite filter_cons_False by done. done.
Qed.

Definition without_secrets (cfg : Config) : Config :=
  let pg := lc_PG cfg in
  mkDepsConfig (mkPGConfig (pg_Host pg) (pg_Port pg) (pg_User pg) (pg_Database pg) "" (pg_Fallbacks pg)) (lc_RedisPort cfg) (lc_RedisHost cfg) "" "".

(** The manifest knows no password, and whatever the password of Redis is, its
    configuration has the six lines it should have: no password adds a
    directive. *)
Theorem deps_secrets root cfg :
  manifest root cfg = manifest root (without_secrets cfg) ∧ lines (redis_conf cfg) = 6%nat.
Proof.
  split; [reflexivity|]. unfold redis_conf. rewrite !lines_app, (lines_plain (Quote _)) by apply quote_plain. reflexivity.
Qed.

End secrets.

(** ** Examples *)

Section examples.
#[local] Existing Instance ex_libs.
#[local] Existing Instance MapOrder_keys.

Definition ex_config (password : string) : Config :=
  match LoadConfig (Some password) with Ok cfg => cfg | Err _ => mkDepsConfig (mkPGConfig "" 0 "" "" "" []) 0 "" "" "" end.
Definition ex_render (_ : yaml) : option string := Some "services:"%string.
Definition ex_root : string := "/home/dev/gaoming/.local-data".
Definition ex_fine : answers := mkAnswers true true true true [WriteOK; WriteOK; WriteOK; WriteOK] true true true.
Definition ex_run (o : operation) (s : shared) : shared * point := drive ex_render ex_root "" o (s, PStart) (replicate 6 ex_fine).

(** One process starts the services, another has other credentials. *)
Definition ex_up : shared := (ex_run (OpUp (ex_config "redis-secret")) (mkShared ∅ false [])).1.
Definition ex_refused : shared * point := ex_run (OpUp (ex_config "changed")) ex_up.

Definition ex_first : system := mkSystem ex_up {[0%nat := (OpUp (ex_config "redis-secret"), PDone None)]}.
Definition ex_second : system := mkSystem ex_refused.1 (<[1%nat := (OpUp (ex_config "changed"), ex_refused.2)]> (sy_procs ex_first)).

Example ex_refused_outcome : ex_refused.2 = PDone (Some OtherCredentials) ∧ ex_refused.1 = ex_up.
Proof. split; vm_compute; reflexivity. Qed.

Lemma ex_started password : LoadConfig (Some password) = Ok (ex_config password) → started (OpUp (ex_config password)).
Proof. intros E. exists ["up"%string], (Some password). unfold execute. change (execute_action ["up"%string]) with (Some ActUp). cbv iota beta. by rewrite E. Qed.

Lemma ex_first_reached : rtc (sys_step ex_render ex_root "") (fresh ∅) ex_first.
Proof.
  apply (rtc_l _ _ (mkSystem (mkShared ∅ false []) (<[0%nat := (OpUp (ex_config "redis-secret"), PStart)]> ∅)));
    [apply sys_start; [done|apply ex_started; vm_compute; reflexivity]|].
  assert (ex_first = mkSystem (ex_run (OpUp (ex_config "redis-secret")) (mkShared ∅ false [])).1
    (<[0%nat := (OpUp (ex_config "redis-secret"), (ex_run (OpUp (ex_config "redis-secret")) (mkShared ∅ false [])).2)]> {[0%nat := (OpUp (ex_config "redis-secret"), PStart)]})) as ->
    by (vm_compute; reflexivity).
  apply drive_reached. reflexivity.
Qed.

Lemma ex_second_reached : rtc (sys_step ex_render ex_root "") ex_first ex_second.
Proof.
  apply (rtc_l _ _ (mkSystem ex_up (<[1%nat := (OpUp (ex_config "changed"), PStart)]> (sy_procs ex_first))));
    [apply sys_start; [done|apply ex_started; vm_compute; reflexivity]|].
  pose proof (drive_reached ex_render ex_root "" (OpUp (ex_config "changed")) (replicate 6 ex_fine) ex_up
    (<[1%nat := (OpUp (ex_config "changed"), PStart)]> (sy_procs ex_first)) 1%nat PStart (lookup_insert_eq _ _ _)) as Hd.
  rewrite insert_insert_eq in Hd. exact Hd.
Qed.

Lemma ex_first_owned : owned ex_root "" (Some (lc_fingerprint (ex_config "redis-secret"))) ex_up.
Proof.
  split; [split; [vm_compute; reflexivity|]; eexists; split; vm_compute; reflexivity|].
  assert (sh_commands ex_up = [(Some (lc_fingerprint (ex_config "redis-secret")), up_command ex_root "")]) as -> by (vm_compute; reflexivity).
  generalize (lc_fingerprint (ex_config "redis-secret")) (up_command ex_root ""). intros rec cmd fp argv [= -> ->]%list_elem_of_singleton.
  right. split; [reflexivity|]. split; [by eexists|reflexivity].
Qed.

Lemma deps_ownership_witness : owned ex_root "" (Some (lc_fingerprint (ex_config "redis-secret"))) (sy_shared ex_second).
Proof. apply (deps_ownership ex_render ex_root "" ∅ ex_first ex_second); [reflexivity|apply ex_first_reached|apply ex_second_reached|apply ex_first_owned]. Defined.

End examples.
