(* ===== verification/LocalClean.v ===== *)
(** * The local development tool: cleaning

    Models [internal/localdeps/clean.go]: the removal of build products, which
    keeps the directory of the dependencies wherever it lies. *)

From stdpp Require Import gmap strings list relations pretty.
From Stdlib Require Import Ascii.
From S2P Require Import Prelude GoRuntime GoStrings GoText NetText.
Local Open Scope Z_scope.

(** ** Cleaning *)

Definition rooted (path : string) : bool := match bytes path with c :: _ => slash c | [] => false end.

(** [filepath.Abs]; [None]: the working directory is unknown. *)
Definition Abs (cwd : option string) (path : string) : option string :=
  if rooted path then Some (Clean path) else
  match cwd with None => None | Some wd => Some (path_in wd path) end.

(** The elements of an absolute path. *)
Definition elements (path : string) : list (list ascii) := reverse (foldl (clean_step true) [] (split_slash [] (bytes path))).

(** What is left of two lists behind their common beginning. *)
Fixpoint apart (b t : list (list ascii)) : list (list ascii) * list (list ascii) :=
  match b, t with
  | x :: b', y :: t' => if bool_decide (x = y) then apart b' t' else (b, t)
  | _, _ => (b, t)
  end.

(** [filepath.Rel] of absolute paths: up from the base, then down to the target. *)
Definition Rel (base target : string) : option string :=
  if negb (rooted base) || negb (rooted target) then None else
  let '(b, t) := apart (elements base) (elements target) in
  let up := replicate (length b) dotdot in
  Some (if bool_decide (up ++ t = []) then "."%string else of_bytes (join_slash (up ++ t))).

(** [filepath.EvalSymlinks]. *)
Inductive evaluated := Resolved (path : string) | NotExist | EvalError.

Definition products : list string := ["bin"; "dist"; "tmp"; ".tmp"; "coverage"; "cover.out"; "web/dist"]%string.

Inductive cleanError := NoWorkingDir | EvalFailed | RelFailed | RemoveFailed.

Section clean.
(** The working directory as [os.Getwd] reports it, the links, and which removals
    succeed. *)
Context (cwd : option string) (eval : string → evaluated) (removable : string → bool).

Definition protected (dir : string) : result cleanError string :=
  match Abs cwd dir with
  | None => Err NoWorkingDir
  | Some absolute => match eval absolute with Resolved real => Ok real | NotExist => Ok absolute | EvalError => Err EvalFailed end
  end.

(** The test of the loop. *)
Definition encloses (relative : string) : bool :=
  str_eqb relative "." || (negb (str_eqb relative "..") && negb (HasPrefix relative "../")).

(** The loop over the products, with the paths it passes to [RemoveAll]. *)
Fixpoint clean_loop (data : string) (paths : list string) : result cleanError unit * list string :=
  match paths with
  | [] => (Ok (), [])
  | path :: paths =>
      match Abs cwd path with
      | None => (Err NoWorkingDir, [])
      | Some absolute =>
          match Rel absolute data with
          | None => (Err RelFailed, [])
          | Some relative =>
              if encloses relative then clean_loop data paths else
              if negb (removable path) then (Err RemoveFailed, [path]) else
              let '(r, l) := clean_loop data paths in (r, path :: l)
          end
      end
  end.

Definition Manager_Clean (dir : string) : result cleanError unit * list string :=
  match protected dir with Err e => (Err e, []) | Ok data => clean_loop data products end.

End clean.

(** *** The data directory stays *)

(** An element of a cleaned path. *)
Definition element (e : list ascii) : Prop := existsb slash e = false ∧ e ≠ dotdot.

Lemma clean_steps_ok l out : Forall (λ e, existsb slash e = false) l → Forall element out → Forall element (foldl (clean_step true) out l).
Proof.
  intros Hl. revert out. induction Hl as [|e l He _ IH]; intros out Hout; [done|]. cbn [foldl]. apply IH. unfold clean_step. destruct (_ || _); [done|].
  case_bool_decide; [|by constructor]. destruct Hout as [|x out [_ Hx] Hout]; [done|]. by rewrite bool_decide_false.
Qed.
Lemma elements_ok path : Forall element (elements path).
Proof. unfold elements. apply Forall_reverse, clean_steps_ok; [by apply split_slash_no_slash|constructor]. Qed.

Lemma apart_spec b t b' t' :
  apart b t = (b', t') → (∃ k, b = k ++ b' ∧ t = k ++ t') ∧ (b' = [] ↔ b `prefix_of` t).
Proof.
  revert t. induction b as [|x b IH]; intros t E; simpl in E.
  - injection E as <- <-. split; [by exists []|]. split; [intros _; apply prefix_nil|done].
  - destruct t as [|y t]; [injection E as <- <-; split; [by exists []|]; split; [done|intros Hp; by apply prefix_nil_not in Hp]|].
    case_bool_decide as Hxy; [subst y|injection E as <- <-; split; [by exists []|]; split; [done|by intros ?%prefix_cons_inv_1]].
    apply IH in E as [(k & -> & ->) Hi]. split; [by exists (x :: k)|]. rewrite Hi. split; [apply prefix_cons|apply prefix_cons_inv_2].
Qed.

Lemma HasPrefix_bytes s p : HasPrefix s p = true ↔ bytes p `prefix_of` bytes s.
Proof.
  unfold HasPrefix. revert s. induction p as [|a p IH]; intros s; [split; [intros _; apply prefix_nil|by destruct s]|].
  destruct s as [|b s]; [split; [done|intros Hp; by apply prefix_nil_not in Hp]|].
  change (bytes (String a p)) with (a :: bytes p). change (bytes (String b s)) with (b :: bytes s). simpl. destruct (ascii_dec a b) as [->|Hn].
  - rewrite IH. split; [apply prefix_cons|apply prefix_cons_inv_2].
  - split; [done|]. by intros ?%prefix_cons_inv_1.
Qed.

(** The test looks at the first element of the relative path. *)
Lemma encloses_spec r :
  r ≠ [] → Forall (λ e, existsb slash e = false) r →
  encloses (of_bytes (join_segs r)) = negb (bool_decide (head r = Some dotdot)).
Proof.
  intros Hn Hs. assert (∀ s, of_bytes (join_segs r) = s → split_slash [] (bytes s) = r) as Hinj.
  { intros s <-. rewrite bytes_of_bytes. by apply split_join. }
  unfold encloses. destruct (str_eqb _ ".") eqn:E1; [apply str_eqb_true, Hinj in E1 as <-; done|].
  destruct (str_eqb _ "..") eqn:E2; [apply str_eqb_true, Hinj in E2 as <-; done|]. simpl. f_equal.
  apply eq_true_iff_eq. rewrite HasPrefix_bytes, bool_decide_eq_true, bytes_of_bytes. split.
  - intros [k Hk]. rewrite <-(split_join r) by done. rewrite Hk. change (bytes "../" ++ k) with (dotdot ++ bytes "/" ++ k). by rewrite split_slash_app.
  - destruct r as [|x r]; [done|]. intros [= ->]. destruct r as [|y r].
    + exfalso. assert (str_eqb (of_bytes (join_segs [dotdot])) ".." = true) by reflexivity. congruence.
    + exists (join_segs (y :: r)). reflexivity.
Qed.

Lemma keeps_spec absolute data relative :
  Rel absolute data = Some relative → encloses relative = bool_decide (elements absolute `prefix_of` elements data).
Proof.
  unfold Rel. destruct (_ || _); [done|]. destruct (apart _ _) as [b t] eqn:Ea. apply apart_spec in Ea as [(k & Hb & Ht) Hp].
  assert (Forall element t) as Hel by (pose proof (elements_ok data) as Hd; rewrite Ht in Hd; by apply Forall_app in Hd as [_ ?]).
  rewrite (bool_decide_ext (elements absolute `prefix_of` _) (b = [])) by (symmetry; exact Hp). destruct (bool_decide_reflect (replicate (length b) dotdot ++ t = [])) as [He|He]; intros [= <-].
  { apply app_eq_nil in He as [He _]. destruct b; [|done]. by rewrite bool_decide_true. }
  rewrite join_slash_segs, encloses_spec; [|done|].
  - destruct b as [|x b]; [|done]. rewrite (bool_decide_true ([] = [])) by done. simpl in *. destruct Hel as [|y t [_ Hy] _]; [done|].
    simpl. rewrite bool_decide_false; [done|]. by intros [= ->].
  - apply Forall_app. split; [by apply Forall_replicate|]. eapply Forall_impl; [done|]. by intros e [? _].
Qed.

(** What is protected, and what is kept because of it: [at_path] is where a
    product lies when the working directory is not reached through a link. *)
Definition at_path (wd path : string) : list (list ascii) := elements (path_in wd path).

Lemma clean_loop_spec wd removable data paths r l :
  Forall (λ p, rooted p = false) paths → clean_loop (Some wd) removable data paths = (r, l) →
  (∀ p, p ∈ l → p ∈ paths ∧ ¬ at_path wd p `prefix_of` elements data) ∧
  (r = Ok () → ∀ p, p ∈ paths → p ∈ l ↔ ¬ at_path wd p `prefix_of` elements data).
Proof.
  intros Hp. revert r l. induction Hp as [|p paths Hr Hp IH]; intros r l E; simpl in E; [injection E as <- <-; split; intros; by set_solver|].
  unfold Abs in E. rewrite Hr in E. destruct (Rel _ data) as [relative|] eqn:Er; [|injection E as <- <-; split; [set_solver|done]].
  apply keeps_spec in Er. rewrite Er in E. fold (at_path wd p) in E. case_bool_decide as Hpre.
  - destruct (IH _ _ E) as [H1 H2]. split; [set_solver|]. intros Hok q [->|Hq]%elem_of_cons; [|by apply H2]. split; [by intros [_ ?]%H1|done].
  - destruct (removable p); simpl in E; [|injection E as <- <-; split; [set_solver|done]].
    destruct (clean_loop _ _ data paths) as [r' l'] eqn:El. injection E as <- <-. destruct (IH _ _ eq_refl) as [H1 H2].
    split; [set_solver|]. intros Hok q [->|Hq]%elem_of_cons; [split; [done|left]|]. rewrite elem_of_cons, H2 by done.
    split; [by intros [->|?]|by right].
Qed.

(** Cleaning never removes a product that holds the data directory, links to it
    resolved, and when it succeeds it has removed all others; it fails without
    removing anything when the directory cannot be determined.  This is where the
    products lie by the path of the working directory; see
    [clean_through_link]. *)
Theorem clean_keeps_data wd eval removable dir r l :
  Manager_Clean (Some wd) eval removable dir = (r, l) →
  (protected (Some wd) eval dir = Err EvalFailed ∧ r = Err EvalFailed ∧ l = []) ∨
  ∃ data, protected (Some wd) eval dir = Ok data ∧
    (∀ p, p ∈ l → p ∈ products ∧ ¬ at_path wd p `prefix_of` elements data) ∧
    (r = Ok () → ∀ p, p ∈ products → p ∈ l ↔ ¬ at_path wd p `prefix_of` elements data).
Proof.
  unfold Manager_Clean. destruct (protected _ eval dir) as [data|e] eqn:Ep.
  - intros E. right. exists data. split; [done|]. eapply clean_loop_spec, E. by repeat constructor.
  - intros [= <- <-]. left. unfold protected, Abs in Ep. destruct (rooted dir); destruct (eval _); by simplify_eq.
Qed.

(** The products are compared by the path of the working directory, the data
    directory by where it is: when the working directory is reached through a
    link, a data directory inside a product is removed with it. *)
Example clean_through_link :
  let wd := "/home/dev/gaoming"%string in
  let real := "/srv/checkout"%string in
  let eval p := if str_eqb p "/home/dev/gaoming/tmp/deps" then Resolved "/srv/checkout/tmp/deps" else NotExist in
  (Manager_Clean (Some wd) eval (λ _, true) "tmp/deps").2 = products ∧ at_path real "tmp" `prefix_of` elements "/srv/checkout/tmp/deps".
Proof. split; [reflexivity|]. exists [bytes "deps"]. reflexivity. Qed.

Example clean_nested :
  Manager_Clean (Some "/home/dev/gaoming"%string) (λ _, NotExist) (λ _, true) "web/dist/data" =
  (Ok (), ["bin"; "dist"; "tmp"; ".tmp"; "coverage"; "cover.out"]%string).
Proof. reflexivity. Qed.
