(* ===== verification/TestFixture.v ===== *)
(** * The PostgreSQL fixture of the integration tests

    Models [internal/testutil/postgres.go]: a schema of its own for each test,
    dropped when the test ends.  What the driver, the server and [net/url] answer is
    given; the effects on the server and the handles are listed in order. *)

From stdpp Require Import gmap strings list pretty.
From S2P Require Import Prelude GoRuntime GoStrings.
Local Open Scope Z_scope.

Inductive effect :=
| OpenAdmin | CreateSchema (schema : string) | OpenSchema (dsn : string) | InitSchema
| CloseSchema | DropSchema (schema : string) | CloseAdmin.

(** How [Postgres] ends: it skips the test, fails it, or returns a handle. *)
Inductive ending := Skipped | Failed | Returned.

(** What happens around one call: the clock, and which calls succeed. *)
Record surroundings := mkSurroundings {
  su_DSN : string; su_Required : string; su_UnixNano : Z;
  su_OpenAdmin : bool; su_CreateSchema : bool; su_OpenSchema : bool; su_InitSchema : bool
}.

Section fixture.
(** [strings.Contains(dsn, "://")] selects the form of the address; for a URL,
    [url.Parse], [Query.Set] and [String] make the new one, or fail. *)
Context (contains_scheme : string → bool) (url_with_search_path : string → string → option string).

Definition schema_name (nano : Z) : string := "gaoming_test_" +:+ pretty nano.

Definition schema_dsn (dsn schema : string) : option string :=
  if contains_scheme dsn then url_with_search_path dsn schema else Some (dsn +:+ " search_path=" +:+ schema).

(** The function registered with [t.Cleanup]; its errors are dropped. *)
Definition cleanup (schema : string) : list effect := [CloseSchema; DropSchema schema; CloseAdmin].

(** The effects of the call, how it ends, and the effects of the cleanup that runs
    when the test does, also a failed one. *)
Definition Postgres (x : surroundings) : list effect * ending * list effect :=
  let dsn := su_DSN x in
  if str_empty dsn then ([], if str_eqb (su_Required x) "1" then Failed else Skipped, []) else
  if negb (su_OpenAdmin x) then ([OpenAdmin], Failed, []) else
  let schema := schema_name (su_UnixNano x) in
  if negb (su_CreateSchema x) then ([OpenAdmin], Failed, []) else
  let created := [OpenAdmin; CreateSchema schema] in
  match schema_dsn dsn schema with
  | None => (created, Failed, [])
  | Some dsn =>
      if negb (su_OpenSchema x) then (created, Failed, []) else
      let opened := created ++ [OpenSchema dsn] in
      if negb (su_InitSchema x) then (opened, Failed, cleanup schema) else (opened ++ [InitSchema], Returned, cleanup schema)
  end.

(** The schemas that a list of effects leaves on the server. *)
Fixpoint left_behind (l : list effect) (schemas : gset string) : gset string :=
  match l with
  | [] => schemas
  | CreateSchema s :: l => left_behind l ({[s]} ∪ schemas)
  | DropSchema s :: l => left_behind l (schemas ∖ {[s]})
  | _ :: l => left_behind l schemas
  end.

Definition after_test (x : surroundings) (schemas : gset string) : gset string :=
  let '(done, _, cleaned) := Postgres x in left_behind (done ++ cleaned) schemas.

(** A test leaves the server as it found it when it got its handle, was skipped, or
    failed before the schema or at its initialisation; a test whose new address is
    not understood, or not opened, leaves an empty schema behind. *)
Theorem fixture_leaves x schemas :
  schema_name (su_UnixNano x) ∉ schemas →
  let stuck := bool_decide (su_DSN x ≠ ""%string ∧ su_OpenAdmin x = true ∧ su_CreateSchema x = true ∧
    (schema_dsn (su_DSN x) (schema_name (su_UnixNano x)) = None ∨ su_OpenSchema x = false)) in
  after_test x schemas = if stuck then {[schema_name (su_UnixNano x)]} ∪ schemas else schemas.
Proof.
  intros Hn stuck. unfold stuck, after_test, Postgres. destruct (str_empty (su_DSN x)) eqn:Ee.
  { apply str_empty_true in Ee. rewrite bool_decide_false by naive_solver. done. }
  apply str_empty_false in Ee. destruct (su_OpenAdmin x); simpl; [|by rewrite bool_decide_false by naive_solver].
  destruct (su_CreateSchema x); simpl; [|by rewrite bool_decide_false by naive_solver].
  destruct (schema_dsn _ _) as [dsn|]; [|by rewrite bool_decide_true by naive_solver].
  destruct (su_OpenSchema x); simpl; [|by rewrite bool_decide_true by naive_solver].
  rewrite bool_decide_false by naive_solver. destruct (su_InitSchema x); simpl; set_solver.
Qed.

(** Tests that start at different nanoseconds never touch each other's schemas. *)
Theorem fixture_isolated x y :
  su_UnixNano x ≠ su_UnixNano y → ∀ s, s = schema_name (su_UnixNano y) →
  let '(done, _, cleaned) := Postgres x in (CreateSchema s ∉ done ++ cleaned) ∧ (DropSchema s ∉ done ++ cleaned).
Proof.
  intros Hne s ->. assert (schema_name (su_UnixNano y) ≠ schema_name (su_UnixNano x)) as Hs.
  { unfold schema_name. intros E. apply Hne. apply (inj (String.append "gaoming_test_")) in E. by apply (inj pretty) in E. }
  unfold Postgres. repeat case_match; simplify_eq/=; set_solver.
Qed.

End fixture.

(** A handle that was returned, and an address that is not understood. *)
Lemma fixture_leaves_witness :
  after_test (λ _, false) (λ _ _, None) (mkSurroundings "host=db" "" 7 true true true true) ∅ = ∅ ∧
  after_test (λ _, true) (λ _ _, None) (mkSurroundings "postgres://db" "" 7 true true true true) ∅ = {[schema_name 7]}.
Proof.
  split.
  - rewrite (fixture_leaves (λ _, false) (λ _ _, None) (mkSurroundings "host=db" "" 7 true true true true) ∅); [|set_solver]. reflexivity.
  - rewrite (fixture_leaves (λ _, true) (λ _ _, None) (mkSurroundings "postgres://db" "" 7 true true true true) ∅); [|set_solver]. reflexivity.
Defined.
